(** * PitWall-Live: feature engineering and data processing

    A shallow embedding of [models/src/features/engineer.py] and
    [models/src/data/processor.py], followed by the properties of the
    feature builder, the stint segmenter and the scaler registry.

    Numbers.  A Python [float] is an exact rational ([Q], kept in lowest
    terms), so every arithmetic identity below is an identity of exact
    arithmetic; rounding is not modelled, and a mean is the exact quotient,
    which the rounded one may miss by an ulp in either direction.  A Python
    or numpy integer is a [Z]: the wrap-around of a 64-bit sum is not
    modelled.

    Tables.  A pandas [DataFrame] is a list of column names and a list of
    rows; a row carries its index label and one cell per column.  Cells are
    dynamically typed, with [NaN] standing for every missing marker
    ([NaN], [NaT], [None] inside a column).  Exceptions are values of [exn]
    threaded through the [result] monad. *)

From Stdlib Require Import ZArith QArith Qreduction Qabs Qfield List String Bool Lia.
From Stdlib Require Import Sorted Permutation.
From stdpp Require Import gmap strings.
Import ListNotations.

Local Open Scope string_scope.
Local Open Scope list_scope.
Local Open Scope Z_scope.

(* ===================================================================== *)
(** * Exceptions                                                           *)
(* ===================================================================== *)

Module Py.

Inductive exn :=
| KeyError (key : string)
| IndexError
| TypeError
| ValueError (msg : string)
| AttributeError (name : string).

Inductive result (A : Type) :=
| Ok (a : A)
| Raise (e : exn).

Arguments Ok {A} a.
Arguments Raise {A} e.

Definition bind {A B} (m : result A) (k : A -> result B) : result B :=
  match m with
  | Ok a => k a
  | Raise e => Raise e
  end.

Fixpoint mapM {A B} (f : A -> result B) (l : list A) : result (list B) :=
  match l with
  | [] => Ok []
  | x :: l' =>
      bind (f x) (fun y => bind (mapM f l') (fun ys => Ok (y :: ys)))
  end.

Definition raises {A} (m : result A) : Prop :=
  match m with Ok _ => False | Raise _ => True end.

End Py.

Export Py.

Declare Scope py_scope.
Delimit Scope py_scope with py.
Notation "x ← y ; z" := (bind y (fun x => z))
  (at level 20, y at level 100, z at level 200, only parsing) : py_scope.
Notation "' x ← y ; z" := (bind y (fun x => z))
  (at level 20, x pattern, y at level 100, z at level 200, only parsing) : py_scope.
Local Open Scope py_scope.

(* ===================================================================== *)
(** * A model of the pandas operations the program uses                    *)
(* ===================================================================== *)

Module Pd.

(** ** Cells *)

Inductive cell :=
| NaN
| Int (z : Z)
| Num (q : Q)
| Str (s : string)
| Bool (b : bool)
| Timedelta (seconds : Q).

(** A float is stored in lowest terms. *)
Definition float (q : Q) : cell := Num (Qred q).

(** The numeric reading of a cell: [None] for a missing value, an error
    for a cell that numpy cannot turn into a float. *)
Definition as_float (c : cell) : result (option Q) :=
  match c with
  | NaN => Ok None
  | Int z => Ok (Some (inject_Z z))
  | Num q => Ok (Some q)
  | Bool b => Ok (Some (if b then 1%Q else 0%Q))
  | Str _ => Raise TypeError
  | Timedelta _ => Raise TypeError
  end.

Definition Qeqb (p q : Q) : bool := Qeq_bool p q.
Definition Qltb (p q : Q) : bool := negb (Qle_bool q p).
Definition Qleb (p q : Q) : bool := Qle_bool p q.

Definition num_of (c : cell) : option Q :=
  match c with
  | Int z => Some (inject_Z z)
  | Num q => Some q
  | Bool b => Some (if b then 1%Q else 0%Q)
  | _ => None
  end.

(** [a == b], element-wise: a missing value equals nothing, numbers compare
    by value, values of different kinds are unequal. *)
Definition cell_eqb (a b : cell) : bool :=
  match a, b with
  | NaN, _ | _, NaN => false
  | Str s, Str t => String.eqb s t
  | Timedelta p, Timedelta q => Qeqb p q
  | _, _ =>
      match num_of a, num_of b with
      | Some p, Some q => Qeqb p q
      | _, _ => false
      end
  end.

(** [a != b], element-wise (true as soon as one side is missing). *)
Definition cell_neb (a b : cell) : bool := negb (cell_eqb a b).

(** An ordering comparison [a < b] or [a <= b]: false when a side is
    missing, a [TypeError] between a string (or duration) and a number. *)
Definition cell_cmp (qop : Q -> Q -> bool) (sop : string -> string -> bool)
    (a b : cell) : result bool :=
  match a, b with
  | NaN, _ | _, NaN => Ok false
  | Str s, Str t => Ok (sop s t)
  | Timedelta p, Timedelta q => Ok (qop p q)
  | _, _ =>
      match num_of a, num_of b with
      | Some p, Some q => Ok (qop p q)
      | _, _ => Raise TypeError
      end
  end.

Definition cell_ltb : cell -> cell -> result bool := cell_cmp Qltb String.ltb.
Definition cell_leb : cell -> cell -> result bool := cell_cmp Qleb String.leb.

(** [pd.notna]. *)
Definition notna (c : cell) : bool :=
  match c with NaN => false | _ => true end.

(** Python truthiness of a scalar read out of a table: [nan] is a non-zero
    float and [NaT] is an object without [__bool__], so a missing value is
    true; zero, the empty string and a zero duration are false. *)
Definition truthy (c : cell) : bool :=
  match c with
  | NaN => true
  | Int z => negb (z =? 0)
  | Num q => negb (Qeqb q 0)
  | Str s => negb (String.eqb s "")
  | Bool b => b
  | Timedelta q => negb (Qeqb q 0)
  end.

(** ** Rows and tables *)

Record Row := mkRow { label : Z; cells : list (string * cell) }.

Record DataFrame := mkDF { columns : list string; rows : list Row }.

Fixpoint assoc {V} (k : string) (l : list (string * V)) : option V :=
  match l with
  | [] => None
  | (k', v) :: l' => if String.eqb k k' then Some v else assoc k l'
  end.

(** The cell of row [r] under column [c]. *)
Definition at_ (r : Row) (c : string) : cell :=
  match assoc c (cells r) with Some v => v | None => NaN end.

(** [c in df] and [c in df.columns]. *)
Definition has_col (df : DataFrame) (c : string) : bool :=
  existsb (String.eqb c) (columns df).

(** [c in row] for a row taken out of [df] with [iloc]. *)
Definition in_row (r : Row) (c : string) : bool :=
  match assoc c (cells r) with Some _ => true | None => false end.

(** [pd.DataFrame()] *)
Definition empty_frame : DataFrame := mkDF [] [].

Definition len (df : DataFrame) : Z := Z.of_nat (length (rows df)).

(** [df[c]]: the column as a list of cells, [KeyError] when absent. *)
Definition col (df : DataFrame) (c : string) : result (list cell) :=
  if has_col df c then Ok (map (fun r => at_ r c) (rows df))
  else Raise (KeyError c).

(** [df[mask]] for a boolean mask computed row by row. *)
Fixpoint select (p : Row -> result bool) (l : list Row) : result (list Row) :=
  match l with
  | [] => Ok []
  | r :: l' =>
      b ← p r;
      rest ← select p l';
      Ok (if b then r :: rest else rest)
  end.

(** [df[df[c] == v]] *)
Definition where_eq (df : DataFrame) (c : string) (v : cell) : result DataFrame :=
  if has_col df c
  then Ok (mkDF (columns df) (List.filter (fun r => cell_eqb (at_ r c) v) (rows df)))
  else Raise (KeyError c).

(** [df[df[c] < v]] *)
Definition where_lt (df : DataFrame) (c : string) (v : cell) : result DataFrame :=
  if has_col df c
  then rs ← select (fun r => cell_ltb (at_ r c) v) (rows df);
       Ok (mkDF (columns df) rs)
  else Raise (KeyError c).

(** [s.iloc[0]] on a list of values. *)
Definition iloc0 {A} (l : list A) : result A :=
  match l with
  | [] => Raise IndexError
  | x :: _ => Ok x
  end.

(** [df.tail(n)]: the last [n] rows; all but the first [-n] when [n < 0]. *)
Definition tail_list {A} (n : Z) (l : list A) : list A :=
  if 0 <=? n then skipn (length l - Z.to_nat n) l
  else skipn (Z.to_nat (- n)) l.

Definition tail (df : DataFrame) (n : Z) : DataFrame :=
  mkDF (columns df) (tail_list n (rows df)).

(** [s.unique()]: distinct values in order of first appearance; the missing
    value is kept once. *)
Definition same_value (a b : cell) : bool :=
  match a, b with
  | NaN, NaN => true
  | _, _ => cell_eqb a b
  end.

Fixpoint unique (l : list cell) : list cell :=
  match l with
  | [] => []
  | x :: l' => x :: List.filter (fun y => negb (same_value x y)) (unique l')
  end.

(** ** Sorting *)

(** The order of [sort_values]: ascending, missing values last.  The key
    column must be homogeneous (numbers, or strings, or durations). *)
Definition key_leb (a b : cell) : bool :=
  match a, b with
  | _, NaN => true
  | NaN, _ => false
  | Str s, Str t => String.leb s t
  | Timedelta p, Timedelta q => Qleb p q
  | _, _ =>
      match num_of a, num_of b with
      | Some p, Some q => Qleb p q
      | _, _ => true
      end
  end.

Definition kind_of (c : cell) : option nat :=
  match c with
  | NaN => None
  | Str _ => Some 1%nat
  | Timedelta _ => Some 2%nat
  | _ => Some 0%nat
  end.

Fixpoint homogeneous_from (k : option nat) (l : list cell) : bool :=
  match l with
  | [] => true
  | c :: l' =>
      match kind_of c, k with
      | None, _ => homogeneous_from k l'
      | Some n, None => homogeneous_from (Some n) l'
      | Some n, Some m => Nat.eqb n m && homogeneous_from k l'
      end
  end.

Definition sortable (l : list cell) : bool := homogeneous_from None l.

(** A stable insertion sort: equal keys keep their order. *)
Fixpoint insert_by {A} (le : A -> A -> bool) (x : A) (l : list A) : list A :=
  match l with
  | [] => [x]
  | y :: l' => if le x y then x :: y :: l' else y :: insert_by le x l'
  end.

Fixpoint sort_by {A} (le : A -> A -> bool) (l : list A) : list A :=
  match l with
  | [] => []
  | x :: l' => insert_by le x (sort_by le l')
  end.

(** [df.sort_values(c)].  The order of rows with equal keys is that of the
    table, as a stable sort leaves it; the quicksort pandas uses for one key
    may order them otherwise. *)
Definition sort_values (df : DataFrame) (c : string) : result DataFrame :=
  keys ← col df c;
  if sortable keys
  then Ok (mkDF (columns df)
             (sort_by (fun a b => key_leb (at_ a c) (at_ b c)) (rows df)))
  else Raise TypeError.

(** ** Reductions over a column *)

Definition Qsum (l : list Q) : Q := fold_right Qplus 0%Q l.

(** The values present in a column of floats. *)
Fixpoint valid {A} (l : list (option A)) : list A :=
  match l with
  | [] => []
  | Some q :: l' => q :: valid l'
  | None :: l' => valid l'
  end.

Definition floats (l : list cell) : result (list (option Q)) := mapM as_float l.

Definition Qlen {A} (l : list A) : Q := inject_Z (Z.of_nat (length l)).

(** The mean of the values present; [NaN] when there is none. *)
Definition mean_of (l : list Q) : cell :=
  match l with
  | [] => NaN
  | _ => float (Qsum l / Qlen l)
  end.

Definition Qmin (p q : Q) : Q := if Qleb p q then p else q.

Definition min_of (l : list Q) : cell :=
  match l with
  | [] => NaN
  | x :: l' => float (fold_left Qmin l' x)
  end.

(** [s.mean()], skipping missing values. *)
Definition mean (l : list cell) : result cell :=
  xs ← floats l; Ok (mean_of (valid xs)).

(** [s.min()], skipping missing values. *)
Definition min (l : list cell) : result cell :=
  xs ← floats l; Ok (min_of (valid xs)).

Definition is_integral (c : cell) : bool :=
  match c with Int _ | Bool _ => true | _ => false end.

Definition int_of (c : cell) : Z :=
  match c with Int z => z | Bool true => 1 | _ => 0 end.

(** [s.sum()], skipping missing values: an integer for an integer or
    boolean column, a float otherwise; zero when nothing is present. *)
Definition sum (l : list cell) : result cell :=
  if forallb is_integral l
  then Ok (Int (fold_right Z.add 0 (map int_of l)))
  else xs ← floats l; Ok (float (Qsum (valid xs))).

(** [mask.sum()]: how many rows satisfy the mask. *)
Definition count_true (l : list bool) : cell :=
  Int (Z.of_nat (length (List.filter (fun b => b) l))).

(** [s.abs()] *)
Definition abs (c : cell) : result cell :=
  match c with
  | NaN => Ok NaN
  | Int z => Ok (Int (Z.abs z))
  | Num q => Ok (Num (Qabs q))
  | Bool b => Ok (Bool b)
  | Timedelta q => Ok (Timedelta (Qabs q))
  | Str _ => Raise TypeError
  end.

(** ** Dictionaries of feature values

    A Python [dict] keeps its keys in insertion order; assigning to a key
    that is present replaces the value in place. *)

Definition dict := list (string * cell).

Fixpoint dict_set (k : string) (v : cell) (d : dict) : dict :=
  match d with
  | [] => [(k, v)]
  | (k', v') :: d' =>
      if String.eqb k k' then (k, v) :: d' else (k', v') :: dict_set k v d'
  end.

(** [d.update(e)] and the [**e] of a dict display. *)
Definition dict_update (d e : dict) : dict :=
  fold_left (fun acc kv => dict_set (fst kv) (snd kv) acc) e d.

Definition keys (d : dict) : list string := map fst d.

(** [k in d] on the list of keys. *)
Definition has_key (k : string) (ks : list string) : bool :=
  existsb (String.eqb k) ks.

Definition dict_get (d : dict) (k : string) : option cell := assoc k d.

(** [pd.DataFrame(records)]: the columns are the keys in order of first
    appearance; a key that a record lacks becomes a missing value. *)
Fixpoint union_keys (seen : list string) (ks : list string) : list string :=
  match ks with
  | [] => seen
  | k :: ks' =>
      if existsb (String.eqb k) seen then union_keys seen ks'
      else union_keys (seen ++ [k]) ks'
  end.

Definition record_columns (records : list dict) : list string :=
  fold_left (fun seen d => union_keys seen (keys d)) records [].

Fixpoint enumerate {A} (i : Z) (l : list A) : list (Z * A) :=
  match l with
  | [] => []
  | x :: l' => (i, x) :: enumerate (i + 1) l'
  end.

Definition from_records (records : list dict) : DataFrame :=
  let cols := record_columns records in
  mkDF cols
    (map (fun '(i, d) =>
            mkRow i (map (fun c => (c, match assoc c d with
                                       | Some v => v
                                       | None => NaN
                                       end)) cols))
         (enumerate 0 records)).

(** ** Series helpers used by the feature functions *)

(** [df[c].mean()] *)
Definition col_mean (df : DataFrame) (c : string) : result cell :=
  xs ← col df c; mean xs.

(** [df[c].min()] *)
Definition col_min (df : DataFrame) (c : string) : result cell :=
  xs ← col df c; min xs.

(** [df[c].sum()] *)
Definition col_sum (df : DataFrame) (c : string) : result cell :=
  xs ← col df c; sum xs.

(** [(df[c] == v).sum()] *)
Definition count_eq (df : DataFrame) (c : string) (v : cell) : result cell :=
  xs ← col df c; Ok (count_true (map (fun x => cell_eqb x v) xs)).

(** [(df[c] <= v).sum()] *)
Definition count_le (df : DataFrame) (c : string) (v : cell) : result cell :=
  xs ← col df c;
  bs ← mapM (fun x => cell_leb x v) xs;
  Ok (count_true bs).

(** [row[c]] for a row taken out of a table. *)
Definition series_get (r : Row) (c : string) : result cell :=
  if in_row r c then Ok (at_ r c) else Raise (KeyError c).

(** [row.get(c, default)] *)
Definition series_get_default (r : Row) (c : string) (default : cell) : cell :=
  if in_row r c then at_ r c else default.

(** [a - b] on scalars. *)
Definition cell_sub (a b : cell) : result cell :=
  match a, b with
  | Str _, _ | _, Str _ => Raise TypeError
  | Timedelta p, Timedelta q => Ok (Timedelta (Qred (p - q)))
  | Timedelta _, NaN | NaN, Timedelta _ => Ok NaN
  | Timedelta _, _ | _, Timedelta _ => Raise TypeError
  | NaN, _ | _, NaN => Ok NaN
  | Int x, Int y => Ok (Int (x - y))
  | _, _ =>
      match num_of a, num_of b with
      | Some p, Some q => Ok (float (p - q))
      | _, _ => Raise TypeError
      end
  end.

(** ** Grouping by a pair of key columns

    [df.groupby([k1, k2])]: one group per distinct key pair, groups in
    ascending key order, rows with a missing key dropped, rows of a group in
    table order. *)

Definition pair_eqb (a b : cell * cell) : bool :=
  cell_eqb (fst a) (fst b) && cell_eqb (snd a) (snd b).

Definition pair_leb (a b : cell * cell) : bool :=
  if cell_eqb (fst a) (fst b) then key_leb (snd a) (snd b)
  else key_leb (fst a) (fst b).

Fixpoint dedup {A} (eqb : A -> A -> bool) (l : list A) : list A :=
  match l with
  | [] => []
  | x :: l' => x :: List.filter (fun y => negb (eqb x y)) (dedup eqb l')
  end.

Definition key2 (k1 k2 : string) (r : Row) : cell * cell := (at_ r k1, at_ r k2).

Definition group_keys2 (k1 k2 : string) (l : list Row) : list (cell * cell) :=
  sort_by pair_leb
    (dedup pair_eqb
       (List.filter (fun k => notna (fst k) && notna (snd k)) (map (key2 k1 k2) l))).

Definition groupby2 (df : DataFrame) (k1 k2 : string)
  : result (list ((cell * cell) * list Row)) :=
  if negb (has_col df k1) then Raise (KeyError k1)
  else if negb (has_col df k2) then Raise (KeyError k2)
  else if negb (sortable (map (fun r => at_ r k1) (rows df))
                && sortable (map (fun r => at_ r k2) (rows df)))
  then Raise TypeError
  else Ok (map (fun k => (k, List.filter (fun r => pair_eqb (key2 k1 k2 r) k) (rows df)))
             (group_keys2 k1 k2 (rows df))).

(** ** Grouping by one key column

    [df.groupby(k)]: groups in ascending key order, rows with a missing key
    dropped, rows of a group in table order. *)

Definition group_keys (ks : list cell) : list cell :=
  sort_by key_leb (dedup cell_eqb (List.filter notna ks)).

Definition groupby (df : DataFrame) (k : string) : result (list (cell * list Row)) :=
  ks ← col df k;
  if sortable ks
  then Ok (map (fun key => (key, List.filter (fun r => cell_eqb (at_ r k) key) (rows df)))
             (group_keys ks))
  else Raise TypeError.

(** ** Column assignment, shift, cumulative sum and count *)

(** [df[c] = values]: replaces the column in place, or adds it last. *)
Definition set_col (df : DataFrame) (c : string) (values : list cell) : DataFrame :=
  mkDF (if has_col df c then columns df else columns df ++ [c])
       (map (fun '(r, v) => mkRow (label r) (dict_set c v (cells r)))
            (combine (rows df) values)).

(** [s.shift()]: every value moves one row down, the first row is missing. *)
Definition shift (l : list cell) : list cell := firstn (length l) (NaN :: l).

(** [mask.cumsum()] *)
Fixpoint cumsum_from (acc : Z) (l : list bool) : list Z :=
  match l with
  | [] => []
  | b :: l' =>
      let acc' := acc + (if b then 1 else 0) in
      acc' :: cumsum_from acc' l'
  end.

Definition cumsum (l : list bool) : list Z := cumsum_from 0 l.

(** [df.groupby(k).cumcount()] on the key column: for every row, the number
    of earlier rows with the same key. *)
Fixpoint cumcount_from (seen : list Z) (l : list Z) : list Z :=
  match l with
  | [] => []
  | k :: l' =>
      Z.of_nat (length (List.filter (Z.eqb k) seen)) :: cumcount_from (k :: seen) l'
  end.

Definition cumcount (l : list Z) : list Z := cumcount_from [] l.

(** ** [np.polyfit(x, y, 1)[0]]

    The slope of the least-squares line through the points, from the normal
    equations.  The abscissas of a call are pairwise distinct (ages within
    one stint), so the system has full rank. *)

Definition dot (x y : list Q) : Q :=
  Qsum (map (fun '(a, b) => a * b)%Q (combine x y)).

Definition polyfit1_slope (x y : list Q) : Q :=
  let n := Qlen x in
  ((n * dot x y - Qsum x * Qsum y) / (n * dot x x - Qsum x * Qsum x))%Q.

(** ** Rolling windows

    [s.rolling(window, min_periods).sum()] and [.mean()] as pandas computes
    them: one pass that keeps the number of values present and their sum,
    removes the value that leaves the window and adds the one that enters.
    [lead] counts the rows still to come before the window is full, [old]
    starts at the next value to leave. *)

Record window_state := mkWin { nobs : Z; sum_x : Q }.

Definition add_val (v : option Q) (s : window_state) : window_state :=
  match v with
  | Some x => mkWin (nobs s + 1) (sum_x s + x)
  | None => s
  end.

Definition remove_val (v : option Q) (s : window_state) : window_state :=
  match v with
  | Some x => mkWin (nobs s - 1) (sum_x s - x)
  | None => s
  end.

Definition calc_sum (minp : Z) (s : window_state) : cell :=
  if (nobs s =? 0) && (minp =? 0) then float 0
  else if minp <=? nobs s then float (sum_x s)
  else NaN.

Definition calc_mean (minp : Z) (s : window_state) : cell :=
  if (minp <=? nobs s) && (0 <? nobs s) then float (sum_x s / inject_Z (nobs s))
  else NaN.

Fixpoint roll (calc : window_state -> cell) (lead : nat)
    (old new : list (option Q)) (s : window_state) : list cell :=
  match new with
  | [] => []
  | v :: new' =>
      match lead with
      | S k => let s' := add_val v s in calc s' :: roll calc k old new' s'
      | O =>
          match old with
          | o :: old' =>
              let s' := add_val v (remove_val o s) in
              calc s' :: roll calc 0 old' new' s'
          | [] => []
          end
      end
  end.

Definition rolling (calc : Z -> window_state -> cell) (window min_periods : Z)
    (values : list cell) : result (list cell) :=
  if window <? 0 then Raise (ValueError "window must be an integer 0 or greater")
  else if window <? min_periods then Raise (ValueError "min_periods must be <= window")
  else
    xs ← floats values;
    Ok (roll (calc min_periods) (Z.to_nat window) xs xs (mkWin 0 0)).

(** ** Sorting by two keys, joining two tables side by side *)

Definition lex_leb (c1 c2 : string) (a b : Row) : bool :=
  if same_value (at_ a c1) (at_ b c1) then key_leb (at_ a c2) (at_ b c2)
  else key_leb (at_ a c1) (at_ b c1).

(** [df.sort_values([c1, c2])] *)
Definition sort_values2 (df : DataFrame) (c1 c2 : string) : result DataFrame :=
  k1 ← col df c1;
  k2 ← col df c2;
  if sortable k1 && sortable k2
  then Ok (mkDF (columns df) (sort_by (lex_leb c1 c2) (rows df)))
  else Raise TypeError.

Definition labels (df : DataFrame) : list Z := map label (rows df).

Fixpoint nodupb (l : list Z) : bool :=
  match l with
  | [] => true
  | x :: l' => negb (existsb (Z.eqb x) l') && nodupb l'
  end.

Definition row_of_label (df : DataFrame) (i : Z) : option Row :=
  find (fun r => label r =? i) (rows df).

(** [pd.concat([left, right], axis=1)] where every label of [right] is a
    label of [left]: rows are paired by position when the two indexes are
    the same list, by label when both indexes are free of duplicates, and
    pandas refuses to align otherwise. *)
Definition concat_columns (left right : DataFrame) : result DataFrame :=
  let cols := (columns left ++ columns right)%list in
  if forallb (fun '(a, b) => a =? b) (combine (labels left) (labels right))
     && Nat.eqb (length (rows left)) (length (rows right))
  then Ok (mkDF cols
             (map (fun '(l, r) => mkRow (label l) (cells l ++ cells r)%list)
                  (combine (rows left) (rows right))))
  else if nodupb (labels left) && nodupb (labels right)
  then Ok (mkDF cols
             (map (fun l =>
                     mkRow (label l)
                       (cells l ++
                        match row_of_label right (label l) with
                        | Some r => cells r
                        | None => map (fun c => (c, NaN)) (columns right)
                        end)%list)
                  (rows left)))
  else Raise (ValueError "cannot reindex on an axis with duplicate labels").

(** ** More reductions, comparisons and selections *)

Definition Qmax (p q : Q) : Q := if Qleb p q then q else p.

Definition max_of (l : list Q) : cell :=
  match l with
  | [] => NaN
  | x :: l' => float (fold_left Qmax l' x)
  end.

(** [s.max()], skipping missing values. *)
Definition max (l : list cell) : result cell :=
  xs ← floats l; Ok (max_of (valid xs)).

(** [df[c].max()] *)
Definition col_max (df : DataFrame) (c : string) : result cell :=
  xs ← col df c; max xs.

(** [a >= b] and [a > b], element-wise. *)
Definition cell_geb : cell -> cell -> result bool :=
  cell_cmp (fun p q => Qleb q p) (fun s t => String.leb t s).
Definition cell_gtb : cell -> cell -> result bool :=
  cell_cmp (fun p q => Qltb q p) (fun s t => String.ltb t s).

(** [(df[c] >= v).mean()] and the like: the share of the rows that satisfy
    the comparison, missing for a table without rows. *)
Definition col_share (cmp : cell -> cell -> result bool) (df : DataFrame)
    (c : string) (v : cell) : result cell :=
  xs ← col df c;
  bs ← mapM (fun x => cmp x v) xs;
  mean (map Bool bs).

(** [s.isin(values)] for a list of integers. *)
Definition isin (c : cell) (values : list Z) : bool :=
  existsb (fun v => cell_eqb c (Int v)) values.

(** [df[df[c].isin(values)]] *)
Definition where_isin (df : DataFrame) (c : string) (values : list Z) : result DataFrame :=
  if has_col df c
  then Ok (mkDF (columns df) (List.filter (fun r => isin (at_ r c) values) (rows df)))
  else Raise (KeyError c).

(** [df[df[c].isna()]] *)
Definition where_isna (df : DataFrame) (c : string) : result DataFrame :=
  if has_col df c
  then Ok (mkDF (columns df) (List.filter (fun r => negb (notna (at_ r c))) (rows df)))
  else Raise (KeyError c).

(** The stop of the Python slice [[:k]] on a sequence of length [n]: a
    negative [k] counts from the end, and the result is clipped to [0..n]. *)
Definition slice_stop (n : nat) (k : Z) : nat :=
  if k <? 0 then Z.to_nat (Z.max (Z.of_nat n + k) 0)
  else Nat.min (Z.to_nat k) n.

(** [df.iloc[:k]] and [df.iloc[k:]] *)
Definition iloc_to (k : Z) (df : DataFrame) : DataFrame :=
  mkDF (columns df) (firstn (slice_stop (length (rows df)) k) (rows df)).
Definition iloc_from (k : Z) (df : DataFrame) : DataFrame :=
  mkDF (columns df) (skipn (slice_stop (length (rows df)) k) (rows df)).

(** [df[c] = f(row)] computed row by row: the cell under [c] is replaced in
    place, or added last. *)
Definition assign_col (df : DataFrame) (c : string) (f : Row -> cell) : DataFrame :=
  set_col df c (map f (rows df)).

(** [s.isnull().sum()] *)
Definition null_count (l : list cell) : Z :=
  Z.of_nat (length (List.filter (fun c => negb (notna c)) l)).

(** [s.dt.total_seconds()] on a cell of a column of durations. *)
Definition dt_total_seconds (c : cell) : cell :=
  match c with
  | Timedelta q => Num q
  | _ => NaN
  end.

(** [~s] on a cell: the negation of a boolean, the complement of an
    integer. *)
Definition invert (c : cell) : result cell :=
  match c with
  | Bool b => Ok (Bool (negb b))
  | Int z => Ok (Int (- z - 1))
  | _ => Raise TypeError
  end.

End Pd.

Export Pd.

(* ===================================================================== *)
(** * features/engineer.py: class FeatureEngineer                          *)
(* ===================================================================== *)

Module FeatureEngineer.

(** ** Driver features *)

Definition _default_driver_features : dict :=
  [ ("avg_finish_last_n", Num 15);
    ("avg_grid_last_n", Num 15);
    ("avg_points_last_n", Num 0);
    ("wins_last_n", Int 0);
    ("podiums_last_n", Int 0);
    ("points_finishes_last_n", Int 0);
    ("avg_positions_gained", Num 0);
    ("dnf_rate", Num (1 # 10));
    ("career_races", Int 0);
    ("career_wins", Int 0);
    ("career_podiums", Int 0);
    ("career_points", Num 0);
    ("season_points", Num 0);
    ("season_position", Int 20) ].

(** The first lines of [compute_driver_features] and
    [compute_team_features]: the rows of one entity, cut at [as_of_date]
    when one is given. *)
Definition entity_history (results : DataFrame) (key : string) (id : cell)
    (as_of_date : option Z) : result DataFrame :=
  df ← where_eq results key id;
  match as_of_date with
  | Some d => where_lt df "Date" (Int d)
  | None => Ok df
  end.

Definition compute_driver_features (results : DataFrame) (driver_id : cell)
    (as_of_date : option Z) (window : Z) : result dict :=
  df ← entity_history results "Abbreviation" driver_id as_of_date;
  if len df =? 0 then Ok _default_driver_features
  else
    df ← sort_values df "Date";
    let recent := tail df window in
    avg_finish ← (if has_col recent "Position" then col_mean recent "Position" else Ok NaN);
    avg_grid ← (if has_col recent "GridPosition" then col_mean recent "GridPosition" else Ok NaN);
    avg_points ← (if has_col recent "Points" then col_mean recent "Points" else Ok (Int 0));
    wins ← (if has_col recent "Position" then count_eq recent "Position" (Int 1) else Ok (Int 0));
    podiums ← (if has_col recent "Position" then count_le recent "Position" (Int 3) else Ok (Int 0));
    points_finishes ← (if has_col recent "Position" then count_le recent "Position" (Int 10) else Ok (Int 0));
    gained ← (if has_col recent "PositionsGained" then col_mean recent "PositionsGained" else Ok (Int 0));
    dnf_rate ← (if has_col df "IsDNF" then col_mean df "IsDNF" else Ok (Int 0));
    career_wins ← (if has_col df "Position" then count_eq df "Position" (Int 1) else Ok (Int 0));
    career_podiums ← (if has_col df "Position" then count_le df "Position" (Int 3) else Ok (Int 0));
    career_points ← (if has_col df "Points" then col_sum df "Points" else Ok (Int 0));
    Ok [ ("avg_finish_last_n", avg_finish);
         ("avg_grid_last_n", avg_grid);
         ("avg_points_last_n", avg_points);
         ("wins_last_n", wins);
         ("podiums_last_n", podiums);
         ("points_finishes_last_n", points_finishes);
         ("avg_positions_gained", gained);
         ("dnf_rate", dnf_rate);
         ("career_races", Int (len df));
         ("career_wins", career_wins);
         ("career_podiums", career_podiums);
         ("career_points", career_points);
         ("season_points", Int 0);
         ("season_position", Int 0) ].

(** ** Circuit features *)

Definition _default_circuit_features : dict :=
  [ ("circuit_races_in_data", Int 0);
    ("circuit_sc_rate", Num (1 # 2));
    ("avg_position_changes", Num 3);
    ("circuit_dnf_rate", Num (1 # 10)) ].

(** Python truthiness of an optional argument. *)
Definition given (x : option cell) : bool :=
  match x with Some c => truthy c | None => false end.

Definition compute_circuit_features (results : DataFrame) (circuit_name : cell)
    (driver_id : option cell) : result dict :=
  circuit_df ← where_eq results "GrandPrix" circuit_name;
  if len circuit_df =? 0 then Ok _default_circuit_features
  else
    seasons ← col circuit_df "Season";
    changes ← (if has_col circuit_df "PositionsGained"
               then xs ← col circuit_df "PositionsGained";
                    ys ← mapM abs xs;
                    mean ys
               else Ok (Num 3));
    dnf ← (if has_col circuit_df "IsDNF" then col_mean circuit_df "IsDNF"
           else Ok (Num (1 # 10)));
    let features :=
      [ ("circuit_races_in_data", Int (Z.of_nat (length (unique seasons))));
        ("circuit_sc_rate", Num (1 # 2));
        ("avg_position_changes", changes);
        ("circuit_dnf_rate", dnf) ] in
    if given driver_id then
      driver_circuit ← where_eq circuit_df "Abbreviation"
                         (match driver_id with Some d => d | None => NaN end);
      if 0 <? len driver_circuit then
        avg ← col_mean driver_circuit "Position";
        best ← col_min driver_circuit "Position";
        wins ← count_eq driver_circuit "Position" (Int 1);
        podiums ← count_le driver_circuit "Position" (Int 3);
        Ok (dict_update features
              [ ("driver_circuit_races", Int (len driver_circuit));
                ("driver_circuit_avg_finish", avg);
                ("driver_circuit_best_finish", best);
                ("driver_circuit_wins", wins);
                ("driver_circuit_podiums", podiums) ])
      else
        Ok (dict_update features
              [ ("driver_circuit_races", Int 0);
                ("driver_circuit_avg_finish", Num 10);
                ("driver_circuit_best_finish", Int 10);
                ("driver_circuit_wins", Int 0);
                ("driver_circuit_podiums", Int 0) ])
    else Ok features.

(** ** Team features *)

Definition _default_team_features : dict :=
  [ ("team_avg_points_last_n", Num 5);
    ("team_avg_finish_last_n", Num 10);
    ("team_season_points", Num 0);
    ("team_constructor_position", Int 5);
    ("team_reliability_rate", Num (9 # 10)) ].

(** [df.groupby(["Season", "Round"]).agg({"Points": "sum", "Position":
    "mean"}).reset_index()] *)
Definition team_races (df : DataFrame) : result DataFrame :=
  groups ← groupby2 df "Season" "Round";
  if negb (has_col df "Points") then Raise (KeyError "Points")
  else if negb (has_col df "Position") then Raise (KeyError "Position")
  else
    rs ← mapM (fun '(k, g) =>
                 pts ← sum (map (fun r => at_ r "Points") g);
                 pos ← mean (map (fun r => at_ r "Position") g);
                 Ok [ ("Season", fst k); ("Round", snd k);
                      ("Points", pts); ("Position", pos) ]) groups;
    Ok (mkDF ["Season"; "Round"; "Points"; "Position"]
          (map (fun '(i, c) => mkRow i c) (enumerate 0 rs))).

Definition compute_team_features (results : DataFrame) (team_name : cell)
    (as_of_date : option Z) (window : Z) : result dict :=
  df ← entity_history results "TeamName" team_name as_of_date;
  if len df =? 0 then Ok _default_team_features
  else
    df ← sort_values df "Date";
    races ← team_races df;
    let recent := tail races window in
    avg_points ← col_mean recent "Points";
    avg_finish ← col_mean recent "Position";
    reliability ← (if has_col df "IsDNF"
                   then m ← col_mean df "IsDNF"; cell_sub (Int 1) m
                   else Ok (Num (9 # 10)));
    Ok [ ("team_avg_points_last_n", avg_points);
         ("team_avg_finish_last_n", avg_finish);
         ("team_season_points", Int 0);
         ("team_constructor_position", Int 5);
         ("team_reliability_rate", reliability) ].

(** ** Session features *)

(** [x.total_seconds() if hasattr(x, "total_seconds") else x] *)
Definition total_seconds (c : cell) : cell :=
  match c with
  | Timedelta q => Num q
  | _ => c
  end.

(** The pole-sitter's Q3 time; Python's [None] when there is no Q3 column. *)
Definition pole_time (quali_results : DataFrame) : result (option cell) :=
  if has_col quali_results "Q3" then
    pole ← where_eq quali_results "Position" (Int 1);
    q3 ← col pole "Q3";
    t ← iloc0 q3;
    Ok (Some t)
  else Ok None.

Definition quali_features (quali_results : DataFrame) (driver_id : option cell)
    (features : dict) : result dict :=
  if given driver_id && (0 <? len quali_results) then
    driver_quali ← where_eq quali_results "Abbreviation"
                     (match driver_id with Some d => d | None => NaN end);
    match rows driver_quali with
    | [] => Ok features
    | row :: _ =>
        let features :=
          dict_set "grid_position" (series_get_default row "Position" (Int 10)) features in
        pole ← pole_time quali_results;
        if given pole && in_row row "Q3" && notna (at_ row "Q3") then
          let driver_time := total_seconds (at_ row "Q3") in
          let pole_time := total_seconds (match pole with Some t => t | None => NaN end) in
          gap ← cell_sub driver_time pole_time;
          Ok (dict_set "quali_gap_to_pole" gap features)
        else Ok (dict_set "quali_gap_to_pole" (Num 1) features)
    end
  else Ok features.

Definition practice_features (practice_laps : option DataFrame)
    (driver_id : option cell) (features : dict) : result dict :=
  match practice_laps with
  | Some laps =>
      if given driver_id && (0 <? len laps) then
        driver_practice ← where_eq laps "Driver"
                            (match driver_id with Some d => d | None => NaN end);
        if 0 <? len driver_practice then
          best ← col_min driver_practice "LapTimeSeconds";
          avg ← col_mean driver_practice "LapTimeSeconds";
          Ok (dict_set "fp_lap_count" (Int (len driver_practice))
                (dict_set "fp_avg_lap_time" avg
                   (dict_set "fp_best_lap_time" best features)))
        else Ok features
      else Ok features
  | None => Ok features
  end.

Definition compute_session_features (quali_results : DataFrame)
    (practice_laps : option DataFrame) (driver_id : option cell) : result dict :=
  features ← quali_features quali_results driver_id [];
  practice_features practice_laps driver_id features.

(** ** The race feature table *)

(** The mask [(Season < s) | ((Season == s) & (Round < r))] of one row. *)
Definition before_target (target_season target_round : Z) (r : Row) : result bool :=
  s_lt ← cell_ltb (at_ r "Season") (Int target_season);
  r_lt ← cell_ltb (at_ r "Round") (Int target_round);
  Ok (s_lt || (cell_eqb (at_ r "Season") (Int target_season) && r_lt)).

(** The mask [(Season == s) & (Round == r)] of one row. *)
Definition at_target (target_season target_round : Z) (r : Row) : bool :=
  cell_eqb (at_ r "Season") (Int target_season)
  && cell_eqb (at_ r "Round") (Int target_round).

(** The historical slice.  pandas evaluates the mask column by column, so
    the [Season] comparisons all run before the [Round] column is read. *)
Definition historical (race_results : DataFrame) (target_season target_round : Z)
  : result DataFrame :=
  seasons ← col race_results "Season";
  _ ← mapM (fun s => cell_ltb s (Int target_season)) seasons;
  _ ← col race_results "Round";
  rs ← select (before_target target_season target_round) (rows race_results);
  Ok (mkDF (columns race_results) rs).

Definition target_race (race_results : DataFrame) (target_season target_round : Z)
  : result DataFrame :=
  _ ← col race_results "Season";
  _ ← col race_results "Round";
  Ok (mkDF (columns race_results)
        (List.filter (at_target target_season target_round) (rows race_results))).

(** The predictive part of one driver's row: the identifying keys and the
    four feature groups, merged in the order of the dict display. *)
Definition predictive_features (hist target quali_results : DataFrame)
    (target_season target_round : Z) (circuit_name driver : cell) : result dict :=
  driver_rows ← where_eq target "Abbreviation" driver;
  driver_row ← iloc0 (rows driver_rows);
  driver_features ← compute_driver_features hist driver None 5;
  circuit_features ← compute_circuit_features hist circuit_name (Some driver);
  team ← series_get driver_row "TeamName";
  team_features ← compute_team_features hist team None 5;
  session_features ← compute_session_features quali_results None (Some driver);
  Ok (dict_update
        (dict_update
           (dict_update
              (dict_update
                 [ ("Season", Int target_season);
                   ("Round", Int target_round);
                   ("GrandPrix", circuit_name);
                   ("Driver", driver);
                   ("Team", team) ]
                 driver_features)
              circuit_features)
           team_features)
        session_features).

(** The target labels of one driver's row. *)
Definition target_labels (target : DataFrame) (driver : cell) : result dict :=
  driver_rows ← where_eq target "Abbreviation" driver;
  driver_row ← iloc0 (rows driver_rows);
  position ← series_get driver_row "Position";
  points ← series_get driver_row "Points";
  podium ← cell_leb position (Int 3);
  in_points ← cell_leb position (Int 10);
  Ok [ ("Position", position);
       ("Points", points);
       ("IsWinner", Bool (cell_eqb position (Int 1)));
       ("IsPodium", Bool podium);
       ("IsPoints", Bool in_points) ].

Definition feature_row (hist target quali_results : DataFrame)
    (target_season target_round : Z) (circuit_name driver : cell) : result dict :=
  features ← predictive_features hist target quali_results
               target_season target_round circuit_name driver;
  labels ← target_labels target driver;
  Ok (dict_update features labels).

(** The list [feature_rows] that [build_race_features] accumulates; [None]
    is the early return for a target without records. *)
Definition feature_rows (race_results quali_results : DataFrame)
    (target_season target_round : Z) : result (option (list dict)) :=
  hist ← historical race_results target_season target_round;
  target ← target_race race_results target_season target_round;
  if len target =? 0 then Ok None
  else
    names ← col target "GrandPrix";
    circuit_name ← iloc0 names;
    abbreviations ← col target "Abbreviation";
    rs ← mapM (feature_row hist target quali_results
                 target_season target_round circuit_name)
              (unique abbreviations);
    Ok (Some rs).

Definition build_race_features (race_results quali_results : DataFrame)
    (target_season target_round : Z) : result DataFrame :=
  rs ← feature_rows race_results quali_results target_season target_round;
  match rs with
  | None => Ok empty_frame
  | Some records => Ok (from_records records)
  end.

(** The rows of [build_race_features] before the target labels are added:
    what a model may use to predict the race. *)
Definition predictive_rows (race_results quali_results : DataFrame)
    (target_season target_round : Z) : result (option (list dict)) :=
  hist ← historical race_results target_season target_round;
  target ← target_race race_results target_season target_round;
  if len target =? 0 then Ok None
  else
    names ← col target "GrandPrix";
    circuit_name ← iloc0 names;
    abbreviations ← col target "Abbreviation";
    rs ← mapM (predictive_features hist target quali_results
                 target_season target_round circuit_name)
              (unique abbreviations);
    Ok (Some rs).

(** ** Tire degradation features *)

(** [(Compound != Compound.shift()).cumsum()] *)
Definition stint_numbers (compounds : list cell) : list Z :=
  cumsum (map (fun '(c, prev) => cell_neb c prev) (combine compounds (shift compounds))).

(** [groupby("StintNumber").cumcount() + 1] *)
Definition tire_ages (stints : list Z) : list Z :=
  map (fun n => n + 1) (cumcount stints).

(** The driver's laps in lap order with the columns [StintNumber] and
    [TireAge] set; [None] is the early return for a driver without laps. *)
Definition stint_laps (laps : DataFrame) (driver_id : cell) : result (option DataFrame) :=
  driver_laps ← where_eq laps "Driver" driver_id;
  if len driver_laps =? 0 then Ok None
  else
    driver_laps ← sort_values driver_laps "LapNumber";
    stints ← (if has_col driver_laps "Compound"
              then compounds ← col driver_laps "Compound"; Ok (stint_numbers compounds)
              else Ok (map (fun _ => 1) (rows driver_laps)));
    let driver_laps := set_col driver_laps "StintNumber" (map Int stints) in
    let driver_laps := set_col driver_laps "TireAge" (map Int (tire_ages stints)) in
    Ok (Some driver_laps).

(** [x[mask], y[mask]] for [mask = ~np.isnan(y)]. *)
Fixpoint masked (x y : list (option Q)) : list (Q * Q) :=
  match x, y with
  | Some a :: x', Some b :: y' => (a, b) :: masked x' y'
  | _ :: x', _ :: y' => masked x' y'
  | _, _ => []
  end.

(** One turn of the loop over the stints: the record appended to
    [stint_features], or [None] when the stint is skipped. *)
Definition stint_record (driver_laps : DataFrame) (stint : cell) (stint_df : list Row)
  : result (option dict) :=
  if Z.of_nat (length stint_df) <? 3 then Ok None
  else if has_col driver_laps "LapTimeSeconds" then
    x ← floats (map (fun r => at_ r "TireAge") stint_df);
    y ← floats (map (fun r => at_ r "LapTimeSeconds") stint_df);
    let pts := masked x y in
    if 3 <=? Z.of_nat (length pts) then
      compound ← (if has_col driver_laps "Compound"
                  then iloc0 (map (fun r => at_ r "Compound") stint_df)
                  else Ok (Str "Unknown"));
      Ok (Some [ ("StintNumber", stint);
                 ("Compound", compound);
                 ("StintLength", Int (Z.of_nat (length stint_df)));
                 ("DegradationRate", float (polyfit1_slope (map fst pts) (map snd pts)));
                 ("AvgLapTime", mean_of (map snd pts));
                 ("BestLapTime", min_of (map snd pts)) ])
    else Ok None
  else Ok None.

(** The list [stint_features] at the end of the loop. *)
Definition stint_features (laps : DataFrame) (driver_id : cell) : result (option (list dict)) :=
  driver_laps ← stint_laps laps driver_id;
  match driver_laps with
  | None => Ok None
  | Some driver_laps =>
      groups ← groupby driver_laps "StintNumber";
      records ← mapM (fun '(stint, stint_df) => stint_record driver_laps stint stint_df) groups;
      Ok (Some (valid records))
  end.

Definition compute_tire_features (laps : DataFrame) (driver_id : cell) : result DataFrame :=
  records ← stint_features laps driver_id;
  match records with
  | None => Ok empty_frame
  | Some records => Ok (from_records records)
  end.

(** ** Telemetry features *)

Definition compute_telemetry_features (telemetry : DataFrame) : result dict :=
  let features : dict := [] in
  features ← (if has_col telemetry "Speed" then
                top ← col_max telemetry "Speed";
                avg ← col_mean telemetry "Speed";
                low ← col_min telemetry "Speed";
                Ok (dict_set "min_speed" low
                      (dict_set "avg_speed" avg
                         (dict_set "max_speed" top features)))
              else Ok features);
  features ← (if has_col telemetry "Throttle" then
                avg ← col_mean telemetry "Throttle";
                full ← col_share cell_geb telemetry "Throttle" (Int 95);
                Ok (dict_set "full_throttle_pct" full
                      (dict_set "avg_throttle" avg features))
              else Ok features);
  features ← (if has_col telemetry "Brake" then
                usage ← col_share cell_gtb telemetry "Brake" (Int 0);
                heavy ← col_share cell_geb telemetry "Brake" (Int 50);
                Ok (dict_set "heavy_brake_pct" heavy
                      (dict_set "brake_usage_pct" usage features))
              else Ok features);
  features ← (if has_col telemetry "nGear" then
                avg ← col_mean telemetry "nGear";
                Ok (dict_set "avg_gear" avg features)
              else Ok features);
  features ← (if has_col telemetry "DRS" then
                avg ← col_mean telemetry "DRS";
                Ok (dict_set "drs_usage_pct" avg features)
              else Ok features);
  Ok features.

End FeatureEngineer.

(* ===================================================================== *)
(** * sklearn.preprocessing.StandardScaler                                 *)
(* ===================================================================== *)

(** The scaler is library code.  Its model keeps what the processor relies
    on: [fit] learns one mean and one scale per column and the number of
    columns, [transform] refuses an array with another number of columns or
    without rows, and [fit_transform] is [fit] followed by [transform].
    The square root is a parameter: the properties hold for every rounding
    of it. *)

Module Sklearn.

Record StandardScaler := mkScaler {
  mean_ : list Q;
  scale_ : list Q;
  n_features_in_ : nat
}.

Definition column (j : nat) (X : list (list Q)) : list Q :=
  map (fun row => nth j row 0%Q) X.

Definition check_array (X : list (list Q)) : result nat :=
  match X with
  | [] => Raise (ValueError "Found array with 0 sample(s)")
  | row :: _ =>
      match row with
      | [] => Raise (ValueError "Found array with 0 feature(s)")
      | _ => Ok (length row)
      end
  end.

Section Scaler.

Context (sqrt : Q -> Q).

Definition Qmean (l : list Q) : Q := (Qsum l / Qlen l)%Q.

Definition Qvar (l : list Q) : Q :=
  let m := Qmean l in
  (Qsum (map (fun x => (x - m) * (x - m)) l) / Qlen l)%Q.

(** [_handle_zeros_in_scale]: a constant column is left unscaled. *)
Definition handle_zeros (s : Q) : Q := if Qeqb s 0 then 1%Q else s.

Definition fit (X : list (list Q)) : result StandardScaler :=
  n ← check_array X;
  let cols := map (fun j => column j X) (seq 0 n) in
  Ok (mkScaler (map Qmean cols)
               (map (fun c => handle_zeros (sqrt (Qvar c))) cols)
               n).

Definition scale_row (s : StandardScaler) (row : list Q) : list Q :=
  map (fun '(x, (m, d)) => Qred ((x - m) / d))
      (combine row (combine (mean_ s) (scale_ s))).

Definition transform (s : StandardScaler) (X : list (list Q)) : result (list (list Q)) :=
  n ← check_array X;
  if negb (forallb (fun row => Nat.eqb (length row) (n_features_in_ s)) X)
  then Raise (ValueError "X has a different number of features than StandardScaler is expecting")
  else Ok (map (scale_row s) X).

Definition fit_transform (X : list (list Q)) : result (StandardScaler * list (list Q)) :=
  s ← fit X;
  Y ← transform s X;
  Ok (s, Y).

End Scaler.

(** ** LabelEncoder

    [fit_transform] on values without a missing entry: the classes are the
    distinct values in ascending order, every value is replaced by the
    position of its class, and values that are not uniformly strings or
    numbers are refused. *)

Fixpoint index_of (classes : list cell) (v : cell) : Z :=
  match classes with
  | [] => 0
  | c :: classes' => if cell_eqb c v then 0 else 1 + index_of classes' v
  end.

Definition label_fit_transform (values : list cell) : result (list cell * list Z) :=
  if sortable values
  then let classes := group_keys values in
       Ok (classes, map (index_of classes) values)
  else Raise TypeError.

(** [inverse_transform] on one code. *)
Definition label_decode (classes : list cell) (code : Z) : cell :=
  if code <? 0 then NaN else nth (Z.to_nat code) classes NaN.

End Sklearn.

(* ===================================================================== *)
(** * data/processor.py: class DataProcessor                               *)
(* ===================================================================== *)

(** A table is a Python object: the processor receives a reference to it,
    copies it and assigns to the copy.  The heap below holds the tables;
    the processor's own fields are the second half of the state.  An
    exception leaves the state as it was when it was raised. *)

Module DataProcessor.

Import Sklearn.

(** The value stored under a name in [self.scalers]. *)
Record scaler_info := mkInfo {
  info_scaler : StandardScaler;
  info_columns : list string
}.

Record state := mkState {
  heap : list DataFrame;
  scalers : gmap string scaler_info
}.

Definition ref := nat.

Definition M (A : Type) : Type := state -> result A * state.

Definition ret {A} (a : A) : M A := fun s => (Ok a, s).

Definition lift {A} (r : result A) : M A := fun s => (r, s).

Definition mbind {A B} (m : M A) (k : A -> M B) : M B :=
  fun s =>
    match m s with
    | (Ok a, s') => k a s'
    | (Raise e, s') => (Raise e, s')
    end.

Declare Scope proc_scope.
Delimit Scope proc_scope with proc.
Notation "x ← y ; z" := (mbind y (fun x => z))
  (at level 20, y at level 100, z at level 200, only parsing) : proc_scope.

(** The table a reference points to. *)
Definition deref (h : list DataFrame) (l : ref) : DataFrame :=
  match h !! l with Some df => df | None => empty_frame end.

Definition read (l : ref) : M DataFrame :=
  fun s => (Ok (deref (heap s) l), s).

(** [df.copy()]: a new object with the same contents. *)
Definition copy (l : ref) : M ref :=
  fun s => (Ok (length (heap s)),
            mkState (heap s ++ [deref (heap s) l]) (scalers s)).

(** [df.fillna(0)] on one cell, then the conversion to a float array. *)
Definition fillna0 (c : cell) : cell :=
  match c with NaN => Int 0 | _ => c end.

Definition filled_float (c : cell) : result Q :=
  match fillna0 c with
  | Int z => Ok (inject_Z z)
  | Num q => Ok q
  | Bool b => Ok (if b then 1%Q else 0%Q)
  | Str _ => Raise (ValueError "could not convert string to float")
  | Timedelta _ => Raise TypeError
  | NaN => Ok 0%Q
  end.

(** [df[cols].fillna(0)] as the array handed to the scaler. *)
Definition filled_values (df : DataFrame) (cols : list string) : result (list (list Q)) :=
  mapM (fun r => mapM (fun c => filled_float (at_ r c)) cols) (rows df).

(** [df[cols] = Y]: column [j] of [cols] receives column [j] of [Y]. *)
Definition assign_row (cols : list string) (r : Row) (y : list Q) : Row :=
  mkRow (label r)
        (fold_left (fun acc '(c, v) => dict_set c (Num v) acc) (combine cols y) (cells r)).

Definition assign_values (df : DataFrame) (cols : list string) (Y : list (list Q)) : DataFrame :=
  mkDF (columns df) (map (fun '(r, y) => assign_row cols r y) (combine (rows df) Y)).

Definition assign (l : ref) (cols : list string) (Y : list (list Q)) : M unit :=
  fun s => (Ok tt,
            mkState (<[l := assign_values (deref (heap s) l) cols Y]> (heap s)) (scalers s)).

(** [self.scalers[name] = info] *)
Definition register (name : string) (info : scaler_info) : M unit :=
  fun s => (Ok tt, mkState (heap s) (<[name := info]> (scalers s))).

Definition not_found (name : string) : exn :=
  ValueError ("Scaler '" ++ name ++ "' not found")%string.

(** [self.scalers[name]] behind the membership test of [transform_scaler]. *)
Definition lookup_scaler (name : string) : M scaler_info :=
  fun s =>
    match scalers s !! name with
    | Some info => (Ok info, s)
    | None => (Raise (not_found name), s)
    end.

Definition is_nil {A} (l : list A) : bool :=
  match l with [] => true | _ => false end.

Section Processor.

Context (sqrt : Q -> Q).

Local Open Scope proc_scope.

Definition fit_scaler (df : ref) (columns : list string) (scaler_name : string) : M ref :=
  df ← copy df;
  frame ← read df;
  let valid_cols := List.filter (has_col frame) columns in
  if is_nil valid_cols then ret df
  else
    X ← lift (filled_values frame valid_cols);
    fitted ← lift (fit_transform sqrt X);
    _ ← assign df valid_cols (snd fitted);
    _ ← register scaler_name (mkInfo (fst fitted) valid_cols);
    ret df.

Definition transform_scaler (df : ref) (scaler_name : string) : M ref :=
  scaler_info ← lookup_scaler scaler_name;
  df ← copy df;
  frame ← read df;
  let valid_cols := List.filter (has_col frame) (info_columns scaler_info) in
  X ← lift (filled_values frame valid_cols);
  Y ← lift (transform (info_scaler scaler_info) X);
  _ ← assign df valid_cols Y;
  ret df.

End Processor.

(** ** Rolling driver statistics *)

Local Open Scope py_scope.

(** [x[c]] for a group [x] of the table [df]. *)
Definition group_col (df : DataFrame) (x : list Row) (c : string) : result (list cell) :=
  if has_col df c then Ok (map (fun r => at_ r c) x) else Raise (KeyError c).

(** The table the lambda of [compute_driver_stats] builds for one driver:
    one row of statistics per row of [x], under the same label. *)
Definition driver_window_stats (df : DataFrame) (window : Z) (x : list Row)
  : result (list Row) :=
  position ← group_col df x "Position";
  avg_finish ← rolling calc_mean window 1 position;
  grid ← group_col df x "GridPosition";
  avg_grid ← rolling calc_mean window 1 grid;
  wins ← rolling calc_sum window 1 (map (fun c => Bool (cell_eqb c (Int 1))) position);
  on_podium ← mapM (fun c => cell_leb c (Int 3)) position;
  podiums ← rolling calc_sum window 1 (map Bool on_podium);
  pts ← group_col df x "Points";
  points ← rolling calc_sum window 1 pts;
  dnfs ← (if has_col df "IsDNF"
          then d ← group_col df x "IsDNF"; rolling calc_sum window 1 d
          else Ok (map (fun _ => Int 0) x));
  Ok (map (fun '(r, (a, (g, (w, (p, (s, d)))))) =>
             mkRow (label r)
               [ ("AvgFinishLast5", a); ("AvgGridLast5", g); ("WinsLast5", w);
                 ("PodiumsLast5", p); ("PointsLast5", s); ("DNFsLast5", d) ])
          (combine x (combine avg_finish (combine avg_grid
             (combine wins (combine podiums (combine points dnfs))))))).

Definition stat_columns : list string :=
  [ "AvgFinishLast5"; "AvgGridLast5"; "WinsLast5";
    "PodiumsLast5"; "PointsLast5"; "DNFsLast5" ].

(** [groupby("Abbreviation").apply(...)] puts the tables of the drivers one
    under the other in the order of the driver codes, with the code as an
    outer level of the index; [reset_index(level=0, drop=True)] removes
    that level, so every row of statistics carries the label of the row
    it was computed for, and [pd.concat(axis=1)] joins on those labels.

    A table in which no row names a driver has no group.  pandas then does
    not call the function: [apply] returns a table without rows whose
    columns are those of the table the function would have been given, the
    whole table before pandas 3 and the table without the grouping column
    from pandas 3 on, and [pd.concat] puts these columns, empty, after those
    of the sorted table.  [include_groups] says which of the two it is. *)

Section Apply.

Context (include_groups : bool).

Definition applied_columns (cols : list string) (key : string) : list string :=
  if include_groups then cols
  else List.filter (fun c => negb (String.eqb c key)) cols.

Definition compute_driver_stats (results : DataFrame) (window : Z) : result DataFrame :=
  df ← sort_values2 results "Abbreviation" "Date";
  groups ← groupby df "Abbreviation";
  if is_nil groups
  then concat_columns df (mkDF (applied_columns (columns df) "Abbreviation") [])
  else
    per_driver ← mapM (fun '(_, x) => driver_window_stats df window x) groups;
    concat_columns df (mkDF stat_columns (concat per_driver)).

End Apply.

(** ** Race results *)

Section Numeric.

(** [pd.to_numeric(s, errors="coerce")] keeps a number as it is.  What it
    makes of a string or of a duration (the parsed number, a count of
    nanoseconds, a missing value) is the parameter [coerce]. *)
Context (coerce : cell -> cell).

Definition to_numeric (c : cell) : cell :=
  match c with
  | NaN | Int _ | Num _ | Bool _ => c
  | Str _ | Timedelta _ => coerce c
  end.

Definition process_race_results (results : DataFrame) : result DataFrame :=
  let df := results in
  let df := if has_col df "Position"
            then assign_col df "Position" (fun r => to_numeric (at_ r "Position"))
            else df in
  let df := if has_col df "GridPosition"
            then assign_col df "GridPosition" (fun r => to_numeric (at_ r "GridPosition"))
            else df in
  df ← (if has_col df "Position" && has_col df "GridPosition"
        then gained ← mapM (fun r => cell_sub (at_ r "GridPosition") (at_ r "Position"))
                        (rows df);
             Ok (set_col df "PositionsGained" gained)
        else Ok df);
  df ← (if has_col df "Status"
        then let df := assign_col df "IsFinished"
                         (fun r => Bool (cell_eqb (at_ r "Status") (Str "Finished"))) in
             flags ← mapM (fun r => invert (at_ r "IsFinished")) (rows df);
             Ok (set_col df "IsDNF" flags)
        else Ok df);
  let df := if has_col df "Points"
            then assign_col df "Points" (fun r => fillna0 (to_numeric (at_ r "Points")))
            else df in
  Ok df.

(** ** Lap times

    [pd.api.types.is_timedelta64_any_dtype] is not a name of pandas: its
    dtype tests for durations are [is_timedelta64_dtype] and
    [is_timedelta64_ns_dtype].  Looking the attribute up raises
    [AttributeError] before the column is read. *)

Definition is_timedelta64_any_dtype (values : list cell) : result bool :=
  Raise (AttributeError "is_timedelta64_any_dtype").

Definition in_range (min_lap_time max_lap_time : Q) (r : Row) : result bool :=
  above ← cell_geb (at_ r "LapTimeSeconds") (Num min_lap_time);
  below ← cell_leb (at_ r "LapTimeSeconds") (Num max_lap_time);
  Ok (above && below).

(** One turn of the loop over [sector_cols]. *)
Definition sector_seconds (df : DataFrame) (c : string) : result DataFrame :=
  if has_col df c
  then is_duration ← is_timedelta64_any_dtype (map (fun r => at_ r c) (rows df));
       if (is_duration : bool)
       then Ok (assign_col df (c ++ "Seconds")%string
                  (fun r => dt_total_seconds (at_ r c)))
       else Ok df
  else Ok df.

Definition clean_lap_times (laps : DataFrame)
    (remove_outliers : bool) (min_lap_time max_lap_time : Q) : result DataFrame :=
  let df := laps in
  df ← (if has_col df "LapTime"
        then is_duration ← is_timedelta64_any_dtype
                             (map (fun r => at_ r "LapTime") (rows df));
             if (is_duration : bool)
             then Ok (assign_col df "LapTimeSeconds"
                        (fun r => dt_total_seconds (at_ r "LapTime")))
             else Ok (assign_col df "LapTimeSeconds"
                        (fun r => to_numeric (at_ r "LapTime")))
        else Ok df);
  df ← (if remove_outliers && has_col df "LapTimeSeconds"
        then rs ← select (in_range min_lap_time max_lap_time) (rows df);
             Ok (mkDF (columns df) rs)
        else Ok df);
  df ← (if has_col df "PitInTime" then where_isna df "PitInTime" else Ok df);
  df ← (if has_col df "PitOutTime" then where_isna df "PitOutTime" else Ok df);
  df ← sector_seconds df "Sector1Time";
  df ← sector_seconds df "Sector2Time";
  sector_seconds df "Sector3Time".

End Numeric.

(** ** Categorical encoding *)

Section Encoding.

(** [pd.get_dummies(df[col], prefix=col)] is library code: the table of
    indicator columns it returns for a column of [df] is a parameter. *)
Context (get_dummies : DataFrame -> string -> DataFrame).

Definition fill_unknown (c : cell) : cell :=
  match c with NaN => Str "Unknown" | _ => c end.

Definition encoders := gmap string (list cell).

(** The loop of [encode_categorical]: the table so far and [self.encoders],
    the latter kept as it is when an exception leaves the loop. *)
Fixpoint encode_columns (method : string) (df : DataFrame) (enc : encoders)
    (cols : list string) : result DataFrame * encoders :=
  match cols with
  | [] => (Ok df, enc)
  | c :: cols' =>
      if negb (has_col df c) then encode_columns method df enc cols'
      else if String.eqb method "label" then
        let df := assign_col df c (fun r => fill_unknown (at_ r c)) in
        match label_fit_transform (map (fun r => at_ r c) (rows df)) with
        | Raise e => (Raise e, enc)
        | Ok (classes, codes) =>
            encode_columns method
              (set_col df (c ++ "_encoded")%string (map Int codes))
              (<[c := classes]> enc) cols'
        end
      else if String.eqb method "onehot" then
        match concat_columns df (get_dummies df c) with
        | Raise e => (Raise e, enc)
        | Ok df => encode_columns method df enc cols'
        end
      else encode_columns method df enc cols'
  end.

Definition encode_categorical (df : DataFrame) (enc : encoders)
    (columns : list string) (method : string) : result DataFrame * encoders :=
  encode_columns method df enc columns.

End Encoding.

(** ** Train and test splits *)

Section Split.

(** [int(len(df) * (1 - test_size))] is a computation on floats: the
    rounding of the product decides the index, and a [test_size] that is
    not a finite number makes [int] raise.  [split_index] stands for it. *)
Context (split_index : Z -> result Z).

Definition time_series_split (df : DataFrame) (date_column : string)
  : result (DataFrame * DataFrame) :=
  df ← sort_values df date_column;
  split_idx ← split_index (len df);
  Ok (iloc_to split_idx df, iloc_from split_idx df).

End Split.

Definition season_split (df : DataFrame) (train_seasons test_seasons : list Z)
    (season_column : string) : result (DataFrame * DataFrame) :=
  train_df ← where_isin df season_column train_seasons;
  test_df ← where_isin df season_column test_seasons;
  Ok (train_df, test_df).

(** ** Validation

    The messages of the report are f-strings; they are kept as their
    arguments.  The report lists the counts of missing values per column in
    column order; the dtypes of the columns are not part of the table
    model and are left out. *)

Inductive message :=
| Insufficient_data (row_count need : Z)
| Missing_columns (cols : list string)
| High_null_percentage (cols : list string).

Record report := mkReport {
  is_valid : bool;
  errors : list message;
  warnings : list message;
  row_count : Z;
  column_count : Z;
  null_counts : list (string * Z)
}.

Definition add_error (m : message) (r : report) : report :=
  mkReport false (errors r ++ [m]) (warnings r)
           (row_count r) (column_count r) (null_counts r).

Definition add_warning (m : message) (r : report) : report :=
  mkReport (is_valid r) (errors r) (warnings r ++ [m])
           (row_count r) (column_count r) (null_counts r).

(** [null_counts > len(df) * 0.1]: a count of cells against a tenth of the
    number of rows.  The float product is the tenth rounded to the nearest
    float, which is the integer itself when the tenth is one and is never
    on the other side of an integer otherwise, so the comparison is the one
    of exact arithmetic. *)
Definition high_null (n : Z) (nulls : Z) : bool :=
  Qltb (inject_Z n * (1 # 10)) (inject_Z nulls).

Definition validate_data (df : DataFrame) (required_columns : list string)
    (min_rows : Z) : report :=
  let report := mkReport true [] [] 0 0 [] in
  let report := if len df <? min_rows
                then add_error (Insufficient_data (len df) min_rows) report
                else report in
  let missing_cols := List.filter (fun c => negb (has_col df c)) required_columns in
  let report := if is_nil missing_cols then report
                else add_error (Missing_columns missing_cols) report in
  let nulls := map (fun c => (c, null_count (map (fun r => at_ r c) (rows df))))
                   (columns df) in
  let high_null_cols :=
    map fst (List.filter (fun cn => high_null (len df) (snd cn)) nulls) in
  let report := if is_nil high_null_cols then report
                else add_warning (High_null_percentage high_null_cols) report in
  mkReport (is_valid report) (errors report) (warnings report)
           (len df) (Z.of_nat (length (columns df))) nulls.

End DataProcessor.

(* ===================================================================== *)
(** * Vocabulary of the properties                                         *)
(* ===================================================================== *)

Module Vocabulary.

Import FeatureEngineer.

(** The circuit has at least one record in the historical slice. *)
Definition circuit_known (hist : DataFrame) (circuit_name : cell) : bool :=
  existsb (fun r => cell_eqb (at_ r "GrandPrix") circuit_name) (rows hist).

(** The driver has a usable id and a row in a non-empty qualifying table. *)
Definition in_quali (quali_results : DataFrame) (driver : cell) : bool :=
  truthy driver
  && existsb (fun r => cell_eqb (at_ r "Abbreviation") driver) (rows quali_results).

Definition id_keys : list string :=
  [ "Season"; "Round"; "GrandPrix"; "Driver"; "Team" ].

Definition driver_circuit_keys : list string :=
  [ "driver_circuit_races"; "driver_circuit_avg_finish";
    "driver_circuit_best_finish"; "driver_circuit_wins"; "driver_circuit_podiums" ].

Definition session_keys : list string := [ "grid_position"; "quali_gap_to_pole" ].

Definition label_keys : list string :=
  [ "Position"; "Points"; "IsWinner"; "IsPodium"; "IsPoints" ].


(** The keys of one row, in order. *)
Definition row_keys (with_driver_circuit with_session : bool) : list string :=
  (id_keys ++ keys _default_driver_features ++ keys _default_circuit_features
   ++ (if with_driver_circuit then driver_circuit_keys else [])
   ++ keys _default_team_features
   ++ (if with_session then session_keys else [])
   ++ label_keys)%list.

(** *** Tables that differ where the builder must not look *)

(** A record of a later round: a later season, or the target season and a
    later round. *)
Definition after_target (target_season target_round : Z) (r : Row) : bool :=
  match at_ r "Season", at_ r "Round" with
  | Int s, Int n => (target_season <? s) || ((s =? target_season) && (target_round <? n))
  | _, _ => false
  end.

(** A record of the target round or of a later one. *)
Definition from_target (target_season target_round : Z) (r : Row) : bool :=
  at_target target_season target_round r || after_target target_season target_round r.

(** A record that a cutoff at date [d] drops: dated [d] or later, or
    undated. *)
Definition not_before (d : Z) (r : Row) : bool :=
  match cell_ltb (at_ r "Date") (Int d) with
  | Ok b => negb b
  | Raise _ => false
  end.

(** What a record of the target race says about who races where and for
    whom. *)
Definition identity_columns : list string :=
  [ "Season"; "Round"; "GrandPrix"; "Abbreviation"; "TeamName" ].

Definition same_identity (r r' : Row) : Prop :=
  forall c, In c identity_columns -> assoc c (cells r) = assoc c (cells r').

(** Two tables with the same columns whose rows say the same about who
    races where and for whom. *)
Definition same_target (a b : DataFrame) : Prop :=
  columns a = columns b /\ Forall2 same_identity (rows a) (rows b).

(** A record of the target race and the same record with another outcome. *)
Definition other_outcome (target_season target_round : Z) (r r' : Row) : Prop :=
  at_target target_season target_round r = true /\ same_identity r r'.

Definition never (r r' : Row) : Prop := False.

(** [altered hidden twin l1 l2]: [l2] is [l1] after records satisfying
    [hidden] were removed or added (a change is a removal and an addition)
    and records were replaced by a [twin]. *)
Inductive altered (hidden : Row -> bool) (twin : Row -> Row -> Prop)
  : list Row -> list Row -> Prop :=
| altered_nil : altered hidden twin [] []
| altered_keep r l1 l2 :
    altered hidden twin l1 l2 -> altered hidden twin (r :: l1) (r :: l2)
| altered_twin r r' l1 l2 :
    twin r r' -> altered hidden twin l1 l2 -> altered hidden twin (r :: l1) (r' :: l2)
| altered_remove r l1 l2 :
    hidden r = true -> altered hidden twin l1 l2 -> altered hidden twin (r :: l1) l2
| altered_add r l1 l2 :
    hidden r = true -> altered hidden twin l1 l2 -> altered hidden twin l1 (r :: l2).

(** The second table is the first with later records altered at will and
    with other outcomes in the records of the target race. *)
Definition altered_after (target_season target_round : Z) (a b : DataFrame) : Prop :=
  columns a = columns b
  /\ altered (after_target target_season target_round)
             (other_outcome target_season target_round) (rows a) (rows b).

(** The second table is the first with the records of the target race and
    of later rounds altered at will. *)
Definition altered_from (target_season target_round : Z) (a b : DataFrame) : Prop :=
  columns a = columns b
  /\ altered (from_target target_season target_round) never (rows a) (rows b).

(** The second table is the first with records not dated before [d]
    altered at will. *)
Definition altered_from_date (d : Z) (a b : DataFrame) : Prop :=
  columns a = columns b /\ altered (not_before d) never (rows a) (rows b).

(** Two rows agree on every key that is not a target label. *)
Definition same_features (a b : dict) : Prop :=
  forall k, ~ In k label_keys -> dict_get a k = dict_get b k.

(** *** Stints, in the words of the specification *)

(** The stint number starts at 1 and goes up by one every time the compound
    differs from the one of the lap before. *)
Fixpoint stints_from (previous : cell) (stint : Z) (compounds : list cell) : list Z :=
  match compounds with
  | [] => []
  | c :: rest =>
      let stint' := if cell_neb c previous then stint + 1 else stint in
      stint' :: stints_from c stint' rest
  end.

Definition stints_by_change (compounds : list cell) : list Z :=
  stints_from NaN 0 compounds.

(** The age of the tire is 1 on the first lap of a stint and one more than
    on the lap before otherwise. *)
Fixpoint ages_from (previous : cell) (age : Z) (compounds : list cell) : list Z :=
  match compounds with
  | [] => []
  | c :: rest =>
      let age' := if cell_neb c previous then 1 else age + 1 in
      age' :: ages_from c age' rest
  end.

Definition ages_by_change (compounds : list cell) : list Z :=
  ages_from NaN 0 compounds.

(** The same count read off the stint numbers: 1 when the number differs
    from the one before, one more than before otherwise. *)
Fixpoint run_ages (previous age : Z) (stints : list Z) : list Z :=
  match stints with
  | [] => []
  | k :: rest =>
      let age' := if k =? previous then age + 1 else 1 in
      age' :: run_ages k age' rest
  end.

(** *** Degradation, in the words of the specification *)

(** A cell holds a number or is missing. *)
Definition numeric_or_missing (c : cell) : bool :=
  match c with
  | NaN | Int _ | Num _ | Bool _ => true
  | Str _ | Timedelta _ => false
  end.

(** The laps of a stint that have a valid lap time, as points (age, lap
    time in seconds). *)
Definition lap_point (r : Row) : option (Q * Q) :=
  match at_ r "TireAge", num_of (at_ r "LapTimeSeconds") with
  | Int age, Some seconds => Some (inject_Z age, seconds)
  | _, _ => None
  end.

Definition lap_points (stint_df : list Row) : list (Q * Q) :=
  valid (map lap_point stint_df).

(** The slope of the ordinary-least-squares line: the sum of the products of
    the deviations from the means over the sum of the squared deviations of
    the abscissas. *)
Definition ols_slope (points : list (Q * Q)) : Q :=
  let xs := map fst points in
  let ys := map snd points in
  let x_mean := (Qsum xs / Qlen xs)%Q in
  let y_mean := (Qsum ys / Qlen ys)%Q in
  (Qsum (map (fun '(x, y) => (x - x_mean) * (y - y_mean)) points)
   / Qsum (map (fun x => (x - x_mean) * (x - x_mean)) xs))%Q.

(** The output row of a stint. *)
Definition stint_row (with_compound : bool) (stint : cell) (stint_df : list Row) : dict :=
  [ ("StintNumber", stint);
    ("Compound", if with_compound
                 then match stint_df with
                      | r :: _ => at_ r "Compound"
                      | [] => NaN
                      end
                 else Str "Unknown");
    ("StintLength", Int (Z.of_nat (length stint_df)));
    ("DegradationRate", float (ols_slope (lap_points stint_df)));
    ("AvgLapTime", mean_of (map snd (lap_points stint_df)));
    ("BestLapTime", min_of (map snd (lap_points stint_df))) ].

(** One row for a stint with at least three valid laps, none otherwise. *)
Definition stint_rows (with_compound : bool) (groups : list (cell * list Row)) : list dict :=
  flat_map (fun '(stint, stint_df) =>
              if (3 <=? length (lap_points stint_df))%nat
              then [stint_row with_compound stint stint_df]
              else [])
           groups.


(** The sums of the normal equations. *)
Definition Sx (points : list (Q * Q)) : Q := Qsum (map fst points).
Definition Sy (points : list (Q * Q)) : Q := Qsum (map snd points).
Definition Sxy (points : list (Q * Q)) : Q :=
  Qsum (map (fun p => fst p * snd p)%Q points).
Definition Sxx (points : list (Q * Q)) : Q :=
  Qsum (map (fun p => fst p * fst p)%Q points).
Definition Np (points : list (Q * Q)) : Q := Qlen points.

(** The two terms of the slope given by the normal equations. *)
Definition slope_num (points : list (Q * Q)) : Q :=
  (Np points * Sxy points - Sx points * Sy points)%Q.
Definition slope_den (points : list (Q * Q)) : Q :=
  (Np points * Sxx points - Sx points * Sx points)%Q.

(** *** Rolling windows, in the words of the specification *)

(** The last [w] elements of a list (all of them when there are fewer). *)
Definition lastn {A} (w : nat) (l : list A) : list A := skipn (length l - w) l.

(** Rows [max(1, i - W + 1) .. i] of the specification, with [i] counted
    from 0 here: the row at [i] and the [w - 1] rows before it, as far as
    they exist. *)
Definition window {A} (w i : nat) (l : list A) : list A :=
  skipn (S i - w) (firstn (S i) l).

(** The non-empty prefixes of a list, shortest first. *)
Fixpoint prefixes_from {A} (done : list A) (l : list A) : list (list A) :=
  match l with
  | [] => []
  | x :: l' => (done ++ [x]) :: prefixes_from (done ++ [x]) l'
  end.

Definition prefixes {A} (l : list A) : list (list A) := prefixes_from [] l.

(** The arithmetic mean of the values present in the window; missing when
    there is none. *)
Definition window_mean (cells : list cell) : cell :=
  mean_of (valid (map num_of cells)).

(** The sum of the values present in the window; missing when there is
    none. *)
Definition window_sum (cells : list cell) : cell :=
  match valid (map num_of cells) with
  | [] => NaN
  | xs => float (Qsum xs)
  end.

(** The number of cells of the window that satisfy [p], as a float. *)
Definition window_count (p : cell -> bool) (cells : list cell) : cell :=
  float (inject_Z (Z.of_nat (length (List.filter p cells)))).

(** [c <= v] on a cell that holds a number or is missing. *)
Definition at_most (v : Z) (c : cell) : bool :=
  match cell_leb c (Int v) with
  | Ok b => b
  | Raise _ => false
  end.

(** The six statistics of a window of rows. *)
Definition window_stats (with_dnf : bool) (rows_in_window : list Row) : dict :=
  let column c := map (fun r => at_ r c) rows_in_window in
  [ ("AvgFinishLast5", window_mean (column "Position"));
    ("AvgGridLast5", window_mean (column "GridPosition"));
    ("WinsLast5", window_count (fun c => cell_eqb c (Int 1)) (column "Position"));
    ("PodiumsLast5", window_count (at_most 3) (column "Position"));
    ("PointsLast5", window_sum (column "Points"));
    ("DNFsLast5", if with_dnf then window_sum (column "IsDNF") else Int 0) ].

(** The rows of the driver of [r]. *)
Definition same_driver (r r' : Row) : bool :=
  cell_eqb (at_ r' "Abbreviation") (at_ r "Abbreviation").

(** A date column holds timestamps (day numbers here) or missing values. *)
Definition date_or_missing (c : cell) : bool :=
  match c with
  | NaN | Int _ => true
  | _ => false
  end.

(** A result table as the loader and [process_race_results] leave it:
    every row names its driver, dates are timestamps, and positions, grid
    positions, points and the DNF flag (when the table has it) are numbers or
    missing. *)
Record clean_results (results : DataFrame) : Prop := {
  clean_columns :
    forallb (has_col results)
      [ "Abbreviation"; "Date"; "Position"; "GridPosition"; "Points" ] = true;
  clean_drivers :
    Forall (fun r => exists s, at_ r "Abbreviation" = Str s) (rows results);
  clean_dates :
    Forall (fun r => date_or_missing (at_ r "Date") = true) (rows results);
  clean_numbers :
    Forall (fun r =>
              Forall (fun c => numeric_or_missing (at_ r c) = true)
                     [ "Position"; "GridPosition"; "Points"; "IsDNF" ])
           (rows results)
}.

(** The table holds the records of one driver. *)
Definition single_driver (results : DataFrame) : Prop :=
  forall r r', In r (rows results) -> In r' (rows results) -> same_driver r r' = true.

(** From one row to the next the date never goes back (missing dates
    last). *)
Fixpoint dates_ascend (l : list Row) : bool :=
  match l with
  | a :: ((b :: _) as l') =>
      key_leb (at_ a "Date") (at_ b "Date") && dates_ascend l'
  | _ => true
  end.

(** The records are in chronological order. *)
Definition chronological (results : DataFrame) : Prop :=
  dates_ascend (rows results) = true.

(** The value of a cell as a float, as the mean of that cell alone gives
    it. *)
Definition as_number (c : cell) : cell :=
  match num_of c with
  | Some q => float q
  | None => NaN
  end.

(** The rows of key [k]; rows in the order of their keys. *)
Definition keyed {A} (key : A -> string) (k : string) (x : A) : bool :=
  String.eqb (key x) k.
Definition key_ordered {A} (key : A -> string) (a b : A) : Prop :=
  String.leb (key a) (key b) = true.

(** A row without cells, for the last row of an empty list. *)
Definition no_row : Row := mkRow 0 [].

(** The driver code of a row. *)
Definition driver_of (r : Row) : string :=
  match at_ r "Abbreviation" with
  | Str s => s
  | _ => ""
  end.

(** The row of the output for the row [src] of the sorted table and the
    window [w] of rows it looks at. *)
Definition stats_row (with_dnf : bool) (src : Row) (w : list Row) : Row :=
  mkRow (label src) (cells src ++ window_stats with_dnf w).

(** The running state stands for a window: it counts the values present
    and holds their sum. *)
Definition agrees (s : window_state) (w : list (option Q)) : Prop :=
  nobs s = Z.of_nat (length (valid w)) /\ (sum_x s == Qsum (valid w))%Q.

(** *** The scaler registry *)

(** The number a cell stands for once missing values are zero. *)
Definition filled_Q (c : cell) : Q :=
  match c with
  | Int z => inject_Z z
  | Num q => q
  | Bool b => if b then 1%Q else 0%Q
  | _ => 0%Q
  end.

(** The cells of the columns [cols] are numbers or missing in every row. *)
Definition numeric_columns (frame : DataFrame) (cols : list string) : Prop :=
  Forall (fun r => Forall (fun c => numeric_or_missing (at_ r c) = true) cols)
         (rows frame).

(** What every entry of the registry satisfies: the scaler was fit on as
    many columns as the entry lists, and on one at least. *)
Definition well_fit (info : DataProcessor.scaler_info) : Prop :=
  Sklearn.n_features_in_ (DataProcessor.info_scaler info)
  = length (DataProcessor.info_columns info)
  /\ DataProcessor.info_columns info <> []
  /\ length (Sklearn.mean_ (DataProcessor.info_scaler info))
     = length (DataProcessor.info_columns info)
  /\ length (Sklearn.scale_ (DataProcessor.info_scaler info))
     = length (DataProcessor.info_columns info).

Definition registry_ok (st : DataProcessor.state) : Prop :=
  forall name info, DataProcessor.scalers st !! name = Some info -> well_fit info.

(** [df[cols].fillna(0)] as an array, on a table whose cells in these
    columns are numbers or missing. *)
Definition array (frame : DataFrame) (cols : list string) : list (list Q) :=
  map (fun r => map (fun c => filled_Q (at_ r c)) cols) (rows frame).

(** The table [df.copy()] becomes once [scaler] has replaced its columns
    [cols]. *)
Definition scaled (scaler : Sklearn.StandardScaler) (frame : DataFrame)
    (cols : list string) : DataFrame :=
  DataProcessor.assign_values frame cols
    (map (Sklearn.scale_row scaler) (array frame cols)).

(** A square root for the examples: exact on the squares of rationals,
    rounded down to a multiple of the denominator otherwise. *)
Definition sqrt_down (q : Q) : Q :=
  Qmake (Z.sqrt (Qnum q * Zpos (Qden q))) (Qden q).

(** The value under key [k] in row [i] of a list of rows, when there. *)
Definition feature_at (rs : result (option (list dict))) (i : nat) (k : string)
  : option cell :=
  match rs with
  | Ok (Some records) => dict_get (nth i records []) k
  | _ => None
  end.

(** *** Counts and bounds of the feature values *)

(** How many rows hold, under column [c], a cell that satisfies [p]. *)
Definition count_rows (p : cell -> bool) (c : string) (l : list Row) : Z :=
  Z.of_nat (length (List.filter (fun r => p (at_ r c)) l)).

(** The feature [k] of the vector [f] is the integer [n]. *)
Definition counts (f : dict) (k : string) (n : Z) : Prop :=
  dict_get f k = Some (Int n).

(** Two features that are both missing, or two floats in this order. *)
Definition both_missing_or_le (a b : option cell) : Prop :=
  (a = Some NaN /\ b = Some NaN)
  \/ exists p q, a = Some (Num p) /\ b = Some (Num q) /\ (p <= q)%Q.

(** Two features that are missing together: both are missing or both are
    numbers. *)
Definition missing_together (a b : option cell) : Prop :=
  (a = Some NaN /\ b = Some NaN)
  \/ exists p q, a = Some (Num p) /\ b = Some (Num q).

(** [t] is the fastest lap time of [laps]: the time of one of them, and
    none of them has a shorter one. *)
Definition fastest_of (t : Q) (laps : list Row) : Prop :=
  (exists r s, In r laps /\ num_of (at_ r "LapTimeSeconds") = Some s /\ (s == t)%Q)
  /\ forall r s, In r laps -> num_of (at_ r "LapTimeSeconds") = Some s -> (t <= s)%Q.

(** *** Telemetry *)

(** The keys of the telemetry features, by the channels of the table. *)
Definition telemetry_keys (telemetry : DataFrame) : list string :=
  ((if has_col telemetry "Speed" then [ "max_speed"; "avg_speed"; "min_speed" ] else [])
   ++ (if has_col telemetry "Throttle" then [ "avg_throttle"; "full_throttle_pct" ] else [])
   ++ (if has_col telemetry "Brake" then [ "brake_usage_pct"; "heavy_brake_pct" ] else [])
   ++ (if has_col telemetry "nGear" then [ "avg_gear" ] else [])
   ++ (if has_col telemetry "DRS" then [ "drs_usage_pct" ] else []))%list.

Definition telemetry_channels : list string :=
  [ "Speed"; "Throttle"; "Brake"; "nGear"; "DRS" ].

(** The number of [true] in a mask, as a rational. *)
Definition Qcount (bs : list bool) : Q :=
  Qsum (map (fun b : bool => if b then 1%Q else 0%Q) bs).

(** *** Splits and validation *)

(** The date of [a] under column [c] is not after the date of [b]
    (a missing date counts as the latest). *)
Definition not_after (c : string) (a b : Row) : Prop :=
  key_leb (at_ a c) (at_ b c) = true.

(** A cell is missing or of kind [n] (0: number, 1: string, 2: duration). *)
Definition of_kind (n : nat) (c : cell) : Prop :=
  kind_of c = None \/ kind_of c = Some n.

(** The index [int(n * (1 - test_size))] in exact arithmetic. *)
Definition exact_split (test_size : Q) (n : Z) : result Z :=
  let x := (inject_Z n * (1 - test_size))%Q in
  Ok (Z.quot (Qnum x) (Zpos (Qden x))).

(** *** Processed race results *)

(** The row [r] with the cell under [c] set to [f r]. *)
Definition upd (c : string) (f : Row -> cell) (r : Row) : Row :=
  mkRow (label r) (dict_set c (f r) (cells r)).

(** [a - b] on two cells that are numbers or missing. *)
Definition difference (a b : cell) : cell :=
  match cell_sub a b with
  | Ok v => v
  | Raise _ => NaN
  end.

(** The status of the row is "Finished". *)
Definition finished (r : Row) : bool := cell_eqb (at_ r "Status") (Str "Finished").

(** What [process_race_results] makes of one row of a table that has the
    columns [Position], [GridPosition], [Status] and [Points]. *)
Definition processed_row (coerce : cell -> cell) (r : Row) : Row :=
  let to_number := DataProcessor.to_numeric coerce in
  let r := upd "Position" (fun r => to_number (at_ r "Position")) r in
  let r := upd "GridPosition" (fun r => to_number (at_ r "GridPosition")) r in
  let r := upd "PositionsGained"
               (fun r => difference (at_ r "GridPosition") (at_ r "Position")) r in
  let r := upd "IsFinished" (fun r => Bool (finished r)) r in
  let r := upd "IsDNF" (fun r => Bool (negb (finished r))) r in
  upd "Points" (fun r => DataProcessor.fillna0 (to_number (at_ r "Points"))) r.

(** Strings and durations are coerced to numbers or to missing values. *)
Definition coerces_to_numbers (coerce : cell -> cell) : Prop :=
  forall c, numeric_or_missing (coerce c) = true.

(** A coercion for the examples: nothing parses. *)
Definition coerce_nothing (c : cell) : cell := NaN.

(** The columns of a table after [df[c] = ...]. *)
Definition with_column (c : string) (cols : list string) : list string :=
  if has_key c cols then cols else (cols ++ [c])%list.

(** The cells [process_race_results] writes. *)
Definition processed_columns : list string :=
  [ "Position"; "GridPosition"; "PositionsGained"; "IsFinished"; "IsDNF"; "Points" ].

(** *** Cleaned laps *)

(** The lap has a lap time in seconds within the bounds. *)
Definition lap_time_within (min_lap_time max_lap_time : Q) (r : Row) : Prop :=
  exists q, num_of (at_ r "LapTimeSeconds") = Some q
            /\ (min_lap_time <= q)%Q /\ (q <= max_lap_time)%Q.

(** The sector columns [clean_lap_times] tests. *)
Definition sector_columns : list string :=
  [ "Sector1Time"; "Sector2Time"; "Sector3Time" ].

(** The laps of stint [k] in the driver's laps with their stint numbers. *)
Definition stint_of (k : Z) (driver_laps : DataFrame) : list Row :=
  List.filter (fun r => cell_eqb (at_ r "StintNumber") (Int k)) (rows driver_laps).


(** *** Encoded categories *)

(** The text of a cell of a column of strings once missing values are
    "Unknown". *)
Definition category_of (c : cell) : string :=
  match c with
  | Str s => s
  | _ => "Unknown"
  end.

(** A cell of a column of strings: a string or missing. *)
Definition text_or_missing (c : cell) : bool :=
  match c with
  | Str _ | NaN => true
  | _ => false
  end.

(** A number that is present. *)
Definition is_number (c : cell) : bool :=
  match c with
  | Int _ | Num _ | Bool _ => true
  | _ => false
  end.

(** A table of indicator columns for the examples: none. *)
Definition no_dummies (df : DataFrame) (c : string) : DataFrame :=
  mkDF [] (map (fun r => mkRow (label r) []) (rows df)).

End Vocabulary.

Export Vocabulary.

(* ===================================================================== *)
(** * Sample tables                                                        *)
(* ===================================================================== *)

Module Samples.

Import FeatureEngineer.

Definition result_columns : list string :=
  [ "Season"; "Round"; "GrandPrix"; "Abbreviation"; "TeamName";
    "Position"; "Points"; "IsDNF"; "Date" ].

(** One result record; the date is the day number [100 * season + round]. *)
Definition record (i season round : Z) (grand_prix driver team : string)
    (position : cell) (points : Q) (dnf : bool) : Row :=
  mkRow i [ ("Season", Int season); ("Round", Int round);
            ("GrandPrix", Str grand_prix); ("Abbreviation", Str driver);
            ("TeamName", Str team); ("Position", position);
            ("Points", Num points); ("IsDNF", Bool dnf);
            ("Date", Int (100 * season + round)) ].

(** Three rounds of 2023 and the fourth as the target. *)
Definition season_2023 : DataFrame :=
  mkDF result_columns
    [ record 0 2023 1 "Bahrain" "VER" "Red Bull" (Num 1) 25 false;
      record 1 2023 1 "Bahrain" "HAM" "Mercedes" (Num 2) 18 false;
      record 2 2023 2 "Jeddah" "VER" "Red Bull" (Num 3) 15 false;
      record 3 2023 2 "Jeddah" "HAM" "Mercedes" (Num 1) 25 false;
      record 4 2023 3 "Melbourne" "VER" "Red Bull" NaN 0 true;
      record 5 2023 3 "Melbourne" "HAM" "Mercedes" (Num 2) 18 false;
      record 6 2023 4 "Bahrain" "VER" "Red Bull" (Num 1) 25 false;
      record 7 2023 4 "Bahrain" "HAM" "Mercedes" (Num 2) 18 false ].

(** Qualifying results with times in seconds. *)
Definition quali_columns : list string := [ "Abbreviation"; "Position"; "Q3" ].

Definition quali_record (i : Z) (driver : string) (position q3 : cell) : Row :=
  mkRow i [ ("Abbreviation", Str driver); ("Position", position); ("Q3", q3) ].

Definition quali_2023_4 : DataFrame :=
  mkDF quali_columns
    [ quali_record 0 "VER" (Num 1) (Num 89);
      quali_record 1 "HAM" (Num 2) (Num (179 # 2)) ].

(** The pole-sitter's row is not in the table. *)
Definition quali_without_pole_row : DataFrame :=
  mkDF quali_columns
    [ quali_record 0 "HAM" (Num 2) (Num (179 # 2));
      quali_record 1 "ALO" (Num 3) (Num 90) ].

(** The pole-sitter is classified but has no Q3 time. *)
Definition quali_without_pole_time : DataFrame :=
  mkDF quali_columns
    [ quali_record 0 "VER" (Num 1) NaN;
      quali_record 1 "HAM" (Num 2) (Num (179 # 2)) ].


Definition quali_only_ver : DataFrame :=
  mkDF quali_columns [ quali_record 0 "VER" (Num 1) (Num 89) ].

(** The table of the season with the outcome of the target race changed. *)
Definition season_2023_other_outcome : DataFrame :=
  mkDF result_columns
    [ record 0 2023 1 "Bahrain" "VER" "Red Bull" (Num 1) 25 false;
      record 1 2023 1 "Bahrain" "HAM" "Mercedes" (Num 2) 18 false;
      record 2 2023 2 "Jeddah" "VER" "Red Bull" (Num 3) 15 false;
      record 3 2023 2 "Jeddah" "HAM" "Mercedes" (Num 1) 25 false;
      record 4 2023 3 "Melbourne" "VER" "Red Bull" NaN 0 true;
      record 5 2023 3 "Melbourne" "HAM" "Mercedes" (Num 2) 18 false;
      record 6 2023 4 "Bahrain" "VER" "Red Bull" (Num 7) 6 false;
      record 7 2023 4 "Bahrain" "HAM" "Mercedes" (Num 1) 25 false;
      record 8 2023 5 "Miami" "VER" "Red Bull" (Num 1) 25 false ].

(** The table of the season with one record of the target race changed:
    the second driver now races for the first driver's team. *)
Definition season_2023_other_team : DataFrame :=
  mkDF result_columns
    [ record 0 2023 1 "Bahrain" "VER" "Red Bull" (Num 1) 25 false;
      record 1 2023 1 "Bahrain" "HAM" "Mercedes" (Num 2) 18 false;
      record 2 2023 2 "Jeddah" "VER" "Red Bull" (Num 3) 15 false;
      record 3 2023 2 "Jeddah" "HAM" "Mercedes" (Num 1) 25 false;
      record 4 2023 3 "Melbourne" "VER" "Red Bull" NaN 0 true;
      record 5 2023 3 "Melbourne" "HAM" "Mercedes" (Num 2) 18 false;
      record 6 2023 4 "Bahrain" "VER" "Red Bull" (Num 1) 25 false;
      record 7 2023 4 "Bahrain" "HAM" "Red Bull" (Num 2) 18 false ].

(** Six laps of one driver on compounds A, A, A, B, B, A with lap times
    that grow by half a second per lap within a stint, and a second driver. *)
Definition lap (n : Z) (driver compound : string) (seconds : cell) : Row :=
  mkRow n [ ("Driver", Str driver); ("LapNumber", Int n);
            ("Compound", Str compound); ("LapTimeSeconds", seconds) ].

Definition race_laps : DataFrame :=
  mkDF [ "Driver"; "LapNumber"; "Compound"; "LapTimeSeconds" ]
    [ lap 1 "VER" "A" (Num 90);
      lap 1 "HAM" "B" (Num 91);
      lap 2 "VER" "A" (Num (181 # 2));
      lap 3 "VER" "A" (Num 91);
      lap 4 "VER" "B" (Num 89);
      lap 5 "VER" "B" NaN;
      lap 6 "VER" "A" (Num 90) ].

(** A table with two numeric columns, one of them with a missing value,
    and a column of names. *)
Definition measurements : DataFrame :=
  mkDF [ "a"; "b"; "name" ]
    [ mkRow 0 [ ("a", Num 1); ("b", Num 10); ("name", Str "x") ];
      mkRow 1 [ ("a", Num 3); ("b", NaN); ("name", Str "y") ] ].

(** The same table without its second numeric column. *)
Definition measurements_a : DataFrame :=
  mkDF [ "a"; "name" ]
    [ mkRow 0 [ ("a", Num 1); ("name", Str "x") ];
      mkRow 1 [ ("a", Num 3); ("name", Str "y") ] ].

(** A processor that has fit nothing yet, and the two tables. *)
Definition fresh_processor : DataProcessor.state :=
  DataProcessor.mkState [ measurements; measurements_a ] ∅.

(** The processor after it has fit a scaler named "n" on the two numeric
    columns of the first table. *)
Definition fitted_processor : DataProcessor.state :=
  snd (DataProcessor.fit_scaler sqrt_down 0%nat [ "a"; "b" ] "n" fresh_processor).

(** Results as [compute_driver_stats] reads them: two drivers, three races,
    in the order of the races. *)
Definition race_columns : list string :=
  [ "Abbreviation"; "Date"; "Position"; "GridPosition"; "Points"; "IsDNF" ].

Definition race (i : Z) (driver : string) (date : Z) (position : cell)
    (grid points : Z) (dnf : bool) : Row :=
  mkRow i [ ("Abbreviation", Str driver); ("Date", Int date);
            ("Position", position); ("GridPosition", Int grid);
            ("Points", Int points); ("IsDNF", Bool dnf) ].

Definition driver_results : DataFrame :=
  mkDF race_columns
    [ race 0 "VER" 1 (Num 1) 1 25 false;
      race 1 "HAM" 1 (Num 2) 3 18 false;
      race 2 "VER" 2 (Num 3) 2 15 false;
      race 3 "HAM" 2 (Num 1) 1 25 false;
      race 4 "VER" 3 NaN 1 0 true;
      race 5 "HAM" 3 (Num 4) 2 12 false ].

(** The records of one driver, in the order of the races. *)
Definition ver_results : DataFrame :=
  mkDF race_columns
    [ race 0 "VER" 1 (Num 1) 1 25 false;
      race 1 "VER" 2 (Num 3) 2 15 false;
      race 2 "VER" 3 (Num 2) 1 18 false;
      race 3 "VER" 4 (Num 5) 4 10 false ].

(** The rows of the feature table of round 4 when only one driver is in
    the qualifying results. *)
Definition rows_2023_4 : list dict :=
  Eval vm_compute in
    match feature_rows season_2023 quali_only_ver 2023 4 with
    | Ok (Some records) => records
    | _ => []
    end.

(** Telemetry of a short run. *)
Definition telemetry_run : DataFrame :=
  mkDF [ "Speed"; "Throttle"; "Brake"; "nGear" ]
    [ mkRow 0 [ ("Speed", Int 280); ("Throttle", Int 100); ("Brake", Bool false);
                ("nGear", Int 7) ];
      mkRow 1 [ ("Speed", Int 310); ("Throttle", Int 100); ("Brake", Bool false);
                ("nGear", Int 8) ];
      mkRow 2 [ ("Speed", NaN); ("Throttle", Int 20); ("Brake", Bool true);
                ("nGear", Int 5) ];
      mkRow 3 [ ("Speed", Int 120); ("Throttle", Int 0); ("Brake", Bool true);
                ("nGear", Int 3) ] ].

(** Raw results: positions as the API gives them, a retirement without a
    position and without points. *)
Definition raw_results : DataFrame :=
  mkDF [ "Abbreviation"; "Date"; "Position"; "GridPosition"; "Points"; "Status" ]
    [ mkRow 0 [ ("Abbreviation", Str "VER"); ("Date", Int 1); ("Position", Num 1);
                ("GridPosition", Num 2); ("Points", Num 25); ("Status", Str "Finished") ];
      mkRow 1 [ ("Abbreviation", Str "HAM"); ("Date", Int 1); ("Position", Str "R");
                ("GridPosition", Num 1); ("Points", NaN); ("Status", Str "Engine") ];
      mkRow 2 [ ("Abbreviation", Str "VER"); ("Date", Int 2); ("Position", Num 3);
                ("GridPosition", Num 1); ("Points", Num 15); ("Status", NaN) ] ].

(** Laps as the API gives them: lap times as durations, an in-lap, a slow
    lap and a lap without a time. *)
Definition timed_lap (i : Z) (time pit_in : cell) : Row :=
  mkRow i [ ("Driver", Str "VER"); ("LapTime", time); ("PitInTime", pit_in);
            ("Sector1Time", time) ].

Definition raw_laps : DataFrame :=
  mkDF [ "Driver"; "LapTime"; "PitInTime"; "Sector1Time" ]
    [ timed_lap 1 (Timedelta 95) NaN;
      timed_lap 2 (Timedelta 91) NaN;
      timed_lap 3 (Timedelta 93) (Timedelta 300);
      timed_lap 4 (Timedelta 250) NaN;
      timed_lap 5 NaN NaN;
      timed_lap 6 (Timedelta 90) NaN ].

(** The same laps with the lap time already in seconds and no duration
    column. *)
Definition lap_in_seconds (i : Z) (seconds pit_in : cell) : Row :=
  mkRow i [ ("Driver", Str "VER"); ("LapTimeSeconds", seconds);
            ("PitInTime", pit_in) ].

Definition laps_in_seconds : DataFrame :=
  mkDF [ "Driver"; "LapTimeSeconds"; "PitInTime" ]
    [ lap_in_seconds 1 (Num 95) NaN;
      lap_in_seconds 2 (Num 91) NaN;
      lap_in_seconds 3 (Num 93) (Timedelta 300);
      lap_in_seconds 4 (Num 250) NaN;
      lap_in_seconds 5 NaN NaN;
      lap_in_seconds 6 (Num 90) NaN ].

(** Results with a team name missing. *)
Definition team_results : DataFrame :=
  mkDF [ "Abbreviation"; "TeamName"; "Points" ]
    [ mkRow 0 [ ("Abbreviation", Str "VER"); ("TeamName", Str "Red Bull");
                ("Points", Int 25) ];
      mkRow 1 [ ("Abbreviation", Str "HAM"); ("TeamName", Str "Mercedes");
                ("Points", NaN) ];
      mkRow 2 [ ("Abbreviation", Str "PER"); ("TeamName", Str "Red Bull");
                ("Points", Int 15) ];
      mkRow 3 [ ("Abbreviation", Str "DEV"); ("TeamName", NaN);
                ("Points", Int 0) ] ].

End Samples.

(* ===================================================================== *)
(** * Properties                                                           *)
(* ===================================================================== *)

Import FeatureEngineer.

(** ** Default driver features *)

(** C2.  When the history of the driver, cut at [as_of_date] if one is
    given, has no rows, [compute_driver_features] returns the default
    mapping: average finish and grid 15.0, DNF rate 0.1, season position
    20, every count and points feature zero, all fourteen keys present.  It
    returns; it does not raise. *)
Theorem default_driver_vector :
  forall (results : DataFrame) (driver_id : cell) (as_of_date : option Z)
         (window : Z) (df : DataFrame),
    entity_history results "Abbreviation" driver_id as_of_date = Ok df ->
    rows df = [] ->
    compute_driver_features results driver_id as_of_date window
    = Ok [ ("avg_finish_last_n", Num 15);
           ("avg_grid_last_n", Num 15);
           ("avg_points_last_n", Num 0);
           ("wins_last_n", Int 0);
           ("podiums_last_n", Int 0);
           ("points_finishes_last_n", Int 0);
           ("avg_positions_gained", Num 0);
           ("dnf_rate", Num (1 # 10));
           ("career_races", Int 0);
           ("career_wins", Int 0);
           ("career_podiums", Int 0);
           ("career_points", Num 0);
           ("season_points", Num 0);
           ("season_position", Int 20) ].
Proof.
  intros results driver_id as_of_date window df Hhist Hrows.
  unfold compute_driver_features.
  rewrite Hhist. cbn [bind].
  unfold len. rewrite Hrows. reflexivity.
Qed.

(** An unknown driver, and a known driver asked about before the first
    race of the table. *)
Lemma default_driver_vector_witness :
  compute_driver_features Samples.season_2023 (Str "ALO") None 5
  = Ok _default_driver_features
  /\ compute_driver_features Samples.season_2023 (Str "VER") (Some 202301) 5
     = Ok _default_driver_features.
Proof.
  split.
  - apply (default_driver_vector Samples.season_2023 (Str "ALO") None 5
             (mkDF Samples.result_columns [])); reflexivity.
  - apply (default_driver_vector Samples.season_2023 (Str "VER") (Some 202301) 5
             (mkDF Samples.result_columns [])); reflexivity.
Defined.

(** ** Gap to pole *)

(** C9.  The gap to pole is the difference of the two Q3 times when both
    are present, and 1.0 when the Q3 column or the driver's time is missing;
    but a qualifying table without a row of position 1 makes the function
    raise [IndexError], and a pole-sitter without a time gives a missing
    gap instead of 1.0. *)
Theorem gap_to_pole_without_pole_sitter :
  compute_session_features Samples.quali_2023_4 None (Some (Str "HAM"))
  = Ok [ ("grid_position", Num 2); ("quali_gap_to_pole", Num (1 # 2)) ]
  /\ compute_session_features Samples.quali_without_pole_row None (Some (Str "HAM"))
     = Raise IndexError
  /\ compute_session_features Samples.quali_without_pole_time None (Some (Str "HAM"))
     = Ok [ ("grid_position", Num 2); ("quali_gap_to_pole", NaN) ].
Proof. repeat split; reflexivity. Qed.

(** ** Dictionaries and the error monad: basic facts *)

Lemma bind_Ok {A B} (m : result A) (k : A -> result B) (b : B) :
  bind m k = Ok b -> exists a, m = Ok a /\ k a = Ok b.
Proof.
  destruct m as [a|e]; cbn; intros H; [eauto | discriminate].
Qed.

(** Splits a hypothesis [x ← m; k = Ok b] into [m = Ok a] and [k a = Ok b],
    as often as it applies. *)
Ltac bind_inv :=
  repeat match goal with
         | H : bind ?m _ = Ok _ |- _ =>
             let a := fresh "a" in
             let Ha := fresh "Ha" in
             apply bind_Ok in H; destruct H as (a & Ha & H)
         end.

(** Rewrites with every hypothesis [Ok x = Ok y]. *)
Ltac ok_inv :=
  repeat match goal with
         | H : Ok _ = Ok _ |- _ => injection H as <-
         end.

Lemma mapM_Ok_In {A B} (f : A -> result B) (l : list A) (ys : list B) :
  mapM f l = Ok ys -> forall y, In y ys -> exists x, In x l /\ f x = Ok y.
Proof.
  revert ys. induction l as [|x l IH]; cbn; intros ys H y Hy.
  - injection H as <-. destruct Hy.
  - bind_inv. injection H as <-. destruct Hy as [<-|Hy].
    + exists x. auto.
    + destruct (IH _ Ha0 _ Hy) as (x' & Hin & Hx'). exists x'. auto.
Qed.

Lemma mapM_ext {A B} (f g : A -> result B) (l : list A) :
  (forall x, In x l -> f x = g x) -> mapM f l = mapM g l.
Proof.
  induction l as [|x l IH]; cbn; intros H; [reflexivity|].
  rewrite (H x) by auto. rewrite IH by auto. reflexivity.
Qed.

Lemma mapM_length {A B} (f : A -> result B) (l : list A) (ys : list B) :
  mapM f l = Ok ys -> length ys = length l.
Proof.
  revert ys. induction l as [|x l IH]; cbn; intros ys H.
  - injection H as <-. reflexivity.
  - bind_inv. injection H as <-. cbn. f_equal. eauto.
Qed.

Lemma has_key_In k ks : has_key k ks = true <-> In k ks.
Proof.
  unfold has_key. rewrite existsb_exists. split.
  - intros (x & Hx & He). apply String.eqb_eq in He. subst. exact Hx.
  - intros H. exists k. split; [exact H | apply String.eqb_refl].
Qed.

Lemma keys_dict_set k v d :
  keys (dict_set k v d) = if has_key k (keys d) then keys d else (keys d ++ [k])%list.
Proof.
  unfold has_key, keys.
  induction d as [|[k' v'] d IH]; cbn; [reflexivity|].
  destruct (String.eqb k k') eqn:E; cbn.
  - apply String.eqb_eq in E. subst. reflexivity.
  - rewrite IH. destruct (existsb (String.eqb k) (map fst d)); reflexivity.
Qed.

Lemma keys_dict_update d e :
  keys (dict_update d e) = union_keys (keys d) (keys e).
Proof.
  revert d.
  induction e as [|[k v] e IH]; intros d; [reflexivity|].
  change (dict_update d ((k, v) :: e)) with (dict_update (dict_set k v d) e).
  rewrite IH, keys_dict_set. cbn. unfold has_key.
  destruct (existsb (String.eqb k) (keys d)); reflexivity.
Qed.

Lemma dict_get_set_ne k k' v d :
  k <> k' -> dict_get (dict_set k' v d) k = dict_get d k.
Proof.
  intros Hne. unfold dict_get.
  induction d as [|[k0 v0] d IH]; cbn.
  - destruct (String.eqb k k') eqn:E; [apply String.eqb_eq in E; contradiction | reflexivity].
  - destruct (String.eqb k' k0) eqn:E0; cbn.
    + apply String.eqb_eq in E0. subst k0.
      destruct (String.eqb k k') eqn:E; [apply String.eqb_eq in E; contradiction | reflexivity].
    + rewrite IH. reflexivity.
Qed.

Lemma dict_update_cons d k v e :
  dict_update d ((k, v) :: e) = dict_update (dict_set k v d) e.
Proof. reflexivity. Qed.

Lemma dict_get_update_notin k d e :
  ~ In k (keys e) -> dict_get (dict_update d e) k = dict_get d k.
Proof.
  revert d.
  induction e as [|[k' v] e IH]; intros d Hn; [reflexivity|].
  rewrite dict_update_cons, IH.
  - apply dict_get_set_ne. intros ->. apply Hn. cbn. auto.
  - intros H. apply Hn. cbn. auto.
Qed.

(** ** The keys of the feature groups *)

Lemma where_eq_Ok df c v out :
  where_eq df c v = Ok out ->
  columns out = columns df
  /\ rows out = List.filter (fun r => cell_eqb (at_ r c) v) (rows df).
Proof.
  unfold where_eq. destruct (has_col df c); [|discriminate].
  intros H. injection H as <-. auto.
Qed.

Lemma len_zero_iff df : (len df =? 0) = true <-> rows df = [].
Proof.
  unfold len. rewrite Z.eqb_eq. destruct (rows df); cbn; split; intros H;
    try reflexivity; try discriminate; lia.
Qed.

Lemma filter_nil_existsb {A} (p : A -> bool) (l : list A) :
  List.filter p l = [] <-> existsb p l = false.
Proof.
  induction l as [|x l IH]; cbn; [tauto|].
  destruct (p x); cbn; [split; discriminate | exact IH].
Qed.

Lemma compute_driver_features_keys results driver_id as_of_date window f :
  compute_driver_features results driver_id as_of_date window = Ok f ->
  keys f = keys _default_driver_features.
Proof.
  unfold compute_driver_features. intros H. bind_inv.
  destruct (len a =? 0).
  - injection H as <-. reflexivity.
  - bind_inv. injection H as <-. reflexivity.
Qed.

Lemma compute_team_features_keys results team_name as_of_date window f :
  compute_team_features results team_name as_of_date window = Ok f ->
  keys f = keys _default_team_features.
Proof.
  unfold compute_team_features. intros H. bind_inv.
  destruct (len a =? 0).
  - injection H as <-. reflexivity.
  - bind_inv. injection H as <-. reflexivity.
Qed.

Lemma compute_circuit_features_keys hist circuit_name driver f :
  compute_circuit_features hist circuit_name (Some driver) = Ok f ->
  keys f = (keys _default_circuit_features
            ++ if circuit_known hist circuit_name && truthy driver
               then driver_circuit_keys else [])%list.
Proof.
  unfold compute_circuit_features, circuit_known. intros H. bind_inv.
  apply where_eq_Ok in Ha as [_ Hrows].
  destruct (len a =? 0) eqn:Hlen.
  - apply len_zero_iff in Hlen. rewrite Hrows in Hlen.
    apply filter_nil_existsb in Hlen. rewrite Hlen.
    injection H as <-. reflexivity.
  - assert (Hk : existsb (fun r => cell_eqb (at_ r "GrandPrix") circuit_name) (rows hist) = true).
    { destruct (existsb _ (rows hist)) eqn:E; [reflexivity|].
      apply filter_nil_existsb in E. rewrite <- Hrows in E.
      apply len_zero_iff in E. congruence. }
    rewrite Hk. cbn [andb given] in *. bind_inv.
    destruct (truthy driver).
    + bind_inv. destruct (0 <? len a3).
      * bind_inv. injection H as <-. reflexivity.
      * injection H as <-. reflexivity.
    + injection H as <-. reflexivity.
Qed.

Lemma compute_session_features_keys quali_results driver f :
  compute_session_features quali_results None (Some driver) = Ok f ->
  keys f = if in_quali quali_results driver then session_keys else [].
Proof.
  unfold compute_session_features, practice_features, quali_features, in_quali.
  intros H. bind_inv. injection H as <-. cbn [given] in Ha.
  destruct (truthy driver); cbn [andb] in *.
  - destruct (0 <? len quali_results) eqn:Hlen.
    + bind_inv. apply where_eq_Ok in Ha0 as [_ Hrows]. rewrite Hrows in Ha.
      destruct (List.filter _ (rows quali_results)) as [|row rest] eqn:Hr.
      * injection Ha as <-.
        apply filter_nil_existsb in Hr. rewrite Hr. reflexivity.
      * assert (Hk : existsb (fun r => cell_eqb (at_ r "Abbreviation") driver)
                       (rows quali_results) = true).
        { destruct (existsb _ (rows quali_results)) eqn:E; [reflexivity|].
          apply filter_nil_existsb in E. congruence. }
        rewrite Hk. bind_inv.
        destruct (given a1 && in_row row "Q3" && notna (at_ row "Q3")).
        -- bind_inv. injection Ha as <-. reflexivity.
        -- injection Ha as <-. reflexivity.
    + injection Ha as <-.
      assert (Hnil : rows quali_results = []).
      { unfold len in Hlen. destruct (rows quali_results); [reflexivity|].
        cbn in Hlen. apply Z.ltb_ge in Hlen. lia. }
      rewrite Hnil. reflexivity.
  - injection Ha as <-. reflexivity.
Qed.

Ltac not_a_key :=
  let H := fresh in
  cbn; intros H;
  repeat (destruct H as [H|H]; [discriminate H|]); exact H.

Lemma target_labels_keys target driver labels :
  target_labels target driver = Ok labels -> keys labels = label_keys.
Proof.
  unfold target_labels. intros H. bind_inv. injection H as <-. reflexivity.
Qed.

(** The keys of one row of the feature table, and the driver it is for. *)
Lemma feature_row_keys hist target quali_results ts tr circuit_name driver row :
  feature_row hist target quali_results ts tr circuit_name driver = Ok row ->
  keys row = row_keys (circuit_known hist circuit_name && truthy driver)
                      (in_quali quali_results driver)
  /\ dict_get row "Driver" = Some driver.
Proof.
  unfold feature_row, predictive_features. intros H. bind_inv. ok_inv.
  match goal with
  | H : compute_driver_features _ _ _ _ = Ok _ |- _ =>
      pose proof (compute_driver_features_keys _ _ _ _ _ H) as Kd
  end.
  match goal with
  | H : compute_circuit_features _ _ _ = Ok _ |- _ =>
      pose proof (compute_circuit_features_keys _ _ _ _ H) as Kc
  end.
  match goal with
  | H : compute_team_features _ _ _ _ = Ok _ |- _ =>
      pose proof (compute_team_features_keys _ _ _ _ _ H) as Kt
  end.
  match goal with
  | H : compute_session_features _ _ _ = Ok _ |- _ =>
      pose proof (compute_session_features_keys _ _ _ H) as Ks
  end.
  match goal with
  | H : target_labels _ _ = Ok _ |- _ =>
      pose proof (target_labels_keys _ _ _ H) as Kl
  end.
  split.
  - rewrite !keys_dict_update, Kd, Kc, Kt, Ks, Kl.
    destruct (circuit_known hist circuit_name && truthy driver);
      destruct (in_quali quali_results driver); reflexivity.
  - rewrite dict_get_update_notin by (rewrite Kl; not_a_key).
    rewrite dict_get_update_notin
      by (rewrite Ks; destruct (in_quali quali_results driver); not_a_key).
    rewrite dict_get_update_notin by (rewrite Kt; not_a_key).
    rewrite dict_get_update_notin
      by (rewrite Kc; destruct (circuit_known hist circuit_name && truthy driver);
          not_a_key).
    rewrite dict_get_update_notin by (rewrite Kd; not_a_key).
    reflexivity.
Qed.

Lemma feature_rows_inv race_results quali_results ts tr records :
  feature_rows race_results quali_results ts tr = Ok (Some records) ->
  exists hist target circuit_name,
    historical race_results ts tr = Ok hist
    /\ target_race race_results ts tr = Ok target
    /\ forall row, In row records ->
         exists driver,
           feature_row hist target quali_results ts tr circuit_name driver = Ok row.
Proof.
  unfold feature_rows. intros H. bind_inv.
  destruct (len a0 =? 0); [discriminate|]. bind_inv.
  injection H as <-.
  exists a, a0, a2. repeat split; try assumption.
  intros row Hin.
  destruct (mapM_Ok_In _ _ _ Ha4 row Hin) as (d & _ & Hd). eauto.
Qed.


(** ** No leakage *)

Section Altered.

Variables (hidden : Row -> bool) (twin : Row -> Row -> Prop).

(** A row-wise mask that drops the hidden records and the twins selects
    the same rows from both tables. *)
Lemma select_altered (p : Row -> result bool) l1 l2 :
  (forall r, hidden r = true -> p r = Ok false) ->
  (forall r r', twin r r' -> p r = Ok false /\ p r' = Ok false) ->
  altered hidden twin l1 l2 ->
  select p l1 = select p l2.
Proof.
  intros Hh Ht Ha.
  induction Ha as [|r l1 l2 _ IH|r r' l1 l2 Hrr _ IH|r l1 l2 Hr _ IH|r l1 l2 Hr _ IH];
    cbn [select].
  - reflexivity.
  - rewrite IH. reflexivity.
  - destruct (Ht _ _ Hrr) as [-> ->]. rewrite IH. reflexivity.
  - rewrite (Hh _ Hr), IH. cbn. destruct (select p l2); reflexivity.
  - rewrite (Hh _ Hr), IH. cbn. destruct (select p l2); reflexivity.
Qed.

(** A filter that drops the hidden records and keeps the twins leaves two
    lists that are equal up to twins. *)
Lemma filter_altered (f : Row -> bool) l1 l2 :
  (forall r, hidden r = true -> f r = false) ->
  (forall r r', twin r r' -> f r = true /\ f r' = true) ->
  altered hidden twin l1 l2 ->
  Forall2 (fun a b => a = b \/ twin a b) (List.filter f l1) (List.filter f l2).
Proof.
  intros Hh Ht Ha.
  induction Ha as [|r l1 l2 _ IH|r r' l1 l2 Hrr _ IH|r l1 l2 Hr _ IH|r l1 l2 Hr _ IH];
    cbn [List.filter].
  - constructor.
  - destruct (f r); [constructor; auto | exact IH].
  - destruct (Ht _ _ Hrr) as [-> ->]. constructor; auto.
  - rewrite (Hh _ Hr). exact IH.
  - rewrite (Hh _ Hr). exact IH.
Qed.

(** A filter that treats twins alike keeps the two lists related. *)
Lemma altered_filter (f : Row -> bool) l1 l2 :
  (forall r r', twin r r' -> f r = f r') ->
  altered hidden twin l1 l2 ->
  altered hidden twin (List.filter f l1) (List.filter f l2).
Proof.
  intros Ht Ha.
  induction Ha as [|r l1 l2 _ IH|r r' l1 l2 Hrr _ IH|r l1 l2 Hr _ IH|r l1 l2 Hr _ IH];
    cbn [List.filter].
  - constructor.
  - destruct (f r); [constructor|]; exact IH.
  - rewrite <- (Ht _ _ Hrr). destruct (f r); [constructor; assumption | exact IH].
  - destruct (f r); [constructor; assumption | exact IH].
  - destruct (f r); [constructor; assumption | exact IH].
Qed.

(** A check that runs over every row and passes on the hidden records and
    on the twins ends the same way on both tables. *)
Lemma mapM_check_altered {B C} (g : Row -> result B) (k : result C) l1 l2 :
  (forall r e, g r = Raise e -> e = TypeError) ->
  (forall r, hidden r = true -> exists b, g r = Ok b) ->
  (forall r r', twin r r' -> exists b b', g r = Ok b /\ g r' = Ok b') ->
  altered hidden twin l1 l2 ->
  bind (mapM g l1) (fun _ => k) = bind (mapM g l2) (fun _ => k).
Proof.
  intros He Hh Ht Ha.
  induction Ha as [|r l1 l2 _ IH|r r' l1 l2 Hrr _ IH|r l1 l2 Hr _ IH|r l1 l2 Hr _ IH];
    cbn [mapM].
  - reflexivity.
  - destruct (g r) as [b|e]; cbn [bind]; [|reflexivity].
    destruct (mapM g l1), (mapM g l2); cbn [bind] in *; congruence.
  - destruct (Ht _ _ Hrr) as (b & b' & -> & ->). cbn [bind].
    destruct (mapM g l1), (mapM g l2); cbn [bind] in *; congruence.
  - destruct (Hh _ Hr) as (b & ->). cbn [bind].
    destruct (mapM g l1), (mapM g l2); cbn [bind] in *; congruence.
  - destruct (Hh _ Hr) as (b & ->). cbn [bind].
    destruct (mapM g l1), (mapM g l2); cbn [bind] in *; congruence.
Qed.

End Altered.

Lemma mapM_map {A B C} (f : B -> result C) (h : A -> B) (l : list A) :
  mapM f (map h l) = mapM (fun x => f (h x)) l.
Proof.
  induction l as [|x l IH]; cbn; [reflexivity|]. rewrite IH. reflexivity.
Qed.

(** *** The masks of the target round *)

Lemma num_eqb_not_ltb (a : cell) (z : Z) :
  cell_eqb a (Int z) = true -> cell_ltb a (Int z) = Ok false.
Proof.
  unfold cell_eqb, cell_ltb, cell_cmp.
  destruct a as [|x|q|s|b|q]; cbn; try discriminate;
    unfold Qeqb, Qltb; intros H; apply Qeq_bool_iff in H;
    f_equal; apply negb_false_iff, Qle_bool_iff; rewrite H; apply Qle_refl.
Qed.

Lemma at_target_hidden ts tr r :
  at_target ts tr r = true ->
  before_target ts tr r = Ok false
  /\ cell_ltb (at_ r "Season") (Int ts) = Ok false.
Proof.
  unfold at_target, before_target. intros H.
  apply andb_true_iff in H as [Hs Hr].
  rewrite (num_eqb_not_ltb _ _ Hs), (num_eqb_not_ltb _ _ Hr), Hs. auto.
Qed.

Lemma Z_ltb_Q (x y : Z) : Qltb (inject_Z x) (inject_Z y) = (x <? y).
Proof.
  unfold Qltb. destruct (x <? y) eqn:E.
  - apply negb_true_iff. destruct (Qle_bool (inject_Z y) (inject_Z x)) eqn:F; [|reflexivity].
    apply Qle_bool_iff in F. rewrite <- Zle_Qle in F. apply Z.ltb_lt in E. lia.
  - apply negb_false_iff, Qle_bool_iff. rewrite <- Zle_Qle. apply Z.ltb_ge in E. lia.
Qed.

Lemma Z_eqb_Q (x y : Z) : Qeqb (inject_Z x) (inject_Z y) = (x =? y).
Proof.
  unfold Qeqb. destruct (x =? y) eqn:E.
  - apply Qeq_bool_iff. apply Z.eqb_eq in E. subst. reflexivity.
  - destruct (Qeq_bool (inject_Z x) (inject_Z y)) eqn:F; [|reflexivity].
    apply Qeq_bool_iff in F. unfold Qeq in F. cbn in F. apply Z.eqb_neq in E. lia.
Qed.

Lemma after_target_hidden ts tr r :
  after_target ts tr r = true ->
  before_target ts tr r = Ok false
  /\ at_target ts tr r = false
  /\ exists b, cell_ltb (at_ r "Season") (Int ts) = Ok b.
Proof.
  unfold after_target, before_target, at_target.
  destruct (at_ r "Season") as [|s|?|?|?|?]; try discriminate.
  destruct (at_ r "Round") as [|n|?|?|?|?]; try discriminate.
  intros H. unfold cell_ltb, cell_eqb, cell_cmp. cbn.
  rewrite !Z_ltb_Q, !Z_eqb_Q.
  apply orb_true_iff in H as [H|H].
  - apply Z.ltb_lt in H.
    replace (s <? ts) with false by (symmetry; apply Z.ltb_ge; lia).
    replace (s =? ts) with false by (symmetry; apply Z.eqb_neq; lia).
    cbn. eauto.
  - apply andb_true_iff in H as [H1 H2].
    apply Z.eqb_eq in H1. subst s. apply Z.ltb_lt in H2.
    rewrite Z.ltb_irrefl, Z.eqb_refl.
    replace (n <? tr) with false by (symmetry; apply Z.ltb_ge; lia).
    replace (n =? tr) with false by (symmetry; apply Z.eqb_neq; lia).
    cbn. eauto.
Qed.

Lemma same_identity_at c r r' :
  In c identity_columns -> same_identity r r' ->
  at_ r c = at_ r' c /\ in_row r c = in_row r' c.
Proof.
  intros Hc H. unfold at_, in_row. rewrite (H c Hc). auto.
Qed.

Lemma same_identity_refl r : same_identity r r.
Proof. intros c _. reflexivity. Qed.

Lemma other_outcome_at_target ts tr r r' :
  other_outcome ts tr r r' -> at_target ts tr r' = true.
Proof.
  intros [H S]. unfold at_target in *.
  destruct (same_identity_at "Season" _ _ ltac:(cbn; auto) S) as [<- _].
  destruct (same_identity_at "Round" _ _ ltac:(cbn; tauto) S) as [<- _].
  exact H.
Qed.

Lemma has_col_columns a b c : columns a = columns b -> has_col a c = has_col b c.
Proof. unfold has_col. intros ->. reflexivity. Qed.

Lemma cell_ltb_TypeError a b e : cell_ltb a b = Raise e -> e = TypeError.
Proof.
  unfold cell_ltb, cell_cmp.
  destruct a, b; cbn; intros H; try discriminate H; try (injection H as <-; reflexivity);
    repeat match goal with
           | H : context [match ?x with _ => _ end] |- _ => destruct x
           end; try discriminate H; injection H as <-; reflexivity.
Qed.

(** The historical slice does not see later records nor the outcome of the
    target race. *)
Lemma historical_altered ts tr a b :
  altered_after ts tr a b -> historical a ts tr = historical b ts tr.
Proof.
  intros [Hc Ha]. unfold historical, col.
  rewrite <- !(has_col_columns a b _ Hc), <- Hc.
  destruct (has_col a "Season"); [|reflexivity]. cbn [bind].
  rewrite !mapM_map.
  assert (Hsel : select (before_target ts tr) (rows a)
                 = select (before_target ts tr) (rows b)).
  { apply select_altered with (hidden := after_target ts tr)
                              (twin := other_outcome ts tr).
    - intros r H. apply (after_target_hidden ts tr r H).
    - intros r r' T. pose proof (other_outcome_at_target _ _ _ _ T) as T'.
      destruct T as [T _].
      split; [apply (at_target_hidden ts tr r T) | apply (at_target_hidden ts tr r' T')].
    - exact Ha. }
  rewrite Hsel.
  destruct (has_col a "Round"); cbn [bind].
  - apply mapM_check_altered with (hidden := after_target ts tr)
                                  (twin := other_outcome ts tr).
    + intros r e. apply cell_ltb_TypeError.
    + intros r H. apply (after_target_hidden ts tr r H).
    + intros r r' T. pose proof (other_outcome_at_target _ _ _ _ T) as T'.
      destruct T as [T _]. exists false, false.
      split; [apply (at_target_hidden ts tr r T) | apply (at_target_hidden ts tr r' T')].
    + exact Ha.
  - apply mapM_check_altered with (hidden := after_target ts tr)
                                  (twin := other_outcome ts tr).
    + intros r e. apply cell_ltb_TypeError.
    + intros r H. apply (after_target_hidden ts tr r H).
    + intros r r' T. pose proof (other_outcome_at_target _ _ _ _ T) as T'.
      destruct T as [T _]. exists false, false.
      split; [apply (at_target_hidden ts tr r T) | apply (at_target_hidden ts tr r' T')].
    + exact Ha.
Qed.

Lemma target_race_altered ts tr a b :
  altered_after ts tr a b ->
  target_race a ts tr = target_race b ts tr
  \/ exists ta tb, target_race a ts tr = Ok ta /\ target_race b ts tr = Ok tb
                   /\ same_target ta tb.
Proof.
  intros [Hc Ha]. unfold target_race, col.
  rewrite <- !(has_col_columns a b _ Hc).
  destruct (has_col a "Season"); [|left; reflexivity]. cbn [bind].
  destruct (has_col a "Round"); [|left; reflexivity]. cbn [bind].
  right. eexists. eexists. split; [reflexivity|]. split; [reflexivity|].
  split; [exact Hc|]. cbn [rows].
  assert (HF : Forall2 (fun x y => x = y \/ other_outcome ts tr x y)
                 (List.filter (at_target ts tr) (rows a))
                 (List.filter (at_target ts tr) (rows b))).
  { apply filter_altered with (hidden := after_target ts tr).
    - intros r H. apply (after_target_hidden ts tr r H).
    - intros r r' T. split; [exact (proj1 T) | exact (other_outcome_at_target _ _ _ _ T)].
    - exact Ha. }
  eapply Forall2_impl; [exact HF|].
  intros x y [->|[_ S]]; [apply same_identity_refl | exact S].
Qed.

Lemma same_target_filter c v l1 l2 :
  In c identity_columns ->
  Forall2 same_identity l1 l2 ->
  Forall2 same_identity
    (List.filter (fun r => cell_eqb (at_ r c) v) l1)
    (List.filter (fun r => cell_eqb (at_ r c) v) l2).
Proof.
  intros Hc H. induction H as [|x y l1 l2 Hxy _ IH]; cbn; [constructor|].
  destruct (same_identity_at c _ _ Hc Hxy) as [<- _].
  destruct (cell_eqb (at_ x c) v); [constructor; assumption | exact IH].
Qed.

Lemma same_target_col c l1 l2 :
  In c identity_columns ->
  Forall2 same_identity l1 l2 ->
  map (fun r => at_ r c) l1 = map (fun r => at_ r c) l2.
Proof.
  intros Hc H. induction H as [|x y l1 l2 Hxy _ IH]; cbn; [reflexivity|].
  destruct (same_identity_at c _ _ Hc Hxy) as [<- _]. rewrite IH. reflexivity.
Qed.

(** The predictive part of a row reads the target race for the team of the
    driver and for nothing else. *)
Lemma predictive_features_same_target hist ta tb quali ts tr circuit driver :
  same_target ta tb ->
  predictive_features hist ta quali ts tr circuit driver
  = predictive_features hist tb quali ts tr circuit driver.
Proof.
  intros [Hc HF]. unfold predictive_features, where_eq.
  rewrite <- (has_col_columns ta tb _ Hc).
  destruct (has_col ta "Abbreviation"); [|reflexivity]. cbn [bind rows].
  pose proof (same_target_filter "Abbreviation" driver _ _ ltac:(cbn; tauto) HF) as HD.
  destruct HD as [|x y l1 l2 Hxy _]; [reflexivity|]. cbn [iloc0 bind].
  unfold series_get.
  destruct (same_identity_at "TeamName" _ _ ltac:(cbn; tauto) Hxy) as [<- <-].
  reflexivity.
Qed.

Lemma same_target_len ta tb : same_target ta tb -> len ta = len tb.
Proof.
  intros [_ HF]. unfold len. f_equal. eapply Forall2_length; eassumption.
Qed.

(** The predictive rows of the table depend on the historical slice and on
    the identities in the target race. *)
Lemma predictive_rows_altered ts tr a b quali :
  altered_after ts tr a b ->
  predictive_rows a quali ts tr = predictive_rows b quali ts tr.
Proof.
  intros H. unfold predictive_rows.
  rewrite (historical_altered _ _ _ _ H).
  destruct (historical b ts tr) as [hist|e]; [|reflexivity]. cbn [bind].
  destruct (target_race_altered _ _ _ _ H) as [->|(ta & tb & -> & -> & HT)];
    [reflexivity|].
  cbn [bind]. rewrite (same_target_len _ _ HT).
  destruct (len tb =? 0); [reflexivity|].
  destruct HT as [Hc HF]. unfold col.
  rewrite <- !(has_col_columns ta tb _ Hc).
  rewrite (same_target_col "GrandPrix" _ _ ltac:(cbn; tauto) HF).
  rewrite (same_target_col "Abbreviation" _ _ ltac:(cbn; tauto) HF).
  destruct (has_col ta "GrandPrix"); [|reflexivity]. cbn [bind].
  destruct (iloc0 _) as [circuit|e]; [|reflexivity]. cbn [bind].
  destruct (has_col ta "Abbreviation"); [|reflexivity]. cbn [bind].
  rewrite (mapM_ext _ (predictive_features hist tb quali ts tr circuit));
    [reflexivity|].
  intros driver _. apply predictive_features_same_target. split; assumption.
Qed.

(** A row of the feature table is the predictive row followed by the
    target labels. *)
Lemma mapM_feature_row hist target quali ts tr circuit drivers records :
  mapM (feature_row hist target quali ts tr circuit) drivers = Ok records ->
  exists ps,
    mapM (predictive_features hist target quali ts tr circuit) drivers = Ok ps
    /\ Forall2 same_features records ps.
Proof.
  revert records. induction drivers as [|d drivers IH]; cbn [mapM]; intros records H.
  - injection H as <-. exists []. split; [reflexivity | constructor].
  - bind_inv. ok_inv.
    match goal with
    | H : mapM (feature_row _ _ _ _ _ _) _ = Ok _ |- _ =>
        destruct (IH _ H) as (ps & Hps & HF)
    end.
    match goal with
    | H : feature_row _ _ _ _ _ _ _ = Ok _ |- _ =>
        unfold feature_row in H; bind_inv; ok_inv
    end.
    match goal with
    | H : predictive_features _ _ _ _ _ _ _ = Ok ?p |- _ =>
        rewrite H; exists (p :: ps)
    end.
    cbn [bind]. rewrite Hps. cbn [bind]. split; [reflexivity|].
    constructor; [|exact HF].
    intros k Hk. apply dict_get_update_notin.
    match goal with
    | H : target_labels _ _ = Ok _ |- _ => rewrite (target_labels_keys _ _ _ H)
    end.
    exact Hk.
Qed.

Lemma feature_rows_predictive race quali ts tr records :
  feature_rows race quali ts tr = Ok (Some records) ->
  exists ps, predictive_rows race quali ts tr = Ok (Some ps)
             /\ Forall2 same_features records ps.
Proof.
  unfold feature_rows, predictive_rows. intros H. bind_inv.
  repeat match goal with
         | H : ?m = Ok _ |- context [bind ?m _] => rewrite H; cbn [bind]
         end.
  destruct (len _ =? 0); [discriminate|]. bind_inv. ok_inv.
  repeat match goal with
         | H : ?m = Ok _ |- context [bind ?m _] => rewrite H; cbn [bind]
         end.
  match goal with
  | H : mapM (feature_row _ _ _ _ _ _) _ = Ok _ |- _ =>
      destruct (mapM_feature_row _ _ _ _ _ _ _ _ H) as (ps & -> & HF)
  end.
  cbn [bind]. eauto.
Qed.

(** *** The cutoff at a date *)

Lemma entity_history_altered d a b key id :
  altered_from_date d a b ->
  entity_history a key id (Some d) = entity_history b key id (Some d).
Proof.
  intros [Hc Ha]. unfold entity_history, where_eq, where_lt.
  rewrite <- (has_col_columns a b _ Hc), <- Hc.
  destruct (has_col a key); [|reflexivity]. cbn [bind].
  unfold has_col. cbn [columns rows].
  destruct (existsb (String.eqb "Date") (columns a)); [|reflexivity].
  rewrite (select_altered (not_before d) never
             (fun r => cell_ltb (at_ r "Date") (Int d))
             (List.filter (fun r => cell_eqb (at_ r key) id) (rows a))
             (List.filter (fun r => cell_eqb (at_ r key) id) (rows b))).
  - reflexivity.
  - intros r. unfold not_before.
    destruct (cell_ltb (at_ r "Date") (Int d)) as [[|]|]; cbn; congruence.
  - intros r r' [].
  - apply altered_filter; [intros r r' [] | exact Ha].
Qed.

Lemma same_features_trans a b c :
  same_features a b -> same_features b c -> same_features a c.
Proof. intros H1 H2 k Hk. rewrite (H1 k Hk). apply H2. exact Hk. Qed.

Lemma same_features_sym a b : same_features a b -> same_features b a.
Proof. intros H k Hk. symmetry. apply H. exact Hk. Qed.

Lemma Forall2_same_features_join ra rb ps :
  Forall2 same_features ra ps -> Forall2 same_features rb ps ->
  Forall2 same_features ra rb.
Proof.
  intros H. revert rb. induction H as [|x p ra ps Hx _ IH]; intros rb Hb.
  - inversion Hb. constructor.
  - inversion Hb as [|y p' rb' ps' Hy Hrest]; subst. constructor.
    + eapply same_features_trans; [exact Hx | apply same_features_sym; exact Hy].
    + apply IH. exact Hrest.
Qed.

(** C1, as the code has it.  The predictive part of every row of
    [build_race_features] (identifying keys and the driver, circuit, team
    and session groups) is the same for two result tables that differ in
    records of later rounds, altered, removed or added at will, and in the
    outcome of the records of the target round, as long as these records
    name the same drivers, teams and Grand Prix; when both builds return,
    their rows agree on every key but the target labels.  With an explicit
    [as_of_date], the driver and team features are the same for two tables
    that differ in records not dated strictly before it. *)
Theorem no_leakage :
  (forall (a b quali_results : DataFrame) (target_season target_round : Z),
      altered_after target_season target_round a b ->
      predictive_rows a quali_results target_season target_round
      = predictive_rows b quali_results target_season target_round
      /\ forall ra rb,
           feature_rows a quali_results target_season target_round = Ok (Some ra) ->
           feature_rows b quali_results target_season target_round = Ok (Some rb) ->
           Forall2 same_features ra rb)
  /\ (forall (a b : DataFrame) (id : cell) (as_of_date window : Z),
        altered_from_date as_of_date a b ->
        compute_driver_features a id (Some as_of_date) window
        = compute_driver_features b id (Some as_of_date) window
        /\ compute_team_features a id (Some as_of_date) window
           = compute_team_features b id (Some as_of_date) window).
Proof.
  split.
  - intros a b quali ts tr H.
    pose proof (predictive_rows_altered ts tr a b quali H) as HP.
    split; [exact HP|].
    intros ra rb Ha Hb.
    apply feature_rows_predictive in Ha as (pa & Hpa & Fa).
    apply feature_rows_predictive in Hb as (pb & Hpb & Fb).
    rewrite HP, Hpb in Hpa. injection Hpa as <-.
    eapply Forall2_same_features_join; eassumption.
  - intros a b id d window H.
    unfold compute_driver_features, compute_team_features.
    rewrite !(entity_history_altered d a b _ id H). split; reflexivity.
Qed.

Lemma same_identity_records i j season round grand_prix driver team p q x y dnf dnf' :
  same_identity (Samples.record i season round grand_prix driver team p x dnf)
                (Samples.record j season round grand_prix driver team q y dnf').
Proof.
  intros c Hc. cbn in Hc.
  repeat (destruct Hc as [<-|Hc]; [reflexivity|]). contradiction.
Qed.

(** Round 4 of 2023 with another winner and a fifth round added; the same
    tables cut at the date of round 4. *)
Lemma no_leakage_witness :
  altered_after 2023 4 Samples.season_2023 Samples.season_2023_other_outcome
  /\ altered_from_date 202304 Samples.season_2023 Samples.season_2023_other_outcome
  /\ predictive_rows Samples.season_2023 Samples.quali_2023_4 2023 4
     = predictive_rows Samples.season_2023_other_outcome Samples.quali_2023_4 2023 4
  /\ compute_driver_features Samples.season_2023 (Str "VER") (Some 202304) 5
     = compute_driver_features Samples.season_2023_other_outcome (Str "VER") (Some 202304) 5.
Proof.
  assert (H1 : altered_after 2023 4 Samples.season_2023 Samples.season_2023_other_outcome).
  { split; [reflexivity|]. cbn [rows Samples.season_2023 Samples.season_2023_other_outcome].
    do 6 apply altered_keep.
    apply altered_twin; [split; [reflexivity | apply same_identity_records]|].
    apply altered_twin; [split; [reflexivity | apply same_identity_records]|].
    apply altered_add; [reflexivity|]. apply altered_nil. }
  assert (H2 : altered_from_date 202304 Samples.season_2023 Samples.season_2023_other_outcome).
  { split; [reflexivity|]. cbn [rows Samples.season_2023 Samples.season_2023_other_outcome].
    do 6 apply altered_keep.
    do 2 (apply altered_remove; [reflexivity|]).
    do 3 (apply altered_add; [reflexivity|]). apply altered_nil. }
  split; [exact H1|]. split; [exact H2|]. split.
  - apply (proj1 no_leakage _ _ Samples.quali_2023_4 2023 4 H1).
  - apply (proj2 no_leakage _ _ (Str "VER") 202304 5 H2).
Defined.

(** C1 as stated fails: a change in a record of the target round is a
    change of a record at or after the target, and it changes features.  When
    the second driver's record names the first driver's team, her team
    features are those of that team. *)
Lemma no_leakage_counterexample :
  altered_from 2023 4 Samples.season_2023 Samples.season_2023_other_team
  /\ feature_at (predictive_rows Samples.season_2023 Samples.quali_2023_4 2023 4)
       1 "team_avg_points_last_n" = Some (Num (61 # 3))
  /\ feature_at (predictive_rows Samples.season_2023_other_team Samples.quali_2023_4 2023 4)
       1 "team_avg_points_last_n" = Some (Num (40 # 3))
  /\ build_race_features Samples.season_2023 Samples.quali_2023_4 2023 4
     <> build_race_features Samples.season_2023_other_team Samples.quali_2023_4 2023 4.
Proof.
  split; [|split; [reflexivity | split; [reflexivity|]]].
  - split; [reflexivity|]. cbn [rows Samples.season_2023 Samples.season_2023_other_team].
    do 7 apply altered_keep.
    apply altered_remove; [reflexivity|].
    apply altered_add; [reflexivity|]. apply altered_nil.
  - intros H. vm_compute in H. discriminate H.
Qed.

(** ** Stint segmentation *)

Lemma combine_firstn_length {A B} (l : list A) (l' : list B) :
  combine l (firstn (length l) l') = combine l l'.
Proof.
  revert l'. induction l as [|x l IH]; intros [|y l']; cbn; try reflexivity.
  rewrite IH. reflexivity.
Qed.

Lemma stint_numbers_from previous n compounds :
  cumsum_from n (map (fun '(c, prev) => cell_neb c prev)
                     (combine compounds (previous :: compounds)))
  = stints_from previous n compounds.
Proof.
  revert previous n. induction compounds as [|c rest IH]; intros previous n;
    cbn; [reflexivity|].
  rewrite IH. destruct (cell_neb c previous); rewrite ?Z.add_0_r; reflexivity.
Qed.

Lemma stint_numbers_by_change compounds :
  stint_numbers compounds = stints_by_change compounds.
Proof.
  unfold stint_numbers, shift, cumsum, stints_by_change.
  rewrite combine_firstn_length. apply stint_numbers_from.
Qed.

(** Counting the earlier rows of the same stint gives the running count
    within the stint, because stint numbers never go down. *)
Lemma cumcount_run_ages seen previous age stints :
  (forall x, In x seen -> x <= previous) ->
  Z.of_nat (length (List.filter (Z.eqb previous) seen)) = age ->
  StronglySorted Z.le (previous :: stints) ->
  map (fun n => n + 1) (cumcount_from seen stints) = run_ages previous age stints.
Proof.
  revert seen previous age.
  induction stints as [|k rest IH]; intros seen previous age Hle Hcount Hs;
    cbn [cumcount_from run_ages map]; [reflexivity|].
  inversion Hs as [|? ? Hs' Hall]; subst.
  inversion Hall as [|? ? Hk _]; subst.
  destruct (k =? previous) eqn:E.
  - apply Z.eqb_eq in E. subst k. f_equal.
    apply IH.
    + intros x [<-|Hx]; [lia | auto].
    + cbn. rewrite Z.eqb_refl. cbn [length]. lia.
    + exact Hs'.
  - apply Z.eqb_neq in E.
    assert (Hnone : List.filter (Z.eqb k) seen = []).
    { apply filter_nil_existsb. destruct (existsb (Z.eqb k) seen) eqn:F; [|reflexivity].
      apply existsb_exists in F as (x & Hx & Hkx). apply Z.eqb_eq in Hkx. subst x.
      specialize (Hle _ Hx). lia. }
    rewrite Hnone. cbn [length]. f_equal.
    apply IH.
    + intros x [<-|Hx]; [lia | specialize (Hle _ Hx); lia].
    + cbn. rewrite Z.eqb_refl, Hnone. reflexivity.
    + exact Hs'.
Qed.

Lemma stints_from_bounds previous n compounds :
  Forall (Z.le n) (stints_from previous n compounds).
Proof.
  revert previous n. induction compounds as [|c rest IH]; intros previous n;
    cbn; constructor.
  - destruct (cell_neb c previous); lia.
  - eapply Forall_impl; [apply IH|]. intros x Hx. cbn in Hx.
    destruct (cell_neb c previous); lia.
Qed.

Lemma stints_from_sorted previous n compounds :
  StronglySorted Z.le (n :: stints_from previous n compounds).
Proof.
  revert previous n. induction compounds as [|c rest IH]; intros previous n; cbn.
  - constructor; constructor.
  - constructor.
    + apply IH.
    + constructor; [destruct (cell_neb c previous); lia|].
      eapply Forall_impl; [apply stints_from_bounds|]. intros x Hx. cbn in Hx.
      destruct (cell_neb c previous); lia.
Qed.

Lemma run_ages_by_change previous n age compounds :
  run_ages n age (stints_from previous n compounds) = ages_from previous age compounds.
Proof.
  revert previous n age. induction compounds as [|c rest IH]; intros previous n age;
    cbn; [reflexivity|].
  destruct (cell_neb c previous).
  - replace (n + 1 =? n) with false by (symmetry; apply Z.eqb_neq; lia).
    rewrite IH. reflexivity.
  - rewrite Z.eqb_refl, IH. reflexivity.
Qed.

Lemma tire_ages_by_change compounds :
  tire_ages (stint_numbers compounds) = ages_by_change compounds.
Proof.
  rewrite stint_numbers_by_change.
  unfold tire_ages, cumcount, stints_by_change, ages_by_change.
  destruct compounds as [|c rest]; [reflexivity|].
  cbn [stints_from cumcount_from ages_from List.filter length map].
  replace (cell_neb c NaN) with true by (destruct c; reflexivity).
  cbn [Z.of_nat Z.add]. f_equal.
  rewrite (cumcount_run_ages [1] 1 1).
  - apply run_ages_by_change.
  - intros x [<-|[]]. lia.
  - reflexivity.
  - apply (stints_from_sorted c 1 rest).
Qed.

Lemma assoc_dict_set_eq k v (d : dict) : assoc k (dict_set k v d) = Some v.
Proof.
  induction d as [|[k' v'] d IH]; cbn.
  - rewrite String.eqb_refl. reflexivity.
  - destruct (String.eqb k k') eqn:E; cbn.
    + rewrite String.eqb_refl. reflexivity.
    + rewrite E. exact IH.
Qed.

Lemma has_col_set_col_eq df c vals : has_col (set_col df c vals) c = true.
Proof.
  unfold set_col. destruct (has_col df c) eqn:E; unfold has_col in *; cbn [columns].
  - exact E.
  - rewrite existsb_app, E. cbn. rewrite String.eqb_refl. reflexivity.
Qed.

Lemma has_col_set_col_ne df c c' vals :
  c <> c' -> has_col (set_col df c' vals) c = has_col df c.
Proof.
  intros Hne. unfold set_col. destruct (has_col df c'); unfold has_col; cbn [columns];
    [reflexivity|].
  rewrite existsb_app. cbn.
  destruct (String.eqb c c') eqn:E; [apply String.eqb_eq in E; contradiction|].
  rewrite !orb_false_r. reflexivity.
Qed.

Lemma col_set_col_eq df c vals :
  length vals = length (rows df) -> col (set_col df c vals) c = Ok vals.
Proof.
  intros Hlen. unfold col. rewrite has_col_set_col_eq. f_equal.
  unfold set_col. cbn [rows]. rewrite map_map.
  revert vals Hlen. induction (rows df) as [|r l IH]; intros [|v vals] Hlen;
    try discriminate; cbn; [reflexivity|].
  f_equal; [|apply IH; cbn in Hlen; congruence].
  unfold at_. cbn [cells]. rewrite assoc_dict_set_eq. reflexivity.
Qed.

Lemma col_set_col_ne df c c' vals :
  c <> c' -> length vals = length (rows df) ->
  col (set_col df c' vals) c = col df c.
Proof.
  intros Hne Hlen. unfold col. rewrite (has_col_set_col_ne _ _ _ _ Hne).
  destruct (has_col df c); [|reflexivity]. f_equal.
  unfold set_col. cbn [rows]. rewrite map_map.
  revert vals Hlen. induction (rows df) as [|r l IH]; intros [|v vals] Hlen;
    try discriminate; cbn; [reflexivity|].
  f_equal; [|apply IH; cbn in Hlen; congruence].
  unfold at_. cbn [cells].
  change (assoc c (dict_set c' v (cells r))) with (dict_get (dict_set c' v (cells r)) c).
  rewrite (dict_get_set_ne _ _ _ _ Hne). reflexivity.
Qed.

Lemma set_col_rows_length df c vals :
  length vals = length (rows df) -> length (rows (set_col df c vals)) = length (rows df).
Proof.
  intros Hlen. unfold set_col. cbn [rows].
  rewrite length_map, length_combine, Hlen. apply Nat.min_id.
Qed.

Lemma cumsum_from_length n l : length (cumsum_from n l) = length l.
Proof.
  revert n. induction l as [|b l IH]; intros n; cbn; [reflexivity|].
  rewrite IH. reflexivity.
Qed.

Lemma stint_numbers_length compounds :
  length (stint_numbers compounds) = length compounds.
Proof.
  unfold stint_numbers, cumsum, shift.
  rewrite cumsum_from_length, length_map, length_combine, length_firstn.
  cbn [length]. lia.
Qed.

Lemma cumcount_from_length seen l : length (cumcount_from seen l) = length l.
Proof.
  revert seen. induction l as [|k l IH]; intros seen; cbn; [reflexivity|].
  rewrite IH. reflexivity.
Qed.

Lemma tire_ages_length stints : length (tire_ages stints) = length stints.
Proof.
  unfold tire_ages, cumcount. rewrite length_map. apply cumcount_from_length.
Qed.

Lemma sort_values_Ok df c out :
  sort_values df c = Ok out ->
  columns out = columns df
  /\ rows out = sort_by (fun a b => key_leb (at_ a c) (at_ b c)) (rows df).
Proof.
  unfold sort_values. intros H. bind_inv.
  destruct (sortable _); [|discriminate]. injection H as <-. auto.
Qed.

(** What [stint_laps] writes in the two columns it sets. *)
Lemma stint_laps_columns laps driver_id out :
  stint_laps laps driver_id = Ok (Some out) ->
  exists own sorted,
    where_eq laps "Driver" driver_id = Ok own
    /\ sort_values own "LapNumber" = Ok sorted
    /\ rows sorted <> []
    /\ let stints :=
         if has_col laps "Compound"
         then stint_numbers (map (fun r => at_ r "Compound") (rows sorted))
         else map (fun _ => 1) (rows sorted) in
       col out "StintNumber" = Ok (map Int stints)
       /\ col out "TireAge" = Ok (map Int (tire_ages stints))
       /\ length (rows out) = length (rows sorted)
       /\ forall c, c <> "StintNumber" -> c <> "TireAge" -> col out c = col sorted c.
Proof.
  unfold stint_laps. intros H. bind_inv.
  destruct (len a =? 0) eqn:Hlen; [discriminate|]. bind_inv. ok_inv.
  exists a, a0. split; [assumption|]. split; [assumption|].
  match goal with
  | H : where_eq _ _ _ = Ok _ |- _ => apply where_eq_Ok in H as [Hc1 _]
  end.
  match goal with
  | H : sort_values _ _ = Ok _ |- _ => pose proof (sort_values_Ok _ _ _ H) as [Hc2 Hr2]
  end.
  assert (Hcol : has_col a0 "Compound" = has_col laps "Compound").
  { unfold has_col. rewrite Hc2, Hc1. reflexivity. }
  assert (Hne : rows a0 <> []).
  { rewrite Hr2. destruct (rows a) as [|r l] eqn:Hr.
    - apply len_zero_iff in Hr. congruence.
    - cbn. destruct (sort_by _ l); cbn; [discriminate|].
      destruct (key_leb _ _); discriminate. }
  split; [exact Hne|].
  rewrite <- Hcol.
  assert (Hs : a1 = if has_col a0 "Compound"
                    then stint_numbers (map (fun r => at_ r "Compound") (rows a0))
                    else map (fun _ => 1) (rows a0)).
  { destruct (has_col a0 "Compound") eqn:E.
    - unfold col in *. rewrite E in *. bind_inv. ok_inv. reflexivity.
    - ok_inv. reflexivity. }
  assert (Hl : length a1 = length (rows a0)).
  { rewrite Hs. destruct (has_col a0 "Compound");
      [rewrite stint_numbers_length|]; apply length_map. }
  rewrite <- Hs. cbn zeta.
  assert (L1 : length (map Int a1) = length (rows a0)) by (rewrite length_map; exact Hl).
  assert (L2 : length (map Int (tire_ages a1))
               = length (rows (set_col a0 "StintNumber" (map Int a1)))).
  { rewrite length_map, tire_ages_length, set_col_rows_length; assumption. }
  split; [|split; [|split]].
  - rewrite col_set_col_ne by (discriminate || exact L2).
    apply col_set_col_eq. exact L1.
  - apply col_set_col_eq. exact L2.
  - rewrite set_col_rows_length by exact L2. apply set_col_rows_length. exact L1.
  - intros c N1 N2.
    rewrite col_set_col_ne by assumption. apply col_set_col_ne; assumption.
Qed.

(** ** Least squares *)

Section LeastSquares.

Local Open Scope Q_scope.

Lemma Qlen_cons {A} (x : A) (l : list A) : Qlen (x :: l) == Qlen l + 1.
Proof.
  unfold Qlen. cbn [length]. rewrite Nat2Z.inj_succ, <- Z.add_1_r, inject_Z_plus.
  reflexivity.
Qed.

Lemma Qlen_nonneg {A} (l : list A) : 0 <= Qlen l.
Proof.
  unfold Qlen. change 0 with (inject_Z 0). rewrite <- Zle_Qle. lia.
Qed.

Lemma Qlen_map {A B} (f : A -> B) (l : list A) : Qlen (map f l) = Qlen l.
Proof. unfold Qlen. rewrite length_map. reflexivity. Qed.

Lemma Qlen_pos {A} (l : list A) : l <> [] -> 0 < Qlen l.
Proof.
  intros H. unfold Qlen. change 0 with (inject_Z 0). rewrite <- Zlt_Qlt.
  destruct l; [contradiction | cbn; lia].
Qed.

Lemma polyfit_normal points :
  polyfit1_slope (map fst points) (map snd points)
  = slope_num points / slope_den points.
Proof.
  unfold polyfit1_slope, slope_num, slope_den, Np, Sx, Sy, Sxy, Sxx, dot.
  rewrite !Qlen_map.
  assert (E1 : map (fun '(a, b) => a * b) (combine (map fst points) (map snd points))
               = map (fun p => fst p * snd p) points).
  { induction points as [|[x y] l IH]; cbn; [reflexivity|]. rewrite IH. reflexivity. }
  assert (E2 : map (fun '(a, b) => a * b) (combine (map fst points) (map fst points))
               = map (fun p => fst p * fst p) points).
  { clear E1. induction points as [|[x y] l IH]; cbn; [reflexivity|]. rewrite IH. reflexivity. }
  rewrite E1, E2. reflexivity.
Qed.

Lemma sum_deviation_products c d points :
  Qsum (map (fun '(x, y) => (x - c) * (y - d)) points)
  == Sxy points - d * Sx points - c * Sy points + Np points * c * d.
Proof.
  unfold Sxy, Sx, Sy, Np.
  induction points as [|[x y] l IH].
  - unfold Qsum, Qlen. cbn. ring.
  - rewrite Qlen_cons. cbn [map Qsum fold_right fst snd] in *.
    unfold Qsum in *. rewrite IH. ring.
Qed.

Lemma sum_deviation_squares c points :
  Qsum (map (fun x => (x - c) * (x - c)) (map fst points))
  == Sxx points - (2 # 1) * c * Sx points + Np points * c * c.
Proof.
  unfold Sxx, Sx, Np.
  induction points as [|[x y] l IH].
  - unfold Qsum, Qlen. cbn. ring.
  - rewrite Qlen_cons. cbn [map Qsum fold_right fst snd] in *.
    unfold Qsum in *. rewrite IH. ring.
Qed.

Lemma Qdiv_zero_r x d : d == 0 -> x / d == 0.
Proof.
  intros H. unfold Qdiv. rewrite H. change (/ 0) with 0. ring.
Qed.

(** The textbook slope and the slope of the normal equations are the same
    number. *)
Lemma ols_slope_normal points :
  points <> [] -> ols_slope points == slope_num points / slope_den points.
Proof.
  intros Hne. unfold ols_slope.
  rewrite sum_deviation_products, sum_deviation_squares.
  rewrite !Qlen_map. fold (Np points) (Sx points) (Sy points).
  pose proof (Qlen_pos points Hne) as Hn. fold (Np points) in Hn.
  assert (Hn0 : ~ Np points == 0) by (intros E; rewrite E in Hn; discriminate Hn).
  unfold slope_num, slope_den.
  set (n := Np points) in *. set (sx := Sx points). set (sy := Sy points).
  set (sxy := Sxy points). set (sxx := Sxx points).
  assert (F1 : sxy - sy / n * sx - sx / n * sy + n * (sx / n) * (sy / n)
               == (n * sxy - sx * sy) / n) by (field; exact Hn0).
  assert (F2 : sxx - (2 # 1) * (sx / n) * sx + n * (sx / n) * (sx / n)
               == (n * sxx - sx * sx) / n) by (field; exact Hn0).
  rewrite F1, F2.
  destruct (Qeq_dec (n * sxx - sx * sx) 0) as [E|E].
  - rewrite (Qdiv_zero_r _ _ E). apply Qdiv_zero_r. rewrite E. field. exact Hn0.
  - field. split; assumption.
Qed.










End LeastSquares.

(** ** Degradation per stint *)

Lemma In_insert_by {A} (le : A -> A -> bool) x y (l : list A) :
  In y (insert_by le x l) <-> y = x \/ In y l.
Proof.
  induction l as [|z l IH]; cbn.
  - intuition.
  - destruct (le x z); cbn; [intuition|]. rewrite IH. intuition.
Qed.

Lemma In_sort_by {A} (le : A -> A -> bool) y (l : list A) :
  In y (sort_by le l) <-> In y l.
Proof.
  induction l as [|x l IH]; cbn; [tauto|].
  rewrite In_insert_by, IH. intuition.
Qed.

Lemma In_dedup {A} (eqb : A -> A -> bool) y (l : list A) :
  In y (dedup eqb l) -> In y l.
Proof.
  induction l as [|x l IH]; cbn; [tauto|].
  intros [->|H]; [auto|]. apply filter_In in H as [H _]. auto.
Qed.

Lemma Forall_sort_by {A} (le : A -> A -> bool) (P : A -> Prop) (l : list A) :
  Forall P l -> Forall P (sort_by le l).
Proof.
  rewrite !List.Forall_forall. intros H x Hx. apply H. apply In_sort_by in Hx. exact Hx.
Qed.

Lemma col_has_col a b c : col a c = col b c -> has_col a c = has_col b c.
Proof. unfold col. destruct (has_col a c), (has_col b c); congruence. Qed.

Lemma col_Forall (P : cell -> Prop) a b c :
  col a c = col b c -> has_col b c = true ->
  Forall (fun r => P (at_ r c)) (rows b) -> Forall (fun r => P (at_ r c)) (rows a).
Proof.
  intros H Hb HF. pose proof (col_has_col _ _ _ H) as Ha. rewrite Hb in Ha.
  unfold col in H. rewrite Ha, Hb in H. injection H as H.
  apply (proj2 (List.Forall_map (fun r => at_ r c) P (rows b))) in HF.
  rewrite <- H in HF.
  exact (proj1 (List.Forall_map (fun r => at_ r c) P (rows a)) HF).
Qed.

Lemma as_float_numeric c :
  numeric_or_missing c = true -> as_float c = Ok (num_of c).
Proof. destruct c; cbn; intros H; try discriminate H; reflexivity. Qed.

Lemma floats_numeric (l : list cell) :
  Forall (fun c => numeric_or_missing c = true) l -> floats l = Ok (map num_of l).
Proof.
  unfold floats. induction 1 as [|c l Hc _ IH]; cbn; [reflexivity|].
  rewrite (as_float_numeric _ Hc). cbn. rewrite IH. reflexivity.
Qed.

Lemma masked_lap_points (g : list Row) :
  Forall (fun r => exists a, at_ r "TireAge" = Int a) g ->
  masked (map num_of (map (fun r => at_ r "TireAge") g))
         (map num_of (map (fun r => at_ r "LapTimeSeconds") g))
  = lap_points g.
Proof.
  unfold lap_points. induction 1 as [|r g [a Ha] _ IH]; cbn; [reflexivity|].
  unfold lap_point at 1. rewrite Ha. cbn.
  destruct (num_of (at_ r "LapTimeSeconds")); rewrite IH; reflexivity.
Qed.

Lemma valid_length_le {A} (l : list (option A)) : (length (valid l) <= length l)%nat.
Proof. induction l as [|[x|] l IH]; cbn; lia. Qed.

Lemma lap_points_length (g : list Row) : (length (lap_points g) <= length g)%nat.
Proof.
  unfold lap_points. etransitivity; [apply valid_length_le|]. rewrite length_map. lia.
Qed.

Lemma float_ols_polyfit points :
  points <> [] ->
  float (polyfit1_slope (map fst points) (map snd points)) = float (ols_slope points).
Proof.
  intros Hne. unfold float. f_equal. apply Qred_complete.
  rewrite polyfit_normal, (ols_slope_normal _ Hne). reflexivity.
Qed.

(** One turn of the loop over the stints, on a table whose ages are
    integers and whose lap times are numbers or missing. *)
Lemma stint_record_spec out stint g :
  has_col out "LapTimeSeconds" = true ->
  Forall (fun r => exists a, at_ r "TireAge" = Int a) g ->
  Forall (fun r => numeric_or_missing (at_ r "LapTimeSeconds") = true) g ->
  stint_record out stint g
  = Ok (if (3 <=? length (lap_points g))%nat
        then Some (stint_row (has_col out "Compound") stint g)
        else None).
Proof.
  intros Hcol Hage Htime. unfold stint_record. rewrite Hcol.
  pose proof (lap_points_length g) as Hle.
  destruct (Z.of_nat (length g) <? 3) eqn:Hlen.
  - apply Z.ltb_lt in Hlen.
    replace (3 <=? length (lap_points g))%nat with false
      by (symmetry; apply Nat.leb_gt; lia).
    reflexivity.
  - rewrite (floats_numeric (map (fun r => at_ r "TireAge") g)).
    2:{ apply (proj2 (List.Forall_map _ _ _)). eapply Forall_impl; [exact Hage|].
        intros r [a ->]. reflexivity. }
    rewrite (floats_numeric (map (fun r => at_ r "LapTimeSeconds") g))
      by (apply (proj2 (List.Forall_map _ _ _)); exact Htime).
    cbn [bind]. rewrite (masked_lap_points _ Hage).
    destruct (3 <=? Z.of_nat (length (lap_points g))) eqn:Hp.
    + apply Z.leb_le in Hp.
      replace (3 <=? length (lap_points g))%nat with true
        by (symmetry; apply Nat.leb_le; lia).
      assert (Hne : lap_points g <> []) by (intros E; rewrite E in Hp; cbn in Hp; lia).
      unfold stint_row. rewrite (float_ols_polyfit _ Hne).
      destruct (has_col out "Compound"); cbn [bind]; [|reflexivity].
      destruct g as [|r g]; [cbn in *; apply Z.ltb_ge in Hlen; lia|].
      reflexivity.
    + apply Z.leb_gt in Hp.
      replace (3 <=? length (lap_points g))%nat with false
        by (symmetry; apply Nat.leb_gt; lia).
      reflexivity.
Qed.

Lemma homogeneous_ints (l : list cell) k :
  (k = None \/ k = Some 0%nat) ->
  Forall (fun c => exists z, c = Int z) l -> homogeneous_from k l = true.
Proof.
  intros Hk H. revert k Hk. induction H as [|c l [z ->] _ IH]; intros k Hk;
    cbn; [reflexivity|].
  destruct Hk as [->| ->]; cbn; apply IH; auto.
Qed.

Lemma mapM_stint_records out groups :
  has_col out "LapTimeSeconds" = true ->
  Forall (fun sg => Forall (fun r => exists a, at_ r "TireAge" = Int a) (snd sg)
                    /\ Forall (fun r => numeric_or_missing (at_ r "LapTimeSeconds") = true)
                         (snd sg)) groups ->
  exists records,
    mapM (fun '(stint, stint_df) => stint_record out stint stint_df) groups = Ok records
    /\ valid records = stint_rows (has_col out "Compound") groups.
Proof.
  intros Hcol. induction 1 as [|[stint g] groups [H1 H2] _ (records & IH1 & IH2)];
    cbn [mapM].
  - exists []. split; reflexivity.
  - cbn [snd] in *. rewrite (stint_record_spec _ _ _ Hcol H1 H2), IH1. cbn [bind].
    eexists. split; [reflexivity|].
    cbn [stint_rows flat_map]. fold (stint_rows (has_col out "Compound") groups).
    rewrite <- IH2.
    destruct (3 <=? length (lap_points g))%nat; reflexivity.
Qed.

Lemma groupby_Ok df k groups :
  groupby df k = Ok groups ->
  forall key g, In (key, g) groups ->
    In key (map (fun r => at_ r k) (rows df))
    /\ g = List.filter (fun r => cell_eqb (at_ r k) key) (rows df).
Proof.
  unfold groupby, col. destruct (has_col df k); [|discriminate]. cbn [bind].
  destruct (sortable _); [|discriminate]. intros H. injection H as <-.
  intros key g Hin. apply in_map_iff in Hin as (key' & E & Hk).
  injection E as -> <-. split; [|reflexivity].
  unfold group_keys in Hk. apply In_sort_by, In_dedup, filter_In in Hk. tauto.
Qed.

Lemma cell_eqb_Int x y : cell_eqb (Int x) (Int y) = (x =? y).
Proof. unfold cell_eqb. cbn. apply Z_eqb_Q. Qed.




Lemma insert_by_Permutation {A} (le : A -> A -> bool) x (l : list A) :
  Permutation (insert_by le x l) (x :: l).
Proof.
  induction l as [|y l IH]; cbn; [reflexivity|].
  destruct (le x y); [reflexivity|].
  rewrite IH. apply perm_swap.
Qed.

Lemma sort_by_Permutation {A} (le : A -> A -> bool) (l : list A) :
  Permutation (sort_by le l) l.
Proof.
  induction l as [|x l IH]; cbn; [reflexivity|].
  rewrite insert_by_Permutation, IH. reflexivity.
Qed.

(** The groups of an integer key: every key once, no key left out. *)
Lemma group_keys_ints (S : list Z) :
  List.NoDup (group_keys (map Int S))
  /\ forall k, In k S -> In (Int k) (group_keys (map Int S)).
Proof.
  unfold group_keys.
  assert (Hf : List.filter notna (map Int S) = map Int S).
  { induction S as [|s S IH]; cbn; [reflexivity|]. rewrite IH. reflexivity. }
  rewrite Hf. clear Hf.
  assert (H : List.NoDup (dedup cell_eqb (map Int S))
              /\ forall k, In k S -> In (Int k) (dedup cell_eqb (map Int S))).
  { induction S as [|s S [IH1 IH2]]; cbn [map dedup].
    - split; [constructor | intros k []].
    - split.
      + constructor.
        * intros Hin. apply filter_In in Hin as [_ Hin].
          rewrite cell_eqb_Int, Z.eqb_refl in Hin. discriminate Hin.
        * apply List.NoDup_filter. exact IH1.
      + intros k [->|Hk]; [left; reflexivity|].
        destruct (Z.eq_dec s k) as [->|Hne]; [left; reflexivity|].
        right. apply filter_In. split; [apply IH2, Hk|].
        rewrite cell_eqb_Int. apply negb_true_iff, Z.eqb_neq. exact Hne. }
  destruct H as [H1 H2]. split.
  - eapply Permutation_NoDup; [symmetry; apply sort_by_Permutation | exact H1].
  - intros k Hk. apply In_sort_by. apply H2, Hk.
Qed.

(** The records of [compute_tire_features] are those of the groups of the
    driver's laps by the stint numbers [stint_laps] has set. *)
Lemma stint_features_by_number laps driver_id out :
  stint_laps laps driver_id = Ok (Some out) ->
  has_col laps "LapTimeSeconds" = true ->
  Forall (fun r => numeric_or_missing (at_ r "LapTimeSeconds") = true) (rows laps) ->
  exists stints,
    map (fun r => at_ r "StintNumber") (rows out) = map Int stints
    /\ Forall (fun r => exists a, at_ r "TireAge" = Int a) (rows out)
    /\ stint_features laps driver_id
       = Ok (Some (stint_rows (has_col laps "Compound")
                     (map (fun key => (key, List.filter
                                              (fun r => cell_eqb (at_ r "StintNumber") key)
                                              (rows out)))
                          (group_keys (map Int stints))))).
Proof.
  intros Hout Hcol Hnum.
  destruct (stint_laps_columns _ _ _ Hout)
    as (own & sorted & Hown & Hsorted & _ & HS & HA & _ & Hother).
  cbn zeta in HS, HA.
  set (stints := if has_col laps "Compound"
                 then stint_numbers (map (fun r => at_ r "Compound") (rows sorted))
                 else map (fun _ => 1) (rows sorted)) in *.
  apply where_eq_Ok in Hown as [Hc1 Hr1].
  pose proof (sort_values_Ok _ _ _ Hsorted) as [Hc2 Hr2].
  assert (Hcs : forall c, has_col sorted c = has_col laps c).
  { intros c. unfold has_col. rewrite Hc2, Hc1. reflexivity. }
  assert (Htime : col out "LapTimeSeconds" = col sorted "LapTimeSeconds")
    by (apply Hother; discriminate).
  assert (Hcomp : has_col out "Compound" = has_col laps "Compound").
  { rewrite <- Hcs. apply col_has_col, Hother; discriminate. }
  assert (Hcol' : has_col out "LapTimeSeconds" = true).
  { rewrite (col_has_col _ _ _ Htime), Hcs. exact Hcol. }
  assert (Hnum' : Forall (fun r => numeric_or_missing (at_ r "LapTimeSeconds") = true)
                    (rows out)).
  { apply (col_Forall (fun c => numeric_or_missing c = true) _ _ _ Htime).
    - rewrite Hcs. exact Hcol.
    - rewrite Hr2. apply Forall_sort_by. rewrite Hr1.
      apply List.Forall_forall. intros r Hr. apply filter_In in Hr as [Hr _].
      rewrite List.Forall_forall in Hnum. apply Hnum, Hr. }
  assert (HS' : map (fun r => at_ r "StintNumber") (rows out) = map Int stints).
  { unfold col in HS. destruct (has_col out "StintNumber"); [|discriminate].
    injection HS as HS. exact HS. }
  assert (HA' : map (fun r => at_ r "TireAge") (rows out) = map Int (tire_ages stints)).
  { unfold col in HA. destruct (has_col out "TireAge"); [|discriminate].
    injection HA as HA. exact HA. }
  assert (Hage : Forall (fun r => exists a, at_ r "TireAge" = Int a) (rows out)).
  { apply (proj1 (List.Forall_map (fun r => at_ r "TireAge")
                    (fun c => exists a, c = Int a) (rows out))).
    rewrite HA'. apply (proj2 (List.Forall_map _ _ _)).
    apply List.Forall_forall. intros z _. eauto. }
  exists stints. split; [exact HS'|]. split; [exact Hage|].
  set (groups := map _ (group_keys (map Int stints))).
  assert (Hg : groupby out "StintNumber" = Ok groups).
  { unfold groupby. rewrite HS. cbn [bind].
    unfold sortable. rewrite homogeneous_ints; [reflexivity | auto |].
    apply (proj2 (List.Forall_map _ _ _)). apply List.Forall_forall. intros z _. eauto. }
  pose proof (groupby_Ok _ _ _ Hg) as Hgroups.
  assert (HF : Forall (fun sg =>
                 Forall (fun r => exists a, at_ r "TireAge" = Int a) (snd sg)
                 /\ Forall (fun r => numeric_or_missing (at_ r "LapTimeSeconds") = true)
                      (snd sg)) groups).
  { apply List.Forall_forall. intros [key g] Hin.
    destruct (Hgroups _ _ Hin) as [_ ->]. cbn [snd].
    split; apply List.Forall_forall; intros r Hr; apply filter_In in Hr as [Hr _].
    - rewrite List.Forall_forall in Hage. apply Hage, Hr.
    - rewrite List.Forall_forall in Hnum'. apply Hnum', Hr. }
  destruct (mapM_stint_records out groups Hcol' HF) as (records & Hrec & Hvalid).
  unfold stint_features. rewrite Hout. cbn [bind]. rewrite Hg. cbn [bind].
  rewrite Hrec. cbn [bind]. rewrite Hvalid, Hcomp. reflexivity.
Qed.

Lemma In_stint_rows with_compound groups d :
  In d (stint_rows with_compound groups)
  <-> exists stint stint_df,
        In (stint, stint_df) groups
        /\ (3 <= length (lap_points stint_df))%nat
        /\ d = stint_row with_compound stint stint_df.
Proof.
  unfold stint_rows. rewrite in_flat_map. split.
  - intros ([stint g] & Hin & Hd).
    destruct (3 <=? length (lap_points g))%nat eqn:E; [|destruct Hd].
    destruct Hd as [<-|[]]. apply Nat.leb_le in E. eauto.
  - intros (stint & g & Hin & Hlen & ->). exists (stint, g). split; [exact Hin|].
    apply Nat.leb_le in Hlen. rewrite Hlen. left. reflexivity.
Qed.

Lemma In_group_keys_ints (stints : list Z) (key : cell) :
  In key (group_keys (map Int stints)) <-> exists k, key = Int k /\ In k stints.
Proof.
  split.
  - intros H. unfold group_keys in H.
    apply In_sort_by, In_dedup, filter_In in H as [H _].
    apply in_map_iff in H as (k & <- & Hk). eauto.
  - intros (k & -> & Hk). apply group_keys_ints, Hk.
Qed.

(** C4.  For the compounds [A, A, A, B, B, A] the stint numbers are
    [1, 1, 1, 2, 2, 3] and the ages [1, 2, 3, 1, 2, 1].  In general the
    stint number starts at 1 and goes up by one exactly when the compound
    differs from the one of the lap before (two compounds differ when they
    are different names, and a missing compound differs from everything),
    the age is the 1-based position in the stint, and
    [compute_tire_features] sets these two columns on the driver's laps in
    lap order; without a [Compound] column every lap is in stint 1.  The
    table [compute_tire_features] returns is built from these numbers: on
    lap times that are numbers or missing it has one record for every stint
    number with at least three timed laps and no other, and the record of
    stint [k] counts the laps numbered [k]. *)
Theorem stint_segmentation :
  stint_numbers [Str "A"; Str "A"; Str "A"; Str "B"; Str "B"; Str "A"]
  = [1; 1; 1; 2; 2; 3]
  /\ tire_ages [1; 1; 1; 2; 2; 3] = [1; 2; 3; 1; 2; 1]
  /\ (forall a b, cell_neb (Str a) (Str b) = negb (String.eqb a b))
  /\ (forall compounds,
        stint_numbers compounds = stints_by_change compounds
        /\ tire_ages (stint_numbers compounds) = ages_by_change compounds)
  /\ (forall laps driver_id out,
        stint_laps laps driver_id = Ok (Some out) ->
        exists own sorted,
          where_eq laps "Driver" driver_id = Ok own
          /\ sort_values own "LapNumber" = Ok sorted
          /\ let stints :=
               if has_col laps "Compound"
               then stint_numbers (map (fun r => at_ r "Compound") (rows sorted))
               else map (fun _ => 1) (rows sorted) in
             col out "StintNumber" = Ok (map Int stints)
             /\ col out "TireAge" = Ok (map Int (tire_ages stints)))
  /\ (forall laps driver_id out,
        stint_laps laps driver_id = Ok (Some out) ->
        has_col laps "LapTimeSeconds" = true ->
        Forall (fun r => numeric_or_missing (at_ r "LapTimeSeconds") = true)
               (rows laps) ->
        exists records,
          compute_tire_features laps driver_id = Ok (from_records records)
          /\ Forall (fun d =>
                       exists k,
                         dict_get d "StintNumber" = Some (Int k)
                         /\ counts d "StintLength" (Z.of_nat (length (stint_of k out)))
                         /\ (3 <= length (lap_points (stint_of k out)))%nat)
                    records
          /\ forall k,
               (3 <= length (lap_points (stint_of k out)))%nat ->
               exists d, In d records /\ dict_get d "StintNumber" = Some (Int k)).
Proof.
  split; [reflexivity|]. split; [reflexivity|]. split; [reflexivity|]. split; [|split].
  - intros compounds. split;
      [apply stint_numbers_by_change | apply tire_ages_by_change].
  - intros laps driver_id out H.
    destruct (stint_laps_columns _ _ _ H) as (own & sorted & H1 & H2 & _ & H3 & H4 & _).
    exists own, sorted. auto.
  - intros laps driver_id out Hout Hcol Hnum.
    destruct (stint_features_by_number _ _ _ Hout Hcol Hnum)
      as (stints & HS & _ & Hfeat).
    eexists. split; [unfold compute_tire_features; rewrite Hfeat; reflexivity|].
    split.
    + apply List.Forall_forall. intros d Hd.
      apply In_stint_rows in Hd as (key & g & Hin & Hlen & ->).
      apply in_map_iff in Hin as (key' & E & Hkey). injection E as -> <-.
      apply In_group_keys_ints in Hkey as (k & -> & _).
      exists k. fold (stint_of k out). split; [reflexivity|].
      split; [reflexivity | exact Hlen].
    + intros k Hlen.
      assert (Hk : In k stints).
      { destruct (stint_of k out) as [|r g] eqn:E; [cbn in Hlen; lia|].
        assert (Hr : In r (stint_of k out)) by (rewrite E; left; reflexivity).
        apply filter_In in Hr as [Hr Heq].
        assert (Hin : In (at_ r "StintNumber") (map Int stints))
          by (rewrite <- HS; exact (in_map (fun x => at_ x "StintNumber") _ r Hr)).
        apply in_map_iff in Hin as (z & Ez & Hz). rewrite <- Ez in Heq.
        rewrite cell_eqb_Int in Heq. apply Z.eqb_eq in Heq. subst z. exact Hz. }
      exists (stint_row (has_col laps "Compound") (Int k) (stint_of k out)).
      split; [|reflexivity].
      apply In_stint_rows. exists (Int k), (stint_of k out).
      split; [|split; [exact Hlen | reflexivity]].
      apply in_map_iff. exists (Int k). split; [reflexivity|].
      apply In_group_keys_ints. eauto.
Qed.

(** The laps of one driver among two, on compounds A, A, A, B, B, A: the
    first stint is the only one of three laps. *)
Lemma stint_segmentation_witness :
  exists out records d,
    stint_laps Samples.race_laps (Str "VER") = Ok (Some out)
    /\ col out "StintNumber" = Ok (map Int [1; 1; 1; 2; 2; 3])
    /\ col out "TireAge" = Ok (map Int [1; 2; 3; 1; 2; 1])
    /\ compute_tire_features Samples.race_laps (Str "VER") = Ok (from_records records)
    /\ In d records
    /\ dict_get d "StintNumber" = Some (Int 1).
Proof.
  eexists.
  destruct (proj1 (proj2 (proj2 (proj2 (proj2 stint_segmentation))))
              Samples.race_laps (Str "VER") _ eq_refl)
    as (own & sorted & H1 & H2 & H3 & H4).
  vm_compute in H1. injection H1 as <-.
  vm_compute in H2. injection H2 as <-.
  destruct (proj2 (proj2 (proj2 (proj2 (proj2 stint_segmentation))))
              Samples.race_laps (Str "VER") _ eq_refl eq_refl)
    as (records & Hrun & _ & Hsome).
  { repeat constructor. }
  destruct (Hsome 1) as (d & Hd & Hn); [vm_compute; lia|].
  exists records, d. split; [reflexivity|].
  split; [exact H3|]. split; [exact H4|]. split; [exact Hrun|].
  split; [exact Hd | exact Hn].
Defined.



(** ** The scaler registry *)

Import Sklearn DataProcessor.

Lemma mapM_Ok_map {A B} (f : A -> result B) (g : A -> B) (l : list A) :
  Forall (fun x => f x = Ok (g x)) l -> mapM f l = Ok (map g l).
Proof.
  induction 1 as [|x l Hx _ IH]; cbn; [reflexivity|].
  rewrite Hx, IH. reflexivity.
Qed.

Lemma mapM_Raise {A B} (f : A -> result B) (l : list A) e :
  mapM f l = Raise e -> exists x, In x l /\ f x = Raise e.
Proof.
  induction l as [|x l IH]; cbn; [discriminate|].
  destruct (f x) as [y|e'] eqn:E; cbn.
  - destruct (mapM f l) as [ys|e'']; cbn; [discriminate|].
    intros H. injection H as <-. destruct (IH eq_refl) as (x' & Hin & Hx').
    exists x'. auto.
  - intros H. injection H as <-. exists x. auto.
Qed.

Lemma filled_float_numeric c :
  numeric_or_missing c = true -> filled_float c = Ok (filled_Q c).
Proof. destruct c; cbn; intros H; try discriminate H; reflexivity. Qed.

Lemma filled_values_numeric frame cols :
  numeric_columns frame cols -> filled_values frame cols = Ok (array frame cols).
Proof.
  intros H. unfold filled_values, array. apply mapM_Ok_map.
  eapply Forall_impl; [exact H|]. cbn. intros r Hr. apply mapM_Ok_map.
  eapply Forall_impl; [exact Hr|]. cbn. intros c Hc. apply filled_float_numeric, Hc.
Qed.

Lemma check_array_array frame cols :
  rows frame <> [] -> cols <> [] -> check_array (array frame cols) = Ok (length cols).
Proof.
  unfold array. destruct (rows frame) as [|r l]; [contradiction|].
  destruct cols as [|c cols]; [contradiction|]. intros _ _. cbn.
  rewrite length_map. reflexivity.
Qed.

Lemma transform_array s frame cols :
  rows frame <> [] -> cols <> [] -> n_features_in_ s = length cols ->
  transform s (array frame cols) = Ok (map (scale_row s) (array frame cols)).
Proof.
  intros Hr Hc Hn. unfold transform. rewrite (check_array_array _ _ Hr Hc). cbn [bind].
  replace (forallb _ (array frame cols)) with true; [reflexivity|].
  symmetry. apply forallb_forall. intros row Hin.
  unfold array in Hin. apply in_map_iff in Hin as (r & <- & _).
  rewrite length_map, Hn. apply Nat.eqb_refl.
Qed.

Lemma fit_lengths sqrt X s :
  fit sqrt X = Ok s ->
  length (mean_ s) = n_features_in_ s /\ length (scale_ s) = n_features_in_ s.
Proof.
  unfold fit. intros H. bind_inv. injection H as <-. cbn.
  rewrite !length_map, length_seq. auto.
Qed.

Lemma fit_array sqrt frame cols :
  rows frame <> [] -> cols <> [] ->
  exists s, fit sqrt (array frame cols) = Ok s /\ n_features_in_ s = length cols.
Proof.
  intros Hr Hc. unfold fit. rewrite (check_array_array _ _ Hr Hc). cbn [bind].
  eexists. split; reflexivity.
Qed.

Lemma deref_Some h l frame : h !! l = Some frame -> deref h l = frame.
Proof. unfold deref. intros ->. reflexivity. Qed.

Lemma deref_new h (frame : DataFrame) : deref (h ++ [frame]) (length h) = frame.
Proof.
  unfold deref. induction h as [|x h IH]; cbn; [reflexivity | exact IH].
Qed.

Lemma insert_new (h : list DataFrame) (x y : DataFrame) :
  <[length h := y]> (h ++ [x]) = h ++ [y].
Proof. induction h as [|z h IH]; cbn; [reflexivity|]. f_equal. exact IH. Qed.

Lemma lookup_old (h : list DataFrame) (x frame : DataFrame) (l : nat) :
  h !! l = Some frame -> (h ++ [x]) !! l = Some frame.
Proof.
  revert l. induction h as [|z h IH]; intros [|l]; cbn; try discriminate; auto.
Qed.

Lemma lookup_new (h : list DataFrame) (x : DataFrame) : (h ++ [x]) !! length h = Some x.
Proof. induction h as [|z h IH]; cbn; [reflexivity | exact IH]. Qed.

Lemma filter_idempotent {A} (p : A -> bool) (l : list A) :
  List.filter p (List.filter p l) = List.filter p l.
Proof.
  induction l as [|x l IH]; cbn; [reflexivity|].
  destruct (p x) eqn:E; cbn; [rewrite E, IH|]; auto.
Qed.

Lemma filter_all {A} (p : A -> bool) (l : list A) :
  forallb p l = true -> List.filter p l = l.
Proof.
  induction l as [|x l IH]; cbn; [reflexivity|].
  intros H. apply andb_true_iff in H as [-> H]. rewrite IH by exact H. reflexivity.
Qed.

Lemma is_nil_false {A} (l : list A) : l <> [] -> is_nil l = false.
Proof. destruct l; [contradiction | reflexivity]. Qed.

(** What [fit_scaler] does when a requested column is in the table. *)
Lemma fit_scaler_fits sqrt st df frame cols name :
  heap st !! df = Some frame ->
  List.filter (has_col frame) cols <> [] ->
  rows frame <> [] ->
  numeric_columns frame (List.filter (has_col frame) cols) ->
  exists s,
    fit sqrt (array frame (List.filter (has_col frame) cols)) = Ok s
    /\ n_features_in_ s = length (List.filter (has_col frame) cols)
    /\ fit_scaler sqrt df cols name st
       = (Ok (length (heap st)),
          mkState (heap st ++ [scaled s frame (List.filter (has_col frame) cols)])
                  (<[name := mkInfo s (List.filter (has_col frame) cols)]> (scalers st))).
Proof.
  intros Hdf Hvalid Hrows Hnum.
  destruct (fit_array sqrt frame _ Hrows Hvalid) as (s & Hfit & Hn).
  exists s. split; [exact Hfit|]. split; [exact Hn|].
  unfold fit_scaler, mbind, copy, read, lift, assign, register, ret. cbn [heap scalers].
  rewrite (deref_Some _ _ _ Hdf), deref_new, (is_nil_false _ Hvalid).
  rewrite (filled_values_numeric _ _ Hnum).
  unfold fit_transform. rewrite Hfit. cbn [bind].
  rewrite (transform_array _ _ _ Hrows Hvalid Hn). cbn [bind fst snd heap scalers].
  rewrite deref_new, insert_new. reflexivity.
Qed.

(** What [transform_scaler] does with a registered name on a table that
    has every column of the entry. *)
Lemma transform_scaler_transforms st df frame name info :
  scalers st !! name = Some info ->
  well_fit info ->
  heap st !! df = Some frame ->
  rows frame <> [] ->
  forallb (has_col frame) (info_columns info) = true ->
  numeric_columns frame (info_columns info) ->
  transform_scaler df name st
  = (Ok (length (heap st)),
     mkState (heap st ++ [scaled (info_scaler info) frame (info_columns info)])
             (scalers st)).
Proof.
  intros Hname (Hn & Hcols & _ & _) Hdf Hrows Hall Hnum.
  unfold transform_scaler, mbind, lookup_scaler, copy, read, lift, assign, ret.
  rewrite Hname. cbn [heap scalers].
  rewrite (deref_Some _ _ _ Hdf), !deref_new, (filter_all _ _ Hall).
  rewrite (filled_values_numeric _ _ Hnum).
  rewrite (transform_array _ _ _ Hrows Hcols Hn). cbn [bind heap scalers].
  rewrite insert_new. reflexivity.
Qed.

(** *** The registry keeps well-fit entries *)

Lemma check_array_first X n :
  check_array X = Ok n -> exists row rest, X = row :: rest /\ n = length row.
Proof.
  unfold check_array. destruct X as [|row rest]; [discriminate|].
  destruct row; [discriminate|]. intros H. injection H as <-. eauto.
Qed.

Lemma filled_values_row_lengths frame cols X :
  filled_values frame cols = Ok X -> Forall (fun row => length row = length cols) X.
Proof.
  unfold filled_values. intros H. apply List.Forall_forall. intros row Hin.
  destruct (mapM_Ok_In _ _ _ H row Hin) as (r & _ & Hr).
  apply mapM_length in Hr. exact Hr.
Qed.

Lemma registry_ok_insert st name info h :
  registry_ok st -> well_fit info ->
  registry_ok (mkState h (<[name := info]> (scalers st))).
Proof.
  intros Hok Hinfo name' info'. cbn [scalers]. rewrite lookup_insert.
  case_decide; [intros E; injection E as <-; exact Hinfo | apply Hok].
Qed.

(** Whatever [fit_scaler] does, every entry of the registry stays well
    fit. *)
Lemma fit_scaler_registry_ok sqrt st df cols name :
  registry_ok st -> registry_ok (snd (fit_scaler sqrt df cols name st)).
Proof.
  intros Hok.
  unfold fit_scaler, mbind, copy, read, lift, assign, register, ret. cbn [heap scalers].
  set (frame := deref (heap st ++ [deref (heap st) df]) (length (heap st))).
  destruct (List.filter (has_col frame) cols) as [|c vc] eqn:Hvc; cbn [is_nil snd];
    [exact Hok|].
  rewrite <- Hvc.
  destruct (filled_values frame (List.filter (has_col frame) cols)) as [X|e] eqn:HX;
    cbn [snd]; [|exact Hok].
  unfold fit_transform.
  destruct (fit sqrt X) as [s|e] eqn:Hfit; cbn [bind snd]; [|exact Hok].
  destruct (transform s X) as [Y|e] eqn:HY; cbn [bind snd fst heap scalers]; [|exact Hok].
  apply registry_ok_insert; [exact Hok|].
  destruct (fit_lengths _ _ _ Hfit) as [L1 L2].
  assert (Hn : n_features_in_ s = length (List.filter (has_col frame) cols)).
  { unfold fit in Hfit. bind_inv. injection Hfit as <-. cbn.
    match goal with
    | H : check_array _ = Ok _ |- _ =>
        apply check_array_first in H as (row & rest & -> & ->)
    end.
    pose proof (filled_values_row_lengths _ _ _ HX) as HF.
    inversion HF; subst. assumption. }
  unfold well_fit. cbn [info_scaler info_columns].
  rewrite L1, L2, Hn, Hvc. repeat split. discriminate.
Qed.

Lemma transform_scaler_registry st df name :
  scalers (snd (transform_scaler df name st)) = scalers st.
Proof.
  unfold transform_scaler, mbind, lookup_scaler, copy, read, lift, assign, ret.
  destruct (scalers st !! name) as [info|]; cbn [snd heap scalers]; [|reflexivity].
  destruct (filled_values _ _); cbn [snd scalers]; [|reflexivity].
  destruct (transform _ _); reflexivity.
Qed.

Lemma registry_ok_fresh h : registry_ok (mkState h ∅).
Proof. intros name info. cbn. rewrite lookup_empty. discriminate. Qed.

(** *** The table after scaling *)

Lemma fold_assign_update (kvs : list (string * Q)) (d : dict) :
  fold_left (fun acc '(c, v) => dict_set c (Num v) acc) kvs d
  = dict_update d (map (fun '(c, v) => (c, Num v)) kvs).
Proof.
  revert d. induction kvs as [|[c v] kvs IH]; intros d; [reflexivity|].
  cbn [fold_left map]. rewrite IH, dict_update_cons. reflexivity.
Qed.

Lemma keys_assigned cols (y : list Q) c :
  In c (keys (map (fun '(c, v) => (c, Num v)) (combine cols y))) -> In c cols.
Proof.
  revert y. induction cols as [|c' cols IH]; intros [|v y]; cbn; try tauto.
  intros [->|H]; [auto | right; eapply IH; exact H].
Qed.

Lemma assign_row_other cols r y c :
  ~ In c cols -> at_ (assign_row cols r y) c = at_ r c.
Proof.
  intros Hn. unfold at_, assign_row. cbn [cells]. rewrite fold_assign_update.
  change (assoc c (dict_update (cells r) ?e)) with (dict_get (dict_update (cells r) e) c).
  rewrite dict_get_update_notin; [reflexivity|].
  intros H. apply Hn. eapply keys_assigned. exact H.
Qed.

Lemma map_combine_map {A B C} (F : A -> B -> C) (g : A -> B) (l : list A) :
  map (fun p : A * B => let '(r, y) := p in F r y) (combine l (map g l))
  = map (fun r => F r (g r)) l.
Proof. induction l as [|x l IH]; cbn; [reflexivity|]. rewrite IH. reflexivity. Qed.

Lemma scaled_rows s frame cols :
  rows (scaled s frame cols)
  = map (fun r => assign_row cols r
                    (scale_row s (map (fun c => filled_Q (at_ r c)) cols)))
        (rows frame).
Proof.
  unfold scaled, assign_values, array. cbn [rows].
  rewrite map_map. apply (map_combine_map (assign_row cols)).
Qed.

Lemma col_scaled_other s frame cols c :
  ~ In c cols -> col (scaled s frame cols) c = col frame c.
Proof.
  intros Hn. unfold col.
  replace (has_col (scaled s frame cols) c) with (has_col frame c) by reflexivity.
  destruct (has_col frame c); [|reflexivity]. f_equal.
  rewrite scaled_rows, map_map. apply map_ext. intros r.
  apply assign_row_other. exact Hn.
Qed.

Lemma dict_get_update_in k v (d e : dict) :
  List.NoDup (keys e) -> In (k, v) e -> dict_get (dict_update d e) k = Some v.
Proof.
  revert d. induction e as [|[k0 v0] e IH]; intros d Hnd Hin; [destruct Hin|].
  rewrite dict_update_cons. cbn in Hnd. inversion Hnd as [|? ? Hnotin Hnd']; subst.
  destruct Hin as [E|Hin].
  - injection E as -> ->. rewrite dict_get_update_notin by exact Hnotin.
    apply assoc_dict_set_eq.
  - apply IH; assumption.
Qed.

Lemma keys_assigned_eq cols (y : list Q) :
  length y = length cols ->
  keys (map (fun '(c, v) => (c, Num v)) (combine cols y)) = cols.
Proof.
  revert y. induction cols as [|c cols IH]; intros [|v y] H; try discriminate;
    cbn; [reflexivity|].
  f_equal. apply IH. cbn in H. congruence.
Qed.

Lemma In_assigned (cols : list string) (y : list Q) (j : nat) (c : string) :
  nth_error cols j = Some c -> (j < length y)%nat ->
  In (c, Num (nth j y 0%Q))
     (map (fun p : string * Q => let '(c, v) := p in (c, Num v)) (combine cols y)).
Proof.
  revert y j. induction cols as [|c' cols IH]; intros [|v y] [|j] Hc Hj;
    cbn in *; try discriminate; try lia.
  - injection Hc as ->. auto.
  - right. apply IH; [exact Hc | lia].
Qed.

Lemma nth_scale_row s row j :
  (j < length row)%nat ->
  length (mean_ s) = length row -> length (scale_ s) = length row ->
  nth j (scale_row s row) 0%Q
  = Qred ((nth j row 0 - nth j (mean_ s) 0) / nth j (scale_ s) 0)%Q.
Proof.
  unfold scale_row. generalize (mean_ s) (scale_ s). revert j.
  induction row as [|x row IH]; intros j ms ds Hj Hm Hd; [cbn in Hj; lia|].
  destruct ms as [|m ms]; [discriminate|]. destruct ds as [|d ds]; [discriminate|].
  destruct j as [|j]; cbn; [reflexivity|].
  apply IH; cbn in *; lia.
Qed.

Lemma scale_row_length s row :
  length (mean_ s) = length row -> length (scale_ s) = length row ->
  length (scale_row s row) = length row.
Proof.
  intros Hm Hd. unfold scale_row.
  rewrite length_map, !length_combine, Hm, Hd. lia.
Qed.

(** The value of a scaled column: every cell is zero-filled, centred on
    the mean of its column and divided by its scale. *)
Lemma col_scaled_in s frame cols j c :
  List.NoDup cols ->
  length (mean_ s) = length cols -> length (scale_ s) = length cols ->
  nth_error cols j = Some c ->
  has_col frame c = true ->
  col (scaled s frame cols) c
  = Ok (map (fun r => Num (Qred ((filled_Q (at_ r c) - nth j (mean_ s) 0)
                                 / nth j (scale_ s) 0)%Q))
            (rows frame)).
Proof.
  intros Hnd Hm Hd Hj Hcol. unfold col.
  replace (has_col (scaled s frame cols) c) with (has_col frame c) by reflexivity.
  rewrite Hcol. f_equal. rewrite scaled_rows, map_map. apply map_ext. intros r.
  set (row := map (fun c => filled_Q (at_ r c)) cols).
  assert (Hrow : length row = length cols) by (unfold row; apply length_map).
  assert (Hlt : (j < length cols)%nat).
  { apply nth_error_Some. rewrite Hj. discriminate. }
  unfold at_ at 1, assign_row. cbn [cells]. rewrite fold_assign_update.
  change (assoc c (dict_update (cells r) ?e)) with (dict_get (dict_update (cells r) e) c).
  rewrite (dict_get_update_in c (Num (nth j (scale_row s row) 0%Q))).
  - rewrite nth_scale_row by (rewrite ?Hrow; assumption).
    assert (E : nth j row 0%Q = filled_Q (at_ r c)).
    { unfold row.
      rewrite (nth_indep _ 0%Q (filled_Q (at_ r c))) by (rewrite length_map; exact Hlt).
      rewrite (map_nth (fun c => filled_Q (at_ r c)) cols c j).
      rewrite (nth_error_nth _ _ c Hj). reflexivity. }
    rewrite E. reflexivity.
  - rewrite keys_assigned_eq; [exact Hnd|].
    rewrite scale_row_length; rewrite Hrow; auto.
  - apply In_assigned; [exact Hj|].
    rewrite scale_row_length; rewrite Hrow; auto.
Qed.

(** *** The errors of [transform_scaler] *)

Lemma filled_values_error frame cols e :
  filled_values frame cols = Raise e ->
  e = ValueError "could not convert string to float" \/ e = TypeError.
Proof.
  unfold filled_values. intros H.
  apply mapM_Raise in H as (r & _ & H). apply mapM_Raise in H as (c & _ & H).
  unfold filled_float in H. destruct (fillna0 (at_ r c)); try discriminate H;
    injection H as <-; auto.
Qed.

Lemma transform_error s X e :
  transform s X = Raise e ->
  e = ValueError "Found array with 0 sample(s)"
  \/ e = ValueError "Found array with 0 feature(s)"
  \/ e = ValueError "X has a different number of features than StandardScaler is expecting".
Proof.
  unfold transform, check_array. destruct X as [|row rest]; cbn [bind].
  - intros H. injection H as <-. auto.
  - destruct row; cbn [bind].
    + intros H. injection H as <-. auto.
    + destruct (negb _); intros H; [injection H as <-; auto | discriminate H].
Qed.

(** The lookup error is raised by the lookup and by nothing else. *)
Lemma transform_scaler_not_found st df name :
  fst (transform_scaler df name st) = Raise (not_found name)
  <-> scalers st !! name = None.
Proof.
  unfold transform_scaler, mbind, lookup_scaler, copy, read, lift, assign, ret.
  destruct (scalers st !! name) as [info|]; cbn [fst heap scalers];
    [|split; reflexivity].
  split; [|discriminate].
  destruct (filled_values _ _) as [X|e] eqn:HX; cbn [fst].
  - destruct (transform _ X) as [Y|e] eqn:HY; cbn [fst]; [discriminate|].
    intros H. injection H as ->.
    destruct (transform_error _ _ _ HY) as [E|[E|E]]; discriminate E.
  - intros H. injection H as ->.
    destruct (filled_values_error _ _ _ HX) as [E|E]; discriminate E.
Qed.

(** ** Fitting without columns *)

(** C10, as the code has it.  When none of the requested columns is in
    the table,
    [fit_scaler] returns a copy of the table with the contents of the
    original and leaves the registry as it was; if the name was not
    registered before, a later [transform_scaler] under that name raises
    the lookup error.  When some requested column is in the table (and the
    table has a row, and these columns hold numbers or missing values, so
    that the scaler accepts them), the name is registered with a scaler fit
    on exactly the requested columns that are in the table, in the order of
    the request.  Whenever [fit_scaler] raises, the registry is left as it
    was. *)
Theorem fit_scaler_registration :
  forall (sqrt : Q -> Q) (st : state) (df : ref) (frame : DataFrame)
         (columns : list string) (name : string),
    heap st !! df = Some frame ->
    (List.filter (has_col frame) columns = [] ->
       fit_scaler sqrt df columns name st
       = (Ok (length (heap st)), mkState (heap st ++ [frame]) (scalers st))
       /\ (scalers st !! name = None ->
           forall df2,
             transform_scaler df2 name (mkState (heap st ++ [frame]) (scalers st))
             = (Raise (not_found name), mkState (heap st ++ [frame]) (scalers st))))
    /\ (List.filter (has_col frame) columns <> [] ->
        rows frame <> [] ->
        numeric_columns frame (List.filter (has_col frame) columns) ->
        exists scaler st',
          fit sqrt (array frame (List.filter (has_col frame) columns)) = Ok scaler
          /\ fit_scaler sqrt df columns name st = (Ok (length (heap st)), st')
          /\ scalers st' !! name
             = Some (mkInfo scaler (List.filter (has_col frame) columns))
          /\ heap st' !! df = Some frame)
    /\ (forall e,
          fst (fit_scaler sqrt df columns name st) = Raise e ->
          scalers (snd (fit_scaler sqrt df columns name st)) = scalers st).
Proof.
  intros sqrt st df frame columns name Hdf. split; [|split].
  3:{ intros e.
      unfold fit_scaler, mbind, copy, read, ret, lift, assign, register. cbn.
      destruct (is_nil _); cbn; [reflexivity|].
      destruct (filled_values _ _); cbn; [|reflexivity].
      destruct (fit_transform sqrt a) as [[s Y]|e']; cbn; [discriminate | reflexivity]. }
  - intros Hnone. split.
    + unfold fit_scaler, mbind, copy, read, ret. cbn [heap scalers].
      rewrite (deref_Some _ _ _ Hdf), deref_new, Hnone. reflexivity.
    + intros Hname df2.
      unfold transform_scaler, mbind, lookup_scaler. cbn [scalers].
      rewrite Hname. reflexivity.
  - intros Hsome Hrows Hnum.
    destruct (fit_scaler_fits sqrt st df frame columns name Hdf Hsome Hrows Hnum)
      as (s & Hfit & _ & Hrun).
    exists s. eexists. split; [exact Hfit|]. split; [exact Hrun|].
    cbn [scalers heap]. split; [apply lookup_insert_eq | apply lookup_old, Hdf].
Qed.

(** A fresh processor asked to scale a column the table does not have,
    then to scale two columns it has and one it has not. *)
Lemma fit_scaler_registration_witness :
  fst (fit_scaler sqrt_down 0%nat ["zzz"] "n" Samples.fresh_processor) = Ok 2%nat
  /\ fst (transform_scaler 0%nat "n"
            (snd (fit_scaler sqrt_down 0%nat ["zzz"] "n" Samples.fresh_processor)))
     = Raise (not_found "n")
  /\ exists scaler,
       scalers (snd (fit_scaler sqrt_down 0%nat ["a"; "b"; "zzz"] "n"
                       Samples.fresh_processor)) !! "n"
       = Some (mkInfo scaler ["a"; "b"]).
Proof.
  pose proof (fit_scaler_registration sqrt_down Samples.fresh_processor 0%nat
                Samples.measurements ["zzz"] "n" eq_refl) as [H1 _].
  destruct (H1 eq_refl) as [Hrun Hlookup].
  pose proof (fit_scaler_registration sqrt_down Samples.fresh_processor 0%nat
                Samples.measurements ["a"; "b"; "zzz"] "n" eq_refl) as [_ [H2 _]].
  destruct H2 as (scaler & st' & _ & Hrun2 & Hreg & _).
  - discriminate.
  - discriminate.
  - repeat constructor.
  - split; [rewrite Hrun; reflexivity|]. split.
    + rewrite Hrun. cbn [snd]. rewrite (Hlookup eq_refl 0%nat). reflexivity.
    + exists scaler. rewrite Hrun2. exact Hreg.
Defined.

(** C10 as stated fails on both sides.  A name that was registered before
    is still registered after a fit without columns, so a later
    [transform_scaler] under that name uses the earlier scaler instead of
    raising the lookup error; and a requested column that is in the table
    but holds strings makes the scaler raise, so that nothing is registered
    under the name. *)
Lemma fit_scaler_registration_counterexample :
  List.filter (has_col Samples.measurements) [ "zzz" ] = []
  /\ fst (fit_scaler sqrt_down 0%nat [ "zzz" ] "n" Samples.fitted_processor) = Ok 3%nat
  /\ fst (transform_scaler 0%nat "n"
            (snd (fit_scaler sqrt_down 0%nat [ "zzz" ] "n" Samples.fitted_processor)))
     = Ok 4%nat
  /\ List.filter (has_col Samples.measurements) [ "name"; "zzz" ] = [ "name" ]
  /\ fst (fit_scaler sqrt_down 0%nat [ "name"; "zzz" ] "m" Samples.fresh_processor)
     = Raise (ValueError "could not convert string to float")
  /\ scalers (snd (fit_scaler sqrt_down 0%nat [ "name"; "zzz" ] "m"
                     Samples.fresh_processor)) !! "m"
     = None.
Proof.
  repeat split; vm_compute; reflexivity.
Qed.

Lemma forallb_filter_same {A} (p : A -> bool) (l : list A) :
  forallb p (List.filter p l) = true.
Proof.
  apply forallb_forall. intros x Hx. apply filter_In in Hx. tauto.
Qed.

(** ** Round trip *)

(** C7, as the code has it.  When at least one requested column is in the
    table (and the table has a row and numbers in these columns, so that
    [fit_scaler] returns), [transform_scaler] under the fitted name on the
    table that was fit returns a table with the contents of the one
    [fit_scaler] returned: both resolve the same columns, fill missing
    values with zero and apply the same scaler. *)
Theorem scaler_round_trip :
  forall (sqrt : Q -> Q) (st : state) (df : ref) (frame : DataFrame)
         (columns : list string) (name : string),
    heap st !! df = Some frame ->
    List.filter (has_col frame) columns <> [] ->
    rows frame <> [] ->
    numeric_columns frame (List.filter (has_col frame) columns) ->
    exists fitted st1 again st2 table,
      fit_scaler sqrt df columns name st = (Ok fitted, st1)
      /\ transform_scaler df name st1 = (Ok again, st2)
      /\ heap st1 !! fitted = Some table
      /\ heap st2 !! again = Some table
      /\ heap st2 !! fitted = Some table
      /\ heap st2 !! df = Some frame.
Proof.
  intros sqrt st df frame columns name Hdf Hsome Hrows Hnum.
  destruct (fit_scaler_fits sqrt st df frame columns name Hdf Hsome Hrows Hnum)
    as (s & Hfit & Hn & Hrun).
  set (vc := List.filter (has_col frame) columns) in *.
  set (st1 := mkState (heap st ++ [scaled s frame vc])
                      (<[name := mkInfo s vc]> (scalers st))) in *.
  destruct (fit_lengths _ _ _ Hfit) as [L1 L2].
  assert (Hrun2 : transform_scaler df name st1
                  = (Ok (length (heap st1)),
                     mkState (heap st1 ++ [scaled s frame vc]) (scalers st1))).
  { apply (transform_scaler_transforms st1 df frame name (mkInfo s vc)).
    - apply lookup_insert_eq.
    - unfold well_fit. cbn [info_scaler info_columns]. rewrite L1, L2. auto.
    - apply lookup_old, Hdf.
    - exact Hrows.
    - apply forallb_filter_same.
    - exact Hnum. }
  exists (length (heap st)), st1, (length (heap st1)),
    (mkState (heap st1 ++ [scaled s frame vc]) (scalers st1)), (scaled s frame vc).
  split; [exact Hrun|]. split; [exact Hrun2|]. cbn [heap].
  split; [apply lookup_new|]. split; [apply lookup_new|].
  split; [apply lookup_old, lookup_new | apply lookup_old, lookup_old, Hdf].
Qed.

(** Scaling the two numeric columns of the sample table, then transforming
    the same table. *)
Lemma scaler_round_trip_witness :
  exists fitted st1 again st2 table,
    fit_scaler sqrt_down 0%nat ["a"; "b"; "zzz"] "n" Samples.fresh_processor
    = (Ok fitted, st1)
    /\ transform_scaler 0%nat "n" st1 = (Ok again, st2)
    /\ heap st1 !! fitted = Some table
    /\ heap st2 !! again = Some table.
Proof.
  destruct (scaler_round_trip sqrt_down Samples.fresh_processor 0%nat
              Samples.measurements ["a"; "b"; "zzz"] "n" eq_refl)
    as (fitted & st1 & again & st2 & table & H1 & H2 & H3 & H4 & _).
  - discriminate.
  - discriminate.
  - repeat constructor.
  - exists fitted, st1, again, st2, table. auto.
Defined.

(** C7 as stated fails when no requested column is in the table:
    [fit_scaler] returns the table as it is, and [transform_scaler] under
    the same name raises the lookup error. *)
Lemma scaler_round_trip_counterexample :
  fst (fit_scaler sqrt_down 0%nat ["zzz"] "n" Samples.fresh_processor) = Ok 2%nat
  /\ heap (snd (fit_scaler sqrt_down 0%nat ["zzz"] "n" Samples.fresh_processor)) !! 2%nat
     = Some Samples.measurements
  /\ fst (transform_scaler 0%nat "n"
            (snd (fit_scaler sqrt_down 0%nat ["zzz"] "n" Samples.fresh_processor)))
     = Raise (ValueError "Scaler 'n' not found").
Proof. repeat split; reflexivity. Qed.

(** ** Lookup failure *)

(** C8, as the code has it.  [transform_scaler] raises the lookup error if
    and only if the name is not in the registry.  When the name is in the
    registry, the table has a row and every column of the entry, and these
    columns hold numbers or missing values, it returns a new table and
    leaves the table it was given and the registry as they were; in the new
    table every column outside the entry is as in the given one, and every
    cell of a column of the entry is the given cell, zero when missing,
    minus the mean over the scale that the scaler holds for that column. *)
Theorem transform_scaler_lookup :
  forall (st : state) (df : ref) (name : string),
    (fst (transform_scaler df name st) = Raise (not_found name)
     <-> scalers st !! name = None)
    /\ (forall (info : scaler_info) (frame : DataFrame),
          registry_ok st ->
          scalers st !! name = Some info ->
          heap st !! df = Some frame ->
          rows frame <> [] ->
          forallb (has_col frame) (info_columns info) = true ->
          numeric_columns frame (info_columns info) ->
          exists out st',
            transform_scaler df name st = (Ok (length (heap st)), st')
            /\ heap st' !! length (heap st) = Some out
            /\ heap st' !! df = Some frame
            /\ scalers st' = scalers st
            /\ columns out = columns frame
            /\ (forall c, ~ In c (info_columns info) -> col out c = col frame c)
            /\ (List.NoDup (info_columns info) ->
                forall j c,
                  nth_error (info_columns info) j = Some c ->
                  col out c
                  = Ok (map (fun r =>
                               Num (Qred ((filled_Q (at_ r c)
                                           - nth j (mean_ (info_scaler info)) 0)
                                          / nth j (scale_ (info_scaler info)) 0)%Q))
                            (rows frame)))).
Proof.
  intros st df name. split; [apply transform_scaler_not_found|].
  intros info frame Hok Hname Hdf Hrows Hall Hnum.
  pose proof (Hok _ _ Hname) as Hwf.
  pose proof (transform_scaler_transforms st df frame name info
                Hname Hwf Hdf Hrows Hall Hnum) as Hrun.
  destruct Hwf as (_ & _ & L1 & L2).
  exists (scaled (info_scaler info) frame (info_columns info)). eexists.
  split; [exact Hrun|]. cbn [heap scalers].
  split; [apply lookup_new|]. split; [apply lookup_old, Hdf|].
  split; [reflexivity|]. split; [reflexivity|]. split.
  - intros c Hc. apply col_scaled_other, Hc.
  - intros Hnd j c Hj.
    apply col_scaled_in; try assumption.
    rewrite forallb_forall in Hall. apply Hall.
    apply nth_error_In in Hj. exact Hj.
Qed.

(** A scaler fit on two columns, used on the table it was fit on; a name
    that was never fit. *)
Lemma transform_scaler_lookup_witness :
  fst (transform_scaler 0%nat "m" Samples.fitted_processor) = Raise (not_found "m")
  /\ exists out st',
       transform_scaler 0%nat "n" Samples.fitted_processor = (Ok 3%nat, st')
       /\ heap st' !! 3%nat = Some out
       /\ heap st' !! 0%nat = Some Samples.measurements
       /\ col out "name" = Ok [Str "x"; Str "y"]
       /\ col out "a" = Ok [Num (-1); Num 1]
       /\ col out "b" = Ok [Num 1; Num (-1)].
Proof.
  destruct (fit_scaler_fits sqrt_down Samples.fresh_processor 0%nat
              Samples.measurements ["a"; "b"] "n" eq_refl)
    as (s & Hfit & _ & Hrun);
    [discriminate | discriminate | repeat constructor |].
  assert (Hst : Samples.fitted_processor
                = mkState (heap Samples.fresh_processor
                             ++ [scaled s Samples.measurements ["a"; "b"]])
                          (<["n" := mkInfo s ["a"; "b"]]> (scalers Samples.fresh_processor))).
  { unfold Samples.fitted_processor. rewrite Hrun. reflexivity. }
  assert (Hok : registry_ok Samples.fitted_processor).
  { apply fit_scaler_registry_ok, registry_ok_fresh. }
  pose proof (transform_scaler_lookup Samples.fitted_processor 0%nat "m") as [Hm _].
  pose proof (transform_scaler_lookup Samples.fitted_processor 0%nat "n") as [_ Hn].
  split.
  - apply Hm. rewrite Hst. reflexivity.
  - destruct (Hn (mkInfo s ["a"; "b"]) Samples.measurements Hok)
      as (out & st' & H1 & H2 & H3 & _ & _ & H4 & H5).
    + rewrite Hst. apply lookup_insert_eq.
    + rewrite Hst. reflexivity.
    + discriminate.
    + reflexivity.
    + repeat constructor.
    + exists out, st'. rewrite Hst in H1, H2. cbn in H1, H2.
      split; [rewrite Hst; exact H1|]. split; [exact H2|]. split; [exact H3|].
      assert (Hnd : List.NoDup (info_columns (mkInfo s ["a"; "b"]))).
      { cbn. repeat constructor; cbn; intuition discriminate. }
      vm_compute in Hfit. injection Hfit as <-.
      split; [|split].
      * rewrite H4; [reflexivity | cbn; intuition discriminate].
      * rewrite (H5 Hnd 0%nat "a" eq_refl). reflexivity.
      * rewrite (H5 Hnd 1%nat "b" eq_refl). reflexivity.
Defined.

(** C8 as stated fails on a table without one of the columns the scaler
    was fit on: the name is in the registry, and the scaler refuses the
    narrower array. *)
Lemma transform_scaler_lookup_counterexample :
  (exists info, scalers Samples.fitted_processor !! "n" = Some info
                /\ info_columns info = ["a"; "b"])
  /\ heap Samples.fitted_processor !! 1%nat = Some Samples.measurements_a
  /\ fst (transform_scaler 1%nat "n" Samples.fitted_processor)
     = Raise (ValueError
                "X has a different number of features than StandardScaler is expecting").
Proof.
  split; [|split; reflexivity].
  eexists. split; reflexivity.
Qed.

(** ** Rolling windows *)

Section Rolling.

Local Open Scope nat_scope.

Lemma lastn_short {A} (w : nat) (l : list A) : length l <= w -> lastn w l = l.
Proof.
  intros H. unfold lastn. replace (length l - w) with 0 by lia. reflexivity.
Qed.

Lemma lastn_length {A} (w : nat) (l : list A) :
  length (lastn w l) = Nat.min w (length l).
Proof. unfold lastn. rewrite length_skipn. lia. Qed.

Lemma skipn_S_tl {A} (n : nat) (l : list A) : skipn (S n) l = tl (skipn n l).
Proof.
  revert n. induction l as [|x l IH]; intros n.
  - destruct n; reflexivity.
  - destruct n as [|n]; [reflexivity|].
    change (skipn (S (S n)) (x :: l)) with (skipn (S n) l).
    change (skipn (S n) (x :: l)) with (skipn n l). apply IH.
Qed.

Lemma lastn_snoc_full {A} (w : nat) (l : list A) (v : A) :
  1 <= w -> w <= length l -> lastn w (l ++ [v]) = tl (lastn w l) ++ [v].
Proof.
  intros H1 H2. unfold lastn. rewrite length_app. cbn [length].
  replace (length l + 1 - w) with (S (length l - w)) by lia.
  rewrite skipn_app.
  replace (S (length l - w) - length l) with 0 by lia. cbn [skipn].
  rewrite skipn_S_tl. reflexivity.
Qed.

Lemma lastn_map {A B} (f : A -> B) (w : nat) (l : list A) :
  lastn w (map f l) = map f (lastn w l).
Proof. unfold lastn. rewrite length_map, skipn_map. reflexivity. Qed.

Lemma prefixes_from_map {A B} (f : A -> B) (done l : list A) :
  prefixes_from (map f done) (map f l) = map (map f) (prefixes_from done l).
Proof.
  revert done. induction l as [|x l IH]; intros done; cbn; [reflexivity|].
  rewrite <- IH, map_app. reflexivity.
Qed.

Lemma prefixes_map {A B} (f : A -> B) (l : list A) :
  prefixes (map f l) = map (map f) (prefixes l).
Proof. apply (prefixes_from_map f [] l). Qed.

Lemma prefixes_from_length {A} (done l : list A) :
  length (prefixes_from done l) = length l.
Proof.
  revert done. induction l as [|x l IH]; intros done; cbn; [reflexivity|].
  rewrite IH. reflexivity.
Qed.

End Rolling.

Lemma Qsum_app (a b : list Q) : (Qsum (a ++ b) == Qsum a + Qsum b)%Q.
Proof.
  unfold Qsum. induction a as [|x a IH]; cbn; [ring|]. rewrite IH. ring.
Qed.

Lemma valid_app {A} (a b : list (option A)) : valid (a ++ b) = valid a ++ valid b.
Proof.
  induction a as [|[x|] a IH]; cbn; [reflexivity | rewrite IH; reflexivity | exact IH].
Qed.

Lemma agrees_add s w v : agrees s w -> agrees (add_val v s) (w ++ [v]).
Proof.
  intros [Hn Hs]. unfold agrees. rewrite valid_app.
  destruct v as [x|]; cbn [add_val valid nobs sum_x].
  - rewrite length_app, Qsum_app, Hn, Hs. cbn. split; [lia | ring].
  - rewrite app_nil_r. auto.
Qed.

Lemma agrees_remove s o w : agrees s (o :: w) -> agrees (remove_val o s) w.
Proof.
  intros [Hn Hs]. unfold agrees.
  destruct o as [x|]; cbn [remove_val valid nobs sum_x] in *; [|auto].
  cbn [length Qsum fold_right] in *. rewrite Hn, Hs. unfold Qsum. split; [lia | ring].
Qed.

Lemma agrees_nil : agrees (mkWin 0 0) [].
Proof. split; reflexivity. Qed.

Lemma float_Qeq p q : (p == q)%Q -> float p = float q.
Proof. intros H. unfold float. f_equal. apply Qred_complete, H. Qed.

Lemma calc_mean_agrees s w :
  agrees s w -> calc_mean 1 s = mean_of (valid w).
Proof.
  intros [Hn Hs]. unfold calc_mean, mean_of. rewrite Hn.
  destruct (valid w) as [|x l] eqn:E; [reflexivity|].
  replace (1 <=? Z.of_nat (length (x :: l))) with true
    by (symmetry; apply Z.leb_le; cbn [length]; lia).
  replace (0 <? Z.of_nat (length (x :: l))) with true
    by (symmetry; apply Z.ltb_lt; cbn [length]; lia).
  cbn [andb]. apply float_Qeq. rewrite Hs. reflexivity.
Qed.

Lemma calc_sum_agrees s w :
  agrees s w ->
  calc_sum 1 s = match valid w with [] => NaN | xs => float (Qsum xs) end.
Proof.
  intros [Hn Hs]. unfold calc_sum. rewrite Hn.
  destruct (valid w) as [|x l] eqn:E; [reflexivity|].
  rewrite andb_false_r.
  replace (1 <=? Z.of_nat (length (x :: l))) with true
    by (symmetry; apply Z.leb_le; cbn [length]; lia).
  apply float_Qeq, Hs.
Qed.

(** The one-pass computation gives, for every row, the statistic of the
    last [w] values up to it. *)
Lemma roll_windows (calc : window_state -> cell) (stat : list (option Q) -> cell)
    (w : nat) :
  (1 <= w)%nat ->
  (forall s l, agrees s l -> calc s = stat l) ->
  forall new done s,
    agrees s (lastn w done) ->
    roll calc (w - length done) (lastn w done ++ new) new s
    = map (fun p => stat (lastn w p)) (prefixes_from done new).
Proof.
  intros Hw Hcalc. induction new as [|v new IH]; intros done s Hs; [reflexivity|].
  cbn [roll prefixes_from map].
  destruct (w - length done)%nat as [|k] eqn:Hlead.
  - assert (Hfull : (w <= length done)%nat) by lia.
    destruct (lastn w done) as [|o w0] eqn:Hwin.
    { pose proof (lastn_length w done) as L. rewrite Hwin in L. cbn in L. lia. }
    cbn [app].
    assert (Hnext : lastn w (done ++ [v]) = w0 ++ [v]).
    { rewrite (lastn_snoc_full w done v Hw Hfull), Hwin. reflexivity. }
    assert (Hs' : agrees (add_val v (remove_val o s)) (lastn w (done ++ [v]))).
    { rewrite Hnext. apply agrees_add, agrees_remove with (o := o). exact Hs. }
    rewrite (Hcalc _ _ Hs'). f_equal.
    specialize (IH (done ++ [v]) _ Hs').
    rewrite length_app in IH. cbn [length] in IH.
    replace (w - (length done + 1))%nat with 0%nat in IH by lia.
    rewrite Hnext, <- app_assoc in IH. exact IH.
  - assert (Hshort : (length done < w)%nat) by lia.
    rewrite (lastn_short w done) in * by lia.
    assert (Hnext : lastn w (done ++ [v]) = done ++ [v]).
    { apply lastn_short. rewrite length_app. cbn. lia. }
    assert (Hs' : agrees (add_val v s) (lastn w (done ++ [v]))).
    { rewrite Hnext. apply agrees_add. exact Hs. }
    rewrite (Hcalc _ _ Hs'). f_equal.
    specialize (IH (done ++ [v]) _ Hs').
    rewrite length_app in IH. cbn [length] in IH.
    replace (w - (length done + 1))%nat with k in IH by lia.
    rewrite Hnext, <- app_assoc in IH. exact IH.
Qed.

Lemma rolling_spec (calc : Z -> window_state -> cell) (stat : list (option Q) -> cell)
    (window : Z) (values : list cell) :
  1 <= window ->
  (forall s l, agrees s l -> calc 1 s = stat l) ->
  Forall (fun c => numeric_or_missing c = true) values ->
  rolling calc window 1 values
  = Ok (map (fun p => stat (map num_of (lastn (Z.to_nat window) p))) (prefixes values)).
Proof.
  intros Hw Hcalc Hnum. unfold rolling.
  replace (window <? 0) with false by (symmetry; apply Z.ltb_ge; lia).
  replace (window <? 1) with false by (symmetry; apply Z.ltb_ge; lia).
  rewrite (floats_numeric _ Hnum). cbn [bind]. f_equal.
  pose proof (roll_windows (calc 1) stat (Z.to_nat window) ltac:(lia) Hcalc
                (map num_of values) [] (mkWin 0 0) agrees_nil) as H.
  cbn [length lastn app] in H. rewrite Nat.sub_0_r in H.
  change (lastn (Z.to_nat window) [] ++ map num_of values) with (map num_of values) in H.
  rewrite H. change (prefixes_from [] (map num_of values)) with (prefixes (map num_of values)).
  rewrite prefixes_map, map_map. apply map_ext. intros p.
  rewrite lastn_map. reflexivity.
Qed.

Lemma prefixes_from_nonempty {A} (done l : list A) p :
  In p (prefixes_from done l) -> p <> [].
Proof.
  revert done. induction l as [|x l IH]; intros done; cbn; [tauto|].
  intros [<-|H]; [destruct done; discriminate | eapply IH; exact H].
Qed.

Lemma lastn_nonempty {A} (w : nat) (p : list A) :
  (1 <= w)%nat -> p <> [] -> lastn w p <> [].
Proof.
  intros Hw Hp E. pose proof (lastn_length w p) as L. rewrite E in L.
  destruct p; [contradiction|]. cbn in L. lia.
Qed.

Lemma last_prefixes_from {A} (d : A) (done l : list A) :
  map (fun p => List.last p d) (prefixes_from done l) = l.
Proof.
  revert done. induction l as [|x l IH]; intros done; cbn; [reflexivity|].
  rewrite last_last, IH. reflexivity.
Qed.

Lemma combine_map_same {A B C} (f : A -> B) (g : A -> C) (l : list A) :
  combine (map f l) (map g l) = map (fun a => (f a, g a)) l.
Proof. induction l as [|x l IH]; cbn; [reflexivity|]. rewrite IH. reflexivity. Qed.

Lemma window_sum_indicator (p : cell -> bool) (l : list cell) :
  l <> [] ->
  match valid (map num_of (map (fun c => Bool (p c)) l)) with
  | [] => NaN
  | xs => float (Qsum xs)
  end = window_count p l.
Proof.
  intros Hne. unfold window_count.
  assert (H : forall l, (Qsum (valid (map num_of (map (fun c => Bool (p c)) l)))
                         == inject_Z (Z.of_nat (length (List.filter p l))))%Q).
  { clear. induction l as [|c l IH]; [reflexivity|].
    cbn [map valid num_of List.filter]. unfold Qsum in *. cbn [fold_right].
    rewrite IH. destruct (p c); cbn [length].
    - rewrite Nat2Z.inj_succ, <- Z.add_1_l, inject_Z_plus. reflexivity.
    - ring. }
  destruct l as [|c l]; [contradiction|].
  cbn [map valid num_of]. apply float_Qeq.
  apply (H (c :: l)).
Qed.

Lemma cell_leb_numeric c v :
  numeric_or_missing c = true -> cell_leb c (Int v) = Ok (at_most v c).
Proof.
  unfold at_most. destruct c; cbn; intros H; try discriminate H; reflexivity.
Qed.

(** The statistics of one driver: the row for a lap of the table carries
    the statistics of the last [window] rows of the driver up to it. *)
Lemma driver_window_stats_spec df window (x : list Row) d :
  1 <= window ->
  has_col df "Position" = true ->
  has_col df "GridPosition" = true ->
  has_col df "Points" = true ->
  Forall (fun r =>
            Forall (fun c => numeric_or_missing (at_ r c) = true)
                   [ "Position"; "GridPosition"; "Points"; "IsDNF" ]) x ->
  driver_window_stats df window x
  = Ok (map (fun p => mkRow (label (List.last p d))
                        (window_stats (has_col df "IsDNF") (lastn (Z.to_nat window) p)))
            (prefixes x)).
Proof.
  intros Hw H1 H2 H3 Hnum.
  assert (Hcolnum : forall c,
             In c [ "Position"; "GridPosition"; "Points"; "IsDNF" ] ->
             Forall (fun v => numeric_or_missing v = true) (map (fun r => at_ r c) x)).
  { intros c Hc. apply (proj2 (List.Forall_map _ _ _)).
    eapply Forall_impl; [exact Hnum|]. cbn beta. intros r Hr.
    rewrite List.Forall_forall in Hr. apply Hr, Hc. }
  unfold driver_window_stats, group_col. rewrite H1, H2, H3. cbn [bind].
  rewrite (rolling_spec calc_mean (fun l => mean_of (valid l)) window _ Hw
             calc_mean_agrees (Hcolnum "Position" ltac:(cbn; tauto))).
  cbn [bind].
  rewrite (rolling_spec calc_mean (fun l => mean_of (valid l)) window _ Hw
             calc_mean_agrees (Hcolnum "GridPosition" ltac:(cbn; tauto))).
  cbn [bind].
  rewrite (rolling_spec calc_sum _ window _ Hw calc_sum_agrees).
  2:{ apply (proj2 (List.Forall_map _ _ _)). apply List.Forall_forall. intros; reflexivity. }
  cbn [bind].
  rewrite (mapM_Ok_map _ (at_most 3)).
  2:{ eapply Forall_impl; [exact (Hcolnum "Position" ltac:(cbn; tauto))|].
      cbn beta. intros c Hc. apply cell_leb_numeric, Hc. }
  cbn [bind].
  rewrite (rolling_spec calc_sum _ window _ Hw calc_sum_agrees).
  2:{ apply (proj2 (List.Forall_map _ _ _)). apply List.Forall_forall. intros; reflexivity. }
  cbn [bind].
  rewrite (rolling_spec calc_sum _ window _ Hw calc_sum_agrees
             (Hcolnum "Points" ltac:(cbn; tauto))).
  cbn [bind].
  assert (Hdnf : (if has_col df "IsDNF"
                  then bind (if has_col df "IsDNF"
                             then Ok (map (fun r => at_ r "IsDNF") x)
                             else Raise (KeyError "IsDNF"))
                            (fun d0 => rolling calc_sum window 1 d0)
                  else Ok (map (fun _ => Int 0) x))
                 = Ok (map (fun p => if has_col df "IsDNF"
                                     then window_sum (map (fun r => at_ r "IsDNF")
                                                          (lastn (Z.to_nat window) p))
                                     else Int 0)
                           (prefixes x))).
  { destruct (has_col df "IsDNF"); cbn [bind].
    - rewrite (rolling_spec calc_sum _ window _ Hw calc_sum_agrees
                 (Hcolnum "IsDNF" ltac:(cbn; tauto))).
      rewrite prefixes_map, map_map. f_equal. apply map_ext. intros p.
      rewrite lastn_map. reflexivity.
    - f_equal. unfold prefixes. generalize (@nil Row).
      induction x as [|r x IH]; intros done; cbn; [reflexivity|].
      f_equal. apply IH.
      inversion Hnum; subst. assumption.
      intros c Hc. specialize (Hcolnum c Hc). inversion Hcolnum; subst. assumption. }
  rewrite Hdnf. cbn [bind]. f_equal.
  rewrite <- (last_prefixes_from d [] x) at 1. fold (prefixes x).
  rewrite !map_map, !prefixes_map, !map_map.
  rewrite !combine_map_same, map_map.
  apply map_ext_in. intros p Hp.
  assert (Hne : lastn (Z.to_nat window) p <> []).
  { apply lastn_nonempty; [lia|]. eapply prefixes_from_nonempty. exact Hp. }
  rewrite !lastn_map. unfold window_stats, window_mean, window_sum.
  assert (Hpos : map (fun r : Row => at_ r "Position") (lastn (Z.to_nat window) p) <> []).
  { intros E. apply map_eq_nil in E. contradiction. }
  rewrite <- (window_sum_indicator (fun c => cell_eqb c (Int 1)) _ Hpos).
  rewrite <- (window_sum_indicator (at_most 3) _ Hpos).
  rewrite !map_map. reflexivity.
Qed.

(** ** Order of strings, sorted lists and groups *)

Lemma string_leb_trans (s1 s2 s3 : string) :
  String.leb s1 s2 = true -> String.leb s2 s3 = true -> String.leb s1 s3 = true.
Proof.
  unfold String.leb. revert s2 s3.
  induction s1 as [|a s1 IH]; intros [|b s2] [|c s3]; cbn; try easy.
  unfold Ascii.compare.
  destruct (N.compare_spec (Ascii.N_of_ascii a) (Ascii.N_of_ascii b)) as [E1|E1|E1];
    destruct (N.compare_spec (Ascii.N_of_ascii b) (Ascii.N_of_ascii c)) as [E2|E2|E2];
    destruct (N.compare_spec (Ascii.N_of_ascii a) (Ascii.N_of_ascii c)) as [E3|E3|E3];
    try lia; try easy.
  apply IH.
Qed.

Lemma string_leb_refl (s : string) : String.leb s s = true.
Proof. destruct (String.leb_total s s); assumption. Qed.

Lemma insert_by_sorted {A} (le : A -> A -> bool) (P : A -> Prop) (R : A -> A -> Prop)
    x (l : list A) :
  (forall a b, P a -> P b -> le a b = true -> R a b) ->
  (forall a b, P a -> P b -> le a b = false -> R b a) ->
  (forall a b c, R a b -> R b c -> R a c) ->
  P x -> Forall P l ->
  StronglySorted R l -> StronglySorted R (insert_by le x l).
Proof.
  intros Ht Hf Htrans Px Pl. induction 1 as [|y l Hs IH Hy]; cbn.
  - constructor; constructor.
  - inversion Pl as [|? ? Py Pl']; subst.
    destruct (le x y) eqn:E.
    + constructor; [constructor; assumption|].
      constructor; [apply Ht; assumption|].
      eapply List.Forall_impl; [|exact Hy]. intros z Hz.
      eapply Htrans; [apply Ht; eassumption | exact Hz].
    + constructor; [apply IH, Pl'|].
      apply List.Forall_forall. intros z Hz. apply In_insert_by in Hz as [->|Hz].
      * apply Hf; assumption.
      * rewrite List.Forall_forall in Hy. apply Hy, Hz.
Qed.

Lemma sort_by_sorted {A} (le : A -> A -> bool) (P : A -> Prop) (R : A -> A -> Prop)
    (l : list A) :
  (forall a b, P a -> P b -> le a b = true -> R a b) ->
  (forall a b, P a -> P b -> le a b = false -> R b a) ->
  (forall a b c, R a b -> R b c -> R a c) ->
  Forall P l ->
  StronglySorted R (sort_by le l).
Proof.
  intros Ht Hf Htrans. induction 1 as [|x l Px Pl IH]; cbn; [constructor|].
  apply insert_by_sorted with (P := P); try assumption.
  apply Forall_sort_by, Pl.
Qed.

Lemma sort_by_map {A B} (f : A -> B) (le : A -> A -> bool) (le' : B -> B -> bool)
    (l : list A) :
  (forall a b, le' (f a) (f b) = le a b) ->
  sort_by le' (map f l) = map f (sort_by le l).
Proof.
  intros H. induction l as [|x l IH]; cbn; [reflexivity|].
  rewrite IH. generalize (sort_by le l). intros m.
  induction m as [|y m IHm]; cbn; [reflexivity|].
  rewrite H. destruct (le x y); cbn; [reflexivity|]. rewrite IHm. reflexivity.
Qed.

Lemma filter_map_swap {A B} (f : A -> B) (p : B -> bool) (l : list A) :
  List.filter p (map f l) = map f (List.filter (fun x => p (f x)) l).
Proof.
  induction l as [|x l IH]; cbn; [reflexivity|].
  rewrite IH. destruct (p (f x)); reflexivity.
Qed.

Lemma dedup_map {A B} (f : A -> B) (eqb : A -> A -> bool) (eqb' : B -> B -> bool)
    (l : list A) :
  (forall a b, eqb' (f a) (f b) = eqb a b) ->
  dedup eqb' (map f l) = map f (dedup eqb l).
Proof.
  intros H. induction l as [|x l IH]; cbn; [reflexivity|].
  rewrite IH, filter_map_swap. f_equal. f_equal.
  apply List.filter_ext. intros y. rewrite H. reflexivity.
Qed.

Lemma dedup_strings (l : list string) :
  List.NoDup (dedup String.eqb l) /\ forall k, In k l -> In k (dedup String.eqb l).
Proof.
  induction l as [|s l [IH1 IH2]]; cbn [dedup].
  - split; [constructor | intros k []].
  - split.
    + constructor.
      * intros Hin. apply filter_In in Hin as [_ Hin].
        rewrite String.eqb_refl in Hin. discriminate Hin.
      * apply List.NoDup_filter. exact IH1.
    + intros k [->|Hk]; [left; reflexivity|].
      destruct (String.eqb s k) eqn:E.
      * apply String.eqb_eq in E. left. exact E.
      * right. apply filter_In. split; [apply IH2, Hk|]. rewrite E. reflexivity.
Qed.

Lemma filter_every {A} (p : A -> bool) (l : list A) :
  (forall x, In x l -> p x = true) -> List.filter p l = l.
Proof.
  induction l as [|x l IH]; cbn; intros H; [reflexivity|].
  rewrite (H x) by auto. rewrite IH by auto. reflexivity.
Qed.

Lemma filter_none {A} (p : A -> bool) (l : list A) :
  (forall x, In x l -> p x = false) -> List.filter p l = [].
Proof.
  induction l as [|x l IH]; cbn; intros H; [reflexivity|].
  rewrite (H x) by auto. apply IH. auto.
Qed.

Lemma filter_filter_implied {A} (p q : A -> bool) (l : list A) :
  (forall x, p x = true -> q x = true) ->
  List.filter p (List.filter q l) = List.filter p l.
Proof.
  intros H. induction l as [|x l IH]; cbn; [reflexivity|].
  destruct (q x) eqn:Eq; cbn.
  - rewrite IH. reflexivity.
  - rewrite IH. destruct (p x) eqn:Ep; [|reflexivity].
    apply H in Ep. congruence.
Qed.

Lemma prefixes_from_app {A} (done G L : list A) :
  prefixes_from done (G ++ L) = prefixes_from done G ++ prefixes_from (done ++ G) L.
Proof.
  revert done. induction G as [|x G IH]; intros done; cbn.
  - rewrite app_nil_r. reflexivity.
  - rewrite IH, <- app_assoc. reflexivity.
Qed.

Lemma prefixes_from_shift {A} (done l : list A) :
  prefixes_from done l = map (app done) (prefixes l).
Proof.
  unfold prefixes. revert done. induction l as [|x l IH]; intros done; cbn; [reflexivity|].
  rewrite (IH (done ++ [x])), (IH [x]), map_map. f_equal.
  apply map_ext. intros p. rewrite <- app_assoc. reflexivity.
Qed.

Lemma In_prefixes_from {A} (done l p : list A) :
  In p (prefixes_from done l) -> forall x, In x p -> In x done \/ In x l.
Proof.
  revert done. induction l as [|y l IH]; intros done; cbn; [tauto|].
  intros [<-|H] x Hx.
  - apply in_app_or in Hx as [Hx|[->|[]]]; auto.
  - destruct (IH _ H x Hx) as [Hd|Hl]; [|auto].
    apply in_app_or in Hd as [Hd|[->|[]]]; auto.
Qed.

Lemma last_In {A} (d : A) (p : list A) : p <> [] -> In (List.last p d) p.
Proof.
  intros Hp. destruct (exists_last Hp) as (q & x & ->).
  rewrite last_last. apply in_or_app. right. left. reflexivity.
Qed.

Lemma last_app_nonempty {A} (d : A) (G p : list A) :
  p <> [] -> List.last (G ++ p) d = List.last p d.
Proof.
  intros Hp. destruct (exists_last Hp) as (q & x & ->).
  rewrite app_assoc, !last_last. reflexivity.
Qed.

Lemma last_filter {A} (d : A) (f : A -> bool) (p : list A) :
  p <> [] -> f (List.last p d) = true -> List.last (List.filter f p) d = List.last p d.
Proof.
  intros Hp. destruct (exists_last Hp) as (q & x & ->).
  rewrite last_last. intros Hx. rewrite List.filter_app. cbn. rewrite Hx.
  rewrite last_last. reflexivity.
Qed.

Section Groups.

Context {A B : Type} (key : A -> string) (d : A) (F : list A -> B).

(** In a table sorted by key whose keys are not below [k], the rows of
    key [k] come first. *)
Lemma sorted_split (k : string) (L : list A) :
  StronglySorted (key_ordered key) L ->
  (forall x, In x L -> String.leb k (key x) = true) ->
  L = List.filter (keyed key k) L ++ List.filter (fun x => negb (keyed key k x)) L.
Proof.
  induction 1 as [|x L Hs IH Hx]; intros Hk; [reflexivity|].
  cbn [List.filter]. destruct (keyed key k x) eqn:E; cbn [negb].
  - cbn. f_equal. apply IH. intros y Hy. apply Hk. right. exact Hy.
  - assert (Hnone : forall y, In y L -> keyed key k y = false).
    { intros y Hy. rewrite List.Forall_forall in Hx. specialize (Hx y Hy).
      destruct (keyed key k y) eqn:Ey; [|reflexivity]. exfalso.
      unfold keyed in E, Ey. apply String.eqb_eq in Ey. subst k.
      pose proof (Hk x (or_introl eq_refl)) as Hle.
      pose proof (String.leb_antisym _ _ Hx Hle) as Heq.
      rewrite Heq, String.eqb_refl in E. discriminate E. }
    rewrite (filter_none _ _ Hnone). cbn. f_equal. symmetry.
    apply filter_every. intros y Hy. rewrite (Hnone y Hy). reflexivity.
Qed.

(** Statistics computed group by group, the groups taken in key order, come
    out in the order of the sorted table, each row looking only at the rows
    of its own key up to it. *)
Lemma grouped_prefixes (K : list string) (L : list A) :
  StronglySorted (fun a b => String.leb a b = true) K ->
  List.NoDup K ->
  StronglySorted (key_ordered key) L ->
  (forall x, In x L -> In (key x) K) ->
  concat (map (fun k => map F (prefixes (List.filter (keyed key k) L))) K)
  = map (fun p => F (List.filter (keyed key (key (List.last p d))) p)) (prefixes L).
Proof.
  intros HK. revert L. induction HK as [|k K HK IH Hk]; intros L Hnd HL Hin.
  - destruct L as [|x L]; [reflexivity|]. destruct (Hin x (or_introl eq_refl)).
  - inversion Hnd as [|? ? Hnotin Hnd']; subst.
    assert (Hlow : forall x, In x L -> String.leb k (key x) = true).
    { intros x Hx. destruct (Hin x Hx) as [<-|Hx'].
      - apply string_leb_refl.
      - rewrite List.Forall_forall in Hk. apply Hk, Hx'. }
    pose proof (sorted_split k L HL Hlow) as Hsplit.
    set (G := List.filter (keyed key k) L) in *.
    set (L' := List.filter (fun x => negb (keyed key k x)) L) in *.
    assert (HG : forall x, In x G -> key x = k).
    { intros x Hx. apply filter_In in Hx as [_ Hx]. apply String.eqb_eq, Hx. }
    assert (HL' : forall x, In x L' -> key x <> k).
    { intros x Hx. apply filter_In in Hx as [_ Hx]. apply negb_true_iff in Hx.
      apply String.eqb_neq, Hx. }
    cbn [map concat].
    assert (Hrest : map (fun k0 => map F (prefixes (List.filter (keyed key k0) L))) K
                    = map (fun k0 => map F (prefixes (List.filter (keyed key k0) L'))) K).
    { apply map_ext_in. intros k0 Hk0. f_equal. f_equal. symmetry.
      apply filter_filter_implied. intros x Hx. apply negb_true_iff.
      unfold keyed in *. apply String.eqb_eq in Hx. apply String.eqb_neq.
      intros E. apply Hnotin. congruence. }
    rewrite Hrest, (IH L' Hnd').
    + fold G.
      replace (prefixes L) with (prefixes (G ++ L')) by (f_equal; symmetry; exact Hsplit).
      unfold prefixes. rewrite prefixes_from_app, map_app.
      cbn [app]. f_equal.
      * apply map_ext_in. intros p Hp. f_equal. symmetry. apply filter_every.
        intros x Hx. unfold keyed. apply String.eqb_eq.
        assert (Hne : p <> []) by (eapply prefixes_from_nonempty; exact Hp).
        pose proof (In_prefixes_from _ _ _ Hp) as Hsub.
        destruct (Hsub x Hx) as [[]|Hx']. rewrite (HG x Hx').
        destruct (Hsub _ (last_In d p Hne)) as [[]|Hl]. rewrite (HG _ Hl). reflexivity.
      * rewrite (prefixes_from_shift G L'), map_map. apply map_ext_in. intros p Hp.
        assert (Hne : p <> []) by (eapply prefixes_from_nonempty; exact Hp).
        rewrite (last_app_nonempty d G p Hne). f_equal.
        symmetry. rewrite List.filter_app. rewrite filter_none; [reflexivity|].
        intros x Hx. unfold keyed. apply String.eqb_neq. rewrite (HG x Hx).
        pose proof (In_prefixes_from _ _ _ Hp) as Hsub.
        destruct (Hsub _ (last_In d p Hne)) as [[]|Hl].
        intros E. apply (HL' _ Hl). symmetry. exact E.
    + unfold L'. clear -HL. induction HL as [|x L Hs IH Hx]; cbn; [constructor|].
      destruct (negb (keyed key k x)); [|exact IH].
      constructor; [exact IH|].
      apply List.Forall_forall. intros y Hy. apply filter_In in Hy as [Hy _].
      rewrite List.Forall_forall in Hx. apply Hx, Hy.
    + intros x Hx. pose proof (HL' x Hx) as Hne.
      apply filter_In in Hx as [Hx _]. destruct (Hin x Hx) as [E|Hk']; [|exact Hk'].
      exfalso. apply Hne. symmetry. exact E.
Qed.

End Groups.

(** ** The sorted table and its groups *)

Lemma homogeneous_kind (n : nat) (l : list cell) k :
  (k = None \/ k = Some n) ->
  Forall (fun c => kind_of c = None \/ kind_of c = Some n) l ->
  homogeneous_from k l = true.
Proof.
  intros Hk H. revert k Hk. induction H as [|c l Hc _ IH]; intros k Hk;
    cbn; [reflexivity|].
  destruct Hc as [-> | ->].
  - apply IH, Hk.
  - destruct Hk as [-> | ->]; [apply IH; auto|].
    rewrite Nat.eqb_refl. cbn. apply IH. auto.
Qed.

Lemma driver_of_clean (r : Row) :
  (exists s, at_ r "Abbreviation" = Str s) -> at_ r "Abbreviation" = Str (driver_of r).
Proof. intros [s E]. unfold driver_of. rewrite E. reflexivity. Qed.

Lemma same_driver_keyed (src r : Row) :
  (exists s, at_ src "Abbreviation" = Str s) ->
  (exists s, at_ r "Abbreviation" = Str s) ->
  same_driver src r = keyed driver_of (driver_of src) r.
Proof.
  intros Hs Hr. unfold same_driver, keyed.
  rewrite (driver_of_clean _ Hs), (driver_of_clean _ Hr). reflexivity.
Qed.

Lemma sorted_by_driver (l : list Row) :
  Forall (fun r => exists s, at_ r "Abbreviation" = Str s) l ->
  StronglySorted (key_ordered driver_of) (sort_by (lex_leb "Abbreviation" "Date") l).
Proof.
  apply sort_by_sorted.
  - intros a b Ha Hb. unfold lex_leb, key_ordered.
    rewrite (driver_of_clean _ Ha), (driver_of_clean _ Hb). cbn.
    destruct (String.eqb (driver_of a) (driver_of b)) eqn:E.
    + apply String.eqb_eq in E. rewrite E. intros _. apply string_leb_refl.
    + tauto.
  - intros a b Ha Hb. unfold lex_leb, key_ordered.
    rewrite (driver_of_clean _ Ha), (driver_of_clean _ Hb). cbn.
    destruct (String.eqb (driver_of a) (driver_of b)) eqn:E.
    + apply String.eqb_eq in E. rewrite E. intros _. apply string_leb_refl.
    + intros H. destruct (String.leb_total (driver_of a) (driver_of b)); congruence.
  - unfold key_ordered. intros a b c. apply string_leb_trans.
Qed.

Lemma group_keys_strings (names : list string) :
  group_keys (map Str names)
  = map Str (sort_by String.leb (dedup String.eqb names)).
Proof.
  unfold group_keys.
  assert (Hf : List.filter notna (map Str names) = map Str names).
  { apply filter_every. intros c Hc. apply in_map_iff in Hc as (s & <- & _). reflexivity. }
  rewrite Hf, (dedup_map Str String.eqb cell_eqb) by reflexivity.
  apply sort_by_map. reflexivity.
Qed.

Lemma driver_keys (names : list string) :
  let K := sort_by String.leb (dedup String.eqb names) in
  StronglySorted (fun a b => String.leb a b = true) K
  /\ List.NoDup K
  /\ forall k, In k names -> In k K.
Proof.
  cbn zeta. destruct (dedup_strings names) as [H1 H2]. repeat split.
  - apply sort_by_sorted with (P := fun _ => True).
    + tauto.
    + intros a b _ _ H. destruct (String.leb_total a b); congruence.
    + intros a b c. apply string_leb_trans.
    + apply List.Forall_forall. tauto.
  - eapply Permutation_NoDup; [symmetry; apply sort_by_Permutation | exact H1].
  - intros k Hk. apply In_sort_by, H2, Hk.
Qed.

Lemma concat_columns_aligned (left right : DataFrame) :
  map label (rows left) = map label (rows right) ->
  concat_columns left right
  = Ok (mkDF (columns left ++ columns right)
          (map (fun p : Row * Row => let '(l, r) := p in
                  mkRow (label l) (cells l ++ cells r))
               (combine (rows left) (rows right)))).
Proof.
  intros H. unfold concat_columns, labels.
  assert (Hlen : length (rows left) = length (rows right)).
  { rewrite <- (length_map label (rows left)), H, length_map. reflexivity. }
  rewrite <- H, Hlen, Nat.eqb_refl.
  assert (Hall : forallb (fun p : Z * Z => let '(a, b) := p in a =? b)
                   (combine (map label (rows left)) (map label (rows left))) = true).
  { generalize (map label (rows left)). clear. intros zs.
    induction zs as [|z zs IH]; cbn; [reflexivity|].
    rewrite Z.eqb_refl, IH. reflexivity. }
  rewrite Hall. reflexivity.
Qed.

(** The statistics of one prefix of a driver's rows. *)
Lemma prefix_rows_clean (P : Row -> Prop) (L p : list Row) :
  Forall P L -> In p (prefixes L) -> p <> [] /\ Forall P p /\ P (List.last p no_row).
Proof.
  intros HL Hp.
  assert (Hne : p <> []) by (eapply prefixes_from_nonempty; exact Hp).
  assert (Hall : Forall P p).
  { apply List.Forall_forall. intros x Hx.
    destruct (In_prefixes_from _ _ _ Hp x Hx) as [[]|Hx'].
    rewrite List.Forall_forall in HL. apply HL, Hx'. }
  repeat split; try assumption.
  rewrite List.Forall_forall in Hall. apply Hall, last_In, Hne.
Qed.

(** The table [compute_driver_stats] returns: the sorted table, each row
    extended by the statistics of the last [window] rows of its driver up
    to it. *)
Lemma compute_driver_stats_rows (include_groups : bool) (results : DataFrame)
    (window : Z) :
  1 <= window ->
  clean_results results ->
  rows results <> [] ->
  compute_driver_stats include_groups results window
  = Ok (mkDF (columns results ++ stat_columns)
          (map (fun p =>
                  stats_row (has_col results "IsDNF") (List.last p no_row)
                    (lastn (Z.to_nat window)
                       (List.filter (same_driver (List.last p no_row)) p)))
               (prefixes (sort_by (lex_leb "Abbreviation" "Date") (rows results))))).
Proof.
  intros HW [Hcols Hdrv Hdates Hnum] Hsome.
  cbn [forallb] in Hcols. rewrite !andb_true_iff in Hcols.
  destruct Hcols as (Ha & Hd & Hp & Hg & Hpts & _).
  set (L := sort_by (lex_leb "Abbreviation" "Date") (rows results)).
  assert (HLdrv : Forall (fun r => exists s, at_ r "Abbreviation" = Str s) L)
    by (apply Forall_sort_by, Hdrv).
  assert (HLnum : Forall (fun r =>
                            Forall (fun c => numeric_or_missing (at_ r c) = true)
                              [ "Position"; "GridPosition"; "Points"; "IsDNF" ]) L)
    by (apply Forall_sort_by, Hnum).
  assert (Hnames : forall l, Forall (fun r => exists s, at_ r "Abbreviation" = Str s) l ->
                     map (fun r => at_ r "Abbreviation") l = map Str (map driver_of l)).
  { intros l Hl. rewrite map_map. apply map_ext_in. intros r Hr.
    rewrite List.Forall_forall in Hl. apply driver_of_clean, Hl, Hr. }
  assert (Hsortable : forall l, sortable (map Str l) = true).
  { intros l. apply (homogeneous_kind 1%nat); [left; reflexivity|].
    apply List.Forall_forall. intros c Hc. apply in_map_iff in Hc as (s & <- & _).
    right. reflexivity. }
  assert (Hsort : sort_values2 results "Abbreviation" "Date"
                  = Ok (mkDF (columns results) L)).
  { unfold sort_values2, col. rewrite Ha, Hd. cbn [bind].
    rewrite (Hnames _ Hdrv), Hsortable.
    unfold sortable at 1.
    rewrite (homogeneous_kind 0%nat); [reflexivity | left; reflexivity |].
    apply (proj2 (List.Forall_map _ _ _)).
    eapply List.Forall_impl; [|exact Hdates]. cbn beta. intros r Hr.
    destruct (at_ r "Date"); try discriminate Hr; cbn; auto. }
  unfold compute_driver_stats. rewrite Hsort. cbn [bind].
  set (df := mkDF (columns results) L).
  set (K := sort_by String.leb (dedup String.eqb (map driver_of L))).
  assert (Hgroup : groupby df "Abbreviation"
                   = Ok (map (fun s => (Str s, List.filter (keyed driver_of s) L)) K)).
  { unfold groupby, col. change (has_col df "Abbreviation") with (has_col results "Abbreviation").
    rewrite Ha. cbn [bind rows df].
    rewrite (Hnames _ HLdrv), Hsortable, group_keys_strings, map_map. f_equal.
    apply map_ext. intros s. f_equal. apply List.filter_ext_in. intros r Hr.
    rewrite List.Forall_forall in HLdrv.
    rewrite (driver_of_clean _ (HLdrv r Hr)). reflexivity. }
  rewrite Hgroup. cbn [bind].
  assert (HK : is_nil (map (fun s => (Str s, List.filter (keyed driver_of s) L)) K)
               = false).
  { destruct (driver_keys (map driver_of L)) as (_ & _ & HK3). fold K in HK3.
    assert (HL : exists r, In r L).
    { destruct (rows results) as [|r rest] eqn:Er; [contradiction|].
      exists r. apply In_sort_by. left. reflexivity. }
    destruct HL as [r Hr].
    pose proof (HK3 _ (in_map driver_of _ _ Hr)) as Hk.
    destruct K; [destruct Hk | reflexivity]. }
  rewrite HK.
  set (Fst := fun p : list Row =>
                mkRow (label (List.last p no_row))
                  (window_stats (has_col results "IsDNF") (lastn (Z.to_nat window) p))).
  rewrite (mapM_Ok_map _ (fun g : cell * list Row => map Fst (prefixes (snd g)))).
  2:{ apply List.Forall_forall. intros [key x] Hin.
      apply in_map_iff in Hin as (s & E & _). injection E as <- <-. cbn [snd].
      apply (driver_window_stats_spec df window _ no_row HW); try assumption.
      apply List.Forall_forall. intros r Hr. apply filter_In in Hr as [Hr _].
      rewrite List.Forall_forall in HLnum. apply HLnum, Hr. }
  cbn [bind]. rewrite map_map. cbn [snd].
  destruct (driver_keys (map driver_of L)) as (HK1 & HK2 & HK3). fold K in HK1, HK2, HK3.
  rewrite (grouped_prefixes driver_of no_row Fst K L HK1 HK2 (sorted_by_driver _ Hdrv)).
  2:{ intros x Hx. apply HK3. apply in_map, Hx. }
  rewrite concat_columns_aligned.
  - cbn [rows columns df]. f_equal. f_equal.
    rewrite <- (last_prefixes_from no_row [] L) at 1. fold (prefixes L).
    rewrite combine_map_same, map_map. apply map_ext_in. intros p Hin.
    destruct (prefix_rows_clean _ L p HLdrv Hin) as (Hne & Hall & Hlast).
    assert (Hfilter : List.filter (keyed driver_of (driver_of (List.last p no_row))) p
                      = List.filter (same_driver (List.last p no_row)) p).
    { apply List.filter_ext_in. intros r Hr. symmetry.
      rewrite List.Forall_forall in Hall. apply same_driver_keyed; auto. }
    unfold stats_row, Fst. rewrite Hfilter. reflexivity.
  - cbn [rows df]. rewrite <- (last_prefixes_from no_row [] L) at 1. fold (prefixes L).
    rewrite !map_map. apply map_ext_in. intros p Hin.
    destruct (prefix_rows_clean _ L p HLdrv Hin) as (Hne & Hall & Hlast).
    unfold Fst. cbn [label]. rewrite last_filter; [reflexivity | exact Hne |].
    unfold keyed. apply String.eqb_refl.
Qed.

(** ** Rows of the output by position *)

Lemma nth_error_prefixes_from {A} (done l : list A) (i : nat) :
  (i < length l)%nat ->
  nth_error (prefixes_from done l) i = Some (done ++ firstn (S i) l).
Proof.
  revert done i. induction l as [|x l IH]; intros done i Hi; cbn in Hi; [lia|].
  destruct i as [|i]; cbn [prefixes_from nth_error].
  - reflexivity.
  - rewrite IH by lia. rewrite <- app_assoc. reflexivity.
Qed.

Lemma firstn_S_last {A} (l : list A) (i : nat) (x d : A) :
  nth_error l i = Some x -> List.last (firstn (S i) l) d = x.
Proof.
  revert i. induction l as [|y l IH]; intros i H.
  - destruct i; discriminate H.
  - destruct i as [|i]; cbn in H.
    + injection H as ->. reflexivity.
    + specialize (IH i H). change (firstn (S (S i)) (y :: l)) with (y :: firstn (S i) l).
      destruct (firstn (S i) l) eqn:E; [|exact IH].
      destruct l; [destruct i; discriminate H | discriminate E].
Qed.

Lemma lastn_firstn_window {A} (w i : nat) (l : list A) :
  (i < length l)%nat -> lastn w (firstn (S i) l) = window w i l.
Proof.
  intros H. unfold lastn, window. rewrite length_firstn.
  replace (Nat.min (S i) (length l)) with (S i) by lia. reflexivity.
Qed.

(** A table of one driver with ascending dates is left as it is by the
    sort. *)
Lemma sort_by_chronological (l : list Row) :
  (forall r r', In r l -> In r' l -> same_driver r r' = true) ->
  dates_ascend l = true ->
  sort_by (lex_leb "Abbreviation" "Date") l = l.
Proof.
  induction l as [|a l IH]; intros Hone Hasc; [reflexivity|].
  cbn [sort_by]. rewrite IH.
  - destruct l as [|b l]; [reflexivity|].
    cbn [dates_ascend] in Hasc. apply andb_true_iff in Hasc as [Hab _].
    cbn [insert_by]. unfold lex_leb.
    assert (Hsame : same_value (at_ a "Abbreviation") (at_ b "Abbreviation") = true).
    { specialize (Hone b a (or_intror (or_introl eq_refl)) (or_introl eq_refl)).
      unfold same_driver in Hone. unfold same_value.
      destruct (at_ a "Abbreviation"), (at_ b "Abbreviation"); try exact Hone; reflexivity. }
    rewrite Hsame, Hab. reflexivity.
  - intros r r' Hr Hr'. apply Hone; right; assumption.
  - destruct l as [|b l]; [reflexivity|].
    cbn [dates_ascend] in Hasc. apply andb_true_iff in Hasc as [_ H]. exact H.
Qed.

Lemma window_mean_single (c : cell) : window_mean [c] = as_number c.
Proof.
  unfold window_mean, as_number. cbn [map valid].
  destruct (num_of c) as [q|]; [|reflexivity].
  cbn [valid mean_of]. apply float_Qeq. unfold Qsum, Qlen. cbn. field.
Qed.

(** The table [compute_driver_stats] returns for a table without rows:
    no statistics, the columns [apply] takes from its input instead. *)
Lemma compute_driver_stats_empty (include_groups : bool) (results : DataFrame)
    (window : Z) :
  has_col results "Abbreviation" = true ->
  has_col results "Date" = true ->
  rows results = [] ->
  compute_driver_stats include_groups results window
  = Ok (mkDF (columns results
              ++ applied_columns include_groups (columns results) "Abbreviation") []).
Proof.
  intros Ha Hd Hrows.
  assert (Hsort : sort_values2 results "Abbreviation" "Date"
                  = Ok (mkDF (columns results) [])).
  { unfold sort_values2, col. rewrite Ha, Hd, Hrows. reflexivity. }
  assert (Hgroup : groupby (mkDF (columns results) []) "Abbreviation" = Ok []).
  { unfold groupby, col.
    change (has_col (mkDF (columns results) []) "Abbreviation")
      with (has_col results "Abbreviation").
    rewrite Ha. reflexivity. }
  unfold compute_driver_stats. rewrite Hsort. cbn [bind]. rewrite Hgroup. reflexivity.
Qed.

Lemma compute_driver_stats_returns (include_groups : bool) (results : DataFrame)
    (window : Z) :
  1 <= window ->
  clean_results results ->
  exists out,
    compute_driver_stats include_groups results window = Ok out
    /\ length (rows out) = length (rows results).
Proof.
  intros HW Hclean.
  destruct (rows results) as [|r rest] eqn:Hrows.
  - pose proof (clean_columns _ Hclean) as Hcols.
    cbn [forallb] in Hcols. rewrite !andb_true_iff in Hcols.
    destruct Hcols as (Ha & Hd & _).
    eexists. split; [apply compute_driver_stats_empty; assumption | reflexivity].
  - eexists. split.
    + apply compute_driver_stats_rows; [assumption | assumption |].
      rewrite Hrows. discriminate.
    + cbn [rows]. rewrite length_map. unfold prefixes. rewrite prefixes_from_length.
      rewrite (Permutation_length (sort_by_Permutation _ _)), Hrows. reflexivity.
Qed.

(** The rolling means of the finishing position of one driver over a
    window of two races, and of two drivers told apart. *)
Example driver_stats_of_one_driver :
  (out ← compute_driver_stats true Samples.ver_results 2;
   Ok (map (fun r => at_ r "AvgFinishLast5") (rows out)))
  = Ok [ Num 1; Num 2; Num (5 # 2); Num (7 # 2) ].
Proof. vm_compute. reflexivity. Qed.

Example driver_stats_of_two_drivers :
  (out ← compute_driver_stats true Samples.driver_results 2;
   Ok (map (fun r => (at_ r "Abbreviation", at_ r "Date", at_ r "PointsLast5"))
           (rows out)))
  = Ok [ (Str "HAM", Int 1, Num 18); (Str "HAM", Int 2, Num 43);
         (Str "HAM", Int 3, Num 37);
         (Str "VER", Int 1, Num 25); (Str "VER", Int 2, Num 40);
         (Str "VER", Int 3, Num 15) ].
Proof. vm_compute. reflexivity. Qed.

(** C3.  For a table of clean results and
    a window [W >= 1], [compute_driver_stats] returns the table sorted by
    driver and date, with six statistics added to each row when the table
    has a row, and the
    statistics of the row at position [i] are those of the last [W] rows of
    the same driver at or before [i]: rows of other drivers never enter a
    window, and fewer than [W] rows are used when the driver has no more.
    When the table holds one driver in chronological order, the sort leaves
    it as it is and the statistics at [i] are those of rows
    [max(0, i - W + 1) .. i]; at the first row the window is that row alone
    and the rolling mean of the finishing position is the row's own
    position. *)
Theorem rolling_window_statistics (include_groups : bool) (results : DataFrame) (W : Z) :
  1 <= W ->
  clean_results results ->
  exists sorted out,
    sort_values2 results "Abbreviation" "Date" = Ok sorted
    /\ compute_driver_stats include_groups results W = Ok out
    /\ (rows results <> [] -> columns out = columns results ++ stat_columns)
    /\ length (rows out) = length (rows results)
    /\ (forall i src,
          nth_error (rows sorted) i = Some src ->
          nth_error (rows out) i
          = Some (stats_row (has_col results "IsDNF") src
                    (lastn (Z.to_nat W)
                       (List.filter (same_driver src) (firstn (S i) (rows sorted))))))
    /\ (single_driver results ->
        chronological results ->
        rows sorted = rows results
        /\ (forall i src,
              nth_error (rows results) i = Some src ->
              nth_error (rows out) i
              = Some (stats_row (has_col results "IsDNF") src
                        (window (Z.to_nat W) i (rows results))))
        /\ (forall r1,
              nth_error (rows results) 0 = Some r1 ->
              window (Z.to_nat W) 0 (rows results) = [r1]
              /\ assoc "AvgFinishLast5"
                   (window_stats (has_col results "IsDNF")
                      (window (Z.to_nat W) 0 (rows results)))
                 = Some (as_number (at_ r1 "Position")))).
Proof.
  intros HW Hclean.
  assert (Hdec : rows results = [] \/ rows results <> [])
    by (destruct (rows results); [left; reflexivity | right; discriminate]).
  destruct Hdec as [Hnone|Hsome].
  { pose proof (clean_columns _ Hclean) as Hcols.
    cbn [forallb] in Hcols. rewrite !andb_true_iff in Hcols.
    destruct Hcols as (Ha & Hd & _).
    exists (mkDF (columns results) []). eexists.
    split.
    { unfold sort_values2, col. rewrite Ha, Hd, Hnone. reflexivity. }
    split; [apply compute_driver_stats_empty; assumption|].
    split; [intros Hne; contradiction|].
    rewrite Hnone. cbn [rows].
    split; [reflexivity|].
    split; [intros [|i] src Hi; discriminate Hi|].
    intros _ _. split; [reflexivity|].
    split; [intros [|i] src Hi; discriminate Hi | intros r1 H1; discriminate H1]. }
  pose proof (compute_driver_stats_rows include_groups results W HW Hclean Hsome) as Hout.
  set (L := sort_by (lex_leb "Abbreviation" "Date") (rows results)) in *.
  assert (Hsorted : sort_values2 results "Abbreviation" "Date"
                    = Ok (mkDF (columns results) L)).
  { unfold compute_driver_stats in Hout.
    destruct (sort_values2 results "Abbreviation" "Date") as [df|e] eqn:E;
      [|discriminate Hout].
    unfold sort_values2 in E. bind_inv.
    destruct (_ && _); [|discriminate]. injection E as <-. reflexivity. }
  assert (Hdrv : Forall (fun r => exists s, at_ r "Abbreviation" = Str s) L)
    by (apply Forall_sort_by, (clean_drivers _ Hclean)).
  assert (Hrow : forall i src,
             nth_error L i = Some src ->
             nth_error
               (map (fun p =>
                       stats_row (has_col results "IsDNF") (List.last p no_row)
                         (lastn (Z.to_nat W)
                            (List.filter (same_driver (List.last p no_row)) p)))
                    (prefixes L)) i
             = Some (stats_row (has_col results "IsDNF") src
                       (lastn (Z.to_nat W)
                          (List.filter (same_driver src) (firstn (S i) L))))).
  { intros i src Hi.
    assert (Hlt : (i < length L)%nat) by (apply nth_error_Some; congruence).
    rewrite nth_error_map. unfold prefixes.
    rewrite (nth_error_prefixes_from [] L i Hlt). cbn [app option_map].
    rewrite (firstn_S_last L i src no_row Hi). reflexivity. }
  eexists (mkDF (columns results) L), _.
  split; [exact Hsorted|]. split; [exact Hout|]. cbn [columns rows].
  split; [intros _; reflexivity|]. split.
  { rewrite length_map. unfold prefixes. rewrite prefixes_from_length.
    apply Permutation_length, sort_by_Permutation. }
  split; [exact Hrow|].
  intros Hone Hchron.
  assert (HL : L = rows results) by (apply sort_by_chronological; assumption).
  split; [exact HL|].
  assert (Hwin : forall i src,
             nth_error (rows results) i = Some src ->
             lastn (Z.to_nat W)
               (List.filter (same_driver src) (firstn (S i) (rows results)))
             = window (Z.to_nat W) i (rows results)).
  { intros i src Hi.
    assert (Hlt : (i < length (rows results))%nat) by (apply nth_error_Some; congruence).
    rewrite filter_every; [apply lastn_firstn_window, Hlt|].
    intros r Hr. apply Hone.
    - eapply nth_error_In. exact Hi.
    - rewrite <- (firstn_skipn (S i) (rows results)). apply in_or_app. left. exact Hr. }
  split.
  - intros i src Hi. rewrite <- HL in Hi. rewrite (Hrow i src Hi).
    rewrite HL in Hi |- *. rewrite (Hwin i src Hi). reflexivity.
  - intros r1 H1.
    assert (Hw : window (Z.to_nat W) 0 (rows results) = [r1]).
    { unfold window. destruct (rows results) as [|r rest]; [discriminate H1|].
      injection H1 as ->. replace (1 - Z.to_nat W)%nat with 0%nat by lia. reflexivity. }
    split; [exact Hw|]. rewrite Hw. cbn [window_stats map assoc].
    rewrite <- window_mean_single. reflexivity.
Qed.

Lemma rolling_window_statistics_witness :
  exists sorted out,
    sort_values2 Samples.driver_results "Abbreviation" "Date" = Ok sorted
    /\ compute_driver_stats true Samples.driver_results 2 = Ok out
    /\ nth_error (rows out) 2
       = Some (stats_row true (Samples.race 5 "HAM" 3 (Num 4) 2 12 false)
                 [ Samples.race 3 "HAM" 2 (Num 1) 1 25 false;
                   Samples.race 5 "HAM" 3 (Num 4) 2 12 false ]).
Proof.
  assert (Hclean : clean_results Samples.driver_results).
  { constructor.
    - reflexivity.
    - repeat (apply List.Forall_cons; [eexists; reflexivity|]). apply List.Forall_nil.
    - repeat (apply List.Forall_cons; [reflexivity|]). apply List.Forall_nil.
    - repeat (apply List.Forall_cons;
              [repeat (apply List.Forall_cons; [reflexivity|]); apply List.Forall_nil|]).
      apply List.Forall_nil. }
  destruct (rolling_window_statistics true Samples.driver_results 2 ltac:(lia) Hclean)
    as (sorted & out & Hs & Ho & _ & _ & Hrow & _).
  exists sorted, out. split; [exact Hs|]. split; [exact Ho|].
  assert (E : sorted = mkDF Samples.race_columns
                         (sort_by (lex_leb "Abbreviation" "Date")
                            (rows Samples.driver_results))).
  { vm_compute in Hs. injection Hs as <-. reflexivity. }
  rewrite (Hrow 2%nat (Samples.race 5 "HAM" 3 (Num 4) 2 12 false)).
  - rewrite E. reflexivity.
  - rewrite E. reflexivity.
Defined.

(* ===================================================================== *)
(** * Further properties of the feature functions                          *)
(* ===================================================================== *)

(** ** Counting rows *)

Lemma length_filter_map {A B} (f : A -> B) (p : B -> bool) (l : list A) :
  length (List.filter p (map f l)) = length (List.filter (fun x => p (f x)) l).
Proof. rewrite filter_map_swap, length_map. reflexivity. Qed.

Lemma mapM_at_most v xs bs :
  mapM (fun x => cell_leb x (Int v)) xs = Ok bs -> bs = map (at_most v) xs.
Proof.
  revert bs. induction xs as [|x xs IH]; cbn; intros bs H.
  - injection H as <-. reflexivity.
  - bind_inv. injection H as <-. unfold at_most at 1. rewrite Ha.
    f_equal. apply IH. assumption.
Qed.

Lemma count_eq_rows df c v k :
  count_eq df c v = Ok k -> k = Int (count_rows (fun x => cell_eqb x v) c (rows df)).
Proof.
  unfold count_eq, col, count_rows, count_true.
  destruct (has_col df c); [|discriminate]. cbn [bind]. intros H. injection H as <-.
  rewrite map_map, <- (length_filter_map (fun r => cell_eqb (at_ r c) v) (fun b => b)).
  reflexivity.
Qed.

Lemma count_le_rows df c v k :
  count_le df c (Int v) = Ok k -> k = Int (count_rows (at_most v) c (rows df)).
Proof.
  unfold count_le, col, count_rows, count_true.
  destruct (has_col df c); [|discriminate]. cbn [bind]. intros H. bind_inv.
  injection H as <-. apply mapM_at_most in Ha. subst a.
  rewrite map_map, <- (length_filter_map (fun r => at_most v (at_ r c)) (fun b => b)).
  reflexivity.
Qed.

Lemma count_rows_nonneg p c l : 0 <= count_rows p c l.
Proof. unfold count_rows. lia. Qed.

Lemma count_rows_length p c l : count_rows p c l <= Z.of_nat (length l).
Proof.
  unfold count_rows. apply inj_le. apply List.filter_length_le.
Qed.

Lemma count_rows_mono (p q : cell -> bool) c l :
  (forall x, p x = true -> q x = true) -> count_rows p c l <= count_rows q c l.
Proof.
  intros H. unfold count_rows. apply inj_le.
  induction l as [|r l IH]; cbn; [lia|].
  destruct (p (at_ r c)) eqn:E.
  - rewrite (H _ E). cbn. lia.
  - destruct (q (at_ r c)); cbn; lia.
Qed.

Lemma count_rows_skipn p c k l : count_rows p c (skipn k l) <= count_rows p c l.
Proof.
  unfold count_rows. apply inj_le.
  rewrite <- (firstn_skipn k l) at 2. rewrite List.filter_app, length_app. lia.
Qed.

Lemma tail_list_skipn {A} (n : Z) (l : list A) : exists k, tail_list n l = skipn k l.
Proof. unfold tail_list. destruct (0 <=? n); eauto. Qed.

Lemma tail_list_all {A} (n : Z) (l : list A) :
  Z.of_nat (length l) <= n -> tail_list n l = l.
Proof.
  intros H. unfold tail_list.
  destruct (0 <=? n) eqn:E; [|apply Z.leb_gt in E; lia].
  replace (length l - Z.to_nat n)%nat with 0%nat by lia. reflexivity.
Qed.

Lemma at_most_of_eq (c : cell) : cell_eqb c (Int 1) = true -> at_most 3 c = true.
Proof.
  unfold at_most, cell_leb, cell_cmp, cell_eqb.
  destruct c as [|z|q|s|b|q]; cbn; try discriminate;
    unfold Qeqb, Qleb; intros H; apply Qeq_bool_iff in H; apply Qle_bool_iff;
    rewrite H; discriminate.
Qed.

Lemma at_most_mono (u v : Z) (c : cell) :
  u <= v -> at_most u c = true -> at_most v c = true.
Proof.
  intros Huv. unfold at_most, cell_leb, cell_cmp.
  destruct c as [|z|q|s|b|q]; cbn; try discriminate;
    unfold Qleb; intros H; apply Qle_bool_iff in H; apply Qle_bool_iff;
    (eapply Qle_trans; [exact H|]); rewrite <- Zle_Qle; exact Huv.
Qed.

(** ** The counts of [compute_driver_features] *)

(** The feature vector of a driver with a history, spelled out. *)
Lemma compute_driver_features_history results driver_id as_of_date window f :
  compute_driver_features results driver_id as_of_date window = Ok f ->
  f = _default_driver_features
  \/ exists own df,
       entity_history results "Abbreviation" driver_id as_of_date = Ok own
       /\ rows own <> []
       /\ sort_values own "Date" = Ok df
       /\ counts f "career_races" (len df)
       /\ (if has_col df "Position"
           then counts f "wins_last_n"
                  (count_rows (fun x => cell_eqb x (Int 1)) "Position" (rows (tail df window)))
                /\ counts f "podiums_last_n"
                     (count_rows (at_most 3) "Position" (rows (tail df window)))
                /\ counts f "points_finishes_last_n"
                     (count_rows (at_most 10) "Position" (rows (tail df window)))
                /\ counts f "career_wins"
                     (count_rows (fun x => cell_eqb x (Int 1)) "Position" (rows df))
                /\ counts f "career_podiums"
                     (count_rows (at_most 3) "Position" (rows df))
           else counts f "wins_last_n" 0 /\ counts f "podiums_last_n" 0
                /\ counts f "points_finishes_last_n" 0
                /\ counts f "career_wins" 0 /\ counts f "career_podiums" 0).
Proof.
  unfold compute_driver_features. intros H. bind_inv.
  destruct (len a =? 0) eqn:Hlen.
  - left. injection H as <-. reflexivity.
  - right. bind_inv. exists a, a0. split; [assumption|].
    split.
    { intros E. apply len_zero_iff in E. congruence. }
    split; [assumption|].
    change (has_col (tail a0 window) "Position") with (has_col a0 "Position") in *.
    injection H as <-. split; [reflexivity|].
    destruct (has_col a0 "Position").
    + repeat match goal with
             | H : count_eq _ _ _ = Ok _ |- _ => apply count_eq_rows in H; subst
             | H : count_le _ _ _ = Ok _ |- _ => apply count_le_rows in H; subst
             end.
      repeat split; reflexivity.
    + ok_inv. repeat split; reflexivity.
Qed.

(** X1.  In every feature vector [compute_driver_features] returns, the
    counts are ordered: wins are podiums, podiums are points finishes, the
    last races are part of the career, and nothing exceeds the number of
    races of the driver. *)
Theorem driver_form_counts :
  forall (results : DataFrame) (driver_id : cell) (as_of_date : option Z)
         (window : Z) (f : dict),
    compute_driver_features results driver_id as_of_date window = Ok f ->
    exists wins podiums finishes career_wins career_podiums races,
      counts f "wins_last_n" wins
      /\ counts f "podiums_last_n" podiums
      /\ counts f "points_finishes_last_n" finishes
      /\ counts f "career_wins" career_wins
      /\ counts f "career_podiums" career_podiums
      /\ counts f "career_races" races
      /\ 0 <= wins <= podiums
      /\ podiums <= finishes <= races
      /\ wins <= career_wins <= career_podiums
      /\ podiums <= career_podiums <= races.
Proof.
  intros results driver_id as_of_date window f H.
  destruct (compute_driver_features_history _ _ _ _ _ H)
    as [-> | (own & df & _ & _ & _ & Hn & Hc)].
  - exists 0, 0, 0, 0, 0, 0. repeat split; try reflexivity; lia.
  - destruct (has_col df "Position").
    + destruct Hc as (Hw & Hp & Ht & Hcw & Hcp).
      do 6 eexists. repeat (split; [eassumption|]).
      destruct (tail_list_skipn window (rows df)) as [k Hk].
      cbn [tail rows]. rewrite Hk.
      pose proof (count_rows_nonneg (fun x => cell_eqb x (Int 1)) "Position"
                    (skipn k (rows df))).
      pose proof (count_rows_mono _ _ "Position" (skipn k (rows df)) at_most_of_eq).
      pose proof (count_rows_mono _ _ "Position" (rows df) at_most_of_eq).
      pose proof (count_rows_mono _ _ "Position" (skipn k (rows df))
                    (fun c => at_most_mono 3 10 c ltac:(lia))).
      pose proof (count_rows_skipn (fun x => cell_eqb x (Int 1)) "Position" k (rows df)).
      pose proof (count_rows_skipn (at_most 3) "Position" k (rows df)).
      pose proof (count_rows_skipn (at_most 10) "Position" k (rows df)).
      pose proof (count_rows_length (at_most 10) "Position" (rows df)).
      pose proof (count_rows_length (at_most 3) "Position" (rows df)).
      unfold len.
      set (w := count_rows (fun x => cell_eqb x (Int 1)) "Position" (skipn k (rows df))) in *.
      set (cw := count_rows (fun x => cell_eqb x (Int 1)) "Position" (rows df)) in *.
      clearbody w cw. lia.
    + destruct Hc as (Hw & Hp & Ht & Hcw & Hcp).
      exists 0, 0, 0, 0, 0, (len df). repeat (split; [assumption|]).
      unfold len. lia.
Qed.

Lemma driver_form_counts_witness :
  exists f wins podiums finishes career_wins career_podiums races,
    compute_driver_features Samples.season_2023 (Str "VER") None 2 = Ok f
    /\ counts f "wins_last_n" wins
    /\ counts f "podiums_last_n" podiums
    /\ counts f "points_finishes_last_n" finishes
    /\ counts f "career_wins" career_wins
    /\ counts f "career_podiums" career_podiums
    /\ counts f "career_races" races
    /\ 0 <= wins <= podiums
    /\ podiums <= finishes <= races
    /\ wins <= career_wins <= career_podiums
    /\ podiums <= career_podiums <= races.
Proof.
  destruct (compute_driver_features Samples.season_2023 (Str "VER") None 2)
    as [f|e] eqn:E; [|vm_compute in E; discriminate E].
  destruct (driver_form_counts _ _ _ _ _ E) as (w & p & t & cw & cp & n & H).
  exists f, w, p, t, cw, cp, n. split; [reflexivity | exact H].
Defined.

(** X2.  When the window is at least as long as the driver's history, the
    counts over the last races are the counts over the career. *)
Theorem driver_form_whole_history :
  forall (results : DataFrame) (driver_id : cell) (as_of_date : option Z)
         (window : Z) (f : dict) (races : Z),
    compute_driver_features results driver_id as_of_date window = Ok f ->
    counts f "career_races" races ->
    races <= window ->
    dict_get f "wins_last_n" = dict_get f "career_wins"
    /\ dict_get f "podiums_last_n" = dict_get f "career_podiums".
Proof.
  intros results driver_id as_of_date window f races H Hn Hle.
  destruct (compute_driver_features_history _ _ _ _ _ H)
    as [-> | (own & df & _ & _ & _ & Hn' & Hc)].
  - split; reflexivity.
  - unfold counts in *. rewrite Hn in Hn'. injection Hn' as ->.
    destruct (has_col df "Position").
    + destruct Hc as (Hw & Hp & _ & Hcw & Hcp).
      cbn [tail rows] in Hw, Hp.
      rewrite (tail_list_all window (rows df)) in Hw, Hp by exact Hle.
      split; congruence.
    + destruct Hc as (Hw & Hp & _ & Hcw & Hcp). split; congruence.
Qed.

Lemma driver_form_whole_history_witness :
  dict_get
    match compute_driver_features Samples.season_2023 (Str "HAM") None 5 with
    | Ok f => f
    | Raise _ => []
    end "wins_last_n" = Some (Int 1)
  /\ dict_get
       match compute_driver_features Samples.season_2023 (Str "HAM") None 5 with
       | Ok f => f
       | Raise _ => []
       end "career_wins" = Some (Int 1).
Proof.
  destruct (compute_driver_features Samples.season_2023 (Str "HAM") None 5)
    as [f|e] eqn:E; [|vm_compute in E; discriminate E].
  assert (Hn : counts f "career_races" 4).
  { vm_compute in E. injection E as <-. reflexivity. }
  destruct (driver_form_whole_history _ _ _ _ f 4 E Hn ltac:(lia)) as [Hw _].
  rewrite Hw. split; vm_compute in E; injection E as <-; reflexivity.
Defined.

(** X3.  On a table without a [Date] column and without a cutoff date, a
    driver who is not in the table gets the default vector and a driver who
    is in it makes the call raise [KeyError("Date")]: the sort by date runs
    only when there is a history.  With a cutoff date the call raises
    whoever the driver is, and without an [Abbreviation] column it always
    raises. *)
Theorem driver_features_without_dates :
  forall (results : DataFrame) (driver_id : cell) (window : Z),
    (has_col results "Abbreviation" = false ->
     forall as_of_date,
       compute_driver_features results driver_id as_of_date window
       = Raise (KeyError "Abbreviation"))
    /\ (has_col results "Abbreviation" = true ->
        has_col results "Date" = false ->
        compute_driver_features results driver_id None window
        = (if existsb (fun r => cell_eqb (at_ r "Abbreviation") driver_id) (rows results)
           then Raise (KeyError "Date")
           else Ok _default_driver_features)
        /\ forall d,
             compute_driver_features results driver_id (Some d) window
             = Raise (KeyError "Date")).
Proof.
  intros results driver_id window. split.
  - intros Ha as_of_date. unfold compute_driver_features, entity_history, where_eq.
    rewrite Ha. reflexivity.
  - intros Ha Hd. split.
    + unfold compute_driver_features, entity_history, where_eq. rewrite Ha. cbn [bind].
      destruct (existsb _ (rows results)) eqn:E.
      * destruct (len _ =? 0) eqn:Hlen.
        { apply len_zero_iff in Hlen. cbn [rows] in Hlen.
          apply filter_nil_existsb in Hlen. congruence. }
        unfold sort_values, col.
        change (has_col (mkDF (columns results) ?l) "Date")
          with (has_col results "Date").
        rewrite Hd. reflexivity.
      * apply filter_nil_existsb in E.
        destruct (len _ =? 0) eqn:Hlen; [reflexivity|].
        exfalso. assert (Hz : (len (mkDF (columns results)
                                      (List.filter (fun r => cell_eqb (at_ r "Abbreviation") driver_id)
                                         (rows results))) =? 0) = true)
          by (apply len_zero_iff; exact E).
        congruence.
    + intros d. unfold compute_driver_features, entity_history, where_eq, where_lt.
      rewrite Ha. cbn [bind].
      change (has_col (mkDF (columns results) ?l) "Date")
        with (has_col results "Date").
      rewrite Hd. reflexivity.
Qed.

Lemma driver_features_without_dates_witness :
  compute_driver_features Samples.quali_2023_4 (Str "VER") None 5
  = Raise (KeyError "Date")
  /\ compute_driver_features Samples.quali_2023_4 (Str "ALO") None 5
     = Ok _default_driver_features.
Proof.
  destruct (driver_features_without_dates Samples.quali_2023_4 (Str "VER") 5) as [_ H].
  destruct (H eq_refl eq_refl) as [Hver _].
  destruct (driver_features_without_dates Samples.quali_2023_4 (Str "ALO") 5) as [_ H'].
  destruct (H' eq_refl eq_refl) as [Halo _].
  split; [exact Hver | exact Halo].
Defined.

(** ** The best value of a column is at most its mean *)

Lemma Qmin_le_l p q : (Qmin p q <= p)%Q.
Proof.
  unfold Qmin, Qleb. destruct (Qle_bool p q) eqn:E; [apply Qle_refl|].
  apply Qlt_le_weak, Qnot_le_lt. intros H. apply Qle_bool_iff in H. congruence.
Qed.

Lemma Qmin_le_r p q : (Qmin p q <= q)%Q.
Proof.
  unfold Qmin, Qleb. destruct (Qle_bool p q) eqn:E; [|apply Qle_refl].
  apply Qle_bool_iff, E.
Qed.

Lemma fold_min_le (l : list Q) :
  forall x y, y = x \/ In y l -> (fold_left Qmin l x <= y)%Q.
Proof.
  induction l as [|z l IH]; cbn; intros x y [E|H].
  - subst y. apply Qle_refl.
  - destruct H.
  - subst y. eapply Qle_trans; [apply (IH (Qmin x z) (Qmin x z)); left; reflexivity|].
    apply Qmin_le_l.
  - destruct H as [E|H].
    + subst y. eapply Qle_trans; [apply (IH (Qmin x z) (Qmin x z)); left; reflexivity|].
      apply Qmin_le_r.
    + apply IH. right. exact H.
Qed.

Lemma Qsum_lower (l : list Q) (m : Q) :
  (forall y, In y l -> m <= y)%Q -> (Qlen l * m <= Qsum l)%Q.
Proof.
  induction l as [|x l IH]; intros H.
  - unfold Qlen, Qsum. cbn. rewrite Qmult_0_l. apply Qle_refl.
  - rewrite Qlen_cons. unfold Qsum in *. cbn [fold_right].
    assert (E : ((Qlen l + 1) * m == m + Qlen l * m)%Q) by ring.
    rewrite E. apply Qplus_le_compat; [apply H; left; reflexivity|].
    apply IH. intros y Hy. apply H. right. exact Hy.
Qed.

Lemma min_of_le_mean_of (l : list Q) :
  both_missing_or_le (Some (min_of l)) (Some (mean_of l)).
Proof.
  destruct l as [|x l]; [left; split; reflexivity|]. right.
  exists (Qred (fold_left Qmin l x)), (Qred (Qsum (x :: l) / Qlen (x :: l))).
  split; [reflexivity|]. split; [reflexivity|].
  rewrite !Qred_correct.
  assert (Hpos : (0 < Qlen (x :: l))%Q) by (apply Qlen_pos; discriminate).
  apply Qle_shift_div_l; [exact Hpos|].
  rewrite Qmult_comm. apply Qsum_lower.
  intros y Hy. apply fold_min_le. destruct Hy as [<-|Hy]; auto.
Qed.

Lemma col_min_le_col_mean df c best avg :
  col_min df c = Ok best -> col_mean df c = Ok avg ->
  both_missing_or_le (Some best) (Some avg).
Proof.
  unfold col_min, col_mean, min, mean. intros H1 H2. bind_inv.
  rewrite Ha in Ha1. injection Ha1 as <-. rewrite Ha0 in Ha2. injection Ha2 as <-.
  injection H1 as <-. injection H2 as <-. apply min_of_le_mean_of.
Qed.

Lemma min_of_with_mean_of (l : list Q) :
  missing_together (Some (min_of l)) (Some (mean_of l)).
Proof.
  destruct l as [|x l]; [left; split; reflexivity|]. right.
  eexists _, _. split; reflexivity.
Qed.

Lemma col_min_with_col_mean df c best avg :
  col_min df c = Ok best -> col_mean df c = Ok avg ->
  missing_together (Some best) (Some avg).
Proof.
  unfold col_min, col_mean, min, mean. intros H1 H2. bind_inv.
  rewrite Ha in Ha1. injection Ha1 as <-. rewrite Ha0 in Ha2. injection Ha2 as <-.
  injection H1 as <-. injection H2 as <-. apply min_of_with_mean_of.
Qed.

(** ** The record of a driver at a circuit *)

(** X4.  For a circuit that is in the results and a driver with a usable
    id, [compute_circuit_features] counts the driver's races at the circuit;
    wins are at most podiums and podiums at most races, the best finish is
    at most the average finish, and a driver who never raced there gets the
    stated fallback values. *)
Theorem driver_circuit_record :
  forall (results : DataFrame) (circuit_name driver : cell) (f : dict),
    compute_circuit_features results circuit_name (Some driver) = Ok f ->
    circuit_known results circuit_name = true ->
    truthy driver = true ->
    exists wins podiums,
      let at_circuit :=
        List.filter (fun r => cell_eqb (at_ r "GrandPrix") circuit_name) (rows results) in
      let races := count_rows (fun x => cell_eqb x driver) "Abbreviation" at_circuit in
      counts f "driver_circuit_races" races
      /\ counts f "driver_circuit_wins" wins
      /\ counts f "driver_circuit_podiums" podiums
      /\ 0 <= wins <= podiums
      /\ podiums <= races
      /\ (races = 0 ->
          dict_get f "driver_circuit_avg_finish" = Some (Num 10)
          /\ dict_get f "driver_circuit_best_finish" = Some (Int 10))
      /\ (0 < races ->
          both_missing_or_le (dict_get f "driver_circuit_best_finish")
                             (dict_get f "driver_circuit_avg_finish")).
Proof.
  intros results circuit_name driver f H Hknown Htruthy.
  unfold compute_circuit_features in H. bind_inv.
  apply where_eq_Ok in Ha as [Hcols Hrows].
  destruct (len a =? 0) eqn:Hlen.
  { apply len_zero_iff in Hlen. rewrite Hrows in Hlen.
    apply filter_nil_existsb in Hlen. unfold circuit_known in Hknown. congruence. }
  bind_inv. cbn [given] in H. rewrite Htruthy in H. bind_inv.
  match goal with
  | Hw : where_eq a "Abbreviation" _ = Ok ?d |- _ =>
      apply where_eq_Ok in Hw as [_ Hown]; rename d into own
  end.
  assert (Hraces : count_rows (fun x => cell_eqb x driver) "Abbreviation"
                     (List.filter (fun r => cell_eqb (at_ r "GrandPrix") circuit_name)
                        (rows results))
                   = len own).
  { unfold count_rows, len. rewrite Hown, Hrows. reflexivity. }
  destruct (0 <? len own) eqn:Hpos.
  - bind_inv. injection H as <-.
    repeat match goal with
           | Hc : count_eq _ _ _ = Ok _ |- _ => apply count_eq_rows in Hc; subst
           | Hc : count_le _ _ _ = Ok _ |- _ => apply count_le_rows in Hc; subst
           end.
    do 2 eexists. cbn zeta. rewrite Hraces.
    split; [reflexivity|]. split; [reflexivity|]. split; [reflexivity|].
    pose proof (count_rows_nonneg (fun x => cell_eqb x (Int 1)) "Position" (rows own)).
    pose proof (count_rows_mono _ _ "Position" (rows own) at_most_of_eq).
    pose proof (count_rows_length (at_most 3) "Position" (rows own)).
    apply Z.ltb_lt in Hpos. unfold len in *.
    split; [lia|]. split; [lia|]. split; [lia|]. intros _.
    match goal with
    | Hmin : col_min own "Position" = Ok ?b, Hmean : col_mean own "Position" = Ok ?m |- _ =>
        exact (col_min_le_col_mean _ _ _ _ Hmin Hmean)
    end.
  - injection H as <-. apply Z.ltb_ge in Hpos.
    exists 0, 0. cbn zeta. rewrite Hraces.
    assert (Hzero : len own = 0) by (unfold len in *; lia). rewrite Hzero.
    split; [reflexivity|]. split; [reflexivity|]. split; [reflexivity|].
    split; [lia|]. split; [lia|]. split; [intros _; split; reflexivity | lia].
Qed.

Lemma driver_circuit_record_witness :
  exists f,
    compute_circuit_features Samples.season_2023 (Str "Bahrain") (Some (Str "VER")) = Ok f
    /\ counts f "driver_circuit_races" 2
    /\ both_missing_or_le (dict_get f "driver_circuit_best_finish")
                          (dict_get f "driver_circuit_avg_finish").
Proof.
  destruct (compute_circuit_features Samples.season_2023 (Str "Bahrain") (Some (Str "VER")))
    as [f|e] eqn:E; [|vm_compute in E; discriminate E].
  destruct (driver_circuit_record _ _ _ f E eq_refl eq_refl)
    as (w & p & Hn & _ & _ & _ & _ & _ & Hle).
  exists f. split; [reflexivity|]. split; [exact Hn|]. apply Hle. reflexivity.
Defined.

(** ** Session features: practice laps, the pole-sitter, the default grid
    position *)

Lemma quali_features_keys quali_results driver features :
  quali_features quali_results (Some driver) [] = Ok features ->
  keys features = if in_quali quali_results driver then session_keys else [].
Proof.
  intros H. apply (compute_session_features_keys quali_results driver).
  unfold compute_session_features. rewrite H. reflexivity.
Qed.

(** X5.  The three practice features come together: they are in the
    vector exactly when the driver has a usable id and laps in the practice
    table.  Then the lap count is the number of those laps, and the best and
    the average lap time are missing together: both are numbers, or both are
    missing when no lap has a time. *)
Theorem practice_features_together :
  forall (quali_results practice_laps : DataFrame) (driver : cell) (f : dict),
    compute_session_features quali_results (Some practice_laps) (Some driver) = Ok f ->
    let laps := count_rows (fun x => cell_eqb x driver) "Driver" (rows practice_laps) in
    let present := truthy driver && (0 <? laps) in
    (forall k, In k [ "fp_best_lap_time"; "fp_avg_lap_time"; "fp_lap_count" ] ->
               (In k (keys f) <-> present = true))
    /\ (present = true ->
        counts f "fp_lap_count" laps
        /\ missing_together (dict_get f "fp_best_lap_time")
                            (dict_get f "fp_avg_lap_time")).
Proof.
  intros quali_results practice_laps driver f H. cbn zeta.
  unfold compute_session_features in H. bind_inv.
  apply quali_features_keys in Ha.
  assert (Hnot : forall k, In k [ "fp_best_lap_time"; "fp_avg_lap_time"; "fp_lap_count" ] ->
                           ~ In k (keys a)).
  { intros k Hk. rewrite Ha. destruct (in_quali quali_results driver);
      cbn in *; intuition (subst; discriminate). }
  unfold practice_features in H. cbn [given] in H.
  destruct (truthy driver); cbn [andb] in *.
  2:{ injection H as <-. split; [|discriminate].
      intros k Hk. split; [intros Hin; destruct (Hnot k Hk Hin) | discriminate]. }
  destruct (0 <? len practice_laps) eqn:Hlen.
  2:{ injection H as <-.
      assert (Hnil : rows practice_laps = []).
      { unfold len in Hlen. destruct (rows practice_laps); [reflexivity|].
        cbn in Hlen. apply Z.ltb_ge in Hlen. lia. }
      unfold count_rows. rewrite Hnil. cbn. split; [|discriminate].
      intros k Hk. split; [intros Hin; destruct (Hnot k Hk Hin) | discriminate]. }
  bind_inv. apply where_eq_Ok in Ha0 as [_ Hown].
  assert (Hcount : count_rows (fun x => cell_eqb x driver) "Driver" (rows practice_laps)
                   = len a0).
  { unfold count_rows, len. rewrite Hown. reflexivity. }
  rewrite Hcount. destruct (0 <? len a0) eqn:Hpos.
  - bind_inv. injection H as <-. split.
    + intros k Hk. split; [reflexivity|]. intros _.
      rewrite !keys_dict_set. rewrite Ha.
      destruct (in_quali quali_results driver); cbn in *;
        intuition (subst; cbn; auto 10).
    + intros _. split.
      * unfold counts, dict_get. apply assoc_dict_set_eq.
      * rewrite (dict_get_set_ne "fp_best_lap_time" "fp_lap_count") by discriminate.
        rewrite (dict_get_set_ne "fp_best_lap_time" "fp_avg_lap_time") by discriminate.
        rewrite (dict_get_set_ne "fp_avg_lap_time" "fp_lap_count") by discriminate.
        unfold dict_get. rewrite !assoc_dict_set_eq.
        eapply col_min_with_col_mean; eassumption.
  - injection H as <-. split; [|discriminate].
    intros k Hk. split; [intros Hin; destruct (Hnot k Hk Hin) | discriminate].
Qed.

Lemma practice_features_together_witness :
  exists f,
    compute_session_features Samples.quali_2023_4 (Some Samples.race_laps)
      (Some (Str "VER")) = Ok f
    /\ counts f "fp_lap_count" 6
    /\ missing_together (dict_get f "fp_best_lap_time") (dict_get f "fp_avg_lap_time").
Proof.
  destruct (compute_session_features Samples.quali_2023_4 (Some Samples.race_laps)
              (Some (Str "VER"))) as [f|e] eqn:E; [|vm_compute in E; discriminate E].
  destruct (practice_features_together _ _ _ f E) as [_ H].
  exists f. split; [reflexivity|]. apply H. reflexivity.
Defined.

Lemma Qred_zero_diff (q : Q) : Qred (q - q) = 0%Q.
Proof.
  change 0%Q with (Qred 0). apply Qred_complete. ring.
Qed.

(** X6.  When the driver's row in the qualifying table is the row of the
    pole-sitter and holds a Q3 time, the gap to pole is zero, unless the
    time is exactly zero: a zero pole time is falsy, and the gap is then
    the default of one second. *)
Theorem pole_sitter_gap :
  forall (quali_results : DataFrame) (driver : cell) (row : Row)
         (others slower : list Row) (q : Q),
    has_col quali_results "Abbreviation" = true ->
    has_col quali_results "Position" = true ->
    has_col quali_results "Q3" = true ->
    truthy driver = true ->
    List.filter (fun r => cell_eqb (at_ r "Abbreviation") driver) (rows quali_results)
    = row :: others ->
    List.filter (fun r => cell_eqb (at_ r "Position") (Int 1)) (rows quali_results)
    = row :: slower ->
    assoc "Q3" (cells row) = Some (Num q) \/ assoc "Q3" (cells row) = Some (Timedelta q) ->
    compute_session_features quali_results None (Some driver)
    = Ok [ ("grid_position", series_get_default row "Position" (Int 10));
           ("quali_gap_to_pole", if Qeqb q 0 then Num 1 else Num 0) ].
Proof.
  intros quali_results driver row others slower q Ha Hp Hq Ht Hrow Hpole Hq3.
  assert (Hlen : (0 <? len quali_results) = true).
  { unfold len. destruct (rows quali_results); [discriminate Hrow|]. reflexivity. }
  unfold compute_session_features, quali_features, practice_features.
  cbn [given]. rewrite Ht, Hlen. cbn [andb].
  unfold where_eq at 1. rewrite Ha. cbn [bind rows]. rewrite Hrow.
  unfold pole_time. rewrite Hq. unfold where_eq. rewrite Hp. cbn [bind].
  unfold col.
  change (has_col (mkDF (columns quali_results) ?l) "Q3") with (has_col quali_results "Q3").
  rewrite Hq. cbn [bind rows]. rewrite Hpole. cbn [map iloc0 bind given].
  unfold in_row, at_.
  destruct Hq3 as [-> | ->]; cbn [truthy notna andb total_seconds];
    destruct (Qeqb q 0); cbn [negb andb bind]; try reflexivity;
    unfold cell_sub; cbn [num_of bind]; unfold float; rewrite Qred_zero_diff;
    reflexivity.
Qed.

Lemma pole_sitter_gap_witness :
  compute_session_features Samples.quali_2023_4 None (Some (Str "VER"))
  = Ok [ ("grid_position", Num 1); ("quali_gap_to_pole", Num 0) ].
Proof.
  apply (pole_sitter_gap Samples.quali_2023_4 (Str "VER")
           (Samples.quali_record 0 "VER" (Num 1) (Num 89)) [] [] 89);
    try reflexivity.
  left. reflexivity.
Defined.

(** X7.  The default grid position 10 is returned only for a qualifying
    table with neither a [Position] nor a [Q3] column: with a [Q3] column
    the search for the pole-sitter reads [Position] and raises
    [KeyError]. *)
Theorem grid_position_default :
  forall (quali_results : DataFrame) (driver : cell) (row : Row) (others : list Row),
    has_col quali_results "Abbreviation" = true ->
    has_col quali_results "Position" = false ->
    truthy driver = true ->
    List.filter (fun r => cell_eqb (at_ r "Abbreviation") driver) (rows quali_results)
    = row :: others ->
    in_row row "Position" = false ->
    compute_session_features quali_results None (Some driver)
    = if has_col quali_results "Q3"
      then Raise (KeyError "Position")
      else Ok [ ("grid_position", Int 10); ("quali_gap_to_pole", Num 1) ].
Proof.
  intros quali_results driver row others Ha Hp Ht Hrow Hin.
  assert (Hlen : (0 <? len quali_results) = true).
  { unfold len. destruct (rows quali_results); [discriminate Hrow|]. reflexivity. }
  unfold compute_session_features, quali_features, practice_features.
  cbn [given]. rewrite Ht, Hlen. cbn [andb].
  unfold where_eq at 1. rewrite Ha. cbn [bind rows]. rewrite Hrow.
  unfold pole_time, series_get_default. rewrite Hin.
  destruct (has_col quali_results "Q3").
  - unfold where_eq. rewrite Hp. reflexivity.
  - reflexivity.
Qed.

Lemma grid_position_default_witness :
  compute_session_features
    (mkDF [ "Abbreviation" ] [ mkRow 0 [ ("Abbreviation", Str "VER") ] ])
    None (Some (Str "VER"))
  = Ok [ ("grid_position", Int 10); ("quali_gap_to_pole", Num 1) ]
  /\ compute_session_features
       (mkDF [ "Abbreviation"; "Q3" ]
          [ mkRow 0 [ ("Abbreviation", Str "VER"); ("Q3", Num 89) ] ])
       None (Some (Str "VER"))
     = Raise (KeyError "Position").
Proof.
  split.
  - apply (grid_position_default
             (mkDF [ "Abbreviation" ] [ mkRow 0 [ ("Abbreviation", Str "VER") ] ])
             (Str "VER") (mkRow 0 [ ("Abbreviation", Str "VER") ]) []); reflexivity.
  - apply (grid_position_default
             (mkDF [ "Abbreviation"; "Q3" ]
                [ mkRow 0 [ ("Abbreviation", Str "VER"); ("Q3", Num 89) ] ])
             (Str "VER") (mkRow 0 [ ("Abbreviation", Str "VER"); ("Q3", Num 89) ]) []);
      reflexivity.
Defined.

(** ** The race feature table: one row per driver *)

Lemma In_union_keys k seen ks :
  In k (union_keys seen ks) <-> In k seen \/ In k ks.
Proof.
  revert seen. induction ks as [|x ks IH]; intros seen; cbn; [tauto|].
  destruct (existsb (String.eqb x) seen) eqn:E.
  - rewrite IH. apply (has_key_In x seen) in E. split; [tauto|].
    intros [H|[<-|H]]; auto.
  - rewrite IH, in_app_iff. cbn. tauto.
Qed.

Lemma In_record_columns_from k (records : list dict) (seen : list string) :
  In k (fold_left (fun seen d => union_keys seen (keys d)) records seen)
  <-> In k seen \/ exists d, In d records /\ In k (keys d).
Proof.
  revert seen. induction records as [|d records IH]; intros seen; cbn.
  - split; [tauto|]. intros [H|(d & [] & _)]. exact H.
  - rewrite IH, In_union_keys. split.
    + intros [[H|H]|(d' & Hd & Hk)]; eauto 6.
    + intros [H|(d' & [<-|Hd] & Hk)]; eauto 6.
Qed.

Lemma at_projected (cols : list string) (v : string -> cell) (i : Z) (c : string) :
  In c cols -> at_ (mkRow i (map (fun c => (c, v c)) cols)) c = v c.
Proof.
  unfold at_. cbn [cells]. induction cols as [|x cols IH]; cbn; [tauto|].
  intros H. destruct (String.eqb c x) eqn:E.
  - apply String.eqb_eq in E. subst. reflexivity.
  - apply IH. destruct H as [->|H]; [rewrite String.eqb_refl in E; discriminate | exact H].
Qed.

Lemma map_enumerate {A B} (f : A -> B) (i : Z) (l : list A) :
  map (fun p : Z * A => f (snd p)) (enumerate i l) = map f l.
Proof.
  revert i. induction l as [|x l IH]; intros i; cbn; [reflexivity|].
  rewrite IH. reflexivity.
Qed.

(** A key that some record has is a column of [pd.DataFrame(records)], and
    the column lists the values of the records, missing where a record
    lacks the key. *)
Lemma col_from_records (records : list dict) (k : string) :
  (exists d, In d records /\ In k (keys d)) ->
  col (from_records records) k
  = Ok (map (fun d => match dict_get d k with Some v => v | None => NaN end) records).
Proof.
  intros H.
  assert (Hin : In k (record_columns records)).
  { unfold record_columns. apply In_record_columns_from. right. exact H. }
  unfold col. replace (has_col (from_records records) k) with true.
  2:{ symmetry. unfold has_col, from_records. cbn [columns].
      apply (has_key_In k (record_columns records)), Hin. }
  f_equal. unfold from_records. cbn [rows]. rewrite map_map.
  rewrite <- (map_enumerate
                (fun d => match dict_get d k with Some v => v | None => NaN end) 0 records).
  apply map_ext. intros [i d]. cbn [snd].
  apply (at_projected (record_columns records)
           (fun c => match assoc c d with Some v => v | None => NaN end) i k Hin).
Qed.

Lemma mapM_Forall2 {A B} (f : A -> result B) (l : list A) (ys : list B) :
  mapM f l = Ok ys -> Forall2 (fun x y => f x = Ok y) l ys.
Proof.
  revert ys. induction l as [|x l IH]; cbn; intros ys H.
  - injection H as <-. constructor.
  - bind_inv. injection H as <-. constructor; auto.
Qed.

(** The identifying keys of one row. *)
Lemma feature_row_identity hist target quali_results ts tr circuit_name driver row :
  feature_row hist target quali_results ts tr circuit_name driver = Ok row ->
  dict_get row "Season" = Some (Int ts)
  /\ dict_get row "Round" = Some (Int tr)
  /\ dict_get row "GrandPrix" = Some circuit_name.
Proof.
  unfold feature_row, predictive_features. intros H. bind_inv. ok_inv.
  match goal with
  | H : compute_driver_features _ _ _ _ = Ok _ |- _ =>
      pose proof (compute_driver_features_keys _ _ _ _ _ H) as Kd
  end.
  match goal with
  | H : compute_circuit_features _ _ _ = Ok _ |- _ =>
      pose proof (compute_circuit_features_keys _ _ _ _ H) as Kc
  end.
  match goal with
  | H : compute_team_features _ _ _ _ = Ok _ |- _ =>
      pose proof (compute_team_features_keys _ _ _ _ _ H) as Kt
  end.
  match goal with
  | H : compute_session_features _ _ _ = Ok _ |- _ =>
      pose proof (compute_session_features_keys _ _ _ H) as Ks
  end.
  match goal with
  | H : target_labels _ _ = Ok _ |- _ =>
      pose proof (target_labels_keys _ _ _ H) as Kl
  end.
  repeat split;
    (rewrite dict_get_update_notin by (rewrite Kl; not_a_key);
     rewrite dict_get_update_notin
       by (rewrite Ks; destruct (in_quali quali_results driver); not_a_key);
     rewrite dict_get_update_notin by (rewrite Kt; not_a_key);
     rewrite dict_get_update_notin
       by (rewrite Kc; destruct (circuit_known hist circuit_name && truthy driver);
           not_a_key);
     rewrite dict_get_update_notin by (rewrite Kd; not_a_key);
     reflexivity).
Qed.

Lemma dict_get_In_keys (d : dict) k v : dict_get d k = Some v -> In k (keys d).
Proof.
  unfold dict_get, keys. induction d as [|[k' v'] d IH]; cbn; [discriminate|].
  destruct (String.eqb k k') eqn:E.
  - apply String.eqb_eq in E. auto.
  - intros H. right. apply IH, H.
Qed.

Lemma col_of_constant_key (records : list dict) (A : Type) (xs : list A)
    (k : string) (v : A -> cell) :
  records <> [] ->
  Forall2 (fun x d => dict_get d k = Some (v x)) xs records ->
  col (from_records records) k = Ok (map v xs).
Proof.
  intros Hne H. rewrite col_from_records.
  - f_equal. clear Hne. induction H as [|x d xs records Hd _ IH]; [reflexivity|].
    cbn [map]. rewrite Hd, IH. reflexivity.
  - destruct H as [|x d xs records' Hd _]; [contradiction|].
    exists d. split; [left; reflexivity|]. eapply dict_get_In_keys, Hd.
Qed.

Lemma Forall2_weaken {A B} (P Q : A -> B -> Prop) (l : list A) (k : list B) :
  (forall x y, P x y -> Q x y) -> Forall2 P l k -> Forall2 Q l k.
Proof. intros H. induction 1; constructor; auto. Qed.

Lemma length_enumerate {A} (i : Z) (l : list A) : length (enumerate i l) = length l.
Proof. revert i. induction l as [|x l IH]; intros i; cbn; [reflexivity|]. rewrite IH. reflexivity. Qed.

(** X8.  [build_race_features] returns the empty table when the target
    round has no record; otherwise the table has one row per distinct
    driver code of the target records, in the order of first appearance, and
    every row names the target season, the target round and the Grand Prix
    of the first target record. *)
Theorem race_features_one_row_per_driver :
  forall (race_results quali_results : DataFrame) (target_season target_round : Z)
         (out : DataFrame),
    build_race_features race_results quali_results target_season target_round = Ok out ->
    exists target,
      target_race race_results target_season target_round = Ok target
      /\ match rows target with
         | [] => out = empty_frame
         | first :: _ =>
             let drivers := unique (map (fun r => at_ r "Abbreviation") (rows target)) in
             col out "Driver" = Ok drivers
             /\ col out "Season" = Ok (map (fun _ => Int target_season) drivers)
             /\ col out "Round" = Ok (map (fun _ => Int target_round) drivers)
             /\ col out "GrandPrix" = Ok (map (fun _ => at_ first "GrandPrix") drivers)
             /\ length (rows out) = length drivers
         end.
Proof.
  intros race_results quali_results ts tr out H.
  unfold build_race_features in H. bind_inv. unfold feature_rows in Ha. bind_inv.
  match goal with
  | Ht : target_race _ _ _ = Ok ?t |- _ => exists t; split; [exact Ht|]; rename t into target
  end.
  destruct (len target =? 0) eqn:Hlen.
  - apply len_zero_iff in Hlen. rewrite Hlen. injection Ha as <-. injection H as <-.
    reflexivity.
  - bind_inv. injection Ha as <-. injection H as <-.
    destruct (rows target) as [|first rest] eqn:Hrows.
    { apply len_zero_iff in Hrows. congruence. }
    repeat match goal with
           | Hc : col target _ = Ok _ |- _ =>
               unfold col in Hc; destruct (has_col target _); [|discriminate Hc];
               injection Hc as <-
           end.
    rewrite Hrows in *. cbn [map iloc0] in *. ok_inv. cbn zeta.
    match goal with
    | Hm : mapM _ _ = Ok ?rs |- _ =>
        pose proof (mapM_Forall2 _ _ _ Hm) as Hall; rename rs into records
    end.
    assert (Hne : records <> []).
    { intros ->. cbn [unique] in Hall. inversion Hall. }
    split.
    { rewrite <- (map_id (unique _)).
      apply col_of_constant_key; [exact Hne|].
      eapply Forall2_weaken; [|exact Hall]. cbn beta. intros d row Hd.
      apply feature_row_keys in Hd as [_ Hd]. exact Hd. }
    split.
    { apply col_of_constant_key; [exact Hne|].
      eapply Forall2_weaken; [|exact Hall]. cbn beta. intros d row Hd.
      apply feature_row_identity in Hd as (Hd & _ & _). exact Hd. }
    split.
    { apply col_of_constant_key; [exact Hne|].
      eapply Forall2_weaken; [|exact Hall]. cbn beta. intros d row Hd.
      apply feature_row_identity in Hd as (_ & Hd & _). exact Hd. }
    split.
    { apply col_of_constant_key; [exact Hne|].
      eapply Forall2_weaken; [|exact Hall]. cbn beta. intros d row Hd.
      apply feature_row_identity in Hd as (_ & _ & Hd). exact Hd. }
    unfold from_records. cbn [rows]. rewrite length_map, length_enumerate.
    symmetry. eapply Forall2_length. exact Hall.
Qed.

Lemma race_features_one_row_per_driver_witness :
  exists out,
    build_race_features Samples.season_2023 Samples.quali_2023_4 2023 4 = Ok out
    /\ col out "Driver" = Ok [ Str "VER"; Str "HAM" ]
    /\ col out "Season" = Ok [ Int 2023; Int 2023 ].
Proof.
  destruct (build_race_features Samples.season_2023 Samples.quali_2023_4 2023 4)
    as [out|e] eqn:E; [|vm_compute in E; discriminate E].
  destruct (race_features_one_row_per_driver _ _ _ _ out E) as (target & Ht & H).
  vm_compute in Ht. injection Ht as <-. cbn [rows] in H.
  destruct H as (Hd & Hs & _). exists out. repeat split; assumption.
Defined.

(** ** The columns of the race feature table *)











(** ** The target labels *)

(** X9.  In every row of the race feature table the three outcome flags
    are nested: a winner is on the podium and a podium finisher is in the
    points; a row without a finishing position has all three flags false. *)
Theorem race_labels_nested :
  forall (race_results quali_results : DataFrame) (target_season target_round : Z)
         (records : list dict) (row : dict),
    feature_rows race_results quali_results target_season target_round
    = Ok (Some records) ->
    In row records ->
    exists position winner podium points,
      dict_get row "Position" = Some position
      /\ dict_get row "IsWinner" = Some (Bool winner)
      /\ dict_get row "IsPodium" = Some (Bool podium)
      /\ dict_get row "IsPoints" = Some (Bool points)
      /\ (winner = true -> podium = true)
      /\ (podium = true -> points = true)
      /\ (position = NaN -> winner = false /\ podium = false /\ points = false).
Proof.
  intros race_results quali_results ts tr records row H Hin.
  destruct (feature_rows_inv _ _ _ _ _ H) as (hist & target & circuit & _ & _ & Hrow).
  destruct (Hrow row Hin) as (driver & Hd).
  unfold feature_row in Hd. bind_inv. injection Hd as <-.
  match goal with
  | Hl : target_labels _ _ = Ok _ |- _ => unfold target_labels in Hl; bind_inv;
                                         injection Hl as <-
  end.
  match goal with
  | H3 : cell_leb ?p (Int 3) = Ok ?b3, H10 : cell_leb ?p (Int 10) = Ok ?b10 |- _ =>
      exists p, (cell_eqb p (Int 1)), b3, b10;
      assert (E3 : at_most 3 p = b3) by (unfold at_most; rewrite H3; reflexivity);
      assert (E10 : at_most 10 p = b10) by (unfold at_most; rewrite H10; reflexivity)
  end.
  assert (Hnd : forall v1 v2 v3 v4 v5 : cell,
             List.NoDup (keys [ ("Position", v1); ("Points", v2); ("IsWinner", v3);
                                ("IsPodium", v4); ("IsPoints", v5) ])).
  { intros. repeat constructor; cbn; intuition discriminate. }
  split; [apply dict_get_update_in; [apply Hnd | cbn; auto]|].
  split; [apply dict_get_update_in; [apply Hnd | cbn; auto 10]|].
  split; [apply dict_get_update_in; [apply Hnd | cbn; auto 10]|].
  split; [apply dict_get_update_in; [apply Hnd | cbn; auto 10]|].
  subst. split; [apply at_most_of_eq|].
  split; [apply at_most_mono; lia|].
  intros ->. repeat split; reflexivity.
Qed.

Lemma race_labels_nested_witness :
  exists position winner podium points,
    dict_get (nth 1 Samples.rows_2023_4 []) "Position" = Some position
    /\ dict_get (nth 1 Samples.rows_2023_4 []) "IsWinner" = Some (Bool winner)
    /\ dict_get (nth 1 Samples.rows_2023_4 []) "IsPodium" = Some (Bool podium)
    /\ dict_get (nth 1 Samples.rows_2023_4 []) "IsPoints" = Some (Bool points)
    /\ (winner = true -> podium = true)
    /\ (podium = true -> points = true)
    /\ (position = NaN -> winner = false /\ podium = false /\ points = false).
Proof.
  apply (race_labels_nested Samples.season_2023 Samples.quali_only_ver 2023 4
           Samples.rows_2023_4).
  - vm_compute. reflexivity.
  - right. left. reflexivity.
Defined.

(** ** A target record without a driver code *)

Lemma cell_eqb_NaN_r c : cell_eqb c NaN = false.
Proof. destruct c; reflexivity. Qed.

Lemma In_unique_NaN (l : list cell) : In NaN l -> In NaN (unique l).
Proof.
  induction l as [|x l IH]; cbn; [tauto|].
  intros [->|H]; [left; reflexivity|].
  destruct x; try (left; reflexivity); right; apply filter_In;
    (split; [apply IH, H | reflexivity]).
Qed.

Lemma mapM_raises {A B} (f : A -> result B) (l : list A) (x : A) (e : exn) :
  In x l -> f x = Raise e -> exists e', mapM f l = Raise e'.
Proof.
  induction l as [|y l IH]; cbn; [tauto|].
  intros [->|H] Hx.
  - rewrite Hx. eauto.
  - destruct (f y); cbn; [|eauto].
    destruct (IH H Hx) as [e' ->]. cbn. eauto.
Qed.

(** X10.  [build_race_features] never returns a table when a record of
    the target round has no driver code: the missing code is one of the
    distinct drivers, no record equals it, and the lookup of its first record
    raises. *)
Theorem race_features_missing_driver_code :
  forall (race_results quali_results : DataFrame) (target_season target_round : Z)
         (r : Row),
    In r (rows race_results) ->
    at_target target_season target_round r = true ->
    at_ r "Abbreviation" = NaN ->
    exists e,
      build_race_features race_results quali_results target_season target_round
      = Raise e.
Proof.
  intros race_results quali_results ts tr r Hin Hat Hna.
  unfold build_race_features, feature_rows.
  destruct (historical race_results ts tr) as [hist|e]; [|cbn; eauto]. cbn [bind].
  unfold target_race.
  destruct (col race_results "Season") as [?|e]; [|cbn; eauto]. cbn [bind].
  destruct (col race_results "Round") as [?|e]; [|cbn; eauto]. cbn [bind].
  set (target := mkDF (columns race_results)
                   (List.filter (at_target ts tr) (rows race_results))).
  assert (Hr : In r (rows target)) by (apply filter_In; auto).
  destruct (len target =? 0) eqn:Hlen.
  { apply len_zero_iff in Hlen. rewrite Hlen in Hr. destruct Hr. }
  destruct (col target "GrandPrix") as [names|e]; [|cbn; eauto]. cbn [bind].
  destruct (iloc0 names) as [circuit|e]; [|cbn; eauto]. cbn [bind].
  unfold col at 1. destruct (has_col target "Abbreviation") eqn:Hcol; [|cbn; eauto].
  cbn [bind].
  assert (Hnan : In NaN (unique (map (fun r => at_ r "Abbreviation") (rows target)))).
  { apply In_unique_NaN. rewrite <- Hna.
    exact (in_map (fun x => at_ x "Abbreviation") _ r Hr). }
  assert (Hraise : feature_row hist target quali_results ts tr circuit NaN
                   = Raise IndexError).
  { unfold feature_row, predictive_features, where_eq. rewrite Hcol. cbn [bind rows].
    rewrite filter_none; [reflexivity|]. intros x _. apply cell_eqb_NaN_r. }
  destruct (mapM_raises _ _ _ _ Hnan Hraise) as [e' ->]. cbn. eauto.
Qed.

Lemma race_features_missing_driver_code_witness :
  exists e,
    build_race_features
      (mkDF [ "Season"; "Round"; "GrandPrix"; "Abbreviation" ]
         [ mkRow 0 [ ("Season", Int 2023); ("Round", Int 1);
                     ("GrandPrix", Str "Bahrain"); ("Abbreviation", NaN) ] ])
      Samples.quali_2023_4 2023 1
    = Raise e.
Proof.
  apply (race_features_missing_driver_code _ _ 2023 1
           (mkRow 0 [ ("Season", Int 2023); ("Round", Int 1);
                      ("GrandPrix", Str "Bahrain"); ("Abbreviation", NaN) ])).
  - left. reflexivity.
  - reflexivity.
  - reflexivity.
Defined.

(** ** The records of the stints *)

Lemma In_valid {A} (x : A) (l : list (option A)) : In x (valid l) <-> In (Some x) l.
Proof.
  induction l as [|[y|] l IH]; cbn; [tauto| |].
  - rewrite IH. split; intros [H|H]; auto; left; congruence.
  - rewrite IH. split; [auto|]. intros [H|H]; [discriminate H | exact H].
Qed.

Lemma valid_length {A} (l : list (option A)) : (length (valid l) <= length l)%nat.
Proof. induction l as [|[y|] l IH]; cbn; lia. Qed.

(** What one turn of the loop appends. *)
Lemma stint_record_bounds driver_laps stint stint_df d :
  stint_record driver_laps stint stint_df = Ok (Some d) ->
  dict_get d "StintNumber" = Some stint
  /\ counts d "StintLength" (Z.of_nat (length stint_df))
  /\ (3 <= length stint_df)%nat
  /\ (has_col driver_laps "Compound" = false -> dict_get d "Compound" = Some (Str "Unknown")).
Proof.
  unfold stint_record. intros H.
  destruct (Z.of_nat (length stint_df) <? 3) eqn:Hlen; [discriminate H|].
  apply Z.ltb_ge in Hlen.
  destruct (has_col driver_laps "LapTimeSeconds"); [|discriminate H].
  bind_inv.
  destruct (3 <=? Z.of_nat (length (masked a a0))) eqn:Hpts; [|discriminate H].
  apply Z.leb_le in Hpts. bind_inv. injection H as <-.
  split; [reflexivity|]. split; [reflexivity|]. split; [lia|].
  intros Hc. rewrite Hc in *. ok_inv. reflexivity.
Qed.

Lemma Forall_incl {A} (P : A -> Prop) (l l' : list A) :
  incl l' l -> Forall P l -> Forall P l'.
Proof.
  intros Hi Hl. apply List.Forall_forall. intros r Hr.
  rewrite List.Forall_forall in Hl. apply Hl, Hi, Hr.
Qed.

Lemma fold_min_In (l : list Q) (x : Q) :
  fold_left Qmin l x = x \/ In (fold_left Qmin l x) l.
Proof.
  revert x. induction l as [|y l IH]; intros x; cbn [fold_left]; [left; reflexivity|].
  destruct (IH (Qmin x y)) as [E|H]; [|right; right; exact H].
  rewrite E. unfold Qmin. destruct (Qleb x y); [left | right; left]; reflexivity.
Qed.

Lemma In_lap_points (g : list Row) (a s : Q) :
  In (a, s) (lap_points g)
  -> exists r, In r g /\ num_of (at_ r "LapTimeSeconds") = Some s.
Proof.
  unfold lap_points. rewrite In_valid, in_map_iff. intros (r & E & Hr).
  exists r. split; [exact Hr|]. unfold lap_point in E.
  destruct (at_ r "TireAge"); try discriminate E.
  destruct (num_of (at_ r "LapTimeSeconds")); [|discriminate E].
  injection E as _ <-. reflexivity.
Qed.

Lemma lap_points_In (g : list Row) (r : Row) (s : Q) :
  In r g -> (exists a, at_ r "TireAge" = Int a) ->
  num_of (at_ r "LapTimeSeconds") = Some s ->
  In s (map snd (lap_points g)).
Proof.
  intros Hr [a Ha] Hs. apply in_map_iff. exists (inject_Z a, s). split; [reflexivity|].
  unfold lap_points. apply In_valid, in_map_iff. exists r. split; [|exact Hr].
  unfold lap_point. rewrite Ha, Hs. reflexivity.
Qed.

(** The best lap time of a stint with a timed lap. *)
Lemma best_lap_of_stint (g : list Row) :
  Forall (fun r => exists a, at_ r "TireAge" = Int a) g ->
  lap_points g <> [] ->
  exists best,
    min_of (map snd (lap_points g)) = Num best /\ fastest_of best g.
Proof.
  intros Hage Hne.
  destruct (lap_points g) as [|[a0 s0] pts] eqn:E; [contradiction|].
  cbn [map snd min_of]. unfold float.
  exists (Qred (fold_left Qmin (map snd pts) s0)). split; [reflexivity|]. split.
  - assert (Hin : In (fold_left Qmin (map snd pts) s0) (map snd (lap_points g))).
    { rewrite E. cbn [map snd].
      destruct (fold_min_In (map snd pts) s0) as [->|H]; [left | right]; auto. }
    apply in_map_iff in Hin as ([a s] & Es & Hin). cbn [snd] in Es.
    apply In_lap_points in Hin as (r & Hr & Hs).
    exists r, s. split; [exact Hr|]. split; [exact Hs|].
    rewrite Es, Qred_correct. reflexivity.
  - intros r s Hr Hs. rewrite Qred_correct.
    rewrite List.Forall_forall in Hage.
    pose proof (lap_points_In g r s Hr (Hage r Hr) Hs) as Hin.
    rewrite E in Hin. cbn [map snd] in Hin.
    apply fold_min_le. destruct Hin as [<-|Hin]; auto.
Qed.

(** X11.  On lap times that are numbers or missing, every record of
    [compute_tire_features] is for a stint of at least three laps, and its
    best lap time is the fastest lap time of the stint: the time of one of
    its laps, and no lap of the stint has a shorter one. *)
Theorem stint_best_lap_time :
  forall (laps : DataFrame) (driver_id : cell) (out : DataFrame),
    stint_laps laps driver_id = Ok (Some out) ->
    has_col laps "LapTimeSeconds" = true ->
    Forall (fun r => numeric_or_missing (at_ r "LapTimeSeconds") = true) (rows laps) ->
    exists records,
      compute_tire_features laps driver_id = Ok (from_records records)
      /\ Forall (fun d =>
                   exists k best,
                     dict_get d "StintNumber" = Some (Int k)
                     /\ (3 <= length (stint_of k out))%nat
                     /\ dict_get d "BestLapTime" = Some (Num best)
                     /\ fastest_of best (stint_of k out))
                records.
Proof.
  intros laps driver_id out Hout Hcol Hnum.
  destruct (stint_features_by_number _ _ _ Hout Hcol Hnum)
    as (stints & HS & Hage & Hfeat).
  eexists. split; [unfold compute_tire_features; rewrite Hfeat; reflexivity|].
  apply List.Forall_forall. intros d Hd.
  apply In_stint_rows in Hd as (key & g & Hin & Hlen & ->).
  apply in_map_iff in Hin as (key' & E & Hkey). injection E as -> <-.
  apply In_group_keys_ints in Hkey as (k & -> & _).
  fold (stint_of k out) in *.
  assert (Hages : Forall (fun r => exists a, at_ r "TireAge" = Int a) (stint_of k out)).
  { eapply Forall_incl; [|exact Hage]. intros r Hr. apply filter_In in Hr. tauto. }
  destruct (best_lap_of_stint (stint_of k out) Hages) as (best & Hbest & Hfast).
  { intros E. rewrite E in Hlen. cbn in Hlen. lia. }
  exists k, best. split; [reflexivity|]. split.
  - pose proof (lap_points_length (stint_of k out)). lia.
  - split; [|exact Hfast].
    unfold stint_row, dict_get. cbn [assoc String.eqb Ascii.eqb Bool.eqb].
    rewrite Hbest. reflexivity.
Qed.

Lemma stint_best_lap_time_witness :
  exists out records,
    stint_laps Samples.race_laps (Str "VER") = Ok (Some out)
    /\ compute_tire_features Samples.race_laps (Str "VER") = Ok (from_records records)
    /\ Forall (fun d =>
                 exists k best,
                   dict_get d "StintNumber" = Some (Int k)
                   /\ (3 <= length (stint_of k out))%nat
                   /\ dict_get d "BestLapTime" = Some (Num best)
                   /\ fastest_of best (stint_of k out))
              records.
Proof.
  eexists.
  destruct (stint_best_lap_time Samples.race_laps (Str "VER") _ eq_refl eq_refl)
    as (records & Hrun & Hall).
  { repeat constructor. }
  exists records. split; [reflexivity|]. split; [exact Hrun | exact Hall].
Defined.

Lemma NoDup_constant {A} (c : A) (l : list A) :
  List.NoDup l -> (forall x, In x l -> x = c) -> (length l <= 1)%nat.
Proof.
  intros Hnd Hc. destruct l as [|x [|y l]]; cbn; try lia.
  exfalso. inversion Hnd as [|? ? Hnotin _]; subst. apply Hnotin.
  rewrite (Hc x), (Hc y); cbn; auto.
Qed.

Lemma map_constant_In {A B} (c : B) (l : list A) (y : B) :
  In y (map (fun _ => c) l) -> y = c.
Proof. intros H. apply in_map_iff in H as (x & <- & _). reflexivity. Qed.

(** X12.  Without a [Compound] column the laps of the driver are one
    stint: [compute_tire_features] returns at most one record, numbered 1,
    with the compound "Unknown" and the length of the whole run. *)
Theorem stint_without_compounds :
  forall (laps : DataFrame) (driver_id : cell) (records : list dict),
    stint_features laps driver_id = Ok (Some records) ->
    has_col laps "Compound" = false ->
    (length records <= 1)%nat
    /\ forall d, In d records ->
         dict_get d "StintNumber" = Some (Int 1)
         /\ dict_get d "Compound" = Some (Str "Unknown")
         /\ counts d "StintLength"
              (count_rows (fun x => cell_eqb x driver_id) "Driver" (rows laps)).
Proof.
  intros laps driver_id records H Hc.
  unfold stint_features in H. bind_inv.
  destruct a as [out|]; [|discriminate H]. bind_inv. injection H as <-.
  destruct (stint_laps_columns _ _ _ Ha)
    as (own & sorted & Hown & Hsorted & _ & Hcols).
  rewrite Hc in Hcols. cbn zeta in Hcols.
  destruct Hcols as (Hstint & _ & Hlen & Hother).
  apply where_eq_Ok in Hown as [Hocols Horows].
  apply sort_values_Ok in Hsorted as [Hscols Hsrows].
  assert (Hcompound : has_col out "Compound" = false).
  { rewrite (col_has_col out sorted "Compound") by (apply Hother; discriminate).
    unfold has_col in *. rewrite Hscols, Hocols. exact Hc. }
  assert (Hcount : Z.of_nat (length (rows out))
                   = count_rows (fun x => cell_eqb x driver_id) "Driver" (rows laps)).
  { unfold count_rows. rewrite Hlen, Hsrows, <- Horows.
    rewrite (Permutation_length (sort_by_Permutation _ (rows own))). reflexivity. }
  set (S := map (fun _ : Row => 1) (rows sorted)) in *.
  assert (Hones : forall r, In r (rows out) -> at_ r "StintNumber" = Int 1).
  { intros r Hr. unfold col in Hstint.
    destruct (has_col out "StintNumber"); [|discriminate Hstint].
    injection Hstint as Hst.
    assert (Hin : In (at_ r "StintNumber") (map Int S)).
    { rewrite <- Hst. exact (in_map (fun x => at_ x "StintNumber") _ r Hr). }
    apply in_map_iff in Hin as (z & <- & Hz). unfold S in Hz.
    apply map_constant_In in Hz. subst z. reflexivity. }
  match goal with
  | Hg : groupby out "StintNumber" = Ok ?g |- _ =>
      rename g into groups; pose proof (groupby_Ok _ _ _ Hg) as Hgroups;
      unfold groupby in Hg; rewrite Hstint in Hg; cbn [bind] in Hg;
      destruct (sortable (map Int S)); [|discriminate Hg]; injection Hg as Egroups
  end.
  assert (Hkeys : forall key g, In (key, g) groups -> key = Int 1 /\ g = rows out).
  { intros key g Hin. destruct (Hgroups key g Hin) as [Hk ->].
    apply in_map_iff in Hk as (r & <- & Hr). split; [apply Hones, Hr|].
    rewrite (Hones r Hr). apply filter_every. intros x Hx.
    rewrite (Hones x Hx). reflexivity. }
  match goal with
  | Hm : mapM _ groups = Ok ?ms |- _ => rename ms into outcomes; rename Hm into Hrec
  end.
  split.
  - eapply Nat.le_trans; [apply valid_length|].
    rewrite (mapM_length _ _ _ Hrec), <- Egroups, length_map.
    apply (NoDup_constant (Int 1)).
    + apply (group_keys_ints S).
    + intros k Hk. unfold group_keys in Hk. apply In_sort_by, In_dedup in Hk.
      apply filter_In in Hk as [Hk _]. apply in_map_iff in Hk as (z & <- & Hz).
      unfold S in Hz. apply map_constant_In in Hz. subst z. reflexivity.
  - intros d Hd. apply In_valid in Hd.
    destruct (mapM_Ok_In _ _ _ Hrec _ Hd) as ([stint stint_df] & Hin & Hr).
    destruct (Hkeys _ _ Hin) as [-> ->].
    apply stint_record_bounds in Hr as (Hn & Hl & _ & Hu).
    split; [exact Hn|]. split; [apply Hu, Hcompound|].
    rewrite <- Hcount. exact Hl.
Qed.

Lemma stint_without_compounds_witness :
  exists records,
    stint_features
      (mkDF [ "Driver"; "LapNumber"; "LapTimeSeconds" ]
         (map (fun n => mkRow n [ ("Driver", Str "VER"); ("LapNumber", Int n);
                                  ("LapTimeSeconds", Num (inject_Z (90 + n))) ])
              [ 1; 2; 3; 4 ]))
      (Str "VER") = Ok (Some records)
    /\ map (fun d => dict_get d "Compound") records = [ Some (Str "Unknown") ]
    /\ (length records <= 1)%nat.
Proof.
  destruct (stint_features
              (mkDF [ "Driver"; "LapNumber"; "LapTimeSeconds" ]
                 (map (fun n => mkRow n [ ("Driver", Str "VER"); ("LapNumber", Int n);
                                          ("LapTimeSeconds", Num (inject_Z (90 + n))) ])
                      [ 1; 2; 3; 4 ]))
              (Str "VER")) as [[records|]|e] eqn:E;
    try (vm_compute in E; discriminate E).
  destruct (stint_without_compounds _ _ records E eq_refl) as [Hlen _].
  exists records. split; [reflexivity|]. split; [|exact Hlen].
  vm_compute in E. injection E as <-. reflexivity.
Defined.

(* ===================================================================== *)
(** * Further properties of the processor                                  *)
(* ===================================================================== *)

(** ** A fitted column has mean zero *)

Lemma Qsum_scaled (xs : list Q) (m d : Q) :
  (Qsum (map (fun x => Qred ((x - m) / d)) xs) == (Qsum xs - Qlen xs * m) / d)%Q.
Proof.
  induction xs as [|x xs IH].
  - unfold Qsum, Qlen. cbn. unfold Qdiv. ring.
  - cbn [map]. unfold Qsum in *. cbn [fold_right]. rewrite IH, Qred_correct, Qlen_cons.
    unfold Qdiv. ring.
Qed.

Lemma mean_of_scaled (xs : list Q) (d : Q) :
  xs <> [] ->
  mean_of (map (fun x => Qred ((x - Qmean xs) / d)) xs) = Num 0.
Proof.
  intros Hne. destruct xs as [|x xs]; [contradiction|].
  set (l := x :: xs) in *. unfold mean_of.
  destruct (map _ l) eqn:E; [discriminate E|]. rewrite <- E. clear E.
  unfold float. change 0%Q with (Qred 0). f_equal. apply Qred_complete.
  rewrite Qsum_scaled. unfold Qmean.
  assert (Hpos : ~ (Qlen l == 0)%Q).
  { intros E. pose proof (Qlen_pos l Hne) as H. rewrite E in H. discriminate H. }
  assert (Hz : (Qsum l - Qlen l * (Qsum l / Qlen l) == 0)%Q) by (field; exact Hpos).
  rewrite Hz. unfold Qdiv. ring.
Qed.

Lemma floats_Num (qs : list Q) : floats (map Num qs) = Ok (map Some qs).
Proof.
  unfold floats. induction qs as [|q qs IH]; cbn; [reflexivity|].
  rewrite IH. reflexivity.
Qed.

Lemma valid_Some {A} (l : list A) : valid (map Some l) = l.
Proof. induction l as [|x l IH]; cbn; [reflexivity|]. rewrite IH. reflexivity. Qed.

Lemma nth_mean_fit sqrt X s j :
  fit sqrt X = Ok s -> (j < n_features_in_ s)%nat ->
  nth j (mean_ s) 0%Q = Qmean (column j X).
Proof.
  unfold fit. intros H Hj. bind_inv. injection H as <-. cbn [mean_ n_features_in_] in *.
  rewrite map_map.
  rewrite (nth_indep _ 0%Q (Qmean (column 0 X))) by (rewrite length_map, length_seq; exact Hj).
  rewrite (map_nth (fun i => Qmean (column i X)) (seq 0 a) 0%nat j).
  rewrite seq_nth by exact Hj. reflexivity.
Qed.

Lemma column_array frame cols j c :
  nth_error cols j = Some c ->
  column j (array frame cols) = map (fun r => filled_Q (at_ r c)) (rows frame).
Proof.
  intros H. unfold column, array. rewrite map_map. apply map_ext. intros r.
  rewrite (nth_indep _ 0%Q (filled_Q (at_ r ""))).
  2:{ rewrite length_map. apply nth_error_Some. congruence. }
  rewrite (map_nth (fun c => filled_Q (at_ r c)) cols "" j).
  rewrite (nth_error_nth _ _ _ H). reflexivity.
Qed.

(** X13.  After [fit_scaler] every scaled column of the returned table
    has mean zero (in exact arithmetic, whatever the rounding of the square
    root). *)
Theorem fit_scaler_centres :
  forall (sqrt : Q -> Q) (st : state) (df : ref) (frame : DataFrame)
         (columns : list string) (name : string),
    heap st !! df = Some frame ->
    List.NoDup columns ->
    rows frame <> [] ->
    numeric_columns frame (List.filter (has_col frame) columns) ->
    forall c, In c columns -> has_col frame c = true ->
      exists fitted st1 table,
        fit_scaler sqrt df columns name st = (Ok fitted, st1)
        /\ heap st1 !! fitted = Some table
        /\ col_mean table c = Ok (Num 0).
Proof.
  intros sqrt st df frame columns name Hdf Hnd Hrows Hnum c Hc Hcol.
  set (cols := List.filter (has_col frame) columns) in *.
  assert (Hin : In c cols) by (apply filter_In; auto).
  assert (Hne : cols <> []) by (intros E; rewrite E in Hin; destruct Hin).
  destruct (fit_scaler_fits sqrt st df frame columns name Hdf Hne Hrows Hnum)
    as (s & Hfit & Hn & Hrun).
  eexists (length (heap st)), _, (scaled s frame cols).
  split; [exact Hrun|]. split; [apply lookup_new|].
  destruct (fit_lengths _ _ _ Hfit) as [Hm Hs]. fold cols in Hn. rewrite Hn in Hm, Hs.
  destruct (In_nth_error _ _ Hin) as [j Hj].
  assert (Hlt : (j < length cols)%nat) by (apply nth_error_Some; congruence).
  unfold col_mean.
  rewrite (col_scaled_in s frame cols j c (List.NoDup_filter _ Hnd) Hm Hs Hj Hcol).
  cbn [bind]. unfold mean.
  rewrite <- (map_map (fun r => Qred ((filled_Q (at_ r c) - nth j (mean_ s) 0)
                                      / nth j (scale_ s) 0))%Q Num).
  rewrite floats_Num. cbn [bind]. rewrite valid_Some.
  rewrite (nth_mean_fit sqrt _ s j Hfit) by (rewrite Hn; exact Hlt).
  fold cols. rewrite (column_array frame cols j c Hj).
  rewrite <- (map_map (fun r => filled_Q (at_ r c))
                (fun x => Qred ((x - Qmean (map (fun r => filled_Q (at_ r c)) (rows frame)))
                                / nth j (scale_ s) 0))%Q).
  rewrite mean_of_scaled; [reflexivity|].
  destruct (rows frame); [contradiction | discriminate].
Qed.

Lemma fit_scaler_centres_witness :
  exists fitted st1 table,
    fit_scaler sqrt_down 0%nat [ "a"; "b" ] "n" Samples.fresh_processor = (Ok fitted, st1)
    /\ heap st1 !! fitted = Some table
    /\ col_mean table "b" = Ok (Num 0).
Proof.
  apply (fit_scaler_centres sqrt_down Samples.fresh_processor 0%nat Samples.measurements
           [ "a"; "b" ] "n").
  - reflexivity.
  - repeat constructor; cbn; intuition discriminate.
  - discriminate.
  - repeat (apply List.Forall_cons;
            [repeat (apply List.Forall_cons; [reflexivity|]); apply List.Forall_nil|]).
    apply List.Forall_nil.
  - right. left. reflexivity.
  - reflexivity.
Defined.

(** ** What the scaler functions leave alone *)

(** X14.  [fit_scaler] and [transform_scaler] work on a copy: no table
    that existed before the call is changed, whether the call returns or
    raises.  [fit_scaler] touches no scaler registered under another name,
    and [transform_scaler] leaves the whole registry as it was. *)
Theorem processor_leaves_tables_and_names :
  forall (sqrt : Q -> Q) (st : state) (df : ref) (columns : list string)
         (name : string),
    (forall l frame,
        heap st !! l = Some frame ->
        heap (snd (fit_scaler sqrt df columns name st)) !! l = Some frame
        /\ heap (snd (transform_scaler df name st)) !! l = Some frame)
    /\ (forall other,
          other <> name ->
          scalers (snd (fit_scaler sqrt df columns name st)) !! other
          = scalers st !! other)
    /\ scalers (snd (transform_scaler df name st)) = scalers st.
Proof.
  intros sqrt st df columns name.
  assert (Hold : forall (h : list DataFrame) (x y : DataFrame) l frame,
             h !! l = Some frame -> (<[length h := y]> (h ++ [x])) !! l = Some frame).
  { intros h x y l frame H. rewrite insert_new. apply lookup_old, H. }
  split; [|split].
  - intros l frame H. split.
    + unfold fit_scaler, mbind, copy, read, ret, lift, assign, register. cbn.
      destruct (is_nil _); cbn; [apply lookup_old, H|].
      destruct (filled_values _ _); cbn; [|apply lookup_old, H].
      destruct (fit_transform sqrt a) as [[s Y]|e]; cbn; [|apply lookup_old, H].
      apply Hold, H.
    + unfold transform_scaler, mbind, lookup_scaler, copy, read, ret, lift, assign. cbn.
      destruct (scalers st !! name); cbn; [|exact H].
      destruct (filled_values _ _); cbn; [|apply lookup_old, H].
      destruct (transform _ _); cbn; [|apply lookup_old, H].
      apply Hold, H.
  - intros other Hne.
    unfold fit_scaler, mbind, copy, read, ret, lift, assign, register. cbn.
    destruct (is_nil _); cbn; [reflexivity|].
    destruct (filled_values _ _); cbn; [|reflexivity].
    destruct (fit_transform sqrt a) as [[s Y]|e]; cbn; [|reflexivity].
    apply lookup_insert_ne. congruence.
  - apply transform_scaler_registry.
Qed.

(* ===================================================================== *)
(** * Telemetry features                                                   *)
(* ===================================================================== *)

Lemma Qmax_ge_l p q : (p <= Qmax p q)%Q.
Proof.
  unfold Qmax, Qleb. destruct (Qle_bool p q) eqn:E; [apply Qle_bool_iff, E | apply Qle_refl].
Qed.

Lemma Qmax_ge_r p q : (q <= Qmax p q)%Q.
Proof.
  unfold Qmax, Qleb. destruct (Qle_bool p q) eqn:E; [apply Qle_refl|].
  apply Qlt_le_weak, Qnot_le_lt. intros H. apply Qle_bool_iff in H. congruence.
Qed.

Lemma fold_max_ge (l : list Q) :
  forall x y, y = x \/ In y l -> (y <= fold_left Qmax l x)%Q.
Proof.
  induction l as [|z l IH]; cbn; intros x y [E|H].
  - subst y. apply Qle_refl.
  - destruct H.
  - subst y. eapply Qle_trans; [apply Qmax_ge_l|].
    apply (IH (Qmax x z) (Qmax x z)). left. reflexivity.
  - destruct H as [E|H].
    + subst y. eapply Qle_trans; [apply Qmax_ge_r|].
      apply (IH (Qmax x z) (Qmax x z)). left. reflexivity.
    + apply IH. right. exact H.
Qed.

Lemma fold_min_le_fold_max (l : list Q) (x : Q) :
  (fold_left Qmin l x <= fold_left Qmax l x)%Q.
Proof.
  eapply Qle_trans; [apply (fold_min_le l x x) | apply (fold_max_ge l x x)];
    left; reflexivity.
Qed.

Lemma min_of_le_max_of (l : list Q) :
  both_missing_or_le (Some (min_of l)) (Some (max_of l)).
Proof.
  destruct l as [|x l]; [left; split; reflexivity|]. right.
  eexists _, _. split; [reflexivity|]. split; [reflexivity|].
  rewrite !Qred_correct. apply fold_min_le_fold_max.
Qed.

(** X15.  When the telemetry has a [Speed] column, the lowest speed is at
    most the highest, and the three speed features are missing together:
    all three are numbers, or all three are missing when the column holds
    no value. *)
Theorem telemetry_speed_order :
  forall (telemetry : DataFrame) (f : dict),
    compute_telemetry_features telemetry = Ok f ->
    has_col telemetry "Speed" = true ->
    both_missing_or_le (dict_get f "min_speed") (dict_get f "max_speed")
    /\ missing_together (dict_get f "min_speed") (dict_get f "avg_speed").
Proof.
  intros telemetry f H Hspeed. unfold compute_telemetry_features in H.
  rewrite Hspeed in H.
  assert (Hgoal : forall top avg low,
             col_max telemetry "Speed" = Ok top ->
             col_mean telemetry "Speed" = Ok avg ->
             col_min telemetry "Speed" = Ok low ->
             both_missing_or_le (Some low) (Some top)
             /\ missing_together (Some low) (Some avg)).
  { intros top avg low Ht Ha Hl. split; [|eapply col_min_with_col_mean; eassumption].
    unfold col_max, col_min, max, min in *. bind_inv.
    repeat match goal with
           | H1 : ?x = Ok ?a, H2 : ?x = Ok ?b |- _ =>
               rewrite H1 in H2; injection H2 as <-
           end.
    ok_inv. apply min_of_le_max_of. }
  destruct (has_col telemetry "Throttle"), (has_col telemetry "Brake"),
    (has_col telemetry "nGear"), (has_col telemetry "DRS");
    bind_inv; ok_inv;
    match goal with
    | Ht : col_max _ _ = Ok ?top, Ha : col_mean telemetry "Speed" = Ok ?avg,
      Hl : col_min _ _ = Ok ?low |- _ =>
        exact (Hgoal top avg low Ht Ha Hl)
    end.
Qed.

Lemma telemetry_speed_order_witness :
  exists f,
    compute_telemetry_features Samples.telemetry_run = Ok f
    /\ dict_get f "min_speed" = Some (Num 120)
    /\ both_missing_or_le (dict_get f "min_speed") (dict_get f "max_speed")
    /\ missing_together (dict_get f "min_speed") (dict_get f "avg_speed").
Proof.
  destruct (compute_telemetry_features Samples.telemetry_run) as [f|e] eqn:E;
    [|vm_compute in E; discriminate E].
  destruct (telemetry_speed_order _ f E eq_refl) as [H1 H2].
  exists f. split; [reflexivity|]. split; [|split; assumption].
  vm_compute in E. injection E as <-. reflexivity.
Defined.

(** ** Shares of the samples *)

Lemma mean_of_mask (bs : list bool) :
  mean (map Bool bs)
  = Ok (mean_of (map (fun b : bool => if b then 1%Q else 0%Q) bs)).
Proof.
  unfold mean, floats.
  assert (H : mapM as_float (map Bool bs)
              = Ok (map Some (map (fun b : bool => if b then 1%Q else 0%Q) bs))).
  { induction bs as [|b bs IH]; cbn; [reflexivity|]. rewrite IH. reflexivity. }
  rewrite H. cbn [bind]. rewrite valid_Some. reflexivity.
Qed.

Lemma Qcount_bounds (bs : list bool) : (0 <= Qcount bs)%Q /\ (Qcount bs <= Qlen bs)%Q.
Proof.
  unfold Qcount. induction bs as [|b bs [IH1 IH2]].
  - unfold Qsum, Qlen. cbn. split; apply Qle_refl.
  - cbn [map]. rewrite Qlen_cons. unfold Qsum in *. cbn [fold_right]. split.
    + destruct b.
      * change 0%Q with (0 + 0)%Q. apply Qplus_le_compat; [discriminate | exact IH1].
      * rewrite Qplus_0_l. exact IH1.
    + rewrite Qplus_comm. apply Qplus_le_compat; [exact IH2|].
      destruct b; discriminate.
Qed.

Lemma Qcount_mono (hs us : list bool) :
  Forall2 (fun h u => h = true -> u = true) hs us -> (Qcount hs <= Qcount us)%Q.
Proof.
  unfold Qcount. induction 1 as [|h u hs us Hhu _ IH].
  - apply Qle_refl.
  - cbn [map]. unfold Qsum in *. cbn [fold_right].
    apply Qplus_le_compat; [|exact IH].
    destruct h; [rewrite (Hhu eq_refl); apply Qle_refl|]. destruct u; discriminate.
Qed.

Lemma cell_geb_gtb (c : cell) (h u : bool) :
  cell_geb c (Int 50) = Ok h -> cell_gtb c (Int 0) = Ok u -> h = true -> u = true.
Proof.
  unfold cell_geb, cell_gtb, cell_cmp.
  destruct c as [|z|q|s|b|q]; cbn; intros Hh Hu; try discriminate Hh;
    injection Hh as <-; injection Hu as <-;
    unfold Qleb, Qltb; intros H; try discriminate H;
    apply Qle_bool_iff in H; apply negb_true_iff;
    destruct (Qle_bool _ _) eqn:E; try reflexivity;
    apply Qle_bool_iff in E; exfalso;
    assert (Hc : (inject_Z 50 <= inject_Z 0)%Q) by (eapply Qle_trans; eassumption);
    unfold Qle in Hc; cbn in Hc; lia.
Qed.

(** X16.  When the telemetry has a [Brake] column, the share of samples
    under heavy braking is at most the share of samples under braking, and
    both lie between 0 and 1; both are missing for a table without rows. *)
Theorem telemetry_brake_shares :
  forall (telemetry : DataFrame) (f : dict),
    compute_telemetry_features telemetry = Ok f ->
    has_col telemetry "Brake" = true ->
    (rows telemetry = []
     /\ dict_get f "brake_usage_pct" = Some NaN
     /\ dict_get f "heavy_brake_pct" = Some NaN)
    \/ exists usage heavy,
         dict_get f "brake_usage_pct" = Some (Num usage)
         /\ dict_get f "heavy_brake_pct" = Some (Num heavy)
         /\ (0 <= heavy)%Q /\ (heavy <= usage)%Q /\ (usage <= 1)%Q.
Proof.
  intros telemetry f H Hbrake. unfold compute_telemetry_features in H.
  rewrite Hbrake in H.
  assert (Hgoal : forall usage heavy,
             col_share cell_gtb telemetry "Brake" (Int 0) = Ok usage ->
             col_share cell_geb telemetry "Brake" (Int 50) = Ok heavy ->
             (rows telemetry = [] /\ Some usage = Some NaN /\ Some heavy = Some NaN)
             \/ exists u h,
                  Some usage = Some (Num u) /\ Some heavy = Some (Num h)
                  /\ (0 <= h)%Q /\ (h <= u)%Q /\ (u <= 1)%Q).
  { intros usage heavy Hu Hh. unfold col_share, col in Hu, Hh. rewrite Hbrake in Hu, Hh.
    cbn [bind] in Hu, Hh. bind_inv. rewrite mean_of_mask in Hu, Hh.
    injection Hu as <-. injection Hh as <-.
    match goal with
    | Hg : mapM (fun x => cell_gtb x (Int 0)) _ = Ok ?u,
      Hl : mapM (fun x => cell_geb x (Int 50)) _ = Ok ?h |- _ =>
        rename u into us; rename h into hs; rename Hg into Hus; rename Hl into Hhs
    end.
    pose proof (mapM_length _ _ _ Hus) as Lu. pose proof (mapM_length _ _ _ Hhs) as Lh.
    rewrite length_map in Lu, Lh.
    destruct (rows telemetry) as [|r rest] eqn:Hrows.
    { left. destruct us, hs; try discriminate. repeat split; reflexivity. }
    right.
    assert (Hmono : Forall2 (fun h u => h = true -> u = true) hs us).
    { clear Lu Lh. revert us hs Hus Hhs. generalize (r :: rest). intros l.
      induction l as [|x l IH]; cbn; intros us hs Hu Hh.
      - injection Hu as <-. injection Hh as <-. constructor.
      - bind_inv. injection Hu as <-. injection Hh as <-. constructor.
        + eapply cell_geb_gtb; eassumption.
        + apply IH; assumption. }
    set (U := map (fun b : bool => if b then 1%Q else 0%Q) us).
    set (Hs := map (fun b : bool => if b then 1%Q else 0%Q) hs).
    assert (HU : U <> []) by (unfold U; destruct us; discriminate).
    assert (HH : Hs <> []) by (unfold Hs; destruct hs; discriminate).
    assert (Hlen : (Qlen Hs == Qlen U)%Q).
    { unfold Qlen, Hs, U. rewrite !length_map, Lu, Lh. reflexivity. }
    pose proof (Qlen_pos U HU) as Hpos.
    exists (Qred (Qsum U / Qlen U)), (Qred (Qsum Hs / Qlen Hs)).
    unfold mean_of. destruct U eqn:EU; [contradiction|]. destruct Hs eqn:EH; [contradiction|].
    rewrite <- EU, <- EH in *. split; [reflexivity|]. split; [reflexivity|].
    rewrite !Qred_correct, Hlen.
    destruct (Qcount_bounds hs) as [H0 _]. destruct (Qcount_bounds us) as [_ H1].
    pose proof (Qcount_mono hs us Hmono) as Hle.
    unfold Qcount in *. fold U in H1, Hle. fold Hs in H0, Hle.
    assert (HlenU : (Qlen us == Qlen U)%Q).
    { unfold Qlen, U. rewrite length_map. reflexivity. }
    rewrite HlenU in H1.
    split; [apply Qle_shift_div_l; [exact Hpos | rewrite Qmult_0_l; exact H0]|].
    split.
    - apply Qle_shift_div_l; [exact Hpos|].
      unfold Qdiv. rewrite <- Qmult_assoc, (Qmult_comm (/ Qlen U)), Qmult_inv_r, Qmult_1_r.
      + exact Hle.
      + intros E. rewrite E in Hpos. discriminate Hpos.
    - apply Qle_shift_div_r; [exact Hpos | rewrite Qmult_1_l; exact H1]. }
  destruct (has_col telemetry "Speed"), (has_col telemetry "Throttle"),
    (has_col telemetry "nGear"), (has_col telemetry "DRS");
    bind_inv; ok_inv;
    match goal with
    | Hu : col_share cell_gtb _ _ _ = Ok ?u, Hh : col_share cell_geb _ "Brake" _ = Ok ?h |- _ =>
        exact (Hgoal u h Hu Hh)
    end.
Qed.

Lemma telemetry_brake_shares_witness :
  exists f usage heavy,
    compute_telemetry_features Samples.telemetry_run = Ok f
    /\ dict_get f "brake_usage_pct" = Some (Num usage)
    /\ dict_get f "heavy_brake_pct" = Some (Num heavy)
    /\ (0 <= heavy)%Q /\ (heavy <= usage)%Q /\ (usage <= 1)%Q.
Proof.
  destruct (compute_telemetry_features Samples.telemetry_run) as [f|e] eqn:E;
    [|vm_compute in E; discriminate E].
  destruct (telemetry_brake_shares _ f E eq_refl) as [[Hnil _]|(u & h & H)].
  - discriminate Hnil.
  - exists f, u, h. split; [reflexivity | exact H].
Defined.

(** ** The features of a numeric telemetry table *)

Lemma numeric_column (df : DataFrame) (cols : list string) (c : string) :
  numeric_columns df cols -> In c cols ->
  Forall (fun v => numeric_or_missing v = true) (map (fun r => at_ r c) (rows df)).
Proof.
  intros H Hc. apply (proj2 (List.Forall_map _ _ _)).
  eapply List.Forall_impl; [|exact H]. cbn beta. intros r Hr.
  rewrite List.Forall_forall in Hr. apply Hr, Hc.
Qed.

Lemma reduce_numeric (reduce : list Q -> cell) (df : DataFrame) (cols : list string)
    (c : string) :
  numeric_columns df cols -> In c cols -> has_col df c = true ->
  (xs ← col df c; ys ← floats xs; Ok (reduce (valid ys)))
  = Ok (reduce (valid (map num_of (map (fun r => at_ r c) (rows df))))).
Proof.
  intros H Hc Hcol. unfold col. rewrite Hcol. cbn [bind].
  rewrite (floats_numeric _ (numeric_column df cols c H Hc)). reflexivity.
Qed.

Lemma compare_numeric (cmp : Q -> Q -> bool) (sop : string -> string -> bool)
    (v : Z) (l : list cell) :
  Forall (fun c => numeric_or_missing c = true) l ->
  exists bs, mapM (fun x => cell_cmp cmp sop x (Int v)) l = Ok bs.
Proof.
  induction 1 as [|c l Hc _ [bs IH]]; cbn; [eauto|].
  rewrite IH. destruct c; try discriminate Hc; cbn; eauto.
Qed.

Lemma col_share_numeric (cmp : Q -> Q -> bool) (sop : string -> string -> bool)
    (df : DataFrame) (cols : list string) (c : string) (v : Z) :
  numeric_columns df cols -> In c cols -> has_col df c = true ->
  exists share, col_share (cell_cmp cmp sop) df c (Int v) = Ok share.
Proof.
  intros H Hc Hcol. unfold col_share, col. rewrite Hcol. cbn [bind].
  destruct (compare_numeric cmp sop v _ (numeric_column df cols c H Hc)) as [bs ->].
  cbn [bind]. rewrite mean_of_mask. eauto.
Qed.

(** X17.  On a telemetry table whose channels hold numbers (or nothing),
    [compute_telemetry_features] returns, and a feature is in the vector
    exactly when its channel is a column of the table: three for [Speed],
    two for [Throttle], two for [Brake], one for [nGear] and one for [DRS],
    in this order. *)
Theorem telemetry_features_by_channel :
  forall (telemetry : DataFrame),
    numeric_columns telemetry telemetry_channels ->
    exists f,
      compute_telemetry_features telemetry = Ok f
      /\ keys f = telemetry_keys telemetry.
Proof.
  intros telemetry Hnum. unfold compute_telemetry_features, telemetry_keys.
  assert (Hred : forall (reduce : list Q -> cell) c,
             In c telemetry_channels -> has_col telemetry c = true ->
             (xs ← col telemetry c; ys ← floats xs; Ok (reduce (valid ys)))
             = Ok (reduce (valid (map num_of (map (fun r => at_ r c) (rows telemetry)))))).
  { intros reduce c Hc Hcol. exact (reduce_numeric reduce _ _ c Hnum Hc Hcol). }
  assert (Hshare : forall cmp sop c v,
             In c telemetry_channels -> has_col telemetry c = true ->
             exists share, col_share (cell_cmp cmp sop) telemetry c (Int v) = Ok share).
  { intros cmp sop c v Hc Hcol. exact (col_share_numeric cmp sop _ _ c v Hnum Hc Hcol). }
  unfold col_max, col_mean, col_min, max, mean, min.
  destruct (has_col telemetry "Speed") eqn:E1.
  2: destruct (has_col telemetry "Throttle") eqn:E2.
  1: destruct (has_col telemetry "Throttle") eqn:E2.
  all: destruct (has_col telemetry "Brake") eqn:E3.
  all: destruct (has_col telemetry "nGear") eqn:E4.
  all: destruct (has_col telemetry "DRS") eqn:E5.
  all: repeat match goal with
         | E : has_col _ ?c = true |- _ =>
             let Hm := fresh "Hm" in
             pose proof (fun reduce => Hred reduce c ltac:(cbn; tauto) E) as Hm;
             let Hs := fresh "Hs" in
             pose proof (fun cmp sop v => Hshare cmp sop c v ltac:(cbn; tauto) E) as Hs;
             clear E
         end.
  all: repeat match goal with
         | Hm : forall reduce, _ = Ok _ |- _ =>
             rewrite !Hm; clear Hm
         end.
  all: cbn [bind].
  all: unfold cell_geb, cell_gtb.
  all: repeat match goal with
         | Hs : forall cmp sop v, exists share, col_share _ _ ?c _ = Ok _
           |- context [col_share (cell_cmp ?cmp ?sop) _ ?c (Int ?v)] =>
             let share := fresh "share" in
             let E := fresh "E" in
             destruct (Hs cmp sop v) as [share E]; rewrite E; cbn [bind]
         end.
  all: eexists; split; reflexivity.
Qed.

Lemma telemetry_features_by_channel_witness :
  exists f,
    compute_telemetry_features Samples.telemetry_run = Ok f
    /\ keys f = [ "max_speed"; "avg_speed"; "min_speed"; "avg_throttle";
                  "full_throttle_pct"; "brake_usage_pct"; "heavy_brake_pct";
                  "avg_gear" ].
Proof.
  apply (telemetry_features_by_channel Samples.telemetry_run).
  repeat (apply List.Forall_cons;
          [repeat (apply List.Forall_cons; [reflexivity|]); apply List.Forall_nil|]).
  apply List.Forall_nil.
Defined.

(* ===================================================================== *)
(** * Splits and validation                                                *)
(* ===================================================================== *)

Lemma cell_eqb_Int_same (c : cell) (s s' : Z) :
  cell_eqb c (Int s) = true -> cell_eqb c (Int s') = true -> s = s'.
Proof.
  unfold cell_eqb. destruct c as [|z|q|t|b|q]; cbn; try discriminate;
    unfold Qeqb; intros H H'; apply Qeq_bool_iff in H; apply Qeq_bool_iff in H';
    apply inject_Z_injective; rewrite <- H, <- H'; reflexivity.
Qed.

Lemma isin_exists (c : cell) (values : list Z) :
  isin c values = true <-> exists s, In s values /\ cell_eqb c (Int s) = true.
Proof. unfold isin. apply existsb_exists. Qed.

(** X18.  [season_split] puts a row in the training table exactly when
    its season is one of the training seasons, and likewise for the test
    table.  When no season is in both lists, no row is in both tables; a row
    whose season is in both lists is in both tables. *)
Theorem season_split_disjoint :
  forall (df : DataFrame) (train_seasons test_seasons : list Z)
         (season_column : string) (train_df test_df : DataFrame),
    season_split df train_seasons test_seasons season_column = Ok (train_df, test_df) ->
    (forall r, In r (rows train_df)
               <-> In r (rows df)
                   /\ exists s, In s train_seasons
                                /\ cell_eqb (at_ r season_column) (Int s) = true)
    /\ (forall r, In r (rows test_df)
                  <-> In r (rows df)
                      /\ exists s, In s test_seasons
                                   /\ cell_eqb (at_ r season_column) (Int s) = true)
    /\ ((forall s, In s train_seasons -> ~ In s test_seasons) ->
        forall r, In r (rows train_df) -> ~ In r (rows test_df))
    /\ (forall r s, In r (rows df) ->
                    cell_eqb (at_ r season_column) (Int s) = true ->
                    In s train_seasons -> In s test_seasons ->
                    In r (rows train_df) /\ In r (rows test_df)).
Proof.
  intros df train_seasons test_seasons c train_df test_df H.
  unfold season_split, where_isin in H. destruct (has_col df c); [|discriminate H].
  cbn [bind] in H. injection H as <- <-. cbn [rows].
  assert (Hin : forall values r,
             In r (List.filter (fun r => isin (at_ r c) values) (rows df))
             <-> In r (rows df)
                 /\ exists s, In s values /\ cell_eqb (at_ r c) (Int s) = true).
  { intros values r. rewrite filter_In, isin_exists. reflexivity. }
  split; [apply Hin|]. split; [apply Hin|]. split.
  - intros Hdis r Htrain Htest.
    apply Hin in Htrain as (_ & s & Hs & Es). apply Hin in Htest as (_ & s' & Hs' & Es').
    rewrite (cell_eqb_Int_same _ _ _ Es Es') in Hs. exact (Hdis _ Hs Hs').
  - intros r s Hr Es Htrain Htest. split; apply Hin; eauto.
Qed.

Lemma season_split_disjoint_witness :
  exists train_df test_df,
    season_split Samples.season_2023 [ 2022; 2023 ] [ 2024 ] "Season"
    = Ok (train_df, test_df)
    /\ forall r, In r (rows train_df) -> ~ In r (rows test_df).
Proof.
  destruct (season_split Samples.season_2023 [ 2022; 2023 ] [ 2024 ] "Season")
    as [[train_df test_df]|e] eqn:E; [|vm_compute in E; discriminate E].
  destruct (season_split_disjoint _ _ _ _ _ _ E) as (_ & _ & H & _).
  exists train_df, test_df. split; [reflexivity|]. apply H.
  intros s [<-|[<-|[]]] [E'|[]]; discriminate E'.
Defined.

(** ** The verdict of [validate_data] *)

Lemma high_null_tenth (n nulls : Z) : high_null n nulls = true <-> n < 10 * nulls.
Proof.
  unfold high_null, Qltb. rewrite negb_true_iff.
  destruct (Qle_bool (inject_Z nulls) (inject_Z n * (1 # 10))) eqn:E.
  - apply Qle_bool_iff in E. unfold Qle in E. cbn in E. split; [discriminate | lia].
  - split; [intros _|reflexivity].
    destruct (Z_lt_le_dec n (10 * nulls)) as [Hlt|Hge]; [exact Hlt|].
    assert (Hle : (inject_Z nulls <= inject_Z n * (1 # 10))%Q)
      by (unfold Qle; cbn; lia).
    apply Qle_bool_iff in Hle. congruence.
Qed.

(** X19.  The report of [validate_data] is valid exactly when the table
    has at least [min_rows] rows and every required column; it has no error
    message exactly when it is valid; warnings never change the verdict.  A
    warning is issued exactly when some column has more than a tenth of its
    cells missing, so never for a table without rows. *)
Theorem validate_data_verdict :
  forall (df : DataFrame) (required_columns : list string) (min_rows : Z),
    let report := validate_data df required_columns min_rows in
    (is_valid report = true
     <-> min_rows <= len df /\ forallb (has_col df) required_columns = true)
    /\ (errors report = [] <-> is_valid report = true)
    /\ (warnings report = []
        <-> forall c, In c (columns df) ->
                      10 * null_count (map (fun r => at_ r c) (rows df)) <= len df)
    /\ (rows df = [] -> warnings report = []).
Proof.
  intros df required_columns min_rows. cbn zeta. unfold validate_data.
  set (missing := List.filter (fun c => negb (has_col df c)) required_columns).
  set (nulls := map (fun c => (c, null_count (map (fun r => at_ r c) (rows df))))
                    (columns df)).
  set (high := map fst (List.filter (fun cn => high_null (len df) (snd cn)) nulls)).
  assert (Hmissing : is_nil missing = true <-> forallb (has_col df) required_columns = true).
  { unfold missing. clear. induction required_columns as [|c cs IH]; cbn; [tauto|].
    destruct (has_col df c); cbn; [exact IH|]. split; discriminate. }
  assert (Hhigh : is_nil high = true
                  <-> forall c, In c (columns df) ->
                        10 * null_count (map (fun r => at_ r c) (rows df)) <= len df).
  { unfold high, nulls. clear. induction (columns df) as [|c cs IH]; cbn.
    - split; [intros _ c [] | reflexivity].
    - destruct (high_null _ _) eqn:E; cbn.
      + apply high_null_tenth in E. split; [discriminate|].
        intros H. specialize (H c (or_introl eq_refl)). lia.
      + rewrite IH. split.
        * intros H x [Hx|Hx]; [subst x|apply H, Hx].
          destruct (Z_lt_le_dec (len df)
                      (10 * null_count (map (fun r => at_ r c) (rows df))))
            as [Hlt|Hle]; [|exact Hle].
          apply high_null_tenth in Hlt. congruence.
        * intros H x Hx. apply H. right. exact Hx. }
  set (out := mkReport _ _ _ _ _ _).
  assert (Hv : is_valid out = negb (len df <? min_rows) && is_nil missing).
  { unfold out. cbn [is_valid].
    destruct (len df <? min_rows), (is_nil missing), (is_nil high); reflexivity. }
  assert (He : errors out
               = (if len df <? min_rows then [Insufficient_data (len df) min_rows] else [])
                 ++ (if is_nil missing then [] else [Missing_columns missing])).
  { unfold out. cbn [errors].
    destruct (len df <? min_rows), (is_nil missing), (is_nil high); reflexivity. }
  assert (Hw : warnings out
               = if is_nil high then [] else [High_null_percentage high]).
  { unfold out. cbn [warnings].
    destruct (len df <? min_rows), (is_nil missing), (is_nil high); reflexivity. }
  rewrite Hv, He, Hw. clear Hv He Hw out.
  split; [|split; [|split]].
  - rewrite andb_true_iff, negb_true_iff, Z.ltb_ge, Hmissing. reflexivity.
  - destruct (len df <? min_rows), (is_nil missing); cbn;
      split; intros H; try reflexivity; discriminate H.
  - rewrite <- Hhigh. destruct (is_nil high); split; intros H;
      try reflexivity; discriminate H.
  - intros Hnil.
    assert (Hall : is_nil high = true).
    { apply Hhigh. intros c _. unfold null_count, len. rewrite Hnil. cbn. lia. }
    rewrite Hall. reflexivity.
Qed.

(** ** The chronological split *)

Lemma sortable_of_kind (l : list cell) :
  sortable l = true -> exists n, Forall (of_kind n) l.
Proof.
  unfold sortable.
  assert (H : forall k, homogeneous_from k l = true ->
                        exists n, (k = None \/ k = Some n) /\ Forall (of_kind n) l).
  { induction l as [|c l IH]; intros k Hk.
    - destruct k as [n|]; [exists n | exists 0%nat]; split; auto; constructor.
    - cbn in Hk. destruct (kind_of c) as [m|] eqn:Ec.
      + destruct k as [n|].
        * apply andb_true_iff in Hk as [Hmn Hk]. apply Nat.eqb_eq in Hmn. subst m.
          destruct (IH _ Hk) as (n' & [E|E] & Hall); [discriminate E|].
          injection E as <-. exists n. split; [auto|].
          constructor; [right; exact Ec | exact Hall].
        * destruct (IH _ Hk) as (n' & [E|E] & Hall); [discriminate E|].
          injection E as <-. exists m. split; [auto|].
          constructor; [right; exact Ec | exact Hall].
      + destruct (IH _ Hk) as (n & Hn & Hall). exists n. split; [exact Hn|].
        constructor; [left; exact Ec | exact Hall]. }
  intros Hs. destruct (H None Hs) as (n & _ & Hall). eauto.
Qed.

Lemma Qleb_total p q : Qleb p q = false -> Qleb q p = true.
Proof.
  unfold Qleb. intros H. apply Qle_bool_iff.
  apply Qlt_le_weak, Qnot_le_lt. intros Hle. apply Qle_bool_iff in Hle. congruence.
Qed.

Lemma Qleb_trans p q r : Qleb p q = true -> Qleb q r = true -> Qleb p r = true.
Proof.
  unfold Qleb. intros H1 H2. apply Qle_bool_iff in H1. apply Qle_bool_iff in H2.
  apply Qle_bool_iff. eapply Qle_trans; eassumption.
Qed.

Lemma string_leb_total s t : String.leb s t = false -> String.leb t s = true.
Proof. intros H. destruct (String.leb_total s t); congruence. Qed.

Ltac kind_cases :=
  repeat match goal with
         | H : of_kind _ _ |- _ => destruct H as [H|H]; cbn in H; try discriminate H
         end.

Lemma key_leb_total n a b :
  of_kind n a -> of_kind n b -> key_leb a b = false -> key_leb b a = true.
Proof.
  intros Ha Hb.
  destruct a, b; kind_cases; cbn; intros H; try reflexivity; try discriminate H;
    try (apply Qleb_total; exact H); try (apply string_leb_total; exact H);
    congruence.
Qed.

Lemma key_leb_trans n a b c :
  of_kind n a -> of_kind n b -> of_kind n c ->
  key_leb a b = true -> key_leb b c = true -> key_leb a c = true.
Proof.
  intros Ha Hb Hc.
  destruct a, b, c; kind_cases; cbn; intros H1 H2;
    try reflexivity; try discriminate H1; try discriminate H2;
    try (eapply Qleb_trans; eassumption);
    try (eapply string_leb_trans; eassumption);
    congruence.
Qed.

Lemma StronglySorted_app_inv {A} (R : A -> A -> Prop) (l1 l2 : list A) :
  StronglySorted R (l1 ++ l2) ->
  forall a b, In a l1 -> In b l2 -> R a b.
Proof.
  induction l1 as [|x l1 IH]; cbn; intros H a b Ha Hb; [destruct Ha|].
  inversion H as [|? ? Hs Hall]; subst. destruct Ha as [<-|Ha].
  - rewrite List.Forall_forall in Hall. apply Hall, in_or_app. right. exact Hb.
  - eapply IH; eassumption.
Qed.

(** X20.  [time_series_split] cuts the table sorted by date in two: the
    two parts together are the rows of the input, and no row of the training
    part is dated after a row of the test part, whatever the index the test
    size gives. *)
Theorem time_series_split_chronological :
  forall (split_index : Z -> result Z) (df : DataFrame) (date_column : string)
         (train_df test_df : DataFrame),
    time_series_split split_index df date_column = Ok (train_df, test_df) ->
    Permutation (rows train_df ++ rows test_df) (rows df)
    /\ (forall a b, In a (rows train_df) -> In b (rows test_df) ->
                    not_after date_column a b)
    /\ columns train_df = columns df
    /\ columns test_df = columns df.
Proof.
  intros split_index df c train_df test_df H.
  unfold time_series_split in H. bind_inv. injection H as <- <-.
  unfold sort_values in Ha. bind_inv.
  destruct (sortable a1) eqn:Hs; [|discriminate Ha]. injection Ha as <-.
  unfold col in Ha1. destruct (has_col df c); [|discriminate Ha1]. injection Ha1 as <-.
  destruct (sortable_of_kind _ Hs) as [n Hkind].
  cbn [rows columns iloc_to iloc_from].
  set (le := fun a b : Row => key_leb (at_ a c) (at_ b c)).
  set (sorted := sort_by le (rows df)).
  set (k := slice_stop (length sorted) a0).
  split; [rewrite firstn_skipn; apply sort_by_Permutation|].
  split; [|split; reflexivity].
  intros x y Hx Hy.
  set (R := fun a b : Row => of_kind n (at_ a c) /\ of_kind n (at_ b c)
                             /\ key_leb (at_ a c) (at_ b c) = true).
  assert (Hsorted : StronglySorted R sorted).
  { apply (sort_by_sorted le (fun r => of_kind n (at_ r c)) R).
    - intros a b Pa Pb Hab. repeat split; assumption.
    - intros a b Pa Pb Hab. repeat split; try assumption.
      eapply key_leb_total; eassumption.
    - intros x1 x2 x3 (P1 & P2 & H12) (_ & P3 & H23). repeat split; try assumption.
      eapply key_leb_trans; [exact P1 | exact P2 | exact P3 | exact H12 | exact H23].
    - apply (proj1 (List.Forall_map _ _ _)) in Hkind. exact Hkind. }
  rewrite <- (firstn_skipn k sorted) in Hsorted.
  destruct (StronglySorted_app_inv R _ _ Hsorted x y Hx Hy) as (_ & _ & Hle).
  exact Hle.
Qed.

Lemma time_series_split_chronological_witness :
  exists train_df test_df,
    time_series_split (exact_split (1 # 4)) Samples.season_2023 "Date"
    = Ok (train_df, test_df)
    /\ map label (rows train_df) = [ 0; 1; 2; 3; 4; 5 ]
    /\ (forall a b, In a (rows train_df) -> In b (rows test_df) -> not_after "Date" a b).
Proof.
  destruct (time_series_split (exact_split (1 # 4)) Samples.season_2023 "Date")
    as [[train_df test_df]|e] eqn:E; [|vm_compute in E; discriminate E].
  destruct (time_series_split_chronological _ _ _ _ _ E) as (_ & H & _).
  exists train_df, test_df. split; [reflexivity|]. split; [|exact H].
  vm_compute in E. injection E as <- <-. reflexivity.
Defined.

(* ===================================================================== *)
(** * Processed race results                                               *)
(* ===================================================================== *)

Lemma at_upd_eq c f r : at_ (upd c f r) c = f r.
Proof. unfold at_, upd. cbn [cells]. rewrite assoc_dict_set_eq. reflexivity. Qed.

Lemma at_upd_ne c c' f r : c' <> c -> at_ (upd c f r) c' = at_ r c'.
Proof.
  intros H. unfold at_, upd. cbn [cells].
  pose proof (dict_get_set_ne c' c (f r) (cells r) H) as E. unfold dict_get in E.
  rewrite E. reflexivity.
Qed.

Lemma assign_col_rows df c f : rows (assign_col df c f) = map (upd c f) (rows df).
Proof.
  unfold assign_col, set_col. cbn [rows].
  rewrite (map_combine_map (fun r v => mkRow (label r) (dict_set c v (cells r))) f).
  reflexivity.
Qed.

Lemma has_col_assign_col df c f c' :
  has_col (assign_col df c f) c' = has_col df c' || String.eqb c' c.
Proof.
  unfold assign_col, set_col, has_col. cbn [columns].
  destruct (existsb (String.eqb c) (columns df)) eqn:E.
  - destruct (String.eqb c' c) eqn:E'; [|rewrite orb_false_r; reflexivity].
    apply String.eqb_eq in E'. subst. rewrite E. reflexivity.
  - rewrite existsb_app. cbn. rewrite orb_false_r. reflexivity.
Qed.

Lemma to_numeric_numeric coerce c :
  coerces_to_numbers coerce -> numeric_or_missing (to_numeric coerce c) = true.
Proof. intros H. destruct c; cbn; try reflexivity; apply H. Qed.

Lemma cell_sub_numeric a b :
  numeric_or_missing a = true -> numeric_or_missing b = true ->
  cell_sub a b = Ok (difference a b) /\ numeric_or_missing (difference a b) = true.
Proof.
  unfold difference.
  destruct a, b; cbn; intros Ha Hb; try discriminate Ha; try discriminate Hb;
    split; reflexivity.
Qed.

(** The table [process_race_results] returns, row by row. *)
Lemma process_race_results_rows coerce results :
  coerces_to_numbers coerce ->
  forallb (has_col results) [ "Position"; "GridPosition"; "Status"; "Points" ] = true ->
  exists out,
    process_race_results coerce results = Ok out
    /\ rows out = map (processed_row coerce) (rows results)
    /\ columns out
       = with_column "IsDNF"
           (with_column "IsFinished" (with_column "PositionsGained" (columns results)))
    /\ forall c, has_col out c
                 = has_col results c
                   || has_key c [ "PositionsGained"; "IsFinished"; "IsDNF" ].
Proof.
  intros Hco Hcols. cbn [forallb] in Hcols. rewrite !andb_true_iff in Hcols.
  destruct Hcols as (Hp & Hg & Hs & Hpts & _).
  unfold process_race_results. rewrite Hp.
  set (df1 := assign_col results "Position" _).
  assert (H1g : has_col df1 "GridPosition" = true)
    by (unfold df1; rewrite has_col_assign_col, Hg; reflexivity).
  rewrite H1g.
  set (df2 := assign_col df1 "GridPosition" _).
  assert (H2p : has_col df2 "Position" = true).
  { unfold df2, df1. rewrite !has_col_assign_col, Hp. reflexivity. }
  assert (H2g : has_col df2 "GridPosition" = true).
  { unfold df2. rewrite has_col_assign_col, H1g. reflexivity. }
  rewrite H2p, H2g. cbn [andb].
  assert (Hrows2 : rows df2
                   = map (fun r => upd "GridPosition"
                                     (fun r => to_numeric coerce (at_ r "GridPosition"))
                                     (upd "Position"
                                        (fun r => to_numeric coerce (at_ r "Position")) r))
                         (rows results)).
  { unfold df2, df1. rewrite !assign_col_rows, map_map. reflexivity. }
  rewrite (mapM_Ok_map _ (fun r => difference (at_ r "GridPosition") (at_ r "Position"))).
  2:{ rewrite Hrows2. apply (proj2 (List.Forall_map _ _ _)).
      apply List.Forall_forall. intros r _. cbn beta.
      apply cell_sub_numeric.
      - rewrite at_upd_eq. apply to_numeric_numeric, Hco.
      - rewrite at_upd_ne by discriminate. rewrite at_upd_eq.
        apply to_numeric_numeric, Hco. }
  cbn [bind].
  change (set_col df2 "PositionsGained"
            (map (fun r => difference (at_ r "GridPosition") (at_ r "Position")) (rows df2)))
    with (assign_col df2 "PositionsGained"
            (fun r => difference (at_ r "GridPosition") (at_ r "Position"))).
  set (df3 := assign_col df2 "PositionsGained" _).
  assert (H3s : has_col df3 "Status" = true).
  { unfold df3, df2, df1. rewrite !has_col_assign_col, Hs. reflexivity. }
  rewrite H3s.
  set (df4 := assign_col df3 "IsFinished" _).
  rewrite (mapM_Ok_map _ (fun r => Bool (negb (finished r)))).
  2:{ unfold df4. rewrite assign_col_rows. apply (proj2 (List.Forall_map _ _ _)).
      apply List.Forall_forall. intros r _. cbn beta.
      rewrite at_upd_eq. unfold finished.
      rewrite at_upd_ne by discriminate. reflexivity. }
  cbn [bind].
  change (set_col df4 "IsDNF" (map (fun r => Bool (negb (finished r))) (rows df4)))
    with (assign_col df4 "IsDNF" (fun r => Bool (negb (finished r)))).
  set (df5 := assign_col df4 "IsDNF" _).
  assert (H5 : has_col df5 "Points" = true).
  { unfold df5, df4, df3, df2, df1. rewrite !has_col_assign_col, Hpts. reflexivity. }
  rewrite H5. eexists. split; [reflexivity|]. split; [|split].
  - unfold df5, df4, df3, df2, df1. rewrite !assign_col_rows, !map_map. reflexivity.
  - assert (Hc : forall df c f,
               columns (assign_col df c f) = with_column c (columns df)).
    { intros df c f. reflexivity. }
    assert (Hsame : forall df c f, has_col df c = true ->
                                   columns (assign_col df c f) = columns df).
    { intros df c f E. rewrite Hc. unfold with_column, has_key.
      unfold has_col in E. rewrite E. reflexivity. }
    rewrite (Hsame df5 "Points") by exact H5.
    unfold df5. rewrite Hc. unfold df4. rewrite Hc. unfold df3. rewrite Hc.
    unfold df2. rewrite (Hsame df1 "GridPosition") by exact H1g.
    unfold df1. rewrite (Hsame results "Position") by exact Hp. reflexivity.
  - intros c. unfold df5, df4, df3, df2, df1. rewrite !has_col_assign_col.
    unfold has_key. cbn [existsb].
    destruct (String.eqb c "Position") eqn:E1;
      [apply String.eqb_eq in E1; subst c; rewrite Hp; reflexivity|].
    destruct (String.eqb c "GridPosition") eqn:E2;
      [apply String.eqb_eq in E2; subst c; rewrite Hg; reflexivity|].
    destruct (String.eqb c "Points") eqn:E3;
      [apply String.eqb_eq in E3; subst c; rewrite Hpts; reflexivity|].
    destruct (has_col results c), (String.eqb c "PositionsGained"),
      (String.eqb c "IsFinished"), (String.eqb c "IsDNF"); reflexivity.
Qed.

Lemma processed_row_at coerce r :
  coerces_to_numbers coerce ->
  let r' := processed_row coerce r in
  label r' = label r
  /\ at_ r' "Position" = to_numeric coerce (at_ r "Position")
  /\ at_ r' "GridPosition" = to_numeric coerce (at_ r "GridPosition")
  /\ at_ r' "PositionsGained"
     = difference (to_numeric coerce (at_ r "GridPosition"))
                  (to_numeric coerce (at_ r "Position"))
  /\ at_ r' "IsFinished" = Bool (finished r)
  /\ at_ r' "IsDNF" = Bool (negb (finished r))
  /\ at_ r' "Points" = fillna0 (to_numeric coerce (at_ r "Points"))
  /\ forall c, ~ In c processed_columns -> at_ r' c = at_ r c.
Proof.
  intros Hco. cbn zeta. unfold processed_row.
  assert (Hfin : forall c f x, c <> "Status" -> finished (upd c f x) = finished x).
  { intros c f x Hc. unfold finished. rewrite at_upd_ne by congruence. reflexivity. }
  split; [reflexivity|].
  repeat split;
    repeat first [ rewrite at_upd_eq | rewrite at_upd_ne by discriminate
                 | rewrite Hfin by discriminate ];
    try reflexivity.
  intros c Hc. cbn in Hc.
  repeat (rewrite at_upd_ne by (intros ->; apply Hc; tauto)). reflexivity.
Qed.

(** X21.  On a table with the columns [Position], [GridPosition],
    [Status] and [Points], [process_race_results] keeps the rows and their
    labels and changes six cells per row: positions and points become
    numbers, points are never missing, [PositionsGained] is the grid
    position minus the finishing position, and [IsDNF] is the negation of
    [IsFinished], so that a row without a status counts as a retirement. *)
Theorem processed_results_by_row :
  forall (coerce : cell -> cell) (results : DataFrame),
    coerces_to_numbers coerce ->
    forallb (has_col results) [ "Position"; "GridPosition"; "Status"; "Points" ] = true ->
    exists out,
      process_race_results coerce results = Ok out
      /\ map label (rows out) = map label (rows results)
      /\ Forall2
           (fun r r' =>
              numeric_or_missing (at_ r' "Position") = true
              /\ numeric_or_missing (at_ r' "GridPosition") = true
              /\ numeric_or_missing (at_ r' "Points") = true
              /\ notna (at_ r' "Points") = true
              /\ cell_sub (at_ r' "GridPosition") (at_ r' "Position")
                 = Ok (at_ r' "PositionsGained")
              /\ at_ r' "IsFinished" = Bool (finished r)
              /\ at_ r' "IsDNF" = Bool (negb (finished r))
              /\ (at_ r "Status" = NaN -> at_ r' "IsDNF" = Bool true)
              /\ forall c, ~ In c processed_columns -> at_ r' c = at_ r c)
           (rows results) (rows out).
Proof.
  intros coerce results Hco Hcols.
  destruct (process_race_results_rows coerce results Hco Hcols)
    as (out & Hout & Hrows & _).
  exists out. split; [exact Hout|]. rewrite Hrows. split.
  - rewrite map_map. apply map_ext. intros r. reflexivity.
  - clear Hrows Hcols. induction (rows results) as [|r l IH]; cbn [map];
      constructor; [|exact IH].
    destruct (processed_row_at coerce r Hco)
      as (_ & Hp & Hg & Hpg & Hf & Hd & Hpts & Hother).
    rewrite Hp, Hg, Hpg, Hf, Hd, Hpts.
    pose proof (to_numeric_numeric coerce (at_ r "Position") Hco) as Np.
    pose proof (to_numeric_numeric coerce (at_ r "GridPosition") Hco) as Ng.
    pose proof (to_numeric_numeric coerce (at_ r "Points") Hco) as Npts.
    repeat split; try assumption.
    + destruct (to_numeric coerce (at_ r "Points")); try discriminate Npts; reflexivity.
    + destruct (to_numeric coerce (at_ r "Points")); try discriminate Npts; reflexivity.
    + apply cell_sub_numeric; assumption.
    + intros E. unfold finished. rewrite E. reflexivity.
Qed.

Lemma processed_results_by_row_witness :
  exists out,
    process_race_results coerce_nothing Samples.raw_results = Ok out
    /\ map (fun r => at_ r "Position") (rows out) = [ Num 1; NaN; Num 3 ]
    /\ map (fun r => at_ r "Points") (rows out) = [ Num 25; Int 0; Num 15 ]
    /\ map (fun r => at_ r "IsDNF") (rows out) = [ Bool false; Bool true; Bool true ].
Proof.
  destruct (processed_results_by_row coerce_nothing Samples.raw_results)
    as (out & Hout & _ & _).
  - intros c. reflexivity.
  - reflexivity.
  - exists out. split; [exact Hout|].
    vm_compute in Hout. injection Hout as <-. repeat split; reflexivity.
Defined.

(** X22.  A table that names a driver in every row, has timestamps for
    dates and the columns [Position], [GridPosition], [Status] and [Points]
    is fit for [compute_driver_stats] once [process_race_results] has run,
    whatever its positions and points held: the rolling statistics are
    computed, one row per record. *)
Theorem processed_results_feed_driver_stats :
  forall (include_groups : bool) (coerce : cell -> cell) (results : DataFrame)
         (window : Z),
    coerces_to_numbers coerce ->
    forallb (has_col results)
      [ "Abbreviation"; "Date"; "Position"; "GridPosition"; "Status"; "Points" ] = true ->
    Forall (fun r => exists s, at_ r "Abbreviation" = Str s) (rows results) ->
    Forall (fun r => date_or_missing (at_ r "Date") = true) (rows results) ->
    1 <= window ->
    exists processed out,
      process_race_results coerce results = Ok processed
      /\ clean_results processed
      /\ compute_driver_stats include_groups processed window = Ok out
      /\ length (rows out) = length (rows results).
Proof.
  intros include_groups coerce results window Hco Hcols Hdrv Hdates Hw.
  cbn [forallb] in Hcols. rewrite !andb_true_iff in Hcols.
  destruct Hcols as (Ha & Hd & Hp & Hg & Hs & Hpts & _).
  destruct (process_race_results_rows coerce results Hco)
    as (processed & Hout & Hrows & _ & Hhas).
  { cbn [forallb]. rewrite Hp, Hg, Hs, Hpts. reflexivity. }
  assert (Hclean : clean_results processed).
  { constructor.
    - cbn [forallb]. rewrite !Hhas, Ha, Hd, Hp, Hg, Hpts. reflexivity.
    - rewrite Hrows. apply (proj2 (List.Forall_map _ _ _)).
      eapply List.Forall_impl; [|exact Hdrv]. cbn beta. intros r [s Hr]. exists s.
      destruct (processed_row_at coerce r Hco) as (_ & _ & _ & _ & _ & _ & _ & Hother).
      rewrite Hother; [exact Hr|]. cbn. intuition discriminate.
    - rewrite Hrows. apply (proj2 (List.Forall_map _ _ _)).
      eapply List.Forall_impl; [|exact Hdates]. cbn beta. intros r Hr.
      destruct (processed_row_at coerce r Hco) as (_ & _ & _ & _ & _ & _ & _ & Hother).
      rewrite Hother; [exact Hr|]. cbn. intuition discriminate.
    - rewrite Hrows. apply (proj2 (List.Forall_map _ _ _)).
      apply List.Forall_forall. intros r _. cbn beta.
      destruct (processed_row_at coerce r Hco)
        as (_ & Ep & Eg & _ & _ & Ed & Epts & _).
      repeat (apply List.Forall_cons); [| | | |apply List.Forall_nil].
      + rewrite Ep. apply to_numeric_numeric, Hco.
      + rewrite Eg. apply to_numeric_numeric, Hco.
      + rewrite Epts.
        pose proof (to_numeric_numeric coerce (at_ r "Points") Hco) as N.
        destruct (to_numeric coerce (at_ r "Points")); try discriminate N; reflexivity.
      + rewrite Ed. reflexivity. }
  destruct (compute_driver_stats_returns include_groups processed window Hw Hclean)
    as (out & Hstats & Hlen).
  exists processed, out. split; [exact Hout|]. split; [exact Hclean|].
  split; [exact Hstats|].
  rewrite Hlen, Hrows, length_map. reflexivity.
Qed.

Lemma processed_results_feed_driver_stats_witness :
  exists processed out,
    process_race_results coerce_nothing Samples.raw_results = Ok processed
    /\ clean_results processed
    /\ compute_driver_stats true processed 5 = Ok out
    /\ length (rows out) = 3%nat.
Proof.
  apply (processed_results_feed_driver_stats true coerce_nothing Samples.raw_results 5).
  - intros c. reflexivity.
  - reflexivity.
  - repeat (apply List.Forall_cons; [eexists; reflexivity|]). apply List.Forall_nil.
  - repeat (apply List.Forall_cons; [reflexivity|]). apply List.Forall_nil.
  - lia.
Defined.

(** ** Processing twice *)

Lemma dict_set_same k v (d : dict) : assoc k d = Some v -> dict_set k v d = d.
Proof.
  induction d as [|[k' v'] d IH]; cbn; [discriminate|].
  destruct (String.eqb k k') eqn:E.
  - apply String.eqb_eq in E. subst. intros H. injection H as ->. reflexivity.
  - intros H. rewrite IH by exact H. reflexivity.
Qed.

Lemma upd_same c f r : assoc c (cells r) = Some (f r) -> upd c f r = r.
Proof. intros H. unfold upd. rewrite (dict_set_same _ _ _ H). destruct r; reflexivity. Qed.

Lemma assoc_upd_eq c f r : assoc c (cells (upd c f r)) = Some (f r).
Proof. apply assoc_dict_set_eq. Qed.

Lemma assoc_upd_ne c c' f r : c' <> c -> assoc c' (cells (upd c f r)) = assoc c' (cells r).
Proof. intros H. exact (dict_get_set_ne c' c (f r) (cells r) H). Qed.

Lemma to_numeric_idempotent coerce c :
  coerces_to_numbers coerce ->
  to_numeric coerce (to_numeric coerce c) = to_numeric coerce c.
Proof.
  intros H. pose proof (to_numeric_numeric coerce c H) as N.
  destruct (to_numeric coerce c); try discriminate N; reflexivity.
Qed.

Lemma processed_row_idempotent coerce r :
  coerces_to_numbers coerce ->
  processed_row coerce (processed_row coerce r) = processed_row coerce r.
Proof.
  intros Hco.
  destruct (processed_row_at coerce r Hco) as (_ & Hp & Hg & Hpg & Hf & Hd & Hpts & Hother).
  cbn zeta in *.
  assert (Hstatus : finished (processed_row coerce r) = finished r).
  { unfold finished. rewrite Hother; [reflexivity|]. cbn. intuition discriminate. }
  set (r' := processed_row coerce r) in *.
  assert (Ap : assoc "Position" (cells r') = Some (to_numeric coerce (at_ r "Position"))).
  { unfold r', processed_row. rewrite !assoc_upd_ne by discriminate. apply assoc_upd_eq. }
  assert (Ag : assoc "GridPosition" (cells r')
               = Some (to_numeric coerce (at_ r "GridPosition"))).
  { unfold r', processed_row. rewrite !assoc_upd_ne by discriminate.
    rewrite assoc_upd_eq. rewrite at_upd_ne by discriminate. reflexivity. }
  assert (Apg : assoc "PositionsGained" (cells r') = Some (at_ r' "PositionsGained")).
  { unfold at_. unfold r', processed_row. rewrite !assoc_upd_ne by discriminate.
    rewrite assoc_upd_eq. reflexivity. }
  assert (Af : assoc "IsFinished" (cells r') = Some (at_ r' "IsFinished")).
  { unfold at_. unfold r', processed_row. rewrite !assoc_upd_ne by discriminate.
    rewrite assoc_upd_eq. reflexivity. }
  assert (Ad : assoc "IsDNF" (cells r') = Some (at_ r' "IsDNF")).
  { unfold at_. unfold r', processed_row. rewrite !assoc_upd_ne by discriminate.
    rewrite assoc_upd_eq. reflexivity. }
  assert (Apts : assoc "Points" (cells r') = Some (at_ r' "Points")).
  { unfold at_. unfold r', processed_row. rewrite assoc_upd_eq. reflexivity. }
  unfold processed_row at 1.
  rewrite (upd_same "Position").
  2:{ rewrite Ap, Hp, to_numeric_idempotent by exact Hco. reflexivity. }
  rewrite (upd_same "GridPosition").
  2:{ rewrite Ag, Hg, to_numeric_idempotent by exact Hco. reflexivity. }
  rewrite (upd_same "PositionsGained").
  2:{ rewrite Apg, Hpg, Hg, Hp. reflexivity. }
  rewrite (upd_same "IsFinished").
  2:{ rewrite Af, Hf, Hstatus. reflexivity. }
  rewrite (upd_same "IsDNF").
  2:{ rewrite Ad, Hd, Hstatus. reflexivity. }
  apply upd_same. rewrite Apts, Hpts.
  pose proof (to_numeric_numeric coerce (at_ r "Points") Hco) as N.
  destruct (to_numeric coerce (at_ r "Points")); try discriminate N; reflexivity.
Qed.

Lemma with_column_present c cols : has_key c cols = true -> with_column c cols = cols.
Proof. unfold with_column. intros ->. reflexivity. Qed.

(** X23.  [process_race_results] is idempotent on a table with the
    columns [Position], [GridPosition], [Status] and [Points]: processing
    its own output returns that output unchanged. *)
Theorem process_race_results_idempotent :
  forall (coerce : cell -> cell) (results out : DataFrame),
    coerces_to_numbers coerce ->
    forallb (has_col results) [ "Position"; "GridPosition"; "Status"; "Points" ] = true ->
    process_race_results coerce results = Ok out ->
    process_race_results coerce out = Ok out.
Proof.
  intros coerce results out Hco Hcols Hout.
  destruct (process_race_results_rows coerce results Hco Hcols)
    as (out' & Hout' & Hrows & _ & Hhas).
  rewrite Hout in Hout'. injection Hout' as <-.
  assert (Hcols' : forallb (has_col out)
                     [ "Position"; "GridPosition"; "Status"; "Points" ] = true).
  { cbn [forallb] in *. rewrite !andb_true_iff in Hcols.
    destruct Hcols as (Hp & Hg & Hs & Hpts & _).
    rewrite !Hhas, Hp, Hg, Hs, Hpts. reflexivity. }
  destruct (process_race_results_rows coerce out Hco Hcols')
    as (out2 & Hout2 & Hrows2 & Hcolumns2 & _).
  rewrite Hout2. f_equal. destruct out2 as [cols2 rows2], out as [cols1 rows1].
  cbn [rows columns] in *. f_equal.
  - rewrite Hcolumns2.
    assert (Hk : forall c, In c [ "PositionsGained"; "IsFinished"; "IsDNF" ] ->
                           has_key c cols1 = true).
    { intros c Hc. specialize (Hhas c). unfold has_col in Hhas. cbn [columns] in Hhas.
      unfold has_key at 1. rewrite Hhas.
      cbn in Hc. destruct Hc as [<-|[<-|[<-|[]]]]; apply orb_true_r. }
    rewrite (with_column_present "PositionsGained") by (apply Hk; cbn; tauto).
    rewrite (with_column_present "IsFinished") by (apply Hk; cbn; tauto).
    apply with_column_present, Hk. cbn. tauto.
  - rewrite Hrows2, Hrows, map_map. apply map_ext. intros r.
    apply processed_row_idempotent, Hco.
Qed.

Lemma process_race_results_idempotent_witness :
  exists out,
    process_race_results coerce_nothing Samples.raw_results = Ok out
    /\ process_race_results coerce_nothing out = Ok out.
Proof.
  destruct (process_race_results coerce_nothing Samples.raw_results) as [out|e] eqn:E;
    [|vm_compute in E; discriminate E].
  exists out. split; [reflexivity|].
  apply (process_race_results_idempotent coerce_nothing Samples.raw_results out).
  - intros c. reflexivity.
  - reflexivity.
  - exact E.
Defined.

(* ===================================================================== *)
(** * Cleaned lap times                                                    *)
(* ===================================================================== *)

Lemma select_kept (p : Row -> result bool) (l rs : list Row) :
  select p l = Ok rs ->
  Forall (fun r => p r = Ok true) rs
  /\ incl rs l /\ (length rs <= length l)%nat.
Proof.
  revert rs. induction l as [|x l IH]; cbn; intros rs H.
  - injection H as <-. split; [constructor|]. split; [intros r []|]. cbn. lia.
  - bind_inv. injection H as <-. destruct (IH _ Ha0) as (Hall & Hincl & Hlen).
    destruct a.
    + split; [constructor; assumption|]. split.
      * intros r [<-|Hr]; [left; reflexivity | right; apply Hincl, Hr].
      * cbn. lia.
    + split; [assumption|]. split; [intros r Hr; right; apply Hincl, Hr | cbn; lia].
Qed.

Lemma in_range_within lo hi r :
  in_range lo hi r = Ok true -> lap_time_within lo hi r.
Proof.
  unfold in_range, lap_time_within, cell_geb, cell_leb, cell_cmp.
  destruct (at_ r "LapTimeSeconds") as [|z|q|s|b|q]; cbn; try discriminate;
    intros H; injection H as H; apply andb_true_iff in H as [H1 H2];
    unfold Qleb in *; apply Qle_bool_iff in H1; apply Qle_bool_iff in H2; eauto.
Qed.

Lemma sector_seconds_Ok df c out :
  sector_seconds df c = Ok out -> has_col df c = false /\ out = df.
Proof.
  unfold sector_seconds. destruct (has_col df c); [discriminate|].
  intros H. injection H as <-. auto.
Qed.

Lemma where_isna_kept df c df' :
  (if has_col df c then where_isna df c else Ok df) = Ok df' ->
  incl (rows df') (rows df) /\ (length (rows df') <= length (rows df))%nat
  /\ columns df' = columns df
  /\ (has_col df c = true -> Forall (fun r => at_ r c = NaN) (rows df')).
Proof.
  intros E. unfold where_isna in E. destruct (has_col df c).
  - injection E as <-. cbn [rows columns]. repeat split.
    + intros r Hr. apply filter_In in Hr. tauto.
    + apply List.filter_length_le.
    + intros _. apply List.Forall_forall. intros r Hr. apply filter_In in Hr as [_ Hr].
      destruct (at_ r c); try discriminate Hr. reflexivity.
  - injection E as <-. repeat split; [intros r Hr; exact Hr | lia | discriminate].
Qed.

(** X24.  When [clean_lap_times] returns a table, the input had no
    [LapTime] column and no sector time column, the table has the columns
    of the input and its laps are laps of the input; when outliers are
    removed and the input has a [LapTimeSeconds] column, every lap kept has
    a lap time between the two bounds (so laps without a time are dropped);
    no kept lap has a pit-in or a pit-out time. *)
Theorem cleaned_laps_in_range :
  forall (coerce : cell -> cell) (laps out : DataFrame)
         (remove_outliers : bool) (min_lap_time max_lap_time : Q),
    clean_lap_times coerce laps remove_outliers min_lap_time max_lap_time = Ok out ->
    has_col laps "LapTime" = false
    /\ Forall (fun c => has_col laps c = false) sector_columns
    /\ columns out = columns laps
    /\ incl (rows out) (rows laps)
    /\ (length (rows out) <= length (rows laps))%nat
    /\ (remove_outliers = true ->
        has_col laps "LapTimeSeconds" = true ->
        Forall (lap_time_within min_lap_time max_lap_time) (rows out))
    /\ (has_col laps "PitInTime" = true ->
        Forall (fun r => at_ r "PitInTime" = NaN) (rows out))
    /\ (has_col laps "PitOutTime" = true ->
        Forall (fun r => at_ r "PitOutTime" = NaN) (rows out)).
Proof.
  intros coerce laps out remove lo hi H.
  unfold clean_lap_times in H.
  destruct (has_col laps "LapTime") eqn:Hlap; [discriminate H|].
  cbn [bind] in H. bind_inv.
  repeat match goal with
         | E : sector_seconds _ _ = Ok _ |- _ =>
             apply sector_seconds_Ok in E as [? ?]; subst
         end.
  match goal with
  | E : (if has_col ?d "PitOutTime" then _ else _) = Ok _ |- _ =>
      destruct (where_isna_kept _ _ _ E) as (I4 & L4 & C4 & P4)
  end.
  match goal with
  | E : (if has_col ?d "PitInTime" then _ else _) = Ok _ |- _ =>
      destruct (where_isna_kept _ _ _ E) as (I3 & L3 & C3 & P3)
  end.
  match goal with
  | E : (if remove && _ then _ else _) = Ok ?d |- _ =>
      assert (H2 : incl (rows d) (rows laps)
                   /\ (length (rows d) <= length (rows laps))%nat
                   /\ columns d = columns laps
                   /\ (remove = true -> has_col laps "LapTimeSeconds" = true ->
                       Forall (lap_time_within lo hi) (rows d)));
        [destruct (remove && has_col laps "LapTimeSeconds") eqn:Er|]
  end.
  { bind_inv. ok_inv. cbn [rows columns].
    match goal with
    | E : select _ _ = Ok _ |- _ => destruct (select_kept _ _ _ E) as (Hall & Hincl & Hlen)
    end.
    repeat split; try assumption. intros _ _.
    eapply List.Forall_impl; [|exact Hall]. intros r. apply in_range_within. }
  { ok_inv. repeat split; [intros r Hr; exact Hr | lia|].
    intros -> Hc. rewrite Hc in Er. discriminate Er. }
  destruct H2 as (I2 & L2 & C2 & R2).
  assert (Hcol : forall d c, columns d = columns laps -> has_col d c = has_col laps c).
  { intros d c E. unfold has_col. rewrite E. reflexivity. }
  split; [reflexivity|]. split.
  { repeat match goal with
           | E : has_col _ _ = false |- _ =>
               rewrite Hcol in E by congruence
           end.
    repeat (apply List.Forall_cons; [assumption|]). apply List.Forall_nil. }
  split; [congruence|].
  split; [intros r Hr; apply I2, I3, I4, Hr|].
  split; [lia|].
  split; [|split].
  - intros Hr Hc. eapply Forall_incl; [exact I4|]. eapply Forall_incl; [exact I3|].
    apply R2; assumption.
  - intros Hc. eapply Forall_incl; [exact I4|]. apply P3.
    rewrite Hcol by exact C2. exact Hc.
  - intros Hc. apply P4. rewrite Hcol by congruence. exact Hc.
Qed.

Lemma cleaned_laps_in_range_witness :
  exists out,
    clean_lap_times coerce_nothing Samples.laps_in_seconds true 60 180 = Ok out
    /\ map label (rows out) = [ 1; 2; 6 ]
    /\ Forall (lap_time_within 60 180) (rows out)
    /\ Forall (fun r => at_ r "PitInTime" = NaN) (rows out).
Proof.
  destruct (clean_lap_times coerce_nothing Samples.laps_in_seconds true 60 180)
    as [out|e] eqn:E; [|vm_compute in E; discriminate E].
  destruct (cleaned_laps_in_range _ _ _ _ _ _ E) as (_ & _ & _ & _ & _ & Hr & Hp & _).
  exists out. split; [reflexivity|]. split.
  - vm_compute in E. injection E as <-. reflexivity.
  - split; [apply Hr; reflexivity | apply Hp; reflexivity].
Defined.

(** X30.  [clean_lap_times] cannot convert durations: on every table with
    a [LapTime] column it raises [AttributeError], whatever the other
    arguments, because the dtype test it calls is not a name of pandas; on a
    table with a sector time column it never returns a table either. *)
Theorem clean_lap_times_missing_attribute :
  forall (coerce : cell -> cell) (laps : DataFrame)
         (remove_outliers : bool) (min_lap_time max_lap_time : Q),
    (has_col laps "LapTime" = true ->
     clean_lap_times coerce laps remove_outliers min_lap_time max_lap_time
     = Raise (AttributeError "is_timedelta64_any_dtype"))
    /\ (Exists (fun c => has_col laps c = true) sector_columns ->
        exists e,
          clean_lap_times coerce laps remove_outliers min_lap_time max_lap_time
          = Raise e).
Proof.
  intros coerce laps remove lo hi. split.
  - intros Hlap. unfold clean_lap_times. rewrite Hlap. reflexivity.
  - intros Hsec.
    destruct (clean_lap_times coerce laps remove lo hi) as [out|e] eqn:E; [|eauto].
    exfalso. unfold clean_lap_times in E.
    destruct (has_col laps "LapTime") eqn:Hlap; [discriminate E|].
    cbn [bind] in E. bind_inv.
    repeat match goal with
           | E : sector_seconds _ _ = Ok _ |- _ =>
               apply sector_seconds_Ok in E as [? ?]; subst
           end.
    match goal with
    | E : (if has_col ?d "PitOutTime" then _ else _) = Ok _ |- _ =>
        destruct (where_isna_kept _ _ _ E) as (_ & _ & C4 & _)
    end.
    match goal with
    | E : (if has_col ?d "PitInTime" then _ else _) = Ok _ |- _ =>
        destruct (where_isna_kept _ _ _ E) as (_ & _ & C3 & _)
    end.
    match goal with
    | E : (if remove && _ then _ else _) = Ok ?d |- _ =>
        assert (C2 : columns d = columns laps)
          by (destruct (remove && _); [bind_inv; ok_inv; reflexivity | ok_inv; reflexivity])
    end.
    assert (Hcol : forall d c, columns d = columns laps -> has_col d c = has_col laps c).
    { intros d c Ec. unfold has_col. rewrite Ec. reflexivity. }
    repeat match goal with
           | E : has_col _ _ = false |- _ => rewrite Hcol in E by congruence
           end.
    unfold sector_columns in Hsec.
    repeat match goal with
           | H : Exists _ (_ :: _) |- _ => inversion H; subst; clear H
           | H : Exists _ [] |- _ => inversion H
           end; congruence.
Qed.

Lemma clean_lap_times_missing_attribute_witness :
  clean_lap_times coerce_nothing Samples.raw_laps true 60 180
  = Raise (AttributeError "is_timedelta64_any_dtype").
Proof.
  apply (clean_lap_times_missing_attribute coerce_nothing Samples.raw_laps true 60 180).
  reflexivity.
Defined.

(* ===================================================================== *)
(** * Categorical encoding                                                 *)
(* ===================================================================== *)

Lemma sortable_strings (names : list string) : sortable (map Str names) = true.
Proof.
  apply (homogeneous_kind 1%nat); [left; reflexivity|].
  apply List.Forall_forall. intros c Hc. apply in_map_iff in Hc as (s & <- & _).
  right. reflexivity.
Qed.

Lemma index_of_strings (K : list string) (s : string) :
  In s K ->
  0 <= index_of (map Str K) (Str s) < Z.of_nat (length K)
  /\ label_decode (map Str K) (index_of (map Str K) (Str s)) = Str s.
Proof.
  unfold label_decode. induction K as [|k K IH]; cbn [map index_of]; [intros []|].
  intros Hin. change (cell_eqb (Str k) (Str s)) with (String.eqb k s).
  destruct (String.eqb k s) eqn:E.
  - apply String.eqb_eq in E. subst. cbn. split; [lia | reflexivity].
  - destruct Hin as [->|Hin]; [rewrite String.eqb_refl in E; discriminate|].
    destruct (IH Hin) as [Hr Hd]. split; [cbn [length]; lia|].
    destruct (1 + index_of (map Str K) (Str s) <? 0) eqn:Hneg;
      [apply Z.ltb_lt in Hneg; lia|].
    destruct (index_of (map Str K) (Str s) <? 0) eqn:Hneg';
      [apply Z.ltb_lt in Hneg'; lia|].
    replace (Z.to_nat (1 + index_of (map Str K) (Str s)))
      with (S (Z.to_nat (index_of (map Str K) (Str s)))) by lia.
    exact Hd.
Qed.

Lemma append_ne (c suffix : string) : suffix <> "" -> (c ++ suffix)%string <> c.
Proof.
  intros Hs. induction c as [|a c IH]; cbn [String.append]; [exact Hs|].
  intros E. injection E as E. exact (IH E).
Qed.

Lemma fill_unknown_text c :
  text_or_missing c = true -> fill_unknown c = Str (category_of c).
Proof. destruct c; cbn; intros H; try discriminate H; reflexivity. Qed.

(** X25.  Label encoding of a column of strings: missing values become
    the category "Unknown", the classes stored under the column's name are
    the distinct categories in ascending order, every code is an index into
    the classes, and decoding the code of a row gives back the category of
    the row. *)
Theorem label_encoding_round_trip :
  forall (get_dummies : DataFrame -> string -> DataFrame) (df : DataFrame)
         (enc : encoders) (c : string),
    has_col df c = true ->
    Forall (fun r => text_or_missing (at_ r c) = true) (rows df) ->
    exists out classes,
      encode_categorical get_dummies df enc [ c ] "label"
      = (Ok out, <[c := map Str classes]> enc)
      /\ StronglySorted (fun a b => String.leb a b = true) classes
      /\ List.NoDup classes
      /\ Forall2
           (fun r r' =>
              label r' = label r
              /\ at_ r' c = Str (category_of (at_ r c))
              /\ exists code,
                   at_ r' (c ++ "_encoded")%string = Int code
                   /\ 0 <= code < Z.of_nat (length classes)
                   /\ label_decode (map Str classes) code = at_ r' c)
           (rows df) (rows out).
Proof.
  intros get_dummies df enc c Hcol Htext.
  unfold encode_categorical. cbn [encode_columns]. rewrite Hcol. cbn [negb String.eqb].
  change (String.eqb "label" "label") with true. cbn iota.
  set (df1 := assign_col df c (fun r => fill_unknown (at_ r c))).
  set (names := map (fun r => category_of (at_ r c)) (rows df)).
  assert (Hvalues : map (fun r => at_ r c) (rows df1) = map Str names).
  { unfold df1, names. rewrite assign_col_rows, !map_map. apply map_ext_in.
    intros r Hr. rewrite at_upd_eq. apply fill_unknown_text.
    rewrite List.Forall_forall in Htext. apply Htext, Hr. }
  unfold label_fit_transform. rewrite Hvalues, sortable_strings, group_keys_strings.
  set (K := sort_by String.leb (dedup String.eqb names)).
  destruct (driver_keys names) as (HK1 & HK2 & HK3). fold K in HK1, HK2, HK3.
  exists (set_col df1 (c ++ "_encoded")%string
            (map Int (map (index_of (map Str K)) (map Str names)))), K.
  split; [reflexivity|]. split; [exact HK1|]. split; [exact HK2|].
  rewrite <- Hvalues, !map_map.
  change (set_col df1 (c ++ "_encoded")%string
            (map (fun r => Int (index_of (map Str K) (at_ r c))) (rows df1)))
    with (assign_col df1 (c ++ "_encoded")%string
            (fun r => Int (index_of (map Str K) (at_ r c)))).
  rewrite assign_col_rows. unfold df1. rewrite assign_col_rows, map_map.
  assert (Hall : forall r, In r (rows df) ->
             text_or_missing (at_ r c) = true /\ In (category_of (at_ r c)) K).
  { intros r Hr. rewrite List.Forall_forall in Htext. split; [apply Htext, Hr|].
    apply HK3. unfold names. exact (in_map (fun r => category_of (at_ r c)) _ r Hr). }
  clear Hvalues Htext. clearbody K. clear HK1 HK2 HK3 names df1 Hcol.
  induction (rows df) as [|r l IH]; cbn [map]; constructor.
  - destruct (Hall r (or_introl eq_refl)) as [Ht Hk].
    assert (Hc : at_ (upd (c ++ "_encoded")
                        (fun r0 => Int (index_of (map Str K) (at_ r0 c)))
                        (upd c (fun r0 => fill_unknown (at_ r0 c)) r)) c
                 = Str (category_of (at_ r c))).
    { rewrite at_upd_ne by (intros E; symmetry in E; revert E; apply append_ne; discriminate).
      rewrite at_upd_eq. apply fill_unknown_text, Ht. }
    split; [reflexivity|]. split; [exact Hc|].
    exists (index_of (map Str K) (Str (category_of (at_ r c)))).
    rewrite at_upd_eq, at_upd_eq, (fill_unknown_text _ Ht), Hc.
    split; [reflexivity|]. apply index_of_strings, Hk.
  - apply IH. intros x Hx. apply Hall. right. exact Hx.
Qed.

Lemma label_encoding_round_trip_witness :
  exists out classes,
    encode_categorical no_dummies Samples.team_results ∅ [ "TeamName" ] "label"
    = (Ok out, <["TeamName" := map Str classes]> ∅)
    /\ classes = [ "Mercedes"; "Red Bull"; "Unknown" ]
    /\ map (fun r => at_ r "TeamName_encoded") (rows out) = [ Int 1; Int 0; Int 1; Int 2 ].
Proof.
  destruct (label_encoding_round_trip no_dummies Samples.team_results ∅ "TeamName")
    as (out & classes & Hrun & _).
  - reflexivity.
  - repeat (apply List.Forall_cons; [reflexivity|]). apply List.Forall_nil.
  - exists out, [ "Mercedes"; "Red Bull"; "Unknown" ].
    assert (E : fst (encode_categorical no_dummies Samples.team_results ∅
                       [ "TeamName" ] "label") = Ok out)
      by (rewrite Hrun; reflexivity).
    vm_compute in E. injection E as <-.
    split; [|split; reflexivity].
    unfold encode_categorical. cbn [encode_columns]. reflexivity.
Defined.

Lemma sortable_mixed (l : list cell) (s : string) (c : cell) :
  In (Str s) l -> In c l -> is_number c = true -> sortable l = false.
Proof.
  intros Hs Hc Hn. destruct (sortable l) eqn:E; [|reflexivity].
  apply sortable_of_kind in E as [n Hall]. rewrite List.Forall_forall in Hall.
  destruct (Hall _ Hs) as [H1|H1]; [discriminate H1|].
  destruct (Hall _ Hc) as [H0|H0]; destruct c; cbn in Hn, H0;
    try discriminate Hn; try discriminate H0;
    cbn in H1; congruence.
Qed.

(** X26.  Label encoding of a column that holds a number and a missing
    value fails: the missing value becomes the string "Unknown", the
    column then mixes strings and numbers, the encoder raises a TypeError,
    and no encoder is registered for the column or for those after it. *)
Theorem label_encoding_numbers_with_missing :
  forall (get_dummies : DataFrame -> string -> DataFrame) (df : DataFrame)
         (enc : encoders) (c : string) (cols : list string),
    has_col df c = true ->
    Exists (fun r => at_ r c = NaN) (rows df) ->
    Exists (fun r => is_number (at_ r c) = true) (rows df) ->
    encode_categorical get_dummies df enc (c :: cols) "label"
    = (Raise TypeError, enc).
Proof.
  intros get_dummies df enc c cols Hcol Hnan Hnum.
  unfold encode_categorical. cbn [encode_columns]. rewrite Hcol. cbn [negb].
  change (String.eqb "label" "label") with true. cbn iota.
  unfold label_fit_transform.
  apply List.Exists_exists in Hnan as (r & Hr & Er).
  apply List.Exists_exists in Hnum as (r' & Hr' & Er').
  rewrite (sortable_mixed _ "Unknown" (at_ r' c)); [reflexivity|..].
  - rewrite assign_col_rows, map_map. apply in_map_iff. exists r.
    split; [|exact Hr]. rewrite at_upd_eq, Er. reflexivity.
  - rewrite assign_col_rows, map_map. apply in_map_iff. exists r'.
    split; [|exact Hr']. rewrite at_upd_eq.
    destruct (at_ r' c); cbn in Er' |- *; try discriminate Er'; reflexivity.
  - exact Er'.
Qed.

Lemma label_encoding_numbers_with_missing_witness :
  encode_categorical no_dummies Samples.team_results ∅ [ "Points"; "TeamName" ] "label"
  = (Raise TypeError, ∅).
Proof.
  apply (label_encoding_numbers_with_missing no_dummies Samples.team_results ∅
           "Points" [ "TeamName" ]).
  - reflexivity.
  - apply List.Exists_cons_tl, List.Exists_cons_hd. reflexivity.
  - apply List.Exists_cons_hd. reflexivity.
Defined.

(** X27.  Encoding a list of columns is encoding its first part and then,
    on the table and the encoders that gives, the rest; an exception while
    encoding the first part is the result, with the encoders registered
    until then. *)
Theorem encode_categorical_in_two_calls :
  forall (get_dummies : DataFrame -> string -> DataFrame) (method : string)
         (cols1 cols2 : list string) (df : DataFrame) (enc : encoders),
    encode_categorical get_dummies df enc (cols1 ++ cols2) method
    = match encode_categorical get_dummies df enc cols1 method with
      | (Ok df', enc') => encode_categorical get_dummies df' enc' cols2 method
      | (Raise e, enc') => (Raise e, enc')
      end.
Proof.
  intros get_dummies method cols1 cols2. unfold encode_categorical.
  induction cols1 as [|c cols1 IH]; intros df enc; cbn [app encode_columns];
    [reflexivity|].
  destruct (negb (has_col df c)); [apply IH|].
  destruct (String.eqb method "label").
  - destruct (label_fit_transform _) as [[classes codes]|e]; [apply IH | reflexivity].
  - destruct (String.eqb method "onehot"); [|apply IH].
    destruct (concat_columns _ _) as [df'|e]; [apply IH | reflexivity].
Qed.

(** X28.  Only the method "label" registers encoders: with any other
    method the encoders are left as they were, and with a method that is
    neither "label" nor "onehot" the table is returned as it was given. *)
Theorem encoders_only_from_label :
  forall (get_dummies : DataFrame -> string -> DataFrame) (method : string)
         (cols : list string) (df : DataFrame) (enc : encoders),
    method <> "label" ->
    snd (encode_categorical get_dummies df enc cols method) = enc
    /\ (method <> "onehot" ->
        encode_categorical get_dummies df enc cols method = (Ok df, enc)).
Proof.
  intros get_dummies method cols df enc Hlabel. unfold encode_categorical.
  apply String.eqb_neq in Hlabel. split.
  - revert df. induction cols as [|c cols IH]; intros df; cbn [encode_columns];
      [reflexivity|].
    rewrite Hlabel. destruct (negb (has_col df c)); [apply IH|].
    destruct (String.eqb method "onehot"); [|apply IH].
    destruct (concat_columns _ _) as [df'|e]; [apply IH | reflexivity].
  - intros Hone. apply String.eqb_neq in Hone.
    induction cols as [|c cols IH]; cbn [encode_columns]; [reflexivity|].
    rewrite Hlabel, Hone. destruct (negb (has_col df c)); exact IH.
Qed.

Lemma encoders_only_from_label_witness :
  snd (encode_categorical no_dummies Samples.team_results ∅ [ "TeamName" ] "onehot") = ∅
  /\ encode_categorical no_dummies Samples.team_results ∅ [ "TeamName" ] "ordinal"
     = (Ok Samples.team_results, ∅).
Proof.
  split.
  - apply (encoders_only_from_label no_dummies "onehot"). discriminate.
  - apply (encoders_only_from_label no_dummies "ordinal"); discriminate.
Defined.

(* ===================================================================== *)
(** * Driver statistics of a table without rows                            *)
(* ===================================================================== *)

(** X29.  On a table without rows [compute_driver_stats] computes no
    statistics: it returns a table without rows whose columns are those of
    the input followed by the columns pandas takes over from the input, all
    of them before pandas 3 and all but [Abbreviation] from pandas 3 on.  A
    column is in the result exactly when it is in the input, so the six
    statistics are not added. *)
Theorem driver_stats_of_no_results :
  forall (include_groups : bool) (results : DataFrame) (window : Z),
    has_col results "Abbreviation" = true ->
    has_col results "Date" = true ->
    rows results = [] ->
    exists out,
      compute_driver_stats include_groups results window = Ok out
      /\ rows out = []
      /\ columns out
         = (columns results
            ++ (if include_groups then columns results
                else List.filter (fun c => negb (String.eqb c "Abbreviation"))
                       (columns results)))%list
      /\ forall c, has_col out c = has_col results c.
Proof.
  intros include_groups results window Ha Hd Hrows.
  eexists. split; [apply compute_driver_stats_empty; assumption|].
  cbn [rows columns]. split; [reflexivity|]. split; [reflexivity|].
  intros c. unfold has_col. cbn [columns]. rewrite existsb_app.
  fold (has_key c (columns results)).
  destruct (has_key c (columns results)) eqn:E; [reflexivity|]. cbn [orb].
  fold (has_key c (applied_columns include_groups (columns results) "Abbreviation")).
  destruct (has_key c (applied_columns _ _ _)) eqn:E'; [|reflexivity].
  apply has_key_In in E'. unfold applied_columns in E'.
  destruct include_groups; [|apply filter_In in E' as [E' _]];
    apply has_key_In in E'; congruence.
Qed.

Lemma driver_stats_of_no_results_witness :
  exists out,
    compute_driver_stats false (mkDF Samples.race_columns []) 5 = Ok out
    /\ rows out = []
    /\ length (columns out) = 11%nat
    /\ has_col out "AvgFinishLast5" = false.
Proof.
  destruct (driver_stats_of_no_results false (mkDF Samples.race_columns []) 5)
    as (out & Hrun & Hrows & Hcols & Hhas); try reflexivity.
  exists out. split; [exact Hrun|]. split; [exact Hrows|]. split.
  - rewrite Hcols. reflexivity.
  - rewrite Hhas. reflexivity.
Defined.
